(* ===== verification/_CoqProject ===== *)
-Q . S2P
Prelude.v
Growbuffer.v
MemQuota.v
TlogFormat.v
Tlog.v
LogSmall.v
EarlyPrint.v
Filesys.v
LogFile.v
LogWp.v
LogRotate.v
LogHistory.v
LogDelivery.v
LogDir.v
LogControl.v
LogList.v
LogTypes.v
LogLock.v
LogSpawn.v
Posix.v
S3Api.v
Callbacks.v
Copytool.v
Paths.v
Restore.v
Chunking.v
Archive.v
Handlers.v
RequestControl.v
Startup.v
Daemon.v
Server.v
Witnesses.v
RestoreAction.v
Reports.v
