(* ===== verification/Prelude.v ===== *)
(** * Estuary: a Lustre HSM copytool for S3, verified

    Estuary is a daemon that moves files between a Lustre file system and an S3
    bucket. Lustre's coordinator sends it action items over liblustreapi; a worker
    thread per item archives the file (uploads it), restores it (downloads it) or
    removes it, and reports the end of the action back. The sources are src/src/*.c.
    This library translates them into executable definitions and proves what
    the pieces do. All names below are those of the sources where possible.

    ** How the sources are translated

    - C integers are [Z] at their width: [u64], [u32], [i32], [s64] below are the
      conversions, [+u], [-u], [*u] the 64-bit unsigned operations. A sum that cannot
      leave its range is written plainly, and the lemmas bound it.
    - A computation that may go wrong has type [outcome]: [Crash] is a failed
      assertion, an undefined access or a value that was never set, [NoFuel] a loop
      cut off. A theorem that says "[= Ret _]" therefore says that no access is
      undefined and that every loop ends.
    - Shared memory is explicit: the blocks of the byte queue lie in a store
      (Growbuffer.heap), open files in a table (Posix.files), and threads are the
      entries of a finite map in a step relation.
    - The action handlers run in a monad [Copytool.M] that threads the outside world,
      the open files, the global [err_major] and a trace of the calls that leave the
      program (requests to S3, reports to the coordinator, quota operations, close).
    - Loops carry fuel. [append_loop] has the number of bytes to append, of which
      each round stores at least one; [destroy_loop] the number of blocks of the store;
      [chunk_loop] 9 rounds, after which the doubled part size has reached its cap;
      [retrying] and [resend] 6, one more than RETRYCOUNT and max_retry allow;
      the search for an archive name one more than there are names; the walks through
      the list of logs one more than there are logs, [tlog_wait_zip_fini] 5001 rounds;
      [get_loop] takes it as a parameter and the theorems ask for one unit per
      CHUNK_SIZE bytes of the object and one per retry. That the fuel suffices is part
      of the theorems (they conclude [Ret]).

    ** What is outside

    libs3, liblustreapi, libconfig, getopt_long and the operating system are not part
    of the sources. They are parameters: the classes [S3Api.LibS3] (each request is a
    tree of callbacks the library makes, chosen by the library and depending on the
    answers), [Copytool.Llapi] and [Copytool.Os]. What the code relies on is stated
    apart from the operations, as documented behaviour: [S3StatusLaws],
    [LibS3Objects] and [LibS3Multipart] (what a finished request has done to the
    bucket, and that a failed one may fail at any callback), [Copytool.Isolated]
    (Lustre and the system leave the bucket alone), [Copytool.begin_gives].
    For the log, the class [Filesys.Kernel] says which calls the system refuses, what the
    clock shows, in which order a directory is read, how many bytes of a write it
    takes and what gzip makes of a file; [LogRotate.kernel_ok] is what is relied on
    (a directory is read whole, what gzip wrote can be unpacked),
    [LogRotate.access_honest] that [access] fails only for names that do not exist, and
    [LogRotate.benign] that nothing fails and writes are whole. The second is more than the
    manual promises, and the code needs it: LogHistory.v has a run without it in which an
    archive is overwritten ([access_failure_overwrites]), and an instance, [demo].
    Server.v implements those of the copytool by a small server with scripted faults, and
    Witnesses.v runs the handlers against it.

    ** The files

    - Prelude.v: outcomes, integers, memory as lists, sums over maps, reachability,
      the tactics and hint databases everybody uses.
    - Growbuffer.v (growbuffer.c): the growable byte queue. The predicate [stored]
      describes the circular doubly linked list of blocks by separation (a segment
      predicate and a frame); append, read and destroy refine list operations, free
      every block once, and touch no other memory.
    - MemQuota.v (mem_quota.c): the quota that bounds the memory of the transfer
      buffers, as a step relation over interleaved sessions: the quota is never
      exceeded, and a request that fits is served under every schedule, unless a
      [malloc] fails.
    - TlogFormat.v, Tlog.v, LogSmall.v (tlog.c): the logging library. Level filter and
      line layout; the ring buffer between the threads that log and the writer thread,
      with [tlog_exit]: a queue under every interleaving, but for a wake-up that can
      be lost and for buffers smaller than a line.
    - EarlyPrint.v (tlog.c): messages before [tlog_init].
    - Filesys.v: directories, files, descriptors, processes and calls that may be refused;
      LogFile.v (tlog.c): the log file, its rotation, its archives and their compression,
      in a monad over that file system; LogWp.v, LogRotate.v: a calculus of weakest
      preconditions for it and the specification of every operation by the predicates
      [files], [handles] and [inv]; LogHistory.v, LogDir.v: the theorems;
      LogDelivery.v: the ring and the files together.
    - LogControl.v (tlog.c): the list of the logs of a process in a store where freed logs
      are undefined: opening, closing, the writer's way through them, forks, [tlog_init]
      and [tlog_exit], a round of the printing functions, and the public functions as
      [request]s. LogList.v: what they do to
      the list; LogTypes.v: that they keep it well formed.
    - LogLock.v (tlog.c): the lock between processes, one system call a step.
    - LogSpawn.v (tlog.c): the gzip command, and the descriptors its process closes.
    - Posix.v: [read], [write] and [lseek] on open files, with short transfers and errors.
    - S3Api.v: the interface to libs3 and the protocols its requests follow.
    - Callbacks.v (s3_callback.c, hsm_s3_utils.h, s3_callback.h): the callbacks and
      handler tables, and what a request that follows its protocol makes of them.
    - Copytool.v (ct_common.c, ct_common.h): data, options, the monad, the retry
      loops, the calls to the coordinator, and the calculus of runs: [does] (returns,
      and acts only so), [keeps], [emits] (acts only so, if it returns).
    - Paths.v (lhsmtool_s3.c, ct_common.c): object names and paths.
    - Restore.v (lhsmtool_s3.c): the ranged download and [ct_restore_data].
    - Chunking.v (lhsmtool_s3.c): the part size of a multipart upload.
    - Archive.v (lhsmtool_s3.c): [ct_archive_data], one request from a quota-counted
      buffer, and [ct_archive_data_big], the multipart upload.
    - Handlers.v (lhsmtool_s3.c, ct_common.c): [ct_archive], [ct_restore],
      [ct_remove], [ct_cancel], [ct_process_item].
    - RequestControl.v (ct_common.c): the message loop, the semaphore that bounds
      the workers, the workers, and the signal handler, as one step relation.
      Startup.v: what [ct_run] does before and after the loop, and the memory of a
      worker.
    - Daemon.v (lhsmtool_s3.c, ct_common.c): options, configuration, [main].
    - Server.v, Witnesses.v: the concrete world and the runs.
    - RestoreAction.v: [ct_restore] from its start to its report. Reports.v: when an
      action returns, and what is then reported of it.

    The components meet at interfaces: Handlers calls Archive and Restore through
    their specifications ([archive_data_spec], [archive_data_big_spec],
    [get_s3_object_spec]); Archive calls the byte queue through [stored]; the quota's
    calls are acts of the trace ([AQuotaAlloc], [AQuotaFree]) whose balance Archive
    proves and whose effect MemQuota proves; a worker of RequestControl runs one
    [ct_process_item] between its start and its [sem_post]; a print callback owes
    the ring of Tlog the class [Lines], which [root_lines] discharges. LogControl runs the
    operations of LogFile on the log at a pointer ([on_file]) and the settings of Tlog;
    LogDelivery feeds what the ring hands out to [write_ext].

    ** What is shown

    - End to end: an archive action returns, and with the result 0 the object holds
      the file, if the one commit of a large file was answered with success
      ([ct_archive_success]); a restore action returns, and with the result 0 the
      file it closed was the object ([ct_restore_success], from the transfer's
      [ct_restore_data_restores]); a processed item that returns ends in
      exactly one report to the coordinator, unless its path or metadata index cannot
      be looked up, and it returns where its path and its extent are in order
      ([ct_process_item_reports], [ct_archive_reports], [ct_restore_reports]).
    - Transfers: single and multipart uploads store what they say and balance the
      quota; the download loop ends and is right through retries and short writes;
      the part size covers the file within 10000 parts.
    - Concurrency: at most max_requests workers; a graceful exit waits for all of them
      when no worker takes the signal, though not for items that have no permit yet; memory is never overcommitted and waiters are
      served; the log is a first-in first-out channel.
    - Data structures: the byte queue round trip, freedom from leaks.
    - The log: what the files hold is what was written, whatever fails but [access]
      ([tlog_files_hold]), within their sizes while nothing fails or is compressed
      ([tlog_files_bounded]), and composed with the ring what the threads
      printed ([tlog_lines_reach_files]); no archive is overwritten, the newest are kept;
      paths are made and found again; every sequence of calls keeps the logs well formed
      ([tlog_logs_typed]); the lock excludes where nobody is disturbed; gzip inherits no
      descriptor that /proc/self/fd names.
    - Limits, as theorems too: the runs in which a refused commit counts as success, a
      repeated upload sends nothing, the signal handler hangs (also before the semaphore is there) or ends a running
      action, waiters are stranded, a wake-up of the log is lost, object names collide,
      the uninitialised path is used; an early message runs over its buffer, the writer
      reads a freed log, two processes hold one lock, [tlog_exit] or a log with a small
      buffer never gets on.

    ** What is not modelled, and what comes next

    The text of the messages and what is printed to standard error; the bytes of
    printf formats; CMake files. The writer of Tlog.v has one log; which of several it
    takes next is in LogControl.v, where a call of a printing function is one step a round.
    Planned: [ct_remove]'s effect on the bucket; the
    handlers running in the workers of RequestControl with the quota of MemQuota, as
    one transition system. *)

From Stdlib Require Import ZArith Lia.
From Stdlib Require Import Strings.Byte.
From stdpp Require Import base gmap sets list relations strings.

(** ** Outcomes

    [Ret] is a normal return, [Crash] is an abort, a failed assertion or an
    undefined access, [NoFuel] is a loop cut off by its fuel. *)

Inductive outcome (A : Type) : Type :=
  | Ret (a : A)
  | Crash
  | NoFuel.
Arguments Ret {A} a.
Arguments Crash {A}.
Arguments NoFuel {A}.

#[export] Instance outcome_ret : MRet outcome := fun A a => Ret a.
#[export] Instance outcome_bind : MBind outcome := fun A B f m =>
  match m with
  | Ret a => f a
  | Crash => Crash
  | NoFuel => NoFuel
  end.

(** An optional result read as "defined or undefined behaviour". *)
Definition defined {A} (o : option A) : outcome A :=
  match o with Some a => Ret a | None => Crash end.

Lemma bind_Ret_inv {A B} (m : outcome A) (f : A -> outcome B) (b : B) :
  m ≫= f = Ret b -> exists a, m = Ret a /\ f a = Ret b.
Proof. destruct m; simpl; [eauto | done | done]. Qed.

(** ** Machine integers *)

Declare Scope estuary_scope.
Delimit Scope estuary_scope with estuary.

Definition two64 : Z := 18446744073709551616.

(** [size_t] and [__u64] arithmetic wraps modulo 2^64. *)
Definition u64 (z : Z) : Z := z mod two64.

Notation "a +u b" := (u64 (a + b)) (at level 50, left associativity) : estuary_scope.
Notation "a -u b" := (u64 (a - b)) (at level 50, left associativity) : estuary_scope.
Notation "a *u b" := (u64 (a * b)) (at level 40, left associativity) : estuary_scope.

(** [unsigned int] arithmetic wraps modulo 2^32. *)
Definition u32 (z : Z) : Z := z mod 4294967296.

Definition INT_MAX : Z := 2147483647.
Definition INT_MIN : Z := -2147483648.

(** Conversion to a 32-bit [int] keeps the low 32 bits, read as signed. *)
Definition i32 (z : Z) : Z := (z + 2147483648) mod 4294967296 - 2147483648.

(** Conversion to [ssize_t] or [off_t]. *)
Definition s64 (z : Z) : Z := (z + 9223372036854775808) mod two64 - 9223372036854775808.

Lemma s64_id (z : Z) : (- 9223372036854775808 <= z < 9223372036854775808)%Z -> s64 z = z.
Proof. intros H. unfold s64, two64. rewrite Z.mod_small; lia. Qed.

Lemma u64_id (z : Z) : (0 <= z < two64)%Z -> u64 z = z.
Proof. apply Z.mod_small. Qed.

Lemma u64_range (z : Z) : (0 <= u64 z < two64)%Z.
Proof. apply Z.mod_pos_bound. reflexivity. Qed.

Lemma u32_id (z : Z) : (0 <= z < 4294967296)%Z -> u32 z = z.
Proof. apply Z.mod_small. Qed.

Lemma i32_id (z : Z) : (INT_MIN <= z <= INT_MAX)%Z -> i32 z = z.
Proof. unfold INT_MIN, INT_MAX, i32. intros H. rewrite Z.mod_small; lia. Qed.

(** ** Errno values used by the sources (Linux numbering) *)

Definition EIO : Z := 5.
Definition E2BIG : Z := 7.
Definition ENOMEM : Z := 12.
Definition EINVAL : Z := 22.
Definition ENAMETOOLONG : Z := 36.
Definition EPROTO : Z := 71.
Definition ESHUTDOWN : Z := 108.
Definition ETIMEDOUT : Z := 110.
Definition ECANCELED : Z := 125.

(** ** Lists as memory

    [slice off n l] reads [n] cells at offset [off]; [overwrite off src l] is
    [memcpy] of [src] to offset [off] of [l]. *)

Definition slice {A} (off n : nat) (l : list A) : list A := take n (drop off l).

Definition overwrite {A} (off : nat) (src l : list A) : list A :=
  take off l ++ src ++ drop (off + length src) l.

Section Lists.
Context {A : Type}.
Implicit Types l src : list A.

Lemma length_slice off n l : off + n <= length l -> length (slice off n l) = n.
Proof. intros H. unfold slice. rewrite length_take, length_drop. lia. Qed.

Lemma slice_split off n m l :
  slice off (n + m) l = slice off n l ++ slice (off + n) m l.
Proof. unfold slice. rewrite <- drop_drop, take_take_drop. done. Qed.

Lemma slice_prefix off n m l : n <= m -> take n (slice off m l) = slice off n l.
Proof. intros H. unfold slice. rewrite take_take. f_equal. lia. Qed.

Lemma slice_suffix off n m l :
  n <= m -> drop n (slice off m l) = slice (off + n) (m - n) l.
Proof. intros H. unfold slice. by rewrite skipn_firstn_comm, drop_drop. Qed.

Lemma slice_0 n l : slice 0 n l = take n l.
Proof. done. Qed.

Lemma length_overwrite off src l :
  off + length src <= length l -> length (overwrite off src l) = length l.
Proof.
  intros H. unfold overwrite.
  rewrite !length_app, length_take, length_drop. lia.
Qed.

Lemma take_overwrite off src l :
  off + length src <= length l ->
  take (off + length src) (overwrite off src l) = take off l ++ src.
Proof.
  intros H. unfold overwrite. rewrite app_assoc.
  apply take_app_length'. rewrite length_app, length_take. lia.
Qed.

(** A slice of overwritten memory: before the bytes, behind them, up to their end. *)
Lemma slice_alt off n l : slice off n l = drop off (take (off + n) l).
Proof. unfold slice. rewrite skipn_firstn_comm. f_equal. lia. Qed.

Lemma slice_overwrite_before off n p src l :
  off + n <= p -> p <= length l -> slice off n (overwrite p src l) = slice off n l.
Proof.
  intros H1 H2. rewrite !slice_alt. f_equal. unfold overwrite.
  rewrite take_app_le by (rewrite length_take; lia). rewrite take_take. f_equal. lia.
Qed.

Lemma slice_overwrite_after off n p src l :
  p + length src <= off -> p <= length l -> slice off n (overwrite p src l) = slice off n l.
Proof.
  intros H1 H2. unfold slice, overwrite. f_equal.
  rewrite app_assoc, drop_app_ge by (rewrite length_app, length_take; lia).
  rewrite length_app, length_take, drop_drop. f_equal. lia.
Qed.

Lemma slice_overwrite_extend off n p src l :
  off + n = p -> p + length src <= length l ->
  slice off (n + length src) (overwrite p src l) = slice off n l ++ src.
Proof.
  intros <- H. rewrite !slice_alt, Nat.add_assoc, take_overwrite by done.
  apply drop_app_le. rewrite length_take. lia.
Qed.
End Lists.

(** Cutting a list into pieces of [c] and putting them together again. *)
Lemma concat_slices {A} (l : list A) (c n : nat) :
  concat ((fun j => slice (j * c) c l) <$> seq 0 n) = take (n * c) l.
Proof.
  induction n as [|n IH]; [done|].
  rewrite seq_S, fmap_app, concat_app, IH. cbn. rewrite app_nil_r.
  unfold slice. rewrite take_take_drop. f_equal. lia.
Qed.

(** A list of options all of which are set, with what is known of each. *)
Lemma all_set {A} (l : list (option A)) (R : nat -> A -> Prop) :
  (forall j, j < length l -> exists a, l !! j = Some (Some a) /\ R j a) ->
  exists l', l = Some <$> l' /\ forall j a, l' !! j = Some a -> R j a.
Proof.
  revert R. induction l as [|o l IH]; intros R H; [by exists []|].
  destruct (H 0) as (a & [= ->] & Ha); [cbn; lia|].
  destruct (IH (fun j => R (S j))) as (l' & -> & Hl').
  { intros j Hj. apply (H (S j)). cbn. lia. }
  exists (a :: l'). split; [done|]. intros [|j] b; cbn; [by intros [= <-]|apply Hl'].
Qed.

#[export] Instance byte_eq_decision : EqDecision byte := Byte.byte_eq_dec.

(** The bytes of a string constant, without its terminator. *)
Definition bytes_of (s : string) : list byte := String.list_byte_of_string s.

Lemma bytes_of_app (a b : string) : bytes_of (String.app a b) = bytes_of a ++ bytes_of b.
Proof. induction a as [|c a IH]; [done|]. change (String.app (String c a) b) with (String c (String.app a b)). cbn. by f_equal. Qed.

#[export] Instance bytes_of_inj : Inj (=) (=) bytes_of.
Proof.
  intros a b E. rewrite <- (String.string_of_list_byte_of_string a).
  rewrite <- (String.string_of_list_byte_of_string b). by f_equal.
Qed.

(** ** Sums over finite maps *)

Section MapSum.
Context {K A : Type} `{Countable K}.
Implicit Types (f : A -> Z) (m : gmap K A).

(** The sum of [f] over the values of [m]. *)
Definition msum f m : Z := map_fold (fun _ x acc => f x + acc)%Z 0%Z m.

Lemma msum_empty f : msum f ∅ = 0%Z.
Proof. apply map_fold_empty. Qed.

Lemma msum_insert f m i x : m !! i = None -> msum f (<[i := x]> m) = (f x + msum f m)%Z.
Proof. intros Hi. unfold msum. rewrite map_fold_insert_L; [done|intros; lia|done]. Qed.

Lemma msum_lookup f m i x : m !! i = Some x -> msum f m = (f x + msum f (delete i m))%Z.
Proof.
  intros Hi. rewrite <- (insert_delete_id m i x) at 1 by done.
  apply msum_insert, lookup_delete_eq.
Qed.

Lemma msum_update f m i x y :
  m !! i = Some x -> msum f (<[i := y]> m) = (msum f m - f x + f y)%Z.
Proof.
  intros Hi. rewrite (msum_lookup f m i x Hi), <- insert_delete_eq.
  rewrite msum_insert by apply lookup_delete_eq. lia.
Qed.

Lemma msum_delete f m i x : m !! i = Some x -> msum f (delete i m) = (msum f m - f x)%Z.
Proof. intros Hi. rewrite (msum_lookup f m i x Hi). lia. Qed.

Lemma msum_nonneg f m :
  (forall i x, m !! i = Some x -> 0 <= f x)%Z -> (0 <= msum f m)%Z.
Proof.
  induction m as [|i x m Hi IH] using map_ind; intros Hf; [by rewrite msum_empty|].
  rewrite msum_insert by done.
  assert (0 <= f x)%Z by (apply (Hf i); by simplify_map_eq).
  enough (0 <= msum f m)%Z by lia. apply IH. intros j y Hj.
  apply (Hf j). rewrite lookup_insert_ne by congruence. done.
Qed.

Lemma msum_ge f m i x :
  (forall i x, m !! i = Some x -> 0 <= f x)%Z -> m !! i = Some x -> (f x <= msum f m)%Z.
Proof.
  intros Hf Hi. rewrite (msum_lookup f m i x Hi).
  enough (0 <= msum f (delete i m))%Z by lia. apply msum_nonneg.
  intros j y [_ Hj]%lookup_delete_Some. by apply (Hf j).
Qed.

Lemma msum_witness f m :
  (msum f m <> 0)%Z -> exists i x, m !! i = Some x /\ f x <> 0%Z.
Proof.
  induction m as [|i x m Hi IH] using map_ind; [by rewrite msum_empty|].
  rewrite msum_insert by done. intros Hne. destruct (decide (f x = 0%Z)) as [E|E].
  - destruct IH as (j & y & Hj & Hy); [lia|]. exists j, y.
    rewrite lookup_insert_ne by congruence. done.
  - exists i, x. by simplify_map_eq.
Qed.

Lemma msum_le_size f m :
  (forall x, f x <= 1)%Z -> (msum f m <= Z.of_nat (size m))%Z.
Proof.
  intros Hf. induction m as [|i x m Hi IH] using map_ind; [by rewrite msum_empty|].
  rewrite msum_insert, map_size_insert_None by done. specialize (Hf x). lia.
Qed.
End MapSum.

(** ** Transition systems *)

Section Reachability.
Context {S : Type} (step : S -> S -> Prop).

(** A predicate closed under steps holds in every reachable state. *)
Lemma rtc_invariant (I : S -> Prop) (s s' : S) :
  (forall a b, I a -> step a b -> I b) -> I s -> rtc step s s' -> I s'.
Proof. intros Hstep Hs. induction 1; eauto. Qed.
End Reachability.

(** ** Automation *)

Create HintDb estuary.
Create Rewrite HintDb estuary_len.
#[export] Hint Rewrite @length_app @length_take @length_drop @length_fmap
  @length_replicate : estuary_len.
#[export] Hint Rewrite @length_slice @length_overwrite using lia : estuary_len.

(** Push lengths through list operations, then decide linear arithmetic. *)
Ltac len := autorewrite with estuary_len in *; try lia.

(** Peel the binds of a computation known to return. *)
Ltac inv_bind H :=
  let a := fresh "a" in let E := fresh "E" in
  apply bind_Ret_inv in H as (a & E & H).

(** Case analysis on every test in the goal. *)
Ltac case_tests :=
  repeat (case_match || case_decide || case_bool_decide); try done; try lia.
