(* ===== verification/Growbuffer.v ===== *)
(** * growbuffer.c: the growable byte queue of the multipart commit

    The blocks live in a store (a finite map from addresses to blocks) and are
    linked into a circular doubly linked list, as in the source; every pointer
    access is checked, so a result [Ret _] also says that no access was out of
    bounds, to freed memory or to uninitialised bytes. *)

From Stdlib Require Import ZArith Lia.
From Stdlib Require Import Strings.Byte.
From stdpp Require Import base gmap sets list strings.
From S2P Require Import Prelude.

Module Growbuffer.

(** ** Data *)

(** [sizeof(buf->data)] *)
Definition data_size : Z := 64 * 1024.

Abbreviation ptr := (option positive).

(** [struct growbuffer]; a cell of [data] is [None] until it is written. *)
Record growbuffer := mk_growbuffer {
  size : Z;
  start : Z;
  data : list (option byte);
  prev : ptr;
  next : ptr
}.

(** The store, and the outcomes of the [malloc] calls to come: an exhausted
    list means that every later call succeeds. *)
Record heap := mk_heap {
  cells : gmap positive growbuffer;
  mallocs : list bool
}.

Definition load (h : heap) (p : ptr) : outcome growbuffer :=
  match p with
  | None => Crash
  | Some l => defined (cells h !! l)
  end.

Definition modify (h : heap) (p : ptr) (f : growbuffer -> growbuffer) : outcome heap :=
  match p with
  | None => Crash
  | Some l =>
      match cells h !! l with
      | None => Crash
      | Some _ => Ret (mk_heap (alter f l (cells h)) (mallocs h))
      end
  end.

Definition malloc (h : heap) : heap * ptr :=
  match mallocs h with
  | false :: o => (mk_heap (cells h) o, None)
  | o =>
      let l := fresh (dom (cells h)) in
      let b := mk_growbuffer 0 0 (replicate (Z.to_nat data_size) None) None None in
      (mk_heap (<[l := b]> (cells h)) (tail o), Some l)
  end.

Definition free (h : heap) (p : ptr) : outcome heap :=
  match p with
  | None => Ret h
  | Some l =>
      match cells h !! l with
      | None => Crash
      | Some _ => Ret (mk_heap (delete l (cells h)) (mallocs h))
      end
  end.

Definition set_size (z : Z) (b : growbuffer) : growbuffer :=
  mk_growbuffer z (start b) (data b) (prev b) (next b).
Definition set_start (z : Z) (b : growbuffer) : growbuffer :=
  mk_growbuffer (size b) z (data b) (prev b) (next b).
Definition set_data (d : list (option byte)) (b : growbuffer) : growbuffer :=
  mk_growbuffer (size b) (start b) d (prev b) (next b).
Definition set_prev (p : ptr) (b : growbuffer) : growbuffer :=
  mk_growbuffer (size b) (start b) (data b) p (next b).
Definition set_next (p : ptr) (b : growbuffer) : growbuffer :=
  mk_growbuffer (size b) (start b) (data b) (prev b) p.

(** ** Operations *)

(** [memcpy(&(buf->data[buf->size]), src, n)] *)
Definition memcpy_in (b : growbuffer) (src : list byte) (n : Z) : outcome growbuffer :=
  if bool_decide (0 <= n /\ n <= Z.of_nat (length src)
                  /\ 0 <= size b /\ size b + n <= data_size)%Z
  then Ret (set_data (overwrite (Z.to_nat (size b))
                        (Some <$> take (Z.to_nat n) src) (data b)) b)
  else Crash.

(** [memcpy(buffer, &(buf->data[buf->start]), n)]; reading a cell that was
    never written is undefined. *)
Definition memcpy_out (b : growbuffer) (n : Z) : outcome (list byte) :=
  if bool_decide (0 <= n /\ 0 <= start b /\ start b + n <= data_size)%Z
  then defined (mapM id (slice (Z.to_nat (start b)) (Z.to_nat n) (data b)))
  else Crash.

(** The block to write to: the last block of the ring, or a fresh one linked
    behind it when there is none or it is full. [None] is a failed malloc. *)
Definition append_block (h : heap) (gb : ptr) : outcome (heap * option (ptr * ptr)) :=
  buf ← (match gb with
         | Some _ => g ← load h gb; Ret (prev g)
         | None => Ret None
         end);
  need ← (match buf with
          | None => Ret true
          | Some _ => b ← load h buf; Ret (bool_decide (size b = data_size))
          end);
  if (need : bool) then
    let '(h, buf) := malloc h in
    match buf with
    | None => Ret (h, None)
    | Some _ =>
        h ← modify h buf (set_size 0);
        h ← modify h buf (set_start 0);
        last ← (match gb with
                | Some _ => g ← load h gb; Ret (prev g)
                | None => Ret None
                end);
        match last with
        | Some _ =>
            h ← modify h buf (set_prev last);
            h ← modify h buf (set_next gb);
            h ← modify h last (set_next buf);
            h ← modify h gb (set_prev buf);
            Ret (h, Some (gb, buf))
        | None =>
            h ← modify h buf (set_next buf);
            h ← modify h buf (set_prev buf);
            Ret (h, Some (buf, buf))
        end
    end
  else Ret (h, Some (gb, buf)).

(** One pass of the copying loop of [growbuffer_append]. *)
Definition append_step (h : heap) (gb : ptr) (src : list byte) (dataLen : Z)
    : outcome (heap * option (ptr * Z)) :=
  r ← append_block h gb;
  match r with
  | (h, None) => Ret (h, None)
  | (h, Some (gb, buf)) =>
      b ← load h buf;
      let room := (data_size - size b)%Z in
      let toCopy := if bool_decide (room > dataLen)%Z then dataLen else room in
      b' ← memcpy_in b src toCopy;
      h ← modify h buf (fun _ => set_size (size b + toCopy) b');
      Ret (h, Some (gb, toCopy))
  end.

Fixpoint append_loop (fuel : nat) (origDataLen : Z) (h : heap) (gb : ptr)
    (src : list byte) (dataLen : Z) : outcome (heap * ptr * Z) :=
  if bool_decide (dataLen = 0)%Z then Ret (h, gb, origDataLen)
  else
    match fuel with
    | O => NoFuel
    | S fuel =>
        r ← append_step h gb src dataLen;
        match r with
        | (h, None) => Ret (h, gb, 0%Z)
        | (h, Some (gb, toCopy)) =>
            append_loop fuel origDataLen h gb (drop (Z.to_nat toCopy) src)
              (dataLen - toCopy)
        end
    end.

Definition growbuffer_append (h : heap) (gb : ptr) (src : list byte) (dataLen : Z)
    : outcome (heap * ptr * Z) :=
  append_loop (Z.to_nat dataLen) dataLen h gb src dataLen.

(** The end of [growbuffer_read]: an emptied first block leaves the ring and is
    freed. [b] is the block [*gb] points to. *)
Definition release_empty (h : heap) (gb : ptr) (b : growbuffer) : outcome (heap * ptr) :=
  if bool_decide (size b = 0)%Z then
    if bool_decide (next b = gb) then
      h ← free h gb;
      Ret (h, None)
    else
      h ← modify h (prev b) (set_next (next b));
      g ← load h gb;
      h ← modify h (next g) (set_prev (prev g));
      h ← free h gb;
      Ret (h, next b)
  else Ret (h, gb).

(** Returns the new store, the new head pointer, [*amtReturn] and the bytes
    copied to the caller's buffer. *)
Definition growbuffer_read (h : heap) (gb : ptr) (amt : Z)
    : outcome (heap * ptr * Z * list byte) :=
  match gb with
  | None => Ret (h, gb, 0%Z, [])
  | Some _ =>
      b ← load h gb;
      let amtReturn := if bool_decide (size b > amt)%Z then amt else size b in
      out ← memcpy_out b amtReturn;
      let b' := set_size (size b - amtReturn) (set_start (start b + amtReturn) b) in
      h ← modify h gb (fun _ => b');
      r ← release_empty h gb b';
      Ret (r.1, r.2, amtReturn, out)
  end.

Fixpoint destroy_loop (fuel : nat) (h : heap) (first gb : ptr) : outcome heap :=
  match gb with
  | None => Ret h
  | Some _ =>
      match fuel with
      | O => NoFuel
      | S fuel =>
          b ← load h gb;
          h ← free h gb;
          destroy_loop fuel h first (if bool_decide (next b = first) then None else next b)
      end
  end.

(** The ring has at most as many blocks as the store has cells. *)
Definition growbuffer_destroy (h : heap) (gb : ptr) : outcome heap :=
  destroy_loop (base.size (cells h)) h gb gb.

(** ** The stored queue *)

(** A block as the client sees it: where its live bytes start and what they are. *)
Record block := mk_block {
  b_start : nat;
  b_bytes : list byte;
  b_data : list (option byte)
}.

Definition capacity : nat := Z.to_nat data_size.

Lemma capacity_Z : Z.of_nat capacity = data_size.
Proof. unfold capacity. rewrite Z2Nat.id; [done|]. unfold data_size. lia. Qed.

Lemma capacity_pos : 0 < capacity.
Proof. pose proof capacity_Z as H. unfold data_size in H. lia. Qed.

#[global] Opaque capacity data_size.

Record block_ok (b : block) : Prop := {
  ok_length : length (b_data b) = capacity;
  ok_fits : b_start b + length (b_bytes b) <= capacity;
  ok_cells : slice (b_start b) (length (b_bytes b)) (b_data b) = Some <$> b_bytes b
}.

Definition node (pv nx : positive) (b : block) : growbuffer :=
  mk_growbuffer (Z.of_nat (length (b_bytes b))) (Z.of_nat (b_start b)) (b_data b)
    (Some pv) (Some nx).

Definition first_of (d : positive) (xs : list (positive * block)) : positive :=
  match xs with [] => d | (l, _) :: _ => l end.

Fixpoint last_of (d : positive) (xs : list (positive * block)) : positive :=
  match xs with [] => d | (l, _) :: xs => last_of l xs end.

(** The blocks [xs] are linked in order, between [pv] and [nx]. *)
Fixpoint seg (c : gmap positive growbuffer) (pv : positive)
    (xs : list (positive * block)) (nx : positive) : Prop :=
  match xs with
  | [] => True
  | (l, b) :: xs => c !! l = Some (node pv (first_of nx xs) b) /\ seg c l xs nx
  end.

(** The head pointer [gb] points to the ring of blocks [xs]. *)
Definition ring (c : gmap positive growbuffer) (gb : ptr)
    (xs : list (positive * block)) : Prop :=
  match xs with
  | [] => gb = None
  | (l, _) :: tl => gb = Some l /\ NoDup xs.*1 /\ seg c (last_of l tl) xs l
  end.

Definition contents (xs : list (positive * block)) : list byte :=
  concat (b_bytes <$> xs.*2).

(** The ring [xs] stores [q] and the rest of the store is exactly [F]. *)
Record holds (h : heap) (gb : ptr) (xs : list (positive * block))
    (q : list byte) (F : gmap positive growbuffer) : Prop := {
  h_ring : ring (cells h) gb xs;
  h_ok : Forall block_ok xs.*2;
  h_contents : contents xs = q;
  h_frame : forall l, l ∉ xs.*1 -> cells h !! l = F !! l;
  h_fresh : forall l, l ∈ xs.*1 -> F !! l = None
}.

(** No block of the ring is empty, so that every read makes progress. *)
Definition occupied (xs : list (positive * block)) : Prop :=
  Forall (fun b => b_bytes b <> []) xs.*2.

Definition stored h gb q F : Prop := exists xs, holds h gb xs q F /\ occupied xs.

(** Bytes may be appended: the last block has not been read from. *)
Definition writable h gb q F : Prop :=
  exists xs, holds h gb xs q F /\ occupied xs
    /\ (forall x, last xs = Some x -> b_start x.2 = 0%nat).

Lemma writable_stored h gb q F : writable h gb q F -> stored h gb q F.
Proof. intros (xs & H & Ho & _). by exists xs. Qed.

Lemma writable_empty h : writable h None [] (cells h).
Proof.
  exists []. split_and!; [|constructor|done]. split; try done; try constructor.
  intros l Hl. by apply elem_of_nil in Hl.
Qed.

(** ** Segments under store updates *)

Lemma seg_ext c c' pv xs nx :
  (forall l, l ∈ xs.*1 -> c' !! l = c !! l) -> seg c pv xs nx -> seg c' pv xs nx.
Proof.
  revert pv. induction xs as [|[l b] xs IH]; intros pv Hc; simpl; [done|].
  intros [Hl Hs]. split.
  - rewrite Hc; [done|]. set_solver.
  - apply IH; [|done]. intros l' Hl'. apply Hc. set_solver.
Qed.

Lemma seg_app c pv xs ys nx :
  seg c pv (xs ++ ys) nx <->
  seg c pv xs (first_of nx ys) /\ seg c (last_of pv xs) ys nx.
Proof.
  revert pv. induction xs as [|[l b] xs IH]; intros pv; simpl; [tauto|].
  rewrite IH. destruct xs as [|[l' b'] xs]; simpl; tauto.
Qed.

Lemma last_of_snoc d xs z b : last_of d (xs ++ [(z, b)]) = z.
Proof. revert d. induction xs as [|[l b'] xs IH]; intros d; simpl; auto. Qed.

Lemma last_of_in d xs : xs <> [] -> last_of d xs ∈ xs.*1.
Proof.
  destruct xs as [|[z b] xs _] using rev_ind; [done|intros _].
  rewrite last_of_snoc, fmap_app. set_solver.
Qed.

Lemma last_of_cons d l b xs : last_of d ((l, b) :: xs) = last_of l xs.
Proof. done. Qed.

Lemma last_of_default d d' xs : xs <> [] -> last_of d xs = last_of d' xs.
Proof. destruct xs as [|[l b] xs]; done. Qed.

(** Redirecting the last block's [next]. *)
Lemma seg_set_next c pv xs nx l :
  xs <> [] -> NoDup xs.*1 -> seg c pv xs nx ->
  seg (alter (set_next (Some l)) (last_of pv xs) c) pv xs l.
Proof.
  destruct xs as [|[z b] xs _] using rev_ind; [done|intros _].
  rewrite last_of_snoc, fmap_app, NoDup_app. intros (_ & Hd & _).
  rewrite !seg_app. simpl. intros (Hs & Hz & _). split_and!; [|by simplify_map_eq|done].
  apply seg_ext with c; [|done]. intros l' Hl'.
  apply lookup_alter_ne. intros ->. apply (Hd _ Hl'). set_solver.
Qed.

(** Redirecting the first block's [prev]. *)
Lemma seg_set_prev c pv a b xs nx l :
  NoDup (a :: xs.*1) -> seg c pv ((a, b) :: xs) nx ->
  seg (alter (set_prev (Some l)) a c) l ((a, b) :: xs) nx.
Proof.
  simpl. rewrite NoDup_cons. intros [Ha _] [Hl Hs]. split; [by simplify_map_eq|].
  apply seg_ext with c; [|done]. intros l' Hl'. apply lookup_alter_ne. by intros ->.
Qed.

(** Changing the contents of one block. *)
Lemma seg_alter_block c pv xs z b b' ys nx f :
  NoDup (xs ++ (z, b) :: ys).*1 ->
  (forall p n, c !! z = Some (node p n b) -> f (node p n b) = node p n b') ->
  seg c pv (xs ++ (z, b) :: ys) nx ->
  seg (alter f z c) pv (xs ++ (z, b') :: ys) nx.
Proof.
  intros Hnd Hf. rewrite fmap_app in Hnd. simpl in Hnd.
  apply NoDup_app in Hnd as (_ & Hd & Hnd). apply NoDup_cons in Hnd as [Hz _].
  rewrite !seg_app. simpl. intros (Hs & Hl & Hs'). split_and!.
  - apply seg_ext with c; [|done]. intros l' Hl'. apply lookup_alter_ne.
    intros ->. apply (Hd _ Hl'). set_solver.
  - rewrite lookup_alter, decide_True, Hl by done. simpl. by rewrite (Hf _ _ Hl).
  - apply seg_ext with c; [|done]. intros l' Hl'. apply lookup_alter_ne. by intros ->.
Qed.

Lemma seg_lookup c pv xs z b ys nx :
  seg c pv (xs ++ (z, b) :: ys) nx ->
  c !! z = Some (node (last_of pv xs) (first_of nx ys) b).
Proof. rewrite seg_app. simpl. tauto. Qed.

(** ** Store operations *)

Lemma modify_ok h l b f :
  cells h !! l = Some b ->
  modify h (Some l) f = Ret (mk_heap (alter f l (cells h)) (mallocs h)).
Proof. intros H. simpl. by rewrite H. Qed.

Lemma free_ok h l b :
  cells h !! l = Some b ->
  free h (Some l) = Ret (mk_heap (delete l (cells h)) (mallocs h)).
Proof. intros H. simpl. by rewrite H. Qed.

(** A block fresh from [malloc] with [size] and [start] reset. *)
Definition new_block : block := mk_block 0 [] (replicate capacity None).

Lemma new_block_ok : block_ok new_block.
Proof. split; simpl; [apply length_replicate|lia|done]. Qed.

Lemma malloc_cases h :
  (exists o, mallocs h = false :: o /\ malloc h = (mk_heap (cells h) o, None)) \/
  (exists l d, cells h !! l = None /\ d = b_data new_block /\
     malloc h = (mk_heap (<[l := mk_growbuffer 0 0 d None None]> (cells h))
                   (tail (mallocs h)), Some l)).
Proof.
  unfold malloc. destruct (mallocs h) as [|[] o] eqn:E; simpl; [right|right|left; eauto];
    exists (fresh (dom (cells h))); eexists; split_and!; try reflexivity;
    apply not_elem_of_dom, is_fresh.
Qed.

Lemma fresh_not_in h gb xs q F l :
  holds h gb xs q F -> cells h !! l = None -> l ∉ xs.*1.
Proof.
  intros [Hr _ _ _ _] Hl Hin. apply list_elem_of_fmap in Hin as ([l' b] & -> & Hin). simpl in *.
  apply list_elem_of_split in Hin as (xs1 & xs2 & ->).
  assert (exists pv nx, seg (cells h) pv (xs1 ++ (l', b) :: xs2) nx) as (pv & nx & Hs).
  { destruct xs1 as [|[a ba] xs1]; simpl in Hr; destruct Hr as (_ & _ & Hs);
      do 2 eexists; exact Hs. }
  apply seg_lookup in Hs. congruence.
Qed.

(** ** Reading the ring through its two ends *)

Lemma holds_last h gb xs z bz q F :
  holds h gb (xs ++ [(z, bz)]) q F ->
  exists a g, gb = Some a /\ cells h !! a = Some g /\ prev g = Some z
    /\ a = first_of z xs /\ cells h !! z = Some (node (last_of z xs) a bz)
    /\ NoDup (xs ++ [(z, bz)]).*1 /\ seg (cells h) z (xs ++ [(z, bz)]) a.
Proof.
  intros [Hr _ _ _ _]. destruct xs as [|[a ba] xs]; simpl in Hr.
  - destruct Hr as (-> & Hnd & Hl & _). exists z, (node z z bz). by split_and!.
  - destruct Hr as (-> & Hnd & Hs). rewrite last_of_snoc in Hs.
    exists a, (node z (first_of a (xs ++ [(z, bz)])) ba).
    pose proof (seg_lookup _ _ ((a, ba) :: xs) _ _ _ _ (conj (proj1 Hs) (proj2 Hs))) as Hz.
    simpl in *. destruct Hs as [Ha Hs]. split_and!; auto.
Qed.

Lemma ring_intro c xs z bz a :
  a = first_of z xs ->
  NoDup (xs ++ [(z, bz)]).*1 ->
  seg c z (xs ++ [(z, bz)]) a -> ring c (Some a) (xs ++ [(z, bz)]).
Proof.
  intros -> Hnd Hs. destruct xs as [|[a ba] xs]; simpl in *; [done|].
  by rewrite last_of_snoc.
Qed.

Lemma contents_snoc xs z b : contents (xs ++ [(z, b)]) = contents xs ++ b_bytes b.
Proof. unfold contents. rewrite !fmap_app, concat_app. simpl. by rewrite app_nil_r. Qed.

Lemma contents_cons z b xs : contents ((z, b) :: xs) = b_bytes b ++ contents xs.
Proof. done. Qed.

(** ** Growing the ring *)

(** A block added to an empty ring is linked to itself. *)
Lemma holds_singleton c o l q F :
  holds (mk_heap c o) None [] q F -> c !! l = None ->
  forall o', holds (mk_heap (<[l := node l l new_block]> c) o') (Some l)
               [(l, new_block)] q F.
Proof.
  intros [_ _ Hq Hf _] Hl o'. split; simpl.
  - split_and!; [done|apply NoDup_singleton|by simplify_map_eq|done].
  - constructor; [apply new_block_ok|constructor].
  - rewrite <- Hq. done.
  - intros l' Hl'. rewrite lookup_insert_ne; [|set_solver]. apply Hf. simpl. set_solver.
  - intros l' ->%list_elem_of_singleton. rewrite <- Hf; [done|]. simpl. set_solver.
Qed.

(** A block added behind a non-empty ring: its own links, then the old last
    block's [next], then the head's [prev]. *)
Lemma holds_snoc h gb xs z bz q F l a o' :
  holds h gb (xs ++ [(z, bz)]) q F -> gb = Some a -> cells h !! l = None ->
  holds (mk_heap (alter (set_prev (Some l)) a (alter (set_next (Some l)) z
                   (<[l := node z a new_block]> (cells h)))) o')
    gb ((xs ++ [(z, bz)]) ++ [(l, new_block)]) q F.
Proof.
  intros H Hgb Hl. pose proof (fresh_not_in _ _ _ _ _ _ H Hl) as Hnin.
  pose proof (holds_last _ _ _ _ _ _ _ H) as (a' & g & -> & Ha & _ & Ea & Hz & Hnd & Hs).
  injection Hgb as ->. destruct H as [_ Hok Hq Hf Hfr].
  assert (Hla : l <> a) by congruence. assert (Hlz : l <> z) by congruence.
  split; simpl.
  - apply ring_intro.
    + subst a. by destruct xs as [|[x bx] xs].
    + rewrite fmap_app. apply NoDup_app. split_and!; [done| |apply NoDup_singleton].
      intros y Hy ->%list_elem_of_singleton. done.
    + apply seg_app. simpl. rewrite last_of_snoc. split_and!.
      * assert (exists b ys, xs ++ [(z, bz)] = (a, b) :: ys) as (b & ys & E).
        { subst a. destruct xs as [|[x bx] xs]; simpl; eauto. }
        assert (seg (alter (set_next (Some l)) z (<[l := node z a new_block]> (cells h)))
                  z (xs ++ [(z, bz)]) l) as Hs'.
        { rewrite <- (last_of_snoc z xs z bz) at 1. apply seg_set_next with a; [|done|].
          - by destruct xs.
          - apply seg_ext with (cells h); [|done].
            intros y Hy. apply lookup_insert_ne. by intros ->. }
        rewrite E in Hs', Hnd |- *. by apply seg_set_prev with z.
      * rewrite lookup_alter_ne, lookup_alter_ne by done. by simplify_map_eq.
      * done.
  - rewrite fmap_app. apply Forall_app. split; [done|].
    constructor; [apply new_block_ok|constructor].
  - by rewrite contents_snoc, app_nil_r.
  - intros y Hy. rewrite fmap_app, not_elem_of_app in Hy. destruct Hy as [Hy Hyl].
    rewrite <- Hf by done. simpl in Hyl.
    assert (y <> a) by (intros ->; apply Hy; rewrite Ea; destruct xs as [|[x bx] xs]; set_solver).
    assert (y <> z) by (intros ->; apply Hy; rewrite fmap_app; set_solver).
    rewrite !lookup_alter_ne, lookup_insert_ne by set_solver. done.
  - intros y Hy. rewrite fmap_app, elem_of_app in Hy. destruct Hy as [Hy|Hy]; [by apply Hfr|].
    apply list_elem_of_singleton in Hy as ->. by rewrite <- Hf.
Qed.

Lemma holds_mallocs c o o' gb xs q F :
  holds (mk_heap c o) gb xs q F -> holds (mk_heap c o') gb xs q F.
Proof. intros []. by split. Qed.

Lemma fresh_node (c : gmap positive growbuffer) l d f :
  alter f l (<[l := d]> c) = <[l := f d]> c.
Proof.
  apply map_eq. intros k. destruct (decide (k = l)) as [->|Hk].
  - by simplify_map_eq.
  - rewrite lookup_alter_ne, !lookup_insert_ne by done. done.
Qed.

(** What [append_block] delivers when it does not fail: a last block with room. *)
Definition block_ready (h h' : heap) (gb' buf : ptr) q F (xs : list (positive * block)) :=
  exists xs' z bz, buf = Some z /\ holds h' gb' (xs' ++ [(z, bz)]) q F
    /\ b_start bz = 0 /\ length (b_bytes bz) < capacity
    /\ (occupied xs -> occupied xs')
    /\ (false ∈ mallocs h' -> false ∈ mallocs h).

Lemma in_tail {A} (x : A) l : x ∈ tail l -> x ∈ l.
Proof. destruct l; [done|]. simpl. set_solver. Qed.

Lemma append_block_empty h xs q F :
  holds h None xs q F ->
  (exists o, mallocs h = false :: o /\ append_block h None = Ret (mk_heap (cells h) o, None))
  \/ exists h' gb' buf, append_block h None = Ret (h', Some (gb', buf))
       /\ block_ready h h' gb' buf q F xs.
Proof.
  intros H. assert (xs = []) as ->.
  { destruct H as [Hr _ _ _ _]. by destruct xs as [|[]]; [|destruct Hr]. }
  unfold append_block. cbn [mbind outcome_bind].
  destruct (malloc_cases h) as [(o & Ho & ->)|(l & d & Hl & -> & ->)]; [left; by eexists|right].
  do 4 (erewrite modify_ok by (cbn; by rewrite ?fresh_node, lookup_insert_eq);
        cbn [cells mallocs mbind outcome_bind]; rewrite ?fresh_node).
  do 3 eexists. split; [reflexivity|].
  exists [], l, new_block. split_and!; try done.
  - apply holds_singleton with (mallocs h); [|done]. by destruct h.
  - apply capacity_pos.
  - apply in_tail.
Qed.

Lemma append_block_ring h gb xs z bz q F :
  holds h gb (xs ++ [(z, bz)]) q F -> b_start bz = 0 ->
  (exists o, mallocs h = false :: o /\ append_block h gb = Ret (mk_heap (cells h) o, None))
  \/ exists h' gb' buf, append_block h gb = Ret (h', Some (gb', buf))
       /\ block_ready h h' gb' buf q F (xs ++ [(z, bz)]).
Proof.
  intros H Hst. pose proof (holds_last _ _ _ _ _ _ _ H) as
    (a & g & -> & Ha & Hpg & Ea & Hz & Hnd & Hs).
  assert (block_ok bz) as Hok.
  { destruct H as [_ Hok _ _ _]. rewrite fmap_app in Hok. apply Forall_app in Hok as [_ Hok].
    by inversion Hok. }
  unfold append_block, load. rewrite Ha. cbn [defined mbind outcome_bind].
  rewrite Hpg, Hz. cbn [defined mbind outcome_bind Growbuffer.size node].
  case_bool_decide as Hfull.
  - destruct (malloc_cases h) as [(o & Ho & ->)|(l & d & Hl & -> & ->)];
      [left; by eexists|right].
    assert (l <> a) by congruence. assert (l <> z) by congruence.
    do 2 (erewrite modify_ok by (cbn; by rewrite ?fresh_node, lookup_insert_eq);
          cbn [cells mallocs mbind outcome_bind]; rewrite ?fresh_node).
    rewrite lookup_insert_ne, Ha by done. cbn [defined mbind outcome_bind]. rewrite Hpg.
    do 2 (erewrite modify_ok by (cbn; by rewrite ?fresh_node, lookup_insert_eq);
          cbn [cells mallocs mbind outcome_bind]; rewrite ?fresh_node).
    erewrite modify_ok by (cbn; rewrite lookup_insert_ne by done; exact Hz).
    cbn [cells mallocs mbind outcome_bind].
    assert (exists g', alter (set_next (Some l)) z
              (<[l := node z a new_block]> (cells h)) !! a = Some g') as [g' Hg'].
    { destruct (decide (z = a)) as [->|Hza].
      - rewrite lookup_alter, decide_True, lookup_insert_ne, Hz by done. by eexists.
      - rewrite lookup_alter_ne, lookup_insert_ne by done. by eexists. }
    erewrite modify_ok by exact Hg'. cbn [cells mallocs mbind outcome_bind].
    do 3 eexists. split; [reflexivity|].
    exists (xs ++ [(z, bz)]), l, new_block. split_and!; try done.
    + by apply holds_snoc.
    + apply capacity_pos.
    + apply in_tail.
  - right. do 3 eexists. split; [reflexivity|].
    exists xs, z, bz. split_and!; try done.
    + rewrite <- capacity_Z in Hfull. pose proof (ok_fits _ Hok). lia.
    + unfold occupied. rewrite fmap_app, Forall_app. tauto.
Qed.

Lemma append_block_spec h gb xs q F :
  holds h gb xs q F -> (forall x, last xs = Some x -> b_start x.2 = 0) ->
  (exists o, mallocs h = false :: o /\ append_block h gb = Ret (mk_heap (cells h) o, None))
  \/ exists h' gb' buf, append_block h gb = Ret (h', Some (gb', buf))
       /\ block_ready h h' gb' buf q F xs.
Proof.
  intros H Hst. destruct xs as [|[z bz] xs _] using rev_ind.
  - assert (gb = None) as -> by (by destruct H). by apply append_block_empty.
  - apply append_block_ring; [done|]. apply (Hst (z, bz)). by rewrite last_snoc.
Qed.

(** ** Writing into the last block *)

Definition extend (b : block) (src : list byte) : block :=
  mk_block (b_start b) (b_bytes b ++ src)
    (overwrite (length (b_bytes b)) (Some <$> src) (b_data b)).

Lemma extend_ok b src :
  block_ok b -> b_start b = 0 -> length (b_bytes b) + length src <= capacity ->
  block_ok (extend b src).
Proof.
  intros [Hl Hf Hc] Hs Hlen. unfold extend. split; cbn [b_data b_start b_bytes].
  - rewrite length_overwrite; [done|]. rewrite length_fmap. lia.
  - rewrite length_app. lia.
  - rewrite Hs, slice_0 in Hc |- *. rewrite length_app, fmap_app.
    rewrite <- (length_fmap Some src) at 1. rewrite take_overwrite.
    + by rewrite Hc.
    + rewrite length_fmap. lia.
Qed.

(** Replacing the contents of one block of the ring. *)
Lemma holds_alter h gb xs z b b' ys q F f :
  holds h gb (xs ++ (z, b) :: ys) q F -> block_ok b' ->
  (forall p n, cells h !! z = Some (node p n b) -> f (node p n b) = node p n b') ->
  holds (mk_heap (alter f z (cells h)) (mallocs h)) gb (xs ++ (z, b') :: ys)
    (contents (xs ++ (z, b') :: ys)) F.
Proof.
  intros [Hr Hok Hq Hf Hfr] Hb Hnode. split; simpl.
  - destruct xs as [|[a ba] xs]; simpl in Hr |- *.
    + destruct Hr as (-> & Hnd & Hs). split; [done|split; [done|]].
      by apply (seg_alter_block (cells h) (last_of z ys) [] z b).
    + destruct Hr as (-> & Hnd & Hs).
      assert (forall d, last_of d (xs ++ (z, b) :: ys) = last_of d (xs ++ (z, b') :: ys)) as El.
      { clear. induction xs as [|[x bx] xs IH]; intros d; simpl; auto. }
      split; [done|split].
      * by rewrite fmap_app in Hnd |- *.
      * rewrite <- El. apply (seg_alter_block (cells h) _ ((a, ba) :: xs) z b); [done|done|].
        exact Hs.
  - rewrite fmap_app in Hok |- *. apply Forall_app in Hok as [H1 H2].
    inversion H2; subst. apply Forall_app; split; [done|]. by constructor.
  - done.
  - intros l Hl. rewrite fmap_app in Hf, Hl. rewrite lookup_alter_ne by set_solver.
    by apply Hf.
  - intros l Hl. rewrite fmap_app in Hfr, Hl. by apply Hfr.
Qed.

Lemma writable_snoc h gb xs z b q F :
  holds h gb (xs ++ [(z, b)]) q F -> occupied xs -> b_start b = 0 -> b_bytes b <> [] ->
  writable h gb q F.
Proof.
  intros H Ho Hs Hb. exists (xs ++ [(z, b)]). split_and!; [done| |].
  - unfold occupied. rewrite fmap_app, Forall_app. split; [done|]. by repeat constructor.
  - intros x. rewrite last_snoc. by intros [= <-].
Qed.

Lemma append_step_spec h gb q F src n :
  writable h gb q F -> (0 < n <= Z.of_nat (length src))%Z ->
  (exists o, mallocs h = false :: o /\ append_step h gb src n = Ret (mk_heap (cells h) o, None))
  \/ exists h' gb' k, append_step h gb src n = Ret (h', Some (gb', k))
       /\ (0 < k <= n)%Z /\ writable h' gb' (q ++ take (Z.to_nat k) src) F
       /\ (false ∈ mallocs h' -> false ∈ mallocs h).
Proof.
  intros (xs & H & Hocc & Hst) Hn. unfold append_step.
  destruct (append_block_spec _ _ _ _ _ H Hst)
    as [(o & Ho & ->)|(h' & gb' & buf & -> & xs' & z & bz & -> & H' & Hs & Hroom & Hocc' & Hm)];
    [left; by eexists|right].
  pose proof (holds_last _ _ _ _ _ _ _ H') as (a & g & -> & _ & _ & _ & Hz & _ & _).
  assert (block_ok bz) as Hok.
  { destruct H' as [_ Hok _ _ _]. rewrite fmap_app in Hok. apply Forall_app in Hok as [_ Hok].
    by inversion Hok. }
  cbn [mbind outcome_bind]. unfold load. rewrite Hz. cbn [defined mbind outcome_bind].
  set (k := if bool_decide _ then n else _). cbn [Growbuffer.size node] in k.
  assert (0 < k <= n /\ Z.of_nat (length (b_bytes bz)) + k <= data_size)%Z as [Hk Hkf].
  { unfold k. rewrite <- capacity_Z. case_bool_decide; lia. }
  unfold memcpy_in. cbn [Growbuffer.size node].
  rewrite bool_decide_eq_true_2 by lia. cbn [mbind outcome_bind].
  erewrite modify_ok by exact Hz. cbn [mbind outcome_bind].
  do 3 eexists. split_and!; [reflexivity|lia|lia| |done].
  set (src' := take (Z.to_nat k) src).
  assert (length src' = Z.to_nat k) as Hsrc by (unfold src'; rewrite length_take; lia).
  rewrite <- capacity_Z in Hkf.
  assert (block_ok (extend bz src')) as Hok' by (apply extend_ok; [done|done|lia]).
  pose proof (holds_alter _ _ _ _ _ (extend bz src') _ _ _
    (fun _ => set_size (Z.of_nat (length (b_bytes bz)) + k)
       (set_data (overwrite (Z.to_nat (Z.of_nat (length (b_bytes bz)))) (Some <$> src')
          (b_data bz)) (node (last_of z xs') a bz))) H' Hok') as Hnew.
  rewrite contents_snoc in Hnew. cbn [extend b_bytes] in Hnew.
  rewrite app_assoc, <- (contents_snoc xs' z bz) in Hnew.
  rewrite (h_contents _ _ _ _ _ H') in Hnew.
  apply (writable_snoc _ _ xs' z (extend bz src')); [apply Hnew|auto|done|].
  - intros p m Hpm. rewrite Hz in Hpm. injection Hpm as <- <-.
    unfold node, set_size, set_data, extend. cbn. rewrite length_app, Hsrc, Nat2Z.id.
    f_equal. lia.
  - cbn. intros E. apply (f_equal length) in E. rewrite length_app, Hsrc in E. simpl in E. lia.
Qed.

Lemma append_loop_spec fuel orig h gb q F src n :
  writable h gb q F -> (0 <= n <= Z.of_nat (length src))%Z -> Z.to_nat n <= fuel ->
  exists h' gb' r k, append_loop fuel orig h gb src n = Ret (h', gb', r)
    /\ writable h' gb' (q ++ take k src) F
    /\ ((r = orig /\ k = Z.to_nat n) \/ (r = 0%Z /\ k < Z.to_nat n /\ false ∈ mallocs h))
    /\ (false ∈ mallocs h' -> false ∈ mallocs h).
Proof.
  revert h gb q src n. induction fuel as [|fuel IH]; intros h gb q src n Hw Hn Hf;
    simpl; case_bool_decide as Hn0.
  1, 3: subst n; do 4 eexists; split_and!; [done|rewrite take_0, app_nil_r; done|by left|done].
  - lia.
  - destruct (append_step_spec h gb q F src n Hw) as [(o & Ho & ->)|
      (h' & gb' & k & -> & Hk & Hw' & Hm)]; [lia|..]; cbn [mbind outcome_bind].
    + exists (mk_heap (cells h) o), gb, 0%Z, 0. rewrite Ho. split_and!; [done| | |set_solver].
      * rewrite take_0, app_nil_r. destruct Hw as (xs & H & Hw). exists xs.
        split; [|done]. destruct h. by eapply holds_mallocs.
      * right. split_and!; [done|lia|]. set_solver.
    + destruct (IH h' gb' (q ++ take (Z.to_nat k) src) (drop (Z.to_nat k) src) (n - k)%Z)
        as (h'' & gb'' & r & m & -> & Hw'' & Hr & Hm'); [done|rewrite length_drop; lia|lia|].
      exists h'', gb'', r, (Z.to_nat k + m). split_and!; [done| | |auto].
      * by rewrite <- app_assoc, take_take_drop in Hw''.
      * destruct Hr as [[-> ->]|(-> & Hlt & Hin)]; [left; split; [done|lia]|right].
        split_and!; [done|lia|auto].
Qed.

Lemma append_spec h gb q F src n :
  writable h gb q F -> (0 <= n <= Z.of_nat (length src))%Z ->
  exists h' gb' r k, growbuffer_append h gb src n = Ret (h', gb', r)
    /\ writable h' gb' (q ++ take k src) F
    /\ ((r = n /\ k = Z.to_nat n) \/ (r = 0%Z /\ k < Z.to_nat n /\ false ∈ mallocs h))
    /\ (false ∈ mallocs h' -> false ∈ mallocs h).
Proof.
  intros Hw Hn. by apply append_loop_spec.
Qed.

(** [growbuffer_append] appends: on a queue that has not been partly read
    it never crashes and never runs short of fuel; without a failed [malloc] it
    returns [dataLen] and the queue holds the old bytes followed by the first
    [dataLen] bytes of the input; when a [malloc] fails it returns 0 and a
    prefix of the input, shorter than asked, has been appended. The rest of the
    store [F] is untouched either way. *)
Theorem growbuffer_append_appends h gb q F src n :
  writable h gb q F -> (0 <= n <= Z.of_nat (length src))%Z ->
  exists h' gb' r k, growbuffer_append h gb src n = Ret (h', gb', r)
    /\ writable h' gb' (q ++ take k src) F
    /\ ((r = n /\ k = Z.to_nat n) \/ (r = 0%Z /\ k < Z.to_nat n /\ false ∈ mallocs h)).
Proof.
  intros Hw Hn. destruct (append_spec h gb q F src n Hw Hn)
    as (h' & gb' & r & k & E & Hw' & Hr & _). by exists h', gb', r, k.
Qed.

(** ** Reading *)

Lemma mapM_id_Some {A} (l : list A) : mapM id (Some <$> l) = Some l.
Proof. induction l as [|x l IH]; [done|]. cbn. by rewrite IH. Qed.

Definition consume (b : block) (k : nat) : block :=
  mk_block (b_start b + k) (drop k (b_bytes b)) (b_data b).

Lemma consume_ok b k : block_ok b -> k <= length (b_bytes b) -> block_ok (consume b k).
Proof.
  intros [Hl Hf Hc] Hk. unfold consume. split; cbn [b_start b_bytes b_data].
  - done.
  - rewrite length_drop. lia.
  - rewrite length_drop, <- slice_suffix, Hc by done. by rewrite fmap_drop.
Qed.

Lemma memcpy_out_ok p n b k :
  block_ok b -> k <= length (b_bytes b) ->
  memcpy_out (node p n b) (Z.of_nat k) = Ret (take k (b_bytes b)).
Proof.
  intros [Hl Hf Hc] Hk. unfold memcpy_out. cbn [start node data].
  rewrite bool_decide_eq_true_2 by (rewrite <- capacity_Z; lia).
  rewrite !Nat2Z.id, <- (slice_prefix _ _ (length (b_bytes b))), Hc by done.
  by rewrite <- fmap_take, mapM_id_Some.
Qed.

(** Dropping the emptied first block: the last block's [next], the second
    block's [prev], then the block itself. *)
Lemma holds_unlink c o a ba b bb tl q F z :
  holds (mk_heap c o) (Some a) ((a, ba) :: (b, bb) :: tl) q F -> z = last_of b tl ->
  holds (mk_heap (delete a (alter (set_prev (Some z)) b (alter (set_next (Some b)) z c))) o)
    (Some b) ((b, bb) :: tl) (contents ((b, bb) :: tl)) F.
Proof.
  intros [Hr Hok Hq Hf Hfr] ->. set (ys := (b, bb) :: tl) in *.
  assert (last_of b tl = last_of a ys) as Ez by done.
  destruct Hr as (_ & Hnd & Ha & Hs). fold ys in Hnd, Hs. cbn [fmap list_fmap] in Hnd.
  apply NoDup_cons in Hnd as [Hay Hnd]. cbn [fst] in *.
  assert (last_of b tl ∈ ys.*1) as Hz by (rewrite Ez; by apply last_of_in).
  assert (b ∈ ys.*1) as Hb by (subst ys; set_solver).
  split; cbn [cells].
  - split; [done|split; [done|]].
    apply (seg_ext (alter (set_prev (Some (last_of b tl))) b
                      (alter (set_next (Some b)) (last_of b tl) c))).
    { intros l Hl. apply lookup_delete_ne. intros ->. by apply Hay. }
    apply (seg_set_prev _ a b bb tl b); [done|].
    rewrite Ez. by apply seg_set_next with a.
  - by inversion Hok.
  - by unfold ys.
  - intros l Hl. destruct (decide (l = a)) as [->|Hla].
    + rewrite lookup_delete_eq, Hfr; [done|]. cbn. set_solver.
    + rewrite lookup_delete_ne, !lookup_alter_ne by (congruence || (intros ->; tauto)).
      apply Hf. cbn. set_solver.
  - intros l Hl. apply Hfr. cbn. set_solver.
Qed.

Lemma holds_free_last c o a ba q F :
  holds (mk_heap c o) (Some a) [(a, ba)] q F ->
  holds (mk_heap (delete a c) o) None [] [] F.
Proof.
  intros [_ _ _ Hf Hfr]. split; [done|constructor|done| |].
  - intros l _. simpl. destruct (decide (l = a)) as [->|Hla].
    + rewrite lookup_delete_eq, Hfr; [done|]. cbn. set_solver.
    + rewrite lookup_delete_ne by done. apply Hf. cbn. set_solver.
  - intros l Hl. by apply elem_of_nil in Hl.
Qed.

(** The number of bytes one read delivers: at most [amt], and at most what the
    first block holds. *)
Definition chunk (xs : list (positive * block)) (amt : Z) : nat :=
  match xs with
  | [] => 0
  | (_, b) :: _ => Nat.min (Z.to_nat amt) (length (b_bytes b))
  end.

Lemma last_of_mem a b bb tl c o ba q F :
  holds (mk_heap c o) (Some a) ((a, ba) :: (b, bb) :: tl) q F ->
  last_of b tl <> a /\ b <> a
  /\ is_Some (c !! last_of b tl) /\ is_Some (c !! b).
Proof.
  intros [(_ & Hnd & _ & Hs) _ _ _ _]. cbn [fmap list_fmap cells] in *.
  apply NoDup_cons in Hnd as [Ha _]. cbn [fst] in Ha.
  assert (last_of b tl ∈ ((b, bb) :: tl).*1) as Hz by (by apply (last_of_in a ((b, bb) :: tl))).
  assert (forall l, l ∈ ((b, bb) :: tl).*1 -> is_Some (c !! l)) as Hd.
  { intros l Hin. apply list_elem_of_fmap in Hin as ([l' b'] & -> & Hin).
    apply list_elem_of_split in Hin as (xs1 & xs2 & E). rewrite E in Hs.
    apply seg_lookup in Hs. by eexists. }
  split_and!; [by intros E; apply Ha; rewrite <- E|by intros ->; apply Ha; left|auto|].
  apply Hd. by left.
Qed.

Lemma release_empty_ok c o a ba tl q F :
  holds (mk_heap c o) (Some a) ((a, ba) :: tl) q F -> b_bytes ba = [] ->
  exists c' gb', release_empty (mk_heap c o) (Some a)
                   (node (last_of a tl) (first_of a tl) ba) = Ret (mk_heap c' o, gb')
    /\ holds (mk_heap c' o) gb' tl q F.
Proof.
  intros H Hb. assert (contents tl = q) as Hq.
  { rewrite <- (h_contents _ _ _ _ _ H), contents_cons, Hb. done. }
  pose proof H as [(_ & _ & Ha & _) _ _ _ _]. cbn [cells] in Ha.
  unfold release_empty. cbn [Growbuffer.size node next prev].
  rewrite Hb, bool_decide_eq_true_2 by done. destruct tl as [|[b bb] tl].
  - rewrite bool_decide_eq_true_2 by done. erewrite free_ok by exact Ha.
    do 2 eexists. split; [reflexivity|]. rewrite <- Hq. by eapply holds_free_last.
  - destruct (last_of_mem _ _ _ _ _ _ _ _ _ H) as (Hza & Hba & [nz Hz] & [nb Hnb]).
    cbn [first_of last_of] in *. rewrite bool_decide_eq_false_2 by (by intros [= ->]).
    erewrite modify_ok by exact Hz. unfold load. cbn [cells mallocs mbind outcome_bind].
    rewrite lookup_alter_ne, Ha by done. cbn [defined mbind outcome_bind next prev node].
    assert (exists nb', alter (set_next (Some b)) (last_of b tl) c !! b = Some nb') as [nb' Hnb'].
    { rewrite lookup_alter, ?Hz, ?Hnb. case_decide; by eexists. }
    erewrite modify_ok by exact Hnb'. cbn [cells mallocs mbind outcome_bind].
    erewrite free_ok by (cbn; rewrite !lookup_alter_ne by done; exact Ha).
    cbn [cells mallocs mbind outcome_bind].
    do 2 eexists. split; [reflexivity|]. rewrite <- Hq. by eapply holds_unlink.
Qed.

Lemma consume_holds h a ba tl q F k f :
  holds h (Some a) ((a, ba) :: tl) q F -> k <= length (b_bytes ba) ->
  (forall p n, cells h !! a = Some (node p n ba) -> f (node p n ba) = node p n (consume ba k)) ->
  holds (mk_heap (alter f a (cells h)) (mallocs h)) (Some a)
    ((a, consume ba k) :: tl) (drop k q) F.
Proof.
  intros H Hk Hf. assert (block_ok ba) as Hok by (destruct H as [_ Hok _ _ _]; by inversion Hok).
  pose proof (holds_alter h (Some a) [] a ba _ _ _ _ f H (consume_ok _ _ Hok Hk) Hf) as H1.
  rewrite <- (h_contents _ _ _ _ _ H), contents_cons, drop_app_le by done. exact H1.
Qed.

Lemma read_step h gb xs q F amt :
  holds h gb xs q F -> occupied xs -> (0 <= amt)%Z ->
  exists h' gb' xs', growbuffer_read h gb amt
      = Ret (h', gb', Z.of_nat (chunk xs amt), take (chunk xs amt) q)
    /\ holds h' gb' xs' (drop (chunk xs amt) q) F /\ occupied xs'.
Proof.
  intros H Ho Ha. destruct xs as [|[a ba] tl].
  { exists h, gb, []. assert (gb = None) as -> by (by destruct H).
    unfold chunk. by rewrite take_0, drop_0. }
  pose proof H as [(-> & _ & Hl & _) Hok Hq _ _].
  inversion Hok as [|? ? Hba _]; subst. inversion Ho as [|? ? Hne Ho']; subst.
  simpl in Hba, Hne. set (k := chunk ((a, ba) :: tl) amt).
  assert (k <= length (b_bytes ba)) as Hk by (unfold k, chunk; lia).
  unfold growbuffer_read, load. rewrite Hl. cbn [defined mbind outcome_bind].
  cbn [Growbuffer.size start node].
  replace (if bool_decide (Z.of_nat (length (b_bytes ba)) > amt)%Z then amt
           else Z.of_nat (length (b_bytes ba))) with (Z.of_nat k)
    by (unfold k, chunk; case_bool_decide; lia).
  rewrite memcpy_out_ok by done. cbn [mbind outcome_bind].
  erewrite modify_ok by exact Hl. cbn [mbind outcome_bind].
  set (b' := set_size _ _).
  assert (b' = node (last_of a tl) (first_of a tl) (consume ba k)) as ->.
  { unfold b', node, set_size, set_start, consume. cbn. rewrite length_drop. f_equal; lia. }
  assert (holds (mk_heap (alter (fun _ => node (last_of a tl) (first_of a tl) (consume ba k))
                            a (cells h)) (mallocs h)) (Some a)
            ((a, consume ba k) :: tl) (drop k (contents ((a, ba) :: tl))) F) as H1.
  { apply (consume_holds h); [done|done|]. intros p n Hpn. rewrite Hl in Hpn. by injection Hpn as <- <-. }
  rewrite (contents_cons a ba), take_app_le, <- (contents_cons a ba) by done.
  destruct (decide (k = length (b_bytes ba))) as [Ek|Ek].
  - destruct (release_empty_ok _ _ _ _ _ _ _ H1) as (c' & gb' & -> & H2).
    { cbn [consume b_bytes]. by rewrite Ek, drop_all. }
    exists (mk_heap c' (mallocs h)), gb', tl. by split_and!.
  - unfold release_empty. cbn [Growbuffer.size node consume b_bytes].
    rewrite length_drop, bool_decide_eq_false_2 by lia. do 3 eexists.
    split_and!; [reflexivity|exact H1|]. constructor; [|done].
    cbn [snd consume b_bytes]. intros E. apply (f_equal length) in E.
    rewrite length_drop in E. cbn [length] in E. lia.
Qed.

Lemma chunk_bounds xs amt :
  (0 <= amt)%Z -> chunk xs amt <= Z.to_nat amt /\ chunk xs amt <= length (contents xs)
  /\ (occupied xs -> (0 < amt)%Z -> contents xs <> [] -> 0 < chunk xs amt).
Proof.
  intros Ha. destruct xs as [|[a ba] tl]; simpl; [split_and!; [lia|lia|done]|].
  rewrite contents_cons, length_app. split_and!; [lia|lia|].
  intros Ho Hp _. inversion Ho as [|? ? Hne _]; subst. simpl in Hne.
  destruct (b_bytes ba); [done|]. simpl. lia.
Qed.

Lemma read_spec h gb q F amt :
  stored h gb q F -> (0 <= amt)%Z ->
  exists h' gb' k, growbuffer_read h gb amt = Ret (h', gb', Z.of_nat k, take k q)
    /\ stored h' gb' (drop k q) F /\ (Z.of_nat k <= amt)%Z /\ k <= length q
    /\ ((0 < amt)%Z -> q <> [] -> 0 < k).
Proof.
  intros (xs & H & Ho) Ha. destruct (read_step h gb xs q F amt H Ho Ha)
    as (h' & gb' & xs' & -> & H' & Ho').
  destruct (chunk_bounds xs amt Ha) as (H1 & H2 & H3).
  rewrite (h_contents _ _ _ _ _ H) in *.
  exists h', gb', (chunk xs amt). split_and!; [done|by exists xs'|lia|done|auto].
Qed.

(** [growbuffer_read] takes a prefix: it never crashes, it delivers the
    first [k <= amt] bytes of the queue and leaves exactly the others, and it
    makes progress: a positive request on a non-empty queue delivers at least
    one byte. The rest of the store [F] is untouched. *)
Theorem growbuffer_read_prefix h gb q F amt :
  stored h gb q F -> (0 <= amt)%Z ->
  exists h' gb' k, growbuffer_read h gb amt = Ret (h', gb', Z.of_nat k, take k q)
    /\ stored h' gb' (drop k q) F /\ (Z.of_nat k <= amt)%Z /\ k <= length q
    /\ ((0 < amt)%Z -> q <> [] -> 0 < k).
Proof. apply read_spec. Qed.

(** ** Destroying *)

Lemma destroy_loop_spec fuel c o a b tl F f pv :
  length tl < fuel ->
  seg c pv ((a, b) :: tl) f -> NoDup ((a, b) :: tl).*1 -> f ∉ tl.*1 ->
  (forall l, l ∉ ((a, b) :: tl).*1 -> c !! l = F !! l) ->
  (forall l, l ∈ ((a, b) :: tl).*1 -> F !! l = None) ->
  destroy_loop fuel (mk_heap c o) (Some f) (Some a) = Ret (mk_heap F o).
Proof.
  revert c a b fuel pv. induction tl as [|[a2 b2] tl IH];
    intros c a b [|fuel] pv Hfu [Ha Hs] Hnd Hft Hf Hfr; simpl in Hfu; try lia.
  all: cbn [destroy_loop]; unfold load; cbn [cells]; rewrite Ha;
    cbn [defined mbind outcome_bind]; erewrite free_ok by exact Ha;
    cbn [cells mallocs mbind outcome_bind next node first_of].
  - rewrite bool_decide_eq_true_2 by done. destruct fuel; simpl; do 2 f_equal;
      apply map_eq; intros l; destruct (decide (l = a)) as [->|Hl].
    1, 3: rewrite lookup_delete_eq, Hfr; [done|left].
    all: rewrite lookup_delete_ne by done; apply Hf; by intros ->%list_elem_of_singleton.
  - cbn in Hnd, Hft. apply NoDup_cons in Hnd as [Hax Hnd].
    rewrite bool_decide_eq_false_2 by (intros [= ->]; apply Hft; left).
    apply (IH _ a2 b2 fuel a); [lia| |done| | |].
    + apply (seg_ext c); [|exact Hs]. intros l Hl. apply lookup_delete_ne. by intros ->.
    + intros Hin. apply Hft. by right.
    + intros l Hl. destruct (decide (l = a)) as [->|Hla].
      * rewrite lookup_delete_eq, Hfr; [done|left].
      * rewrite lookup_delete_ne by done. apply Hf. cbn. by rewrite not_elem_of_cons.
    + intros l Hl. apply Hfr. by right.
Qed.

Lemma ring_size h gb xs q F : holds h gb xs q F -> length xs <= base.size (cells h).
Proof.
  intros H. destruct xs as [|[a ba] tl]; [simpl; lia|].
  pose proof H as [(_ & Hnd & _) _ _ _ _].
  rewrite <- (length_fmap fst), <- (size_list_to_set (C := gset positive)) by done.
  rewrite <- size_dom. apply subseteq_size. intros l Hl.
  apply elem_of_list_to_set in Hl. apply elem_of_dom.
  destruct (cells h !! l) as [g|] eqn:E; [by eexists|].
  by apply (fresh_not_in _ _ _ _ _ _ H) in E.
Qed.

Lemma destroy_spec h gb q F :
  stored h gb q F -> growbuffer_destroy h gb = Ret (mk_heap F (mallocs h)).
Proof.
  intros (xs & H & _). unfold growbuffer_destroy.
  pose proof (ring_size _ _ _ _ _ H) as Hsz.
  destruct h as [c o], H as [Hr _ _ Hf Hfr]. destruct xs as [|[a ba] tl].
  - rewrite Hr. destruct (base.size _); simpl; do 2 f_equal; apply map_eq;
      intros l; apply Hf; set_solver.
  - destruct Hr as (-> & Hnd & Hs). cbn [cells mallocs] in *.
    apply (destroy_loop_spec _ _ _ _ ba tl _ _ (last_of a tl)); try done.
    cbn in Hnd. by apply NoDup_cons in Hnd as [Hnd _].
Qed.

(** [growbuffer_destroy] frees exactly the queue: it terminates without a
    double free or a use of freed memory, and what is left of the store is
    exactly the rest [F], so no block of the queue leaks. *)
Theorem growbuffer_destroy_frees h gb q F :
  stored h gb q F -> growbuffer_destroy h gb = Ret (mk_heap F (mallocs h)).
Proof. apply destroy_spec. Qed.

(** ** Filling and draining

    The client (the multipart commit) fills the queue with several appends and
    then drains it with bounded reads. *)

Fixpoint append_all (h : heap) (gb : ptr) (ss : list (list byte)) : outcome (heap * ptr) :=
  match ss with
  | [] => Ret (h, gb)
  | s :: ss =>
      r ← growbuffer_append h gb s (Z.of_nat (length s));
      append_all r.1.1 r.1.2 ss
  end.

(** Reads of [amt] bytes until one returns nothing. *)
Fixpoint drain (fuel : nat) (h : heap) (gb : ptr) (amt : Z) : outcome (heap * ptr * list byte) :=
  match fuel with
  | O => NoFuel
  | S fuel =>
      r ← growbuffer_read h gb amt;
      let '(h, gb, n, out) := r in
      if bool_decide (n = 0)%Z then Ret (h, gb, [])
      else
        r ← drain fuel h gb amt;
        Ret (r.1, out ++ r.2)
  end.

Lemma append_all_spec h gb q F ss :
  writable h gb q F -> false ∉ mallocs h ->
  exists h' gb', append_all h gb ss = Ret (h', gb') /\ writable h' gb' (q ++ concat ss) F.
Proof.
  revert h gb q. induction ss as [|s ss IH]; intros h gb q Hw Hm; simpl.
  { exists h, gb. by rewrite app_nil_r. }
  set (n := Z.of_nat (length s)).
  destruct (append_loop_spec (Z.to_nat n) n h gb q F s n Hw)
    as (h' & gb' & r & k & E & Hw' & Hr & Hm'); [lia|done|].
  unfold growbuffer_append. rewrite E. simpl.
  destruct Hr as [[-> ->]|(_ & _ & Hin)]; [|done].
  unfold n in Hw'. rewrite Nat2Z.id, firstn_all in Hw'.
  destruct (IH h' gb' (q ++ s) Hw') as (h'' & gb'' & -> & Hw''); [tauto|].
  exists h'', gb''. by rewrite <- app_assoc in Hw''.
Qed.

Lemma stored_nil h gb F : stored h gb [] F -> gb = None /\ cells h = F.
Proof.
  intros (xs & [Hr _ Hq Hf _] & Ho). destruct xs as [|[a ba] tl].
  - split; [done|]. apply map_eq. intros l. apply Hf. cbn. apply not_elem_of_nil.
  - inversion Ho as [|? ? Hne _]; subst. rewrite contents_cons in Hq.
    apply app_nil in Hq as [Hq _]. done.
Qed.

Lemma drain_spec fuel h gb q F amt :
  stored h gb q F -> (0 < amt)%Z -> length q < fuel ->
  exists h', drain fuel h gb amt = Ret (h', None, q) /\ cells h' = F.
Proof.
  revert h gb q. induction fuel as [|fuel IH]; intros h gb q Hs Ha Hf; [lia|].
  destruct (growbuffer_read_prefix h gb q F amt Hs) as (h' & gb' & k & E & Hs' & Hk & Hkl & Hp);
    [lia|]. simpl. rewrite E. simpl. case_bool_decide as Hk0.
  - assert (k = 0) as -> by lia. destruct q as [|x q].
    + rewrite drop_0 in Hs'. apply stored_nil in Hs' as [-> <-]. by exists h'.
    + specialize (Hp Ha ltac:(done)). lia.
  - destruct (IH h' gb' (drop k q) Hs' Ha) as (h'' & -> & HF); [rewrite length_drop; lia|].
    exists h''. simpl. by rewrite take_drop.
Qed.

(** C19. Round trip of the commit body: appending any list of byte strings to an
    empty queue, while no [malloc] fails, and then reading with any positive
    buffer size until nothing comes returns their concatenation, and leaves an
    empty queue and the store as it was before the first append. *)
Theorem growbuffer_round_trip h ss amt fuel :
  false ∉ mallocs h -> (0 < amt)%Z -> length (concat ss) < fuel ->
  exists h1 gb h2, append_all h None ss = Ret (h1, gb)
    /\ drain fuel h1 gb amt = Ret (h2, None, concat ss) /\ cells h2 = cells h.
Proof.
  intros Hm Ha Hf.
  destruct (append_all_spec h None [] (cells h) ss (writable_empty h) Hm)
    as (h1 & gb & E & Hw). simpl in Hw.
  destruct (drain_spec fuel h1 gb (concat ss) (cells h) amt (writable_stored _ _ _ _ Hw) Ha Hf)
    as (h2 & E2 & HF). by exists h1, gb, h2.
Qed.

(** ** Witnesses and limits *)

Definition empty_heap : heap := mk_heap ∅ [].


(** Append after a partial read: the bytes are written at [data[size]] although
    the live bytes start at [data[start]], so unread bytes are overwritten. *)
Definition append_after_partial_read : outcome (list byte) :=
  r ← growbuffer_append empty_heap None (bytes_of "abcdef") 6;
  r ← growbuffer_read r.1.1 r.1.2 2;
  r ← growbuffer_append r.1.1.1 r.1.1.2 (bytes_of "XY") 2;
  r ← drain 10 r.1.1 r.1.2 10;
  Ret r.2.

(** Appending nothing succeeds and returns 0, the value documented as failure. *)
Lemma growbuffer_append_zero h gb src : growbuffer_append h gb src 0 = Ret (h, gb, 0%Z).
Proof. reflexivity. Qed.

(** The queue is a fill-then-drain buffer only: six bytes appended, two read,
    two more appended makes the drain read two bytes that were never written,
    because [growbuffer_append] writes at [data[size]] whatever [start] is. *)
Example growbuffer_append_partial_read : append_after_partial_read = Crash.
Proof. vm_compute. reflexivity. Qed.

Lemma growbuffer_append_appends_witness :
  exists h' gb' r k, growbuffer_append empty_heap None (bytes_of "hello") 5 = Ret (h', gb', r)
    /\ writable h' gb' ([] ++ take k (bytes_of "hello")) (cells empty_heap)
    /\ ((r = 5%Z /\ k = Z.to_nat 5) \/ (r = 0%Z /\ k < Z.to_nat 5 /\ false ∈ mallocs empty_heap)).
Proof.
  apply growbuffer_append_appends; [apply writable_empty|].
  vm_compute. split; discriminate.
Defined.

Lemma empty_heap_mallocs : false ∉ mallocs empty_heap.
Proof. apply not_elem_of_nil. Qed.

Lemma hello_stored : exists h gb, stored h gb (bytes_of "hello") ∅.
Proof.
  destruct (append_all_spec empty_heap None [] ∅ [bytes_of "hello"]
    (writable_empty empty_heap) empty_heap_mallocs) as (h & gb & _ & Hw).
  exists h, gb. by apply writable_stored.
Qed.

Lemma growbuffer_read_prefix_witness :
  exists h gb h' gb' k, growbuffer_read h gb 3
      = Ret (h', gb', Z.of_nat k, take k (bytes_of "hello"))
    /\ stored h' gb' (drop k (bytes_of "hello")) ∅ /\ (Z.of_nat k <= 3)%Z
    /\ k <= length (bytes_of "hello")
    /\ ((0 < 3)%Z -> bytes_of "hello" <> [] -> 0 < k).
Proof.
  destruct hello_stored as (h & gb & Hs). exists h, gb.
  apply (growbuffer_read_prefix h gb (bytes_of "hello") ∅ 3); [exact Hs|].
  vm_compute. discriminate.
Defined.

Lemma growbuffer_destroy_frees_witness :
  exists h gb, stored h gb (bytes_of "hello") ∅
    /\ growbuffer_destroy h gb = Ret (mk_heap ∅ (mallocs h)).
Proof.
  destruct hello_stored as (h & gb & Hs). exists h, gb. split; [exact Hs|].
  apply (growbuffer_destroy_frees h gb (bytes_of "hello") ∅). exact Hs.
Defined.

Lemma growbuffer_round_trip_witness :
  exists h1 gb h2,
    append_all empty_heap None [bytes_of "<Part>"; bytes_of "</Part>"] = Ret (h1, gb)
    /\ drain 20 h1 gb 4 = Ret (h2, None, concat [bytes_of "<Part>"; bytes_of "</Part>"])
    /\ cells h2 = cells empty_heap.
Proof.
  apply growbuffer_round_trip; [apply empty_heap_mallocs|reflexivity|].
  vm_compute. repeat constructor.
Defined.

End Growbuffer.
