(* ===== verification/MemQuota.v ===== *)
(** * mem_quota.c: the memory quota shared by the worker threads

    Every critical section of [quota_mutex] is one executable operation on the
    quota's state; the calls [quota_mem_alloc] .. [quota_mem_free] of one buffer
    form a session, and the sessions interleave at the points where the code
    holds no lock ([malloc], [free], waiting, signalling). *)

From Stdlib Require Import ZArith Lia.
From stdpp Require Import base gmap sets list relations.
From S2P Require Import Prelude.

Module MemQuota.

Local Open Scope Z_scope.
Local Open Scope estuary_scope.

(** ** State and critical sections *)

(** The static variables; all three are [size_t]. *)
Record quota := mk_quota {
  quota_total : Z;
  quota_left : Z;
  quota_waiters : Z
}.

(** [CT_MEM_QUOTA_SIZE] *)
Definition CT_MEM_QUOTA_SIZE : Z := 8 * 1024 * 1024 * 1024.

Definition quota_mem_init (quota_size : Z) : quota := mk_quota quota_size quota_size 0.

(** [quota_mem_alloc] from [retry]: the quota is reserved when it is enough
    ([true]); otherwise the caller is counted as a waiter and sleeps ([false]). *)
Definition alloc_section (q : quota) (alloc_size : Z) : quota * bool :=
  if bool_decide (alloc_size <= quota_left q) then
    (mk_quota (quota_total q) (quota_left q -u alloc_size) (quota_waiters q), true)
  else (mk_quota (quota_total q) (quota_left q) (quota_waiters q +u 1), false).

(** The return from [pthread_cond_wait] up to [goto retry]. *)
Definition wake_section (q : quota) : quota :=
  mk_quota (quota_total q) (quota_left q) (quota_waiters q -u 1).

(** "return quota": the section after a failed [malloc]. *)
Definition return_section (q : quota) (alloc_size : Z) : quota :=
  mk_quota (quota_total q) (quota_left q +u alloc_size) (quota_waiters q).

(** The section of [quota_mem_free]; the boolean is [notify_waiter]. *)
Definition free_section (q : quota) (mem_size : Z) : quota * bool :=
  (mk_quota (quota_total q) (quota_left q +u mem_size) (quota_waiters q),
   bool_decide (quota_waiters q <> 0)).

(** ** Sessions *)

(** Where a session stands; the argument is the size asked for. *)
Inductive session :=
  | Entry (sz : Z)       (* at [retry] of [quota_mem_alloc] *)
  | Reserved (sz : Z)    (* quota taken, before [malloc] *)
  | Failed (sz : Z)      (* [malloc] returned NULL, quota not yet returned *)
  | Waiting (sz : Z)     (* asleep in [pthread_cond_wait] *)
  | Woken (sz : Z)       (* woken, before the mutex is taken again *)
  | Holding (sz : Z)     (* the buffer was handed out *)
  | Notifying.           (* in [quota_mem_free], before [pthread_cond_signal] *)

Definition asked (s : session) : Z :=
  match s with
  | Entry sz | Reserved sz | Failed sz | Waiting sz | Woken sz | Holding sz => sz
  | Notifying => 0
  end.

(** Quota the session has taken out. *)
Definition owned (s : session) : Z :=
  match s with Reserved sz | Failed sz | Holding sz => sz | _ => 0 end.

(** Sessions counted in [quota_waiters]. *)
Definition counted (s : session) : Z :=
  match s with Waiting _ | Woken _ => 1 | _ => 0 end.

Definition is_waiting (s : session) : bool :=
  match s with Waiting _ => true | _ => false end.

Record config := mk_config {
  cfg_quota : quota;
  sessions : gmap nat session
}.

Definition initial (quota_size : Z) : config := mk_config (quota_mem_init quota_size) ∅.

Definition update (c : config) (q : quota) (i : nat) (s : session) : config :=
  mk_config q (<[i := s]> (sessions c)).
Definition finish (c : config) (q : quota) (i : nat) : config :=
  mk_config q (delete i (sessions c)).

(** What a step is due to: a new call, a spurious wake-up, or the code itself. *)
Inductive cause := Call | Spurious | Code.

Section Steps.
(** Whether [malloc] can return NULL, and a bound on the sizes asked for. *)
Context (malloc_may_fail : bool) (max_request : Z).

(** One step of one session. [pthread_cond_signal] wakes one sleeping session
    if there is one; a session may also wake spuriously, as POSIX allows. *)
Inductive step (c : config) : cause -> config -> Prop :=
  | s_call i sz :
      sessions c !! i = None -> 0 <= sz <= max_request ->
      Z.of_nat (size (sessions c)) + 1 < two64 ->
      step c Call (update c (cfg_quota c) i (Entry sz))
  | s_alloc i sz q ok :
      sessions c !! i = Some (Entry sz) -> alloc_section (cfg_quota c) sz = (q, ok) ->
      step c Code (update c q i (if (ok : bool) then Reserved sz else Waiting sz))
  | s_malloc_ok i sz :
      sessions c !! i = Some (Reserved sz) ->
      step c Code (update c (cfg_quota c) i (Holding sz))
  | s_malloc_null i sz :
      malloc_may_fail = true -> sessions c !! i = Some (Reserved sz) ->
      step c Code (update c (cfg_quota c) i (Failed sz))
  | s_return i sz :
      sessions c !! i = Some (Failed sz) ->
      step c Code (finish c (return_section (cfg_quota c) sz) i)
  | s_free i sz q notify :
      sessions c !! i = Some (Holding sz) -> free_section (cfg_quota c) sz = (q, notify) ->
      step c Code (if (notify : bool) then update c q i Notifying else finish c q i)
  | s_signal_one i j sz :
      sessions c !! i = Some Notifying -> sessions c !! j = Some (Waiting sz) ->
      step c Code (finish (update c (cfg_quota c) j (Woken sz)) (cfg_quota c) i)
  | s_signal_none i :
      sessions c !! i = Some Notifying ->
      (forall j s, sessions c !! j = Some s -> is_waiting s = false) ->
      step c Code (finish c (cfg_quota c) i)
  | s_spurious i sz :
      sessions c !! i = Some (Waiting sz) ->
      step c Spurious (update c (cfg_quota c) i (Woken sz))
  | s_resume i sz :
      sessions c !! i = Some (Woken sz) ->
      step c Code (update c (wake_section (cfg_quota c)) i (Entry sz)).

Definition any_step (c c' : config) : Prop := exists k, step c k c'.
Definition code_step (c c' : config) : Prop := step c Code c'.

Definition reachable (quota_size : Z) (c : config) : Prop :=
  rtc any_step (initial quota_size) c.
End Steps.

(** ** The accounting invariant *)

Record accounted (total max_request : Z) (c : config) : Prop := {
  a_total : quota_total (cfg_quota c) = total;
  a_sizes : forall i s, sessions c !! i = Some s -> 0 <= asked s <= max_request;
  a_threads : Z.of_nat (size (sessions c)) < two64;
  a_left : quota_left (cfg_quota c) = total - msum owned (sessions c);
  a_left_nonneg : 0 <= quota_left (cfg_quota c);
  a_waiters : quota_waiters (cfg_quota c) = msum counted (sessions c)
}.

Lemma owned_range s : 0 <= asked s -> 0 <= owned s <= asked s.
Proof. destruct s; simpl; lia. Qed.

Lemma counted_range s : 0 <= counted s <= 1.
Proof. destruct s; simpl; lia. Qed.

Section Accounting.
Context (total max_request : Z) (Htotal : 0 <= total < two64).

Lemma owned_sum_nonneg c : accounted total max_request c -> 0 <= msum owned (sessions c).
Proof.
  intros H. apply msum_nonneg. intros i s Hi. apply owned_range, (a_sizes _ _ _ H i s Hi).
Qed.

Lemma left_range c : accounted total max_request c -> 0 <= quota_left (cfg_quota c) <= total.
Proof.
  intros H. pose proof (owned_sum_nonneg c H). destruct H. lia.
Qed.

Lemma owned_le c i s :
  accounted total max_request c -> sessions c !! i = Some s -> owned s <= msum owned (sessions c).
Proof.
  intros H Hi. apply (msum_ge owned (sessions c) i); [|done].
  intros j t Hj. apply owned_range, (a_sizes _ _ _ H j t Hj).
Qed.

Lemma counted_le c i s :
  sessions c !! i = Some s -> counted s <= msum counted (sessions c).
Proof. apply msum_ge. intros. apply counted_range. Qed.

Lemma counted_sum_range c :
  accounted total max_request c -> 0 <= msum counted (sessions c) < two64.
Proof.
  intros H. split; [apply msum_nonneg; intros; apply counted_range|].
  pose proof (msum_le_size counted (sessions c) (fun s => proj2 (counted_range s))).
  pose proof (a_threads _ _ _ H). lia.
Qed.

(** Replacing the state of a session, given what it changes. *)
Lemma accounted_update c q i s t :
  accounted total max_request c -> sessions c !! i = Some s ->
  quota_total q = total -> 0 <= asked t <= max_request ->
  quota_left q = quota_left (cfg_quota c) + owned s - owned t -> 0 <= quota_left q ->
  quota_waiters q = quota_waiters (cfg_quota c) - counted s + counted t ->
  accounted total max_request (update c q i t).
Proof.
  intros [Ht Hs Hn Hl Hl0 Hw] Hi Hqt Hat Hql Hq0 Hqw. split; cbn.
  - done.
  - intros j u. destruct (decide (i = j)) as [<-|Hij].
    + rewrite lookup_insert_eq. by intros [= <-].
    + rewrite lookup_insert_ne by done. apply Hs.
  - rewrite map_size_insert_Some by eauto. done.
  - rewrite (msum_update owned _ _ s) by done. lia.
  - done.
  - rewrite (msum_update counted _ _ s) by done. lia.
Qed.

Lemma accounted_finish c q i s :
  accounted total max_request c -> sessions c !! i = Some s ->
  quota_total q = total ->
  quota_left q = quota_left (cfg_quota c) + owned s -> 0 <= quota_left q ->
  quota_waiters q = quota_waiters (cfg_quota c) - counted s ->
  accounted total max_request (finish c q i).
Proof.
  intros [Ht Hs Hn Hl Hl0 Hw] Hi Hqt Hql Hq0 Hqw. split; cbn.
  - done.
  - intros j u [_ Hj]%lookup_delete_Some. by apply (Hs j).
  - rewrite map_size_delete_Some by eauto. lia.
  - rewrite (msum_delete owned _ _ s) by done. lia.
  - done.
  - rewrite (msum_delete counted _ _ s) by done. lia.
Qed.
Lemma alloc_section_cases c sz q ok :
  accounted total max_request c -> 0 <= sz -> alloc_section (cfg_quota c) sz = (q, ok) ->
  quota_total q = total /\ 0 <= quota_left q /\
  if ok then quota_left q = quota_left (cfg_quota c) - sz
             /\ quota_waiters q = quota_waiters (cfg_quota c)
  else quota_left q = quota_left (cfg_quota c) /\ quota_left (cfg_quota c) < sz
       /\ quota_waiters q = u64 (quota_waiters (cfg_quota c) + 1).
Proof.
  intros H Hsz E. pose proof (left_range c H). pose proof (a_total _ _ _ H).
  unfold alloc_section in E. case_bool_decide; injection E as <- <-; cbn;
    rewrite ?u64_id by lia; split_and!; done || lia.
Qed.

(** Room for one more waiter: the sleeping sessions do not include [i]. *)
Lemma waiters_room c i s :
  accounted total max_request c -> sessions c !! i = Some s -> counted s = 0 ->
  u64 (quota_waiters (cfg_quota c) + 1) = quota_waiters (cfg_quota c) + 1.
Proof.
  intros H Hi Hs. pose proof (counted_sum_range c H). apply u64_id.
  assert (1 < two64) by done. rewrite (a_waiters _ _ _ H). pose proof (a_threads _ _ _ H).
  pose proof (msum_delete counted _ _ _ Hi).
  pose proof (msum_le_size counted (delete i (sessions c)) (fun s => proj2 (counted_range s))).
  rewrite map_size_delete_Some in * by eauto. lia.
Qed.

Lemma accounted_call c i sz :
  accounted total max_request c -> sessions c !! i = None -> 0 <= sz <= max_request ->
  Z.of_nat (size (sessions c)) + 1 < two64 ->
  accounted total max_request (update c (cfg_quota c) i (Entry sz)).
Proof.
  intros [Ht Hs Hn Hl Hl0 Hw] Hi Hsz Hroom. split; cbn; try done.
  - intros j u. destruct (decide (i = j)) as [<-|Hij].
    + rewrite lookup_insert_eq. intros [= <-]. cbn. lia.
    + rewrite lookup_insert_ne by done. apply Hs.
  - rewrite map_size_insert_None by done. lia.
  - rewrite msum_insert by done. cbn. lia.
  - rewrite msum_insert by done. cbn. lia.
Qed.

Lemma accounted_step b c k c' :
  accounted total max_request c -> step b max_request c k c' -> accounted total max_request c'.
Proof.
  intros H Hstep. pose proof (left_range c H) as Hleft.
  pose proof (counted_sum_range c H) as Hcnt. pose proof (a_waiters _ _ _ H) as Hw.
  pose proof (a_total _ _ _ H) as Ht. pose proof (a_left _ _ _ H) as Hl.
  destruct Hstep as [i sz Hi Hsz Hroom|i sz q ok Hi E|i sz Hi|i sz _ Hi|i sz Hi
    |i sz q notify Hi E|i j sz Hi Hj|i Hi Hnone|i sz Hi|i sz Hi].
  - by apply accounted_call.
  - pose proof (a_sizes _ _ _ H i _ Hi) as Hsz. cbn in Hsz.
    destruct (alloc_section_cases c sz q ok H) as (Hq & Hq0 & Hok); [lia|done|].
    apply (accounted_update c q i (Entry sz)); auto; destruct ok; cbn; try lia.
    destruct Hok as (_ & _ & ->). rewrite (waiters_room c i _ H Hi) by done. lia.
  - pose proof (a_sizes _ _ _ H i _ Hi) as Hsz. cbn in Hsz.
    apply (accounted_update c _ i (Reserved sz)); auto; cbn; lia.
  - pose proof (a_sizes _ _ _ H i _ Hi) as Hsz. cbn in Hsz.
    apply (accounted_update c _ i (Reserved sz)); auto; cbn; lia.
  - pose proof (owned_le c i _ H Hi) as Ho. pose proof (a_sizes _ _ _ H i _ Hi) as Hsz.
    cbn in Ho, Hsz. apply (accounted_finish c _ i (Failed sz)); auto; cbn; rewrite ?u64_id; lia.
  - pose proof (owned_le c i _ H Hi) as Ho. pose proof (a_sizes _ _ _ H i _ Hi) as Hsz.
    cbn in Ho, Hsz. unfold free_section in E. injection E as <- <-.
    case_bool_decide; [apply (accounted_update c _ i (Holding sz))
      |apply (accounted_finish c _ i (Holding sz))]; auto; cbn; rewrite ?u64_id; lia.
  - apply (accounted_finish _ _ i Notifying); auto; cbn; try lia.
    + pose proof (a_sizes _ _ _ H j _ Hj) as Hsz. cbn in Hsz.
      apply (accounted_update c _ j (Waiting sz)); auto; cbn; lia.
    + rewrite lookup_insert_ne; [done|congruence].
  - apply (accounted_finish c _ i Notifying); auto; cbn; lia.
  - pose proof (a_sizes _ _ _ H i _ Hi) as Hsz. cbn in Hsz.
    apply (accounted_update c _ i (Waiting sz)); auto; cbn; lia.
  - pose proof (a_sizes _ _ _ H i _ Hi) as Hsz. cbn in Hsz.
    pose proof (counted_le c i _ Hi) as Hc. cbn in Hc.
    apply (accounted_update c _ i (Woken sz)); auto; cbn; rewrite ?u64_id; lia.
Qed.

End Accounting.

Lemma accounted_initial total m : 0 <= total -> accounted total m (initial total).
Proof.
  intros Ht. split; cbn; try done; rewrite ?msum_empty; lia.
Qed.

Lemma accounted_reachable b m total c :
  0 <= total < two64 -> reachable b m total c -> accounted total m c.
Proof.
  intros Ht Hr. eapply rtc_invariant; [|apply accounted_initial|exact Hr]; [|lia].
  intros c1 c2 H [k Hk]. by eapply accounted_step.
Qed.

(** C11. The quota is never overcommitted: in every reachable state, whatever the
    interleaving and whichever [malloc] fails, the buffers handed out or being
    handed out add up to at most the quota, [quota_left] is exactly the rest
    (no [size_t] subtraction wraps), and [quota_waiters] counts exactly the
    sessions that sleep or have not yet left the wait. *)
Theorem quota_never_overcommitted b m total c :
  0 <= total < two64 -> reachable b m total c ->
  msum owned (sessions c) <= total
  /\ quota_left (cfg_quota c) = total - msum owned (sessions c)
  /\ quota_waiters (cfg_quota c) = msum counted (sessions c).
Proof.
  intros Ht Hr. pose proof (accounted_reachable _ _ _ _ Ht Hr) as H.
  pose proof (left_range _ _ c H). destruct H. split_and!; lia.
Qed.

(** ** No lost wake-up while [malloc] succeeds *)

Definition awake (c : config) : Prop :=
  forall i sz, sessions c !! i = Some (Waiting sz) ->
  exists j s, sessions c !! j = Some s /\ is_waiting s = false.

Record live (total m : Z) (c : config) : Prop := {
  l_accounted : accounted total m c;
  l_malloc : forall i sz, sessions c !! i <> Some (Failed sz);
  l_awake : awake c
}.

(** A session that is not asleep after the step keeps the state awake. *)
Lemma awake_update c q i s : is_waiting s = false -> awake (update c q i s).
Proof. intros Hs j sz _. exists i, s. cbn. by rewrite lookup_insert_eq. Qed.

Lemma finish_lookup c q i j s :
  sessions (finish c q i) !! j = Some s -> sessions c !! j = Some s.
Proof. cbn. by intros [_ H]%lookup_delete_Some. Qed.

Lemma awake_none c :
  (forall j s, sessions c !! j = Some s -> is_waiting s = false) -> awake c.
Proof. intros Hn j sz Hj. by apply Hn in Hj. Qed.

Lemma owner_exists total m c :
  accounted total m c -> quota_left (cfg_quota c) < total ->
  exists j s, sessions c !! j = Some s /\ is_waiting s = false /\ owned s <> 0.
Proof.
  intros H Hl. rewrite (a_left _ _ _ H) in Hl.
  destruct (msum_witness owned (sessions c)) as (j & s & Hj & Hs); [lia|].
  exists j, s. split_and!; [done| |done]. by destruct s.
Qed.

Lemma no_waiting total m c :
  accounted total m c -> quota_waiters (cfg_quota c) = 0 ->
  forall j s, sessions c !! j = Some s -> is_waiting s = false.
Proof.
  intros H Hw j s Hj. rewrite (a_waiters _ _ _ H) in Hw.
  pose proof (counted_le c j s Hj). destruct s; cbn in *; try done. lia.
Qed.

Lemma live_step total m c k c' :
  0 <= total < two64 -> m <= total -> live total m c -> step false m c k c' -> live total m c'.
Proof.
  intros Ht Hm [H Hf Ha] Hstep. pose proof (accounted_step _ _ Ht _ _ _ _ H Hstep) as H'.
  split; [done| |].
  - intros l sz. destruct Hstep; try (by destruct (Hf i sz0)); cbn;
      repeat case_match; cbn; rewrite ?lookup_insert, ?lookup_delete; repeat case_decide;
      try (by intros [=]); rewrite ?lookup_insert; repeat case_decide; try (by intros [=]); apply Hf.
  - destruct Hstep as [i sz Hi Hsz Hroom|i sz q ok Hi E|i sz Hi|i sz [=] Hi|i sz Hi
      |i sz q notify Hi E|i j sz Hi Hj|i Hi Hnone|i sz Hi|i sz Hi];
      try (by apply awake_update).
    + destruct ok; [by apply awake_update|]. intros l sz' _.
      pose proof (a_sizes _ _ _ H i _ Hi) as Hsz. cbn in Hsz.
      destruct (alloc_section_cases _ _ Ht c sz q false H) as (_ & _ & _ & Hlt & _); [lia|done|].
      destruct (owner_exists total m c H) as (j & s & Hj & Hs & Ho); [lia|].
      exists j, s. split; [|done]. cbn. rewrite lookup_insert_ne; [done|].
      intros <-. rewrite Hi in Hj. injection Hj as <-. done.
    + by destruct (Hf i sz).
    + unfold free_section in E. injection E as <- <-. case_bool_decide as Hw.
      * by apply awake_update.
      * apply awake_none. intros l s Hl. apply finish_lookup in Hl.
        apply (no_waiting total m c H) with l; [lia|done].
    + intros l sz' _. exists j, (Woken sz). cbn. split; [|done].
      rewrite lookup_delete_ne by congruence. apply lookup_insert_eq.
    + apply awake_none. intros l s Hl. apply finish_lookup in Hl. by apply Hnone in Hl.
Qed.

Lemma live_reachable m total c :
  0 <= total < two64 -> m <= total -> reachable false m total c -> live total m c.
Proof.
  intros Ht Hm Hr. eapply rtc_invariant; [| |exact Hr].
  - intros c1 c2 H [k Hk]. by eapply live_step.
  - split; [apply accounted_initial; lia|done|by intros i sz].
Qed.

(** ** Every request is served *)

(** Steps a session may still take before it sleeps or ends. *)
Definition rank (s : session) : Z :=
  match s with
  | Woken _ => 6 | Entry _ => 5 | Reserved _ => 4 | Holding _ => 3
  | Failed _ => 2 | Notifying => 1 | Waiting _ => 0
  end.

Definition work (c : config) : Z :=
  7 * Z.of_nat (size (sessions c)) + msum rank (sessions c).

Lemma work_update c q i s t :
  sessions c !! i = Some s -> work (update c q i t) = work c - rank s + rank t.
Proof.
  intros Hi. unfold work. cbn. rewrite map_size_insert_Some by eauto.
  rewrite (msum_update rank _ _ s) by done. lia.
Qed.

Lemma work_finish c q i s :
  sessions c !! i = Some s -> work (finish c q i) = work c - rank s - 7.
Proof.
  intros Hi. unfold work. cbn. rewrite map_size_delete_Some by eauto.
  rewrite (msum_delete rank _ _ s) by done.
  assert (size (sessions c) <> 0%nat) by (intros E%map_size_empty_inv; by rewrite E in Hi).
  lia.
Qed.

Lemma work_decreases b m c c' : code_step b m c c' -> work c' < work c.
Proof.
  unfold code_step. intros Hstep. remember Code as k. destruct Hstep; try done.
  - erewrite work_update by eassumption. destruct ok; cbn; lia.
  - erewrite work_update by eassumption. cbn; lia.
  - erewrite work_update by eassumption. cbn; lia.
  - erewrite work_finish by eassumption. cbn; lia.
  - destruct notify; [erewrite work_update by eassumption|erewrite work_finish by eassumption];
      cbn; lia.
  - erewrite work_finish by (cbn; rewrite lookup_insert_ne by congruence; eassumption).
    erewrite work_update by eassumption. cbn; lia.
  - erewrite work_finish by eassumption. cbn; lia.
  - erewrite work_update by eassumption. cbn; lia.
Qed.

Lemma work_nonneg c : 0 <= work c.
Proof.
  unfold work. enough (0 <= msum rank (sessions c)) by lia.
  apply msum_nonneg. intros i s _. destruct s; cbn; lia.
Qed.

Lemma awake_can_step b m c j s :
  sessions c !! j = Some s -> is_waiting s = false -> exists c', code_step b m c c'.
Proof.
  intros Hj Hs. unfold code_step. destruct s as [sz|sz|sz|sz|sz|sz|]; try done.
  - destruct (alloc_section (cfg_quota c) sz) eqn:E. eexists. by eapply s_alloc.
  - eexists. by eapply s_malloc_ok.
  - eexists. by eapply s_return.
  - eexists. by eapply s_resume.
  - destruct (free_section (cfg_quota c) sz) eqn:E. eexists. by eapply s_free.
  - destruct (decide (map_Forall (fun _ s => is_waiting s = false) (sessions c))) as [Hn|Hn].
    + eexists. by eapply s_signal_none.
    + apply map_not_Forall in Hn as (k & t & Hk & Ht); [|apply _].
      destruct t; try done. eexists. by eapply s_signal_one.
Qed.

Lemma live_nsteps total m n c c' :
  0 <= total < two64 -> m <= total -> live total m c -> nsteps (code_step false m) n c c' ->
  live total m c' /\ Z.of_nat n <= work c - work c'.
Proof.
  intros Ht Hm Hl Hn. revert Hl. induction Hn as [c|n c c1 c2 Hstep Hn IH]; intros Hl.
  - split; [done|lia].
  - pose proof (work_decreases _ _ _ _ Hstep).
    destruct IH as [Hl2 Hw]; [by eapply live_step|]. split; [done|lia].
Qed.

(** C17. Every request is served: when [malloc] succeeds and no request exceeds
    the whole quota, a run from a reachable state in which no new call arrives
    makes at most [work c] steps, even without any spurious wake-up, and it can
    only stop when no session is left, so no sleeping request is forgotten. *)
Theorem quota_requests_served m total c n c' :
  0 <= total < two64 -> m <= total -> reachable false m total c ->
  nsteps (code_step false m) n c c' ->
  Z.of_nat n <= work c
  /\ (sessions c' = ∅ \/ exists c'', code_step false m c' c'').
Proof.
  intros Ht Hm Hr Hn. pose proof (live_reachable m total c Ht Hm Hr) as Hl.
  destruct (live_nsteps _ _ _ _ _ Ht Hm Hl Hn) as [Hl' Hw].
  pose proof (work_nonneg c'). split; [lia|].
  destruct (decide (sessions c' = ∅)) as [E|E]; [by left|right].
  apply map_choose in E as (i & s & Hi). destruct (is_waiting s) eqn:Hs.
  - destruct s; try done. destruct (l_awake _ _ _ Hl' i sz Hi) as (j & t & Hj & Ht').
    by eapply awake_can_step.
  - by eapply awake_can_step.
Qed.

(** ** A failed [malloc] loses a wake-up *)

(** Session 1 reserves the whole quota of 10, session 2 asks for 5 and sleeps,
    and session 1's [malloc] fails. *)
Definition lost : config :=
  mk_config (mk_quota 10 10 1) {[ 2%nat := Waiting 5 ]}.

Lemma lost_reachable : reachable true 10 10 lost.
Proof.
  unfold reachable.
  eapply rtc_l; [exists Call; by apply (s_call true 10 _ 1%nat 10)|].
  eapply rtc_l; [exists Call; by apply (s_call true 10 _ 2%nat 5)|].
  eapply rtc_l; [exists Code; by eapply (s_alloc true 10 _ 1%nat 10)|].
  eapply rtc_l; [exists Code; by eapply (s_alloc true 10 _ 2%nat 5)|].
  eapply rtc_l; [exists Code; by apply (s_malloc_null true 10 _ 1%nat 10)|].
  eapply rtc_l; [exists Code; by apply (s_return true 10 _ 1%nat 10)|].
  apply rtc_refl.
Qed.

(** A failed [malloc] gives its quota back without waking anybody: there is a
    reachable state in which the whole quota is free, one request for half of
    it sleeps, and the code has no step left to take. *)
Theorem quota_malloc_failure_strands :
  reachable true 10 10 lost
  /\ quota_left (cfg_quota lost) = quota_total (cfg_quota lost)
  /\ sessions lost !! 2%nat = Some (Waiting 5)
  /\ (forall c', ~ code_step true 10 lost c').
Proof.
  split_and!; [apply lost_reachable|done|done|].
  assert (forall i s, sessions lost !! i = Some s -> s = Waiting 5) as Hl.
  { intros i s Hi. unfold lost in Hi. cbn [sessions] in Hi.
    by apply lookup_singleton_Some in Hi as [_ <-]. }
  intros c' Hs. unfold code_step in Hs. remember Code as k.
  destruct Hs; try done;
    match goal with H : _ !! _ = Some _ |- _ => by apply Hl in H end.
Qed.

(** ** Witnesses *)

(** One session holds 6 of the 10 units, another sleeps on a request for 5. *)
Definition busy : config :=
  mk_config (mk_quota 10 4 1) {[ 1%nat := Holding 6; 2%nat := Waiting 5 ]}.

Lemma busy_reachable b : reachable b 8 10 busy.
Proof.
  unfold reachable.
  eapply rtc_l; [exists Call; by apply (s_call b 8 _ 1%nat 6)|].
  eapply rtc_l; [exists Code; by eapply (s_alloc b 8 _ 1%nat 6)|].
  eapply rtc_l; [exists Code; by apply (s_malloc_ok b 8 _ 1%nat 6)|].
  eapply rtc_l; [exists Call; by apply (s_call b 8 _ 2%nat 5)|].
  eapply rtc_l; [exists Code; by eapply (s_alloc b 8 _ 2%nat 5)|].
  apply rtc_refl.
Qed.

Lemma quota_never_overcommitted_witness :
  msum owned (sessions busy) <= 10
  /\ quota_left (cfg_quota busy) = 10 - msum owned (sessions busy)
  /\ quota_waiters (cfg_quota busy) = msum counted (sessions busy).
Proof.
  apply (quota_never_overcommitted true 8 10); [done|apply busy_reachable].
Defined.

Lemma quota_requests_served_witness :
  Z.of_nat 0 <= work busy /\ (sessions busy = ∅ \/ exists c, code_step false 8 busy c).
Proof.
  apply (quota_requests_served 8 10 busy 0 busy); [done|done|apply busy_reachable|constructor].
Defined.

End MemQuota.
