(* ===== verification/TlogFormat.v ===== *)
(** * tlog.c: levels and lines

    What becomes of a message before it reaches the buffer: the level filter of
    [tlog_vext], the format callbacks, which lay a line out in a buffer of
    [max_line_size] bytes, and the output to the screen. Lines are lists of
    bytes; the text a printf format and its arguments stand for is given. *)

From Stdlib Require Import ZArith Lia.
From Stdlib Require Import Strings.Byte.
From stdpp Require Import base list strings pretty.
From S2P Require Import Prelude.

Module TlogFormat.

Local Open Scope Z_scope.

(** ** Levels *)

(** [tlog_level], an enumeration, as its values. *)
Definition TLOG_DEBUG : Z := 0.
Definition TLOG_INFO : Z := 1.
Definition TLOG_NOTICE : Z := 2.
Definition TLOG_WARN : Z := 3.
Definition TLOG_ERROR : Z := 4.
Definition TLOG_FATAL : Z := 5.
Definition TLOG_OFF : Z := 6.
Definition TLOG_END : Z := 7.

Definition tlog_level_str : list string := ["DEBUG"; "INFO"; "NOTICE"; "WARN"; "ERROR"; "FATAL"].

(** The table has six entries: [TLOG_OFF] is read behind its end. *)
Definition tlog_get_level_string (level : Z) : outcome (option string) :=
  if bool_decide (level >= TLOG_END) then Ret None
  else s ← defined (tlog_level_str !! Z.to_nat level); Ret (Some s).

(** The new [tlog_set_level] and the result. *)
Definition tlog_setlevel (tlog_set_level level : Z) : Z * Z :=
  if bool_decide (level >= TLOG_END) then (tlog_set_level, -1) else (level, 0).

Definition tlog_log_enabled (tlog_set_level level : Z) : Z :=
  if bool_decide (level >= TLOG_END) then 0
  else if bool_decide (tlog_set_level >= level) then 1 else 0.

(** Where [tlog_vext] sends a message: it returns at once, prints it early
    (before [tlog_init]), or hands it to [_tlog_vprintf]. [root] is [None] while
    there is no root log, and its [logsize] otherwise. *)
Inductive route :=
  | Returns (rc : Z)
  | EarlyPrint
  | RootLog.

Definition tlog_vext (tlog_set_level level : Z) (gettime_ok : bool) (root : option Z) : route :=
  if bool_decide (level < tlog_set_level) then Returns 0
  else if bool_decide (level >= TLOG_END) then Returns (-1)
  else if negb gettime_ok then Returns (-1)
  else
    match root with
    | None => EarlyPrint
    | Some logsize => if bool_decide (logsize <= 0) then Returns 0 else RootLog
    end.

(** ** Laying out a line *)

Definition newline : byte := x0a.
Definition NUL : byte := x00.
Definition dots : list byte := [x2e; x2e; x2e].

(** [vsnprintf] into [maxlen] bytes: its result, and the bytes put before the
    terminator. *)
Definition vsnprintf (text : list byte) (maxlen : Z) : Z * list byte :=
  if bool_decide (Z.of_nat (length text) > INT_MAX) then (-1, [])
  else (Z.of_nat (length text), take (Z.to_nat (maxlen - 1)) text).

(** [%.<w>d] of a value that is not negative, and the field widths [%<w>s],
    [%-<w>d]. *)
Definition digits (w : nat) (z : Z) : string :=
  let s := pretty z in String.app (String.concat "" (replicate (w - String.length s) "0")) s.
Definition blanks (n : nat) : string := String.concat "" (replicate n " ").
Definition pad_left (w : nat) (s : string) : string := String.app (blanks (w - String.length s)) s.
Definition pad_right (w : nat) (s : string) : string := String.app s (blanks (w - String.length s)).

Record tlog_time := mk_time {
  tm_year : Z; tm_usec : Z; tm_mon : Z; tm_mday : Z; tm_hour : Z; tm_min : Z; tm_sec : Z
}.

Record tlog_loginfo := mk_info {
  info_level : string;   (* as [tlog_get_level_string] gives it *)
  info_file : string;
  info_line : Z;
  info_time : tlog_time
}.

(** The prefix of a line of the root log; [pid] is there in the mode for several
    writers only. *)
Definition log_prefix (pid : option Z) (info : tlog_loginfo) : string :=
  let tm := info_time info in
  ("[" ++ digits 4 (tm_year tm) ++ "-" ++ digits 2 (tm_mon tm) ++ "-" ++ digits 2 (tm_mday tm)
   ++ " " ++ digits 2 (tm_hour tm) ++ ":" ++ digits 2 (tm_min tm) ++ ":" ++ digits 2 (tm_sec tm)
   ++ "," ++ digits 3 (tm_usec tm / 1000) ++ "]"
   ++ match pid with
      | Some pid => "[" ++ pad_left 5 (pretty pid) ++ "][" ++ pad_left 4 (info_level info) ++ "]"
      | None => "[" ++ pad_left 5 (info_level info) ++ "]"
      end
   ++ "[" ++ pad_left 17 (info_file info) ++ ":" ++ pad_right 4 (pretty (info_line info)) ++ "] ")%string.

(** [_tlog_root_default_format]; [prefix] is empty when [output_no_prefix]. *)
Definition root_default_format (prefix text : list byte) (maxlen : Z) : Z * list byte :=
  let len := Z.of_nat (length prefix) in
  if bool_decide (len >= maxlen) then (-1, [])
  else
    let '(n, out) := vsnprintf text (maxlen - len) in
    if bool_decide (n < 0) || bool_decide (n = maxlen - len) then (-1, [])
    else (len + n, prefix ++ out).

(** [sizeof(struct tlog_segment_log_head)], packed. *)
Definition SEGMENT_LOG_HEAD : Z := 39.

(** The low bytes of a number, least significant first. *)
Fixpoint le_bytes (n : nat) (z : Z) : list byte :=
  match n with
  | O => []
  | S n => default NUL (Byte.of_N (Z.to_N (z mod 256))) :: le_bytes n (z / 256)
  end.

(** The newline at the end of a line, where it is missing and fits. The byte
    before the line is read when the line is empty. *)
Definition add_newline (len0 : Z) (text : list byte) (maxlen : Z) : outcome (list byte) :=
  l ← defined (last text);
  Ret (if bool_decide (l <> newline) && bool_decide (len0 + Z.of_nat (length text) + 1 < maxlen - 1)
       then text ++ [newline] else text).

(** [_tlog_root_log_buffer]: the result and the bytes in front of it. [info] is
    the [tlog_loginfo] as it lies in memory, there only in segment mode;
    [root_format] is the format callback. *)
Definition root_log_buffer (info : option (list byte)) (root_format : Z -> Z * list byte)
    (maxlen : Z) : outcome (Z * list byte) :=
  let len0 := match info with Some _ => SEGMENT_LOG_HEAD | None => 0 end in
  let max_format_len := maxlen - len0 - 2 in
  let '(log_len, out) := root_format max_format_len in
  if bool_decide (log_len < 0) then Ret (-1, [])
  else
    let text := if bool_decide (log_len >= max_format_len)
                then take (Z.to_nat (max_format_len - 4)) out ++ dots
                else take (Z.to_nat log_len) out in
    text ← add_newline len0 text maxlen;
    let log_len := Z.of_nat (length text) in
    Ret match info with
        | None => (log_len, text)
        | Some info =>
            let tail := if bool_decide (len0 + log_len + 1 < maxlen - 1) then [NUL] else [] in
            (len0 + log_len + Z.of_nat (length tail), info ++ le_bytes 2 log_len ++ text ++ tail)
        end.

(** [_tlog_print_buffer] *)
Definition print_buffer (text : list byte) (maxlen : Z) : Z * list byte :=
  let '(len, out) := vsnprintf text maxlen in
  if bool_decide (len < 0) || bool_decide (len = maxlen) then (-1, []) else (len, out).

(** What [_tlog_vprintf] makes of the callback's answer: nothing is stored when
    it is not positive, and a line that did not fit is cut. *)
Definition cut_line (max_line_size len : Z) (out : list byte) : option (list byte) :=
  if bool_decide (len <= 0) then None
  else if bool_decide (len >= max_line_size) then
    Some (take (Z.to_nat (max_line_size - 5)) out ++ dots ++ [newline; NUL])
  else Some (take (Z.to_nat len) out).

(** ** The screen *)

Definition escape : string := String (Ascii.ascii_of_nat 27) "".

Definition color_of (level : Z) : option string :=
  if bool_decide (level = TLOG_DEBUG) then Some (escape ++ "[0;94m")%string
  else if bool_decide (level = TLOG_NOTICE) then Some (escape ++ "[0;97m")%string
  else if bool_decide (level = TLOG_WARN) then Some (escape ++ "[0;33m")%string
  else if bool_decide (level = TLOG_ERROR) then Some (escape ++ "[0;31m")%string
  else if bool_decide (level = TLOG_FATAL) then Some (escape ++ "[31;1m")%string
  else None.

(** Bytes up to the first NUL. *)
Fixpoint c_bytes (bs : list byte) : list byte :=
  match bs with
  | [] => []
  | b :: bs => if Byte.eqb b NUL then [] else b :: c_bytes bs
  end.

(** What [tlog_stdout_with_color] puts on standard output, for [bufflen] the
    length of [buff] and not zero. *)
Definition tlog_stdout_with_color (level : Z) (buff : list byte) : list byte :=
  match color_of level with
  | None => buff
  | Some color =>
      bytes_of color ++ c_bytes (take (length buff - 1) buff)
      ++ bytes_of (escape ++ "[0m") ++ [newline]
  end.

(** The output of [_tlog_write_screen]; [level] is [None] without a
    [tlog_loginfo]. *)
Definition write_screen (logscreen : bool) (level : option Z) (buff : list byte) : list byte :=
  if bool_decide (buff = []) then []
  else if negb logscreen then []
  else match level with
       | None => buff
       | Some level => tlog_stdout_with_color level buff
       end.

(** ** Lines of the root log *)

(** What a format callback owes its caller: what fits is written whole, and of
    what does not fit, all that leaves room for the terminator; a line is not
    empty. *)
Definition format_ok (f : Z -> Z * list byte) : Prop :=
  forall m, 0 < m ->
    (f m).1 < 0 \/
    0 < (f m).1 /\ Z.of_nat (length (f m).2) = Z.min (f m).1 (m - 1).

Lemma vsnprintf_ok text m :
  0 < m ->
  (vsnprintf text m).1 < 0
  \/ (vsnprintf text m).1 = Z.of_nat (length text)
     /\ Z.of_nat (length (vsnprintf text m).2) = Z.min (Z.of_nat (length text)) (m - 1).
Proof. intros Hm. unfold vsnprintf. case_bool_decide; cbn; [lia|]. rewrite length_take. lia. Qed.

Lemma root_default_format_ok prefix text : prefix <> [] -> format_ok (root_default_format prefix text).
Proof.
  intros Hp m Hm. unfold root_default_format. case_bool_decide as E; [cbn; lia|].
  destruct (vsnprintf_ok text (m - Z.of_nat (length prefix))) as [H|[H1 H2]]; [lia| |];
    destruct (vsnprintf text _) as [n out]; cbn in *; case_bool_decide; cbn; [lia|lia|left; lia|].
  case_bool_decide; cbn; [by left|]. right. rewrite length_app.
  destruct prefix; [done|]. cbn in *. lia.
Qed.

Lemma add_newline_ok len0 text maxlen :
  text <> [] ->
  exists text', add_newline len0 text maxlen = Ret text'
    /\ (text' = text \/ text' = text ++ [newline] /\ len0 + Z.of_nat (length text) + 1 < maxlen - 1).
Proof.
  intros Ht. unfold add_newline.
  destruct (last text) as [l|] eqn:El; [|by apply last_None in El].
  cbn. eexists. split; [done|].
  destruct (bool_decide (len0 + _ + 1 < _)) eqn:E; rewrite ?andb_false_r; [|by left].
  apply bool_decide_eq_true in E. case_bool_decide; [by right|by left].
Qed.

(** The line [_tlog_vprintf] stores for a message, from the answer of its print
    callback: [None] is a message that is not stored. *)
Definition line_of (max_line_size : Z) (print_callback : Z -> outcome (Z * list byte))
    : outcome (option (list byte)) :=
  r ← print_callback max_line_size; Ret (cut_line max_line_size r.1 r.2).

(** A line of the root log, outside segment mode. *)
Definition root_line (max_line_size : Z) (prefix text : list byte) : outcome (option (list byte)) :=
  line_of max_line_size (root_log_buffer None (root_default_format prefix text)).

(** The stored line is shorter than [max_line_size], whatever the callback. *)
Lemma root_log_buffer_fits f maxlen :
  format_ok f -> 6 < maxlen ->
  exists n bs, root_log_buffer None f maxlen = Ret (n, bs)
    /\ (n <= 0 \/ n = Z.of_nat (length bs) /\ n <= maxlen - 2).
Proof.
  intros Hf Hm. unfold root_log_buffer. rewrite Z.sub_0_r.
  pose proof (Hf (maxlen - 2) ltac:(lia)) as H.
  destruct (f (maxlen - 2)) as [n out]; cbn in H. case_bool_decide.
  { do 2 eexists. split; [done|]. left. lia. }
  destruct H as [H|[H1 H2]]; [lia|].
  set (text := if bool_decide _ then _ else _).
  assert (0 < Z.of_nat (length text) <= maxlen - 3) as Hl.
  { unfold text. case_bool_decide; rewrite ?length_app, length_take; cbn; lia. }
  destruct (add_newline_ok 0 text maxlen) as (text' & -> & Ht);
    [intros E; rewrite E in Hl; cbn in Hl; lia|].
  cbn. do 2 eexists. split; [done|]. right. split; [done|].
  destruct Ht as [->|[-> _]]; rewrite ?length_app; cbn; lia.
Qed.

(** The whole line, with a newline at its end. *)
Definition with_newline (l : list byte) : list byte :=
  if bool_decide (last l = Some newline) then l else l ++ [newline].

Lemma add_newline_fits text maxlen :
  text <> [] -> Z.of_nat (length text) + 1 < maxlen - 1 ->
  add_newline 0 text maxlen = Ret (with_newline text).
Proof.
  intros Ht Hl. unfold add_newline, with_newline.
  destruct (last text) as [l|] eqn:E; [|by apply last_None in E]. cbn.
  rewrite (bool_decide_eq_true_2 (_ < _)) by lia.
  destruct (decide (l = newline)) as [->|Hn];
    [rewrite bool_decide_eq_false_2 by congruence; by rewrite bool_decide_eq_true_2|].
  rewrite bool_decide_eq_true_2 by done. rewrite bool_decide_eq_false_2 by congruence. done.
Qed.

Lemma cut_line_fits mls out :
  out <> [] -> Z.of_nat (length out) < mls -> cut_line mls (Z.of_nat (length out)) out = Some out.
Proof.
  intros Ho Hl. assert (length out <> 0)%nat by by destruct out.
  unfold cut_line. rewrite !bool_decide_eq_false_2 by lia.
  by rewrite Nat2Z.id, firstn_all.
Qed.

Lemma length_with_newline l : (length (with_newline l) <= length l + 1)%nat.
Proof. unfold with_newline. case_bool_decide; rewrite ?length_app; cbn; lia. Qed.

(** Newline and cut on a line that fits. *)
Lemma finish_line mls l :
  l <> [] -> Z.of_nat (length l) <= mls - 3 ->
  (text ← add_newline 0 l mls; Ret (Z.of_nat (length text), text)) ≫=
    (fun r => Ret (cut_line mls r.1 r.2)) = Ret (Some (with_newline l)).
Proof.
  intros Hl Hm. rewrite add_newline_fits by (done || lia). cbn. f_equal. apply cut_line_fits.
  - unfold with_newline. case_bool_decide; [done|]. by destruct l.
  - pose proof (length_with_newline l). lia.
Qed.

(** C39. The line the root log stores for a message: prefix and text with a newline
    at the end where they fit in [max_line_size - 3] bytes; nothing at all where
    they are exactly one byte longer than that; cut, with dots, where they are
    longer still; and nothing where the prefix alone does not fit. A stored line
    never has more than [max_line_size - 2] bytes. *)
Theorem tlog_root_line max_line_size prefix text :
  6 < max_line_size -> prefix <> [] -> Z.of_nat (length text) <= INT_MAX ->
  let full := prefix ++ text in
  let room := max_line_size - 2 in
  root_line max_line_size prefix text =
    Ret (if bool_decide (Z.of_nat (length prefix) >= room) then None
         else if bool_decide (Z.of_nat (length full) < room) then Some (with_newline full)
         else if bool_decide (Z.of_nat (length full) = room) then None
         else Some (take (Z.to_nat (room - 4)) full ++ dots ++ [newline])).
Proof.
  intros Hm Hp Ht full room. subst full room. unfold root_line, line_of, root_log_buffer, root_default_format, vsnprintf.
  rewrite Z.sub_0_r, length_app.
  case_bool_decide as E1; [done|]. rewrite (bool_decide_eq_false_2 (_ > INT_MAX)) by lia.
  set (k := Z.of_nat (length prefix)) in *. set (t := Z.of_nat (length text)) in *.
  assert (0 < k) by (subst k; destruct prefix; [done|cbn; lia]).
  rewrite (bool_decide_eq_false_2 (t < 0)) by lia. cbn [orb].
  repeat case_bool_decide; try lia; [done|..].
  - assert (take (Z.to_nat (max_line_size - 2 - 4)) (prefix ++ take (Z.to_nat (max_line_size - 2 - k - 1)) text)
      = take (Z.to_nat (max_line_size - 2 - 4)) (prefix ++ text)) as ->.
    { rewrite !take_app, take_take. do 2 f_equal. lia. }
    rewrite finish_line; [|by destruct (take _ _)|rewrite length_app, length_take; cbn; lia].
    unfold with_newline. rewrite bool_decide_eq_false_2; [by rewrite <- app_assoc|].
    by rewrite last_app.
  - rewrite (take_ge text), take_ge by (rewrite ?length_app; lia).
    apply finish_line; [by destruct prefix|rewrite length_app; lia].
Qed.

Lemma tlog_root_line_witness :
  root_line 12 (bytes_of "[x] ") (bytes_of "12345") = Ret (Some (bytes_of "[x] 12345" ++ [newline]))
  /\ root_line 12 (bytes_of "[x] ") (bytes_of "123456") = Ret None
  /\ root_line 12 (bytes_of "[x] ") (bytes_of "1234567") = Ret (Some (bytes_of "[x] 12..." ++ [newline])).
Proof.
  split_and!; (etransitivity;
    [apply tlog_root_line; [lia|done|vm_compute; discriminate]|reflexivity]).
Defined.

(** The level test offered to callers is the wrong way round: a message passes
    the filter of [tlog_vext] when its level is at least the one set, while
    [tlog_log_enabled] answers yes when its level is at most the one set. *)
Theorem tlog_log_enabled_inverted tlog_set_level level logsize :
  level < TLOG_END -> 0 < logsize ->
  (tlog_vext tlog_set_level level true (Some logsize) = RootLog <-> tlog_set_level <= level)
  /\ (tlog_log_enabled tlog_set_level level = 1 <-> level <= tlog_set_level).
Proof.
  intros Hl Hs. unfold tlog_vext, tlog_log_enabled.
  repeat case_bool_decide; cbn; split; split; intros; try done; lia.
Qed.

(** A fatal error is logged at the level of a daemon that is not verbose, and
    [tlog_log_enabled] denies it. *)
Lemma tlog_log_enabled_inverted_witness :
  tlog_vext TLOG_ERROR TLOG_FATAL true (Some 1) = RootLog
  /\ tlog_log_enabled TLOG_ERROR TLOG_FATAL <> 1.
Proof.
  split; [apply (tlog_log_enabled_inverted TLOG_ERROR TLOG_FATAL 1); done|].
  refine (fun E => _).
  apply (proj1 (proj2 (tlog_log_enabled_inverted TLOG_ERROR TLOG_FATAL 1 eq_refl eq_refl))) in E.
  by apply E.
Defined.

Example log_prefix_example :
  log_prefix None (mk_info "INFO" "lhsmtool_s3.c" 600 (mk_time 2024 5006 3 7 9 5 1))
  = "[2024-03-07 09:05:01,005][ INFO][    lhsmtool_s3.c:600 ] ".
Proof. vm_compute. reflexivity. Qed.

End TlogFormat.
