(* ===== verification/Tlog.v ===== *)
(** * tlog.c: the ring buffer between the threads that log and the writer

    [_tlog_need_drop], [_tlog_vprintf] and the writer thread [_tlog_work] with
    what it calls, for the root log, as one step relation: the steps are the
    critical sections of [tlog.lock] and [log->lock], and the writer's reads of
    the buffer, which hold no lock. What is handed to the output function is
    collected; the log file behind it is not modelled. *)

From Stdlib Require Import ZArith Lia.
From Stdlib Require Import Strings.Byte.
From stdpp Require Import base gmap list relations strings.
From S2P Require Import Prelude TlogFormat.

Module Tlog.

Import TlogFormat.
Local Open Scope Z_scope.

(** ** The log and its settings *)

(** The fields of [struct tlog_log] that are set when the log is opened. *)
Record settings := mk_settings {
  buffsize : Z;
  logsize : Z;
  logcount : Z;
  block : bool;
  nocompress : bool;
  logscreen : bool;
  multi_log : bool;
  segment_log : bool;
  max_line_size : Z
}.

(** The fields that change while it is in use: the ring and the counters. *)
Record tlog_log := mk_log {
  buff : list byte;
  start : Z;
  end_ : Z;
  ext_end : Z;
  dropped : Z;
  waiters : Z
}.

Definition set_dropped (n : Z) (l : tlog_log) : tlog_log :=
  mk_log (buff l) (start l) (end_ l) (ext_end l) n (waiters l).
Definition set_waiters (n : Z) (l : tlog_log) : tlog_log :=
  mk_log (buff l) (start l) (end_ l) (ext_end l) (dropped l) n.

Definition TLOG_BUFF_SIZE : Z := 1024 * 128.
Definition TLOG_LOG_SIZE : Z := 1024 * 1024 * 50.
Definition TLOG_MAX_LINE_LEN : Z := 1024.
Definition TLOG_MAX_LINE_SIZE_SET : Z := 1024 * 8.
Definition TLOG_MIN_LINE_SIZE_SET : Z := 128.

Definition TLOG_NOCOMPRESS : Z := Z.shiftl 1 0.
Definition TLOG_SEGMENT : Z := Z.shiftl 1 1.
Definition TLOG_MULTI_WRITE : Z := Z.shiftl 1 2.
Definition TLOG_NONBLOCK : Z := Z.shiftl 1 3.
Definition TLOG_SCREEN : Z := Z.shiftl 1 4.
Definition TLOG_SCREEN_COLOR : Z := Z.shiftl 1 6.

Definition has_flag (flag bit : Z) : bool := negb (bool_decide (Z.land flag bit = 0)).

(** The settings [tlog_open] makes. [tty] is whether standard output is a terminal,
    [gzip] whether the command was found. *)
Definition open_settings (maxlogsize maxlogcount bsize flag : Z) (tty gzip : bool) : settings :=
  let color := has_flag flag TLOG_SCREEN_COLOR && tty in
  mk_settings (if bool_decide (bsize > 0) then bsize else TLOG_BUFF_SIZE)
    (if bool_decide (maxlogsize >= 0) then maxlogsize else TLOG_LOG_SIZE)
    (if bool_decide (maxlogcount <= 0) then 0 else maxlogcount)
    (negb (has_flag flag TLOG_NONBLOCK))
    (has_flag flag TLOG_NOCOMPRESS || negb gzip)
    (has_flag flag TLOG_SCREEN || color)
    (has_flag flag TLOG_MULTI_WRITE)
    (has_flag flag TLOG_SEGMENT || color)
    TLOG_MAX_LINE_LEN.

(** [tlog_init]'s test of the buffer size, and the root log's settings. *)
Definition init_settings (maxlogsize maxlogcount bsize flag : Z) (tty gzip : bool) : option settings :=
  if bool_decide (0 < bsize < TLOG_MAX_LINE_SIZE_SET * 2) then None
  else Some (open_settings maxlogsize maxlogcount bsize flag tty gzip).

Definition tlog_set_maxline_size (size : Z) (o : settings) : settings :=
  mk_settings (buffsize o) (logsize o) (logcount o) (block o) (nocompress o) (logscreen o)
    (multi_log o) (segment_log o)
    (if bool_decide (size < TLOG_MIN_LINE_SIZE_SET) then TLOG_MIN_LINE_SIZE_SET
     else if bool_decide (size > TLOG_MAX_LINE_SIZE_SET) then TLOG_MAX_LINE_SIZE_SET else size).

Definition tlog_logcount (count : Z) (o : settings) : settings :=
  mk_settings (buffsize o) (logsize o) (if bool_decide (count < 0) then 0 else count) (block o)
    (nocompress o) (logscreen o) (multi_log o) (segment_log o) (max_line_size o).

Definition tlog_logscreen (enable : Z) (o : settings) : settings :=
  mk_settings (buffsize o) (logsize o) (logcount o) (block o) (nocompress o)
    (bool_decide (enable <> 0)) (multi_log o) (segment_log o) (max_line_size o).

(** ** The ring *)

Definition has_data (l : tlog_log) : bool :=
  bool_decide (end_ l <> start l) || bool_decide (ext_end l > 0).

(** The room for a line at [end]. [maxlen] is the value of the last time round the
    loop, which is kept when the ring is full. *)
Definition free_room (o : settings) (l : tlog_log) (maxlen : Z) : Z :=
  if bool_decide (end_ l = start l) then
    if bool_decide (ext_end l = 0) then buffsize o - end_ l else maxlen
  else if bool_decide (end_ l > start l) then buffsize o - end_ l
  else start l - end_ l.

(** [_tlog_need_drop]; [true] is its result 0. *)
Definition need_drop (o : settings) (l : tlog_log) : tlog_log * bool :=
  if block o then (l, false)
  else if bool_decide (free_room o l 0 < max_line_size o) then (set_dropped (dropped l + 1) l, true)
  else (l, false).

Definition TLOG_SEGMENT_MAGIC : Z := 4282671444.
Definition SEGMENT_HEAD : Z := 6.

(** What a line puts into the buffer. *)
Definition entry (o : settings) (line : list byte) : list byte :=
  if segment_log o then
    le_bytes 4 TLOG_SEGMENT_MAGIC ++ le_bytes 2 (Z.of_nat (length line) + 1) ++ line ++ [NUL]
  else line.

(** The end of [_tlog_vprintf]'s critical section: the line is copied to [end],
    and [end] moves to the start of the buffer when it leaves no room for another
    line. Copying past the buffer is undefined. *)
Definition store_line (o : settings) (l : tlog_log) (line : list byte) : outcome tlog_log :=
  let data := entry o line in
  let e := end_ l + Z.of_nat (length data) in
  if bool_decide (e > Z.of_nat (length (buff l))) then Crash
  else
    let buf := overwrite (Z.to_nat (end_ l)) data (buff l) in
    Ret (if bool_decide (e > buffsize o - max_line_size o)
         then mk_log buf (start l) 0 e (dropped l) (waiters l)
         else mk_log buf (start l) e (ext_end l) (dropped l) (waiters l)).

(** What the writer takes down before it writes. *)
Record snapshot := mk_snapshot {
  log_len : Z;
  log_extlen : Z;
  log_end : Z;
  log_extend : Z;
  log_dropped : Z
}.

Definition take_snapshot (l : tlog_log) : snapshot :=
  let len := if bool_decide (ext_end l > 0) then ext_end l - start l else 0 in
  let ext := if bool_decide (ext_end l > 0) then ext_end l else 0 in
  if bool_decide (end_ l < start l) then mk_snapshot len (end_ l) (end_ l) ext (dropped l)
  else if bool_decide (end_ l > start l) then
    mk_snapshot (end_ l - start l) 0 (end_ l) ext (dropped l)
  else mk_snapshot len 0 (end_ l) ext (dropped l).

(** "release finished buffer" *)
Definition release (s : snapshot) (l : tlog_log) : tlog_log :=
  mk_log (buff l) (log_end s) (end_ l) (if bool_decide (log_extend s > 0) then 0 else ext_end l)
    (dropped l) (waiters l).

(** [_tlog_write_one_segment_log]: the data of the segments from offset [off] on. *)
Fixpoint write_segments (fuel : nat) (buf : list byte) (off write_len bufflen : Z)
    : outcome (list byte) :=
  if bool_decide (write_len >= bufflen) then Ret []
  else
    match fuel with
    | O => NoFuel
    | S fuel =>
        let at_ := Z.to_nat (off + write_len) in
        let head := slice at_ 6 buf in
        if bool_decide (length head <> 6%nat) then Crash
        else if bool_decide (take 4 head <> le_bytes 4 TLOG_SEGMENT_MAGIC) then Ret []
        else
          match (Byte.to_N <$> drop 4 head) with
          | [lo; hi] =>
              let len := Z.of_N lo + 256 * Z.of_N hi in
              rest ← write_segments fuel buf off (write_len + len + SEGMENT_HEAD) bufflen;
              Ret (slice (at_ + 6) (Z.to_nat (len - 1)) buf ++ rest)
          | _ => Crash
          end
    end.

(** What one part of the ring hands to the output function. *)
Definition output (o : settings) (l : tlog_log) (off len : Z) : outcome (list byte) :=
  if segment_log o then write_segments (Z.to_nat len) (buff l) off 0 len
  else if bool_decide (off + len > Z.of_nat (length (buff l))) then Crash
  else Ret (slice (Z.to_nat off) (Z.to_nat len) (buff l)).

(** The report of dropped messages in [_tlog_work_write]. Outside segment mode
    [snprintf] is given the size 0, so [strnlen] runs over a buffer never written;
    in segment mode it finds the level of the head, one byte. *)
Definition drop_report (o : settings) (n : Z) : outcome (list byte) :=
  if bool_decide (n > 0) then if segment_log o then Ret [x03] else Crash else Ret [].

(** ** Threads *)

(** A thread in [_tlog_vprintf]. *)
Inductive thread (message : Type) :=
  | Calling (m : message)                         (* before [_tlog_need_drop] *)
  | Checking (maxlen : Z) (line : list byte)      (* at the head of the loop *)
  | Entering (maxlen : Z) (line : list byte)      (* between [tlog.lock] and [log->lock] *)
  | Waiting (maxlen : Z) (line : list byte)       (* in [pthread_cond_wait] *)
  | Woken (maxlen : Z) (line : list byte).        (* woken, before [log->lock] is taken again *)
Arguments Calling {message} m.
Arguments Checking {message} maxlen line.
Arguments Entering {message} maxlen line.
Arguments Waiting {message} maxlen line.
Arguments Woken {message} maxlen line.

(** The writer in [_tlog_work]; the argument of [Top] and [Picking] says whether
    [log] is the root log (the only one) rather than NULL. *)
Inductive writer :=
  | Top (last : bool)           (* head of the loop *)
  | Picking (last : bool)       (* past the test of [tlog.run] *)
  | Sleeping                    (* in [_tlog_wait_log_locked] *)
  | Signalled                   (* woken there, before [tlog.lock] is taken again *)
  | Writing (s : snapshot)
  | WritingExt (s : snapshot)   (* past the first part of the ring *)
  | Reporting (s : snapshot)    (* past both parts *)
  | Releasing (s : snapshot)
  | Waking                      (* before [_tlog_wakeup_waiters] *)
  | Exited.

(** How far [tlog_exit] is. *)
Inductive exiting := NotExiting | RunCleared | ExitSignalled.

(** [accepted], [written] and [refused] only record what happened: the bytes of
    the lines stored, in their order, the bytes handed to the output function,
    and the number of lines not stored for want of room. *)
Record config (message : Type) := mk_config {
  log : tlog_log;
  threads : gmap nat (thread message);
  work : writer;
  notify_log : bool;
  run : bool;
  exit_ : exiting;
  accepted : list byte;
  written : list byte;
  refused : Z;
  crashed : bool
}.
Arguments mk_config {message}.
Arguments log {message} c.
Arguments threads {message} c.
Arguments work {message} c.
Arguments notify_log {message} c.
Arguments run {message} c.
Arguments exit_ {message} c.
Arguments accepted {message} c.
Arguments written {message} c.
Arguments refused {message} c.
Arguments crashed {message} c.

(** What a step is due to: another part of the program, a spurious wake-up, or the
    code itself. *)
Inductive cause := Outside | Spurious | Code.

Section Steps.
Context {message : Type} (o : settings) (print_callback : message -> Z -> outcome (Z * list byte)).

Implicit Types c : config message.

Definition with_log (l : tlog_log) c : config message :=
  mk_config l (threads c) (work c) (notify_log c) (run c) (exit_ c) (accepted c) (written c)
    (refused c) (crashed c).
Definition with_threads (ts : gmap nat (thread message)) c : config message :=
  mk_config (log c) ts (work c) (notify_log c) (run c) (exit_ c) (accepted c) (written c)
    (refused c) (crashed c).
Definition with_work (w : writer) c : config message :=
  mk_config (log c) (threads c) w (notify_log c) (run c) (exit_ c) (accepted c) (written c)
    (refused c) (crashed c).
Definition with_notify (b : bool) c : config message :=
  mk_config (log c) (threads c) (work c) b (run c) (exit_ c) (accepted c) (written c)
    (refused c) (crashed c).
Definition with_exit (r : bool) (e : exiting) c : config message :=
  mk_config (log c) (threads c) (work c) (notify_log c) r e (accepted c) (written c)
    (refused c) (crashed c).
Definition accept (line : list byte) c : config message :=
  mk_config (log c) (threads c) (work c) (notify_log c) (run c) (exit_ c) (accepted c ++ line)
    (written c) (refused c) (crashed c).
Definition put (out : list byte) c : config message :=
  mk_config (log c) (threads c) (work c) (notify_log c) (run c) (exit_ c) (accepted c)
    (written c ++ out) (refused c) (crashed c).
Definition refuse c : config message :=
  mk_config (log c) (threads c) (work c) (notify_log c) (run c) (exit_ c) (accepted c)
    (written c) (refused c + 1) (crashed c).
Definition crash c : config message :=
  mk_config (log c) (threads c) (work c) (notify_log c) (run c) (exit_ c) (accepted c)
    (written c) (refused c) true.

Definition set_thread (i : nat) (t : thread message) c : config message :=
  with_threads (<[i := t]> (threads c)) c.
Definition finish (i : nat) c : config message := with_threads (delete i (threads c)) c.

(** [tlog.is_wait] *)
Definition is_wait c : bool :=
  match work c with Sleeping | Signalled => true | _ => false end.

(** [pthread_cond_signal(&tlog.cond)] *)
Definition signal c : config message :=
  match work c with Sleeping => with_work Signalled c | _ => c end.

Definition notify c : config message := signal (with_notify true c).

(** From the call to the head of the loop: [_tlog_need_drop], then the line is
    laid out in a buffer of the thread's own. *)
Definition call_step (i : nat) (m : message) c : config message :=
  let '(l, drop) := need_drop o (log c) in
  if (drop : bool) then finish i (refuse (with_log l c))
  else
    match line_of (max_line_size o) (print_callback m) with
    | Ret (Some line) => set_thread i (Checking 0 line) c
    | Ret None => finish i c
    | _ => crash c
    end.

(** The critical section of [tlog.lock] in the loop. *)
Definition check_step (i : nat) (maxlen : Z) (line : list byte) c : config message :=
  let l := log c in
  let maxlen := free_room o l maxlen in
  if bool_decide (maxlen < max_line_size o) then
    let c := if bool_decide (end_ l <> start l) then notify c else c in
    if block o then set_thread i (Entering maxlen line) c
    else finish i (refuse (with_log (set_dropped (dropped l + 1) l) c))
  else
    match store_line o l line with
    | Ret l =>
        let c := accept line (with_log l c) in
        finish i (if is_wait c then notify c else c)
    | _ => crash c
    end.

(** One step of a thread; asleep it has none. *)
Definition thread_step (i : nat) (t : thread message) c : option (config message) :=
  match t with
  | Calling m => Some (call_step i m c)
  | Checking maxlen line => Some (check_step i maxlen line c)
  | Entering maxlen line =>
      Some (set_thread i (Waiting maxlen line)
              (with_log (set_waiters (waiters (log c) + 1) (log c)) c))
  | Waiting _ _ => None
  | Woken maxlen line =>
      Some (set_thread i (Checking maxlen line)
              (with_log (set_waiters (waiters (log c) - 1) (log c)) c))
  end.

Definition wake (t : thread message) : thread message :=
  match t with Waiting maxlen line => Woken maxlen line | t => t end.

(** The writer under [tlog.lock] with the root log in its hand. *)
Definition begin_writing c : config message :=
  if has_data (log c) then
    with_work (Writing (take_snapshot (log c))) (with_log (set_dropped 0 (log c)) c)
  else with_work (Top true) c.

(** Hand bytes to the output function, then go on. *)
Definition put_then (out : outcome (list byte)) (w : writer) c : config message :=
  match out with
  | Ret out => with_work w (put out c)
  | _ => crash c
  end.

(** One step of the writer; asleep, and after its end, it has none. *)
Definition work_step c : option (config message) :=
  match work c with
  | Top last =>
      Some (with_work (if negb (run c) && negb (has_data (log c)) then Exited else Picking last) c)
  | Picking true => Some (with_work (Top false) c)
  | Picking false =>
      if negb (has_data (log c)) && run c then Some (with_work Sleeping c)
      else Some (begin_writing c)
  | Sleeping => None
  | Signalled =>
      if notify_log c then Some (begin_writing (with_notify false c))
      else Some (with_work (Top false) c)
  | Writing s => Some (put_then (output o (log c) (start (log c)) (log_len s)) (WritingExt s) c)
  | WritingExt s =>
      Some (if bool_decide (log_extlen s > 0)
            then put_then (output o (log c) 0 (log_extlen s)) (Reporting s) c
            else with_work (Reporting s) c)
  | Reporting s => Some (put_then (drop_report o (log_dropped s)) (Releasing s) c)
  | Releasing s => Some (with_work Waking (with_log (release s (log c)) c))
  | Waking =>
      let c := if bool_decide (waiters (log c) > 0) then with_threads (wake <$> threads c) c else c in
      Some (with_work (Top true) c)
  | Exited => None
  end.

(** A message the log discards because it has neither files nor a screen. *)
Definition vprintf_ignored : bool := bool_decide (logcount o <= 0) && negb (logscreen o).

(** [tlog_exit] clears [run] without the lock, then signals with it, and joins
    the writer. *)
Inductive step c : cause -> config message -> Prop :=
  | s_call i m :
      crashed c = false -> threads c !! i = None -> vprintf_ignored = false ->
      step c Outside (set_thread i (Calling m) c)
  | s_thread i t c' :
      crashed c = false -> threads c !! i = Some t -> thread_step i t c = Some c' ->
      step c Code c'
  | s_writer c' :
      crashed c = false -> work_step c = Some c' -> step c Code c'
  | s_thread_spurious i maxlen line :
      crashed c = false -> threads c !! i = Some (Waiting maxlen line) ->
      step c Spurious (set_thread i (Woken maxlen line) c)
  | s_writer_spurious :
      crashed c = false -> work c = Sleeping -> step c Spurious (with_work Signalled c)
  | s_exit :
      crashed c = false -> exit_ c = NotExiting -> step c Outside (with_exit false RunCleared c)
  | s_exit_signal :
      crashed c = false -> exit_ c = RunCleared ->
      step c Code (signal (with_exit (run c) ExitSignalled c)).

Definition any_step c c' : Prop := exists k, step c k c'.

(** The log as [tlog_open] leaves it; [mem] is what [malloc] gave for the buffer. *)
Definition initial (mem : list byte) : config message :=
  mk_config (mk_log mem 0 0 0 0 0) ∅ (Top false) false true NotExiting [] [] 0 false.

Definition reachable (mem : list byte) c : Prop := rtc any_step (initial mem) c.
End Steps.

(** ** The ring as a queue *)

(** The bytes stored and not yet released, oldest first. *)
Definition pending (l : tlog_log) : list byte :=
  if bool_decide (ext_end l > 0) then
    slice (Z.to_nat (start l)) (Z.to_nat (ext_end l - start l)) (buff l)
    ++ slice 0 (Z.to_nat (end_ l)) (buff l)
  else slice (Z.to_nat (start l)) (Z.to_nat (end_ l - start l)) (buff l).

(** How many of them the writer has already handed out. *)
Definition handed (w : writer) : Z :=
  match w with
  | WritingExt s => log_len s
  | Reporting s | Releasing s => log_len s + log_extlen s
  | _ => 0
  end.

Definition unwritten {message} (c : config message) : list byte :=
  drop (Z.to_nat (handed (work c))) (pending (log c)).

(** The indices of the ring: either [start .. end] is in use, or [start .. ext_end]
    and [0 .. end]. There is always room for a line behind [end]. *)
Record ring_ok (o : settings) (l : tlog_log) : Prop := {
  ri_buff : Z.of_nat (length (buff l)) = buffsize o;
  ri_start : 0 <= start l <= buffsize o - max_line_size o;
  ri_end : 0 <= end_ l <= buffsize o - max_line_size o;
  ri_ext : ext_end l = 0 /\ start l <= end_ l
           \/ buffsize o - max_line_size o < ext_end l <= buffsize o
              /\ (end_ l < start l \/ start l = 0 /\ end_ l = 0)
}.

(** A snapshot stays true of the ring while lines are added to it. *)
Definition snapshot_ok (o : settings) (s : snapshot) (l : tlog_log) : Prop :=
  (log_extend s = 0 /\ log_extlen s = 0 /\ 0 < log_len s /\ log_end s = start l + log_len s
   /\ log_end s <= buffsize o - max_line_size o
   /\ log_end s <= (if bool_decide (ext_end l > 0) then ext_end l else end_ l))
  \/ (log_extend s = ext_end l /\ 0 < ext_end l /\ log_len s = ext_end l - start l
      /\ log_extlen s = log_end s /\ 0 <= log_end s <= end_ l).

(** What a print callback owes the ring: its lines are shorter than
    [max_line_size]. *)
Class Lines {message} (o : settings) (print_callback : message -> Z -> outcome (Z * list byte)) := {
  lines_fit : forall m, exists r, line_of (max_line_size o) (print_callback m) = Ret r
    /\ forall line, r = Some line -> 0 < Z.of_nat (length line) < max_line_size o
}.

(** *** Adding and releasing *)

Section Ring.
Context (o : settings) (Hseg : segment_log o = false) (Hmax : 0 < max_line_size o).

(** The writer's view of the ring while it writes. *)
Lemma snapshot_taken l :
  ring_ok o l -> has_data l = true -> snapshot_ok o (take_snapshot l) l.
Proof.
  intros [Hb Hs He Hx] Hd. unfold has_data in Hd. unfold take_snapshot, snapshot_ok.
  apply orb_true_iff in Hd. rewrite !bool_decide_eq_true in Hd.
  repeat case_bool_decide; cbn; lia.
Qed.

(** A stored line goes behind the pending ones, and the writer's view stands. *)
Lemma store_line_ok l maxlen line :
  ring_ok o l -> maxlen < max_line_size o -> max_line_size o <= free_room o l maxlen ->
  0 < Z.of_nat (length line) < max_line_size o ->
  exists l', store_line o l line = Ret l' /\ ring_ok o l' /\ start l' = start l
    /\ dropped l' = dropped l /\ pending l' = pending l ++ line
    /\ forall s, snapshot_ok o s l -> snapshot_ok o s l'.
Proof.
  intros [Hb Hs He Hx] Hm Hroom Hline. unfold free_room in Hroom.
  unfold store_line, entry. rewrite Hseg.
  assert (end_ l + Z.of_nat (length line) <= Z.of_nat (length (buff l))
    /\ (ext_end l > 0 -> end_ l + Z.of_nat (length line) < start l)) as [Hfit Hrev].
  { repeat case_bool_decide; lia. }
  clear Hroom. rewrite bool_decide_eq_false_2 by lia. eexists. split; [done|].
  assert (Hlen : Z.of_nat (length (overwrite (Z.to_nat (end_ l)) line (buff l))) = buffsize o)
    by (rewrite length_overwrite; lia).
  destruct Hx as [[Hx1 Hx2]|[Hx1 Hx2]]; case_bool_decide; try lia; split_and!; try done;
    try (split; cbn; lia);
    try (intros s; unfold snapshot_ok; cbn; repeat case_bool_decide; lia);
    unfold pending; cbn; repeat case_bool_decide; try lia.
  - replace (Z.to_nat (end_ l + _ - _))
      with (Z.to_nat (end_ l - start l) + length line)%nat by lia.
    rewrite slice_overwrite_extend by lia. cbn. by rewrite app_nil_r.
  - replace (Z.to_nat (end_ l + _ - _))
      with (Z.to_nat (end_ l - start l) + length line)%nat by lia.
    apply slice_overwrite_extend; lia.
  - rewrite slice_overwrite_after by lia.
    replace (Z.to_nat (end_ l + _)) with (Z.to_nat (end_ l) + length line)%nat by lia.
    rewrite slice_overwrite_extend by lia. by rewrite app_assoc.
Qed.

Lemma snapshot_bounds l s :
  ring_ok o l -> snapshot_ok o s l ->
  0 <= log_len s /\ 0 <= log_extlen s
  /\ log_len s + log_extlen s <= Z.of_nat (length (pending l)).
Proof.
  intros [Hb Hs He Hx] Hok. unfold pending, snapshot_ok in *.
  destruct (bool_decide (ext_end l > 0)) eqn:E;
    [apply bool_decide_eq_true in E|apply bool_decide_eq_false in E];
    rewrite ?length_app, !length_slice by lia; lia.
Qed.

(** What the writer reads is the front of the queue. *)
Lemma output_first l s :
  ring_ok o l -> snapshot_ok o s l ->
  output o l (start l) (log_len s) = Ret (take (Z.to_nat (log_len s)) (pending l)).
Proof.
  intros [Hb Hs He Hx] Hok. unfold output. rewrite Hseg.
  assert (0 <= log_len s <= (if bool_decide (ext_end l > 0) then ext_end l - start l
                            else end_ l - start l)) as Hlen
    by (destruct Hok; case_bool_decide; lia).
  rewrite bool_decide_eq_false_2 by (case_bool_decide; lia). f_equal. unfold pending.
  case_bool_decide; [|by rewrite slice_prefix by lia].
  rewrite take_app_le by (rewrite length_slice; lia). by rewrite slice_prefix by lia.
Qed.

Lemma output_second l s :
  ring_ok o l -> snapshot_ok o s l -> 0 < log_extlen s ->
  output o l 0 (log_extlen s)
    = Ret (take (Z.to_nat (log_extlen s)) (drop (Z.to_nat (log_len s)) (pending l))).
Proof.
  intros [Hb Hs He Hx] Hok Hlen. unfold output. rewrite Hseg.
  destruct Hok as [Hok|(H1 & H2 & H3 & H4 & H5)]; [lia|].
  rewrite bool_decide_eq_false_2 by lia. f_equal. unfold pending.
  rewrite bool_decide_eq_true_2 by lia.
  rewrite drop_app_length' by (rewrite length_slice; lia).
  rewrite slice_prefix by lia. done.
Qed.

(** Releasing the written part takes it off the front of the queue. *)
Lemma release_ok l s :
  ring_ok o l -> snapshot_ok o s l ->
  ring_ok o (release s l)
  /\ pending (release s l) = drop (Z.to_nat (log_len s + log_extlen s)) (pending l).
Proof.
  intros [Hb Hs He Hx] Hok. unfold release, pending, snapshot_ok in *.
  destruct Hok as [(H1 & H2 & H3 & H4 & H6 & H5)|(H1 & H2 & H3 & H4 & H5)].
  - rewrite (bool_decide_eq_false_2 (log_extend s > 0)) by lia.
    revert H5. destruct (bool_decide (ext_end l > 0)) eqn:E; intros H5;
      [apply bool_decide_eq_true in E|apply bool_decide_eq_false in E];
      (split; [split; cbn; lia|]); cbn.
    + rewrite bool_decide_eq_true_2 by lia.
      rewrite drop_app_le by (rewrite length_slice; lia). f_equal.
      rewrite slice_suffix by lia. f_equal; lia.
    + rewrite bool_decide_eq_false_2 by lia. rewrite slice_suffix by lia. f_equal; lia.
  - rewrite (bool_decide_eq_true_2 (log_extend s > 0)) by lia. split; [split; cbn; lia|].
    cbn. rewrite (bool_decide_eq_true_2 (ext_end l > 0)) by lia.
    rewrite drop_app_ge by (rewrite length_slice; lia).
    rewrite length_slice by lia. rewrite slice_suffix by lia. cbn. f_equal; lia.
Qed.
End Ring.

(** ** Every interleaving *)

Definition snapshot_of (w : writer) : option snapshot :=
  match w with Writing s | WritingExt s | Reporting s | Releasing s => Some s | _ => None end.

Definition thread_ok {message} (o : settings) (t : thread message) : Prop :=
  match t with
  | Calling _ => True
  | Checking maxlen line | Entering maxlen line | Waiting maxlen line | Woken maxlen line =>
      maxlen < max_line_size o /\ 0 < Z.of_nat (length line) < max_line_size o
  end.

Record consistent {message} (o : settings) (c : config message) : Prop := {
  cs_ring : ring_ok o (log c);
  cs_snapshot : forall s, snapshot_of (work c) = Some s -> snapshot_ok o s (log c);
  cs_threads : forall i t, threads c !! i = Some t -> thread_ok o t;
  cs_fifo : accepted c = written c ++ unwritten c;
  cs_block : block o = true -> crashed c = false /\ refused c = 0 /\ dropped (log c) = 0
    /\ forall s, snapshot_of (work c) = Some s -> log_dropped s = 0
}.

Section Fifo.
Context {message : Type} (o : settings) (print_callback : message -> Z -> outcome (Z * list byte)).
Context `{!Lines o print_callback}.
Context (Hseg : segment_log o = false) (Hmax : 0 < max_line_size o).

Implicit Types c : config message.

(** The counters play no part in the ring. *)
Lemma ring_counters l d w :
  ring_ok o l -> ring_ok o (mk_log (buff l) (start l) (end_ l) (ext_end l) d w).
Proof. intros []. by split. Qed.

Lemma consistent_counters c d w :
  consistent o c -> (block o = true -> d = 0) ->
  consistent o (with_log (mk_log (buff (log c)) (start (log c)) (end_ (log c)) (ext_end (log c)) d w) c).
Proof.
  intros [Hr Hs Ht Hf Hb] Hd. split; try done; [by apply ring_counters|].
  intros Hbl. destruct (Hb Hbl) as (? & ? & ? & ?). split_and!; try done. by apply Hd.
Qed.

Lemma consistent_threads c ts :
  consistent o c -> (forall i t, ts !! i = Some t -> thread_ok o t) ->
  consistent o (with_threads ts c).
Proof. intros [] Ht. by split. Qed.

Lemma consistent_set c i t :
  consistent o c -> thread_ok o t -> consistent o (set_thread i t c).
Proof.
  intros Hc Ht. apply consistent_threads; [done|]. intros j u.
  destruct (decide (i = j)) as [->|Hne]; [rewrite lookup_insert_eq; by intros [= <-]|].
  rewrite lookup_insert_ne by done. apply (cs_threads _ _ Hc).
Qed.

Lemma consistent_finish c i : consistent o c -> consistent o (finish i c).
Proof.
  intros Hc. apply consistent_threads; [done|].
  intros j u [_ H]%lookup_delete_Some. by apply (cs_threads _ _ Hc j).
Qed.

Lemma consistent_notify c b : consistent o c -> consistent o (with_notify b c).
Proof. intros []. by split. Qed.

(** A writer with nothing in its hand. *)
Lemma consistent_work c w :
  consistent o c -> snapshot_of w = None -> handed (work c) = 0 -> handed w = 0 ->
  consistent o (with_work w c).
Proof.
  intros [Hr Hs Ht Hf Hb] Hw H1 H2. split; try done; cbn.
  - by rewrite Hw.
  - unfold unwritten in *. cbn. by rewrite H2, <- H1.
  - intros Hbl. destruct (Hb Hbl) as (? & ? & ? & ?). by rewrite Hw.
Qed.

Lemma consistent_signal c : consistent o c -> consistent o (signal c).
Proof.
  intros Hc. unfold signal. destruct (work c) eqn:E; try done.
  apply consistent_work; [done..|by rewrite E|done].
Qed.

Lemma handed_bound c :
  consistent o c -> (Z.to_nat (handed (work c)) <= length (pending (log c)))%nat.
Proof.
  intros [Hr Hs _ _ _]. destruct (work c) eqn:E; cbn; try lia;
    pose proof (snapshot_bounds o Hmax (log c) s Hr (Hs s eq_refl)); lia.
Qed.

(** A line is stored. *)
Lemma consistent_accept c l maxlen line :
  consistent o c -> maxlen < max_line_size o -> max_line_size o <= free_room o (log c) maxlen ->
  0 < Z.of_nat (length line) < max_line_size o -> store_line o (log c) line = Ret l ->
  consistent o (accept line (with_log l c)).
Proof.
  intros Hc H1 H2 H3 E. pose proof (handed_bound c Hc) as Hh. destruct Hc as [Hr Hs Ht Hf Hb].
  destruct (store_line_ok o Hseg Hmax (log c) maxlen line Hr H1 H2 H3)
    as (l' & E' & Hr' & Hst & Hd & Hp & Hsn).
  rewrite E in E'. injection E' as <-. split; try done; cbn.
  - intros s Es. by apply Hsn, Hs.
  - unfold unwritten in *. cbn. by rewrite Hf, <- app_assoc, Hp, drop_app_le.
  - by rewrite Hd.
Qed.

(** With room only for a message that may be dropped. *)
Lemma consistent_dropping c d :
  block o = false -> consistent o c ->
  consistent o (refuse (with_log (set_dropped d (log c)) c)).
Proof.
  intros Hb Hc. destruct (consistent_counters c d (waiters (log c)) Hc) as [Hr Hs Ht Hf _]; [congruence|].
  split; try done. congruence.
Qed.

Lemma consistent_crash c : block o = false -> consistent o c -> consistent o (crash c).
Proof. intros Hb [Hr Hs Ht Hf _]. split; try done. congruence. Qed.

Lemma log_notify c : log (notify c) = log c.
Proof. unfold notify, signal. cbn. by destruct (work c). Qed.

Lemma consistent_call c i m :
  consistent o c -> consistent o (call_step o print_callback i m c).
Proof.
  intros Hc. unfold call_step, need_drop.
  assert (consistent o (match line_of (max_line_size o) (print_callback m) with
    | Ret (Some line) => set_thread i (Checking 0 line) c
    | Ret None => finish i c
    | _ => crash c end)) as Hline.
  { destruct (lines_fit m) as (r & -> & Hr). destruct r as [line|]; [|by apply consistent_finish].
    apply consistent_set; [done|]. cbn. split; [lia|by apply Hr]. }
  destruct (block o) eqn:Hb; [done|]. case_bool_decide; [|done].
  apply consistent_finish. by apply consistent_dropping.
Qed.

Lemma consistent_check c i maxlen line :
  consistent o c -> thread_ok o (Checking (message := message) maxlen line) ->
  consistent o (check_step o i maxlen line c).
Proof.
  intros Hc [Hm Hl]. unfold check_step.
  case_bool_decide as Hroom.
  - set (c1 := if bool_decide _ then notify c else c).
    assert (consistent o c1 /\ log c1 = log c) as [Hc1 Hl1].
    { subst c1. case_bool_decide; [|done].
      split; [by apply consistent_signal, consistent_notify|apply log_notify]. }
    destruct (block o) eqn:Hb; [by apply consistent_set|].
    apply consistent_finish. rewrite <- Hl1. by apply consistent_dropping.
  - destruct (store_line_ok o Hseg Hmax (log c) maxlen line (cs_ring _ _ Hc))
      as (l & E & _); [lia..|].
    rewrite E. apply consistent_finish.
    assert (consistent o (accept line (with_log l c))) as Ha
      by (eapply consistent_accept; [done|exact Hm|lia|done|done]).
    destruct (is_wait _); [by apply consistent_signal, consistent_notify|done].
Qed.

Lemma consistent_thread c i t c' :
  consistent o c -> threads c !! i = Some t -> thread_step o print_callback i t c = Some c' ->
  consistent o c'.
Proof.
  intros Hc Hi E. pose proof (cs_threads _ _ Hc i t Hi) as Ht.
  destruct t; cbn in E; simplify_eq; [by apply consistent_call|by apply consistent_check|..];
    (apply consistent_set; [|done]); apply consistent_counters; try done;
    intros Hb; by apply (cs_block _ _ Hc Hb).
Qed.
(** The writer moves on without touching the ring or the output. *)
Lemma consistent_same_hand c w :
  consistent o c -> snapshot_of w = snapshot_of (work c) -> handed w = handed (work c) ->
  consistent o (with_work w c).
Proof.
  intros [Hr Hs Ht Hf Hb] H1 H2. split; try done; cbn; rewrite ?H1; try done.
  unfold unwritten in *. cbn. by rewrite H2.
Qed.

(** The writer takes its snapshot. *)
Lemma consistent_begin c :
  consistent o c -> handed (work c) = 0 -> consistent o (begin_writing c).
Proof.
  intros Hc Hw. unfold begin_writing. destruct (has_data (log c)) eqn:Hd.
  - destruct Hc as [Hr Hs Ht Hf Hb]. split; try done; cbn.
    + by apply ring_counters.
    + intros s [= <-]. change (snapshot_ok o (take_snapshot (log c)) (log c)).
      by apply snapshot_taken.
    + unfold unwritten in *. cbn. by rewrite Hf, Hw.
    + intros Hbl. destruct (Hb Hbl) as (? & ? & ? & ?). split_and!; try done.
      intros s [= <-]. unfold take_snapshot. by repeat case_bool_decide.
  - by apply consistent_work.
Qed.

(** The writer hands out the next [n] bytes of the queue. *)
Lemma consistent_put c w n :
  consistent o c -> snapshot_of w = snapshot_of (work c) -> 0 <= n -> 0 <= handed (work c) ->
  handed w = handed (work c) + n ->
  consistent o (with_work w (put (take (Z.to_nat n) (drop (Z.to_nat (handed (work c)))
    (pending (log c)))) c)).
Proof.
  intros [Hr Hs Ht Hf Hb] H1 Hn Hh H2. split; try done; cbn; rewrite ?H1; try done.
  unfold unwritten in *. cbn. rewrite Hf, <- app_assoc, H2. f_equal.
  rewrite Z2Nat.inj_add by lia. rewrite <- drop_drop. by rewrite take_drop.
Qed.

Lemma consistent_writer c c' : consistent o c -> work_step o c = Some c' -> consistent o c'.
Proof.
  intros Hc E. pose proof (cs_snapshot _ _ Hc) as Hs. pose proof (cs_ring _ _ Hc) as Hr.
  unfold work_step in E.
  destruct (work c) as [last|last| | |s|s|s|s| |] eqn:Ew; try done.
  - injection E as <-. destruct (negb (run c) && _); apply consistent_work; try done; by rewrite Ew.
  - destruct last; simplify_eq; [apply consistent_work; try done; by rewrite Ew|].
    destruct (negb _ && _); simplify_eq; [apply consistent_work; try done; by rewrite Ew|].
    apply consistent_begin; [done|by rewrite Ew].
  - destruct (notify_log c); simplify_eq; [|apply consistent_work; try done; by rewrite Ew].
    apply consistent_begin; [by apply consistent_notify|cbn; by rewrite Ew].
  - injection E as <-. specialize (Hs s eq_refl).
    rewrite (output_first o Hseg Hmax) by done. cbn.
    pose proof (snapshot_bounds o Hmax (log c) s Hr Hs).
    replace (take (Z.to_nat (log_len s)) (pending (log c)))
      with (take (Z.to_nat (log_len s)) (drop (Z.to_nat (handed (work c))) (pending (log c))))
      by by rewrite Ew.
    apply consistent_put; rewrite ?Ew; cbn; try done; lia.
  - injection E as <-. specialize (Hs s eq_refl).
    pose proof (snapshot_bounds o Hmax (log c) s Hr Hs).
    case_bool_decide; [|apply consistent_same_hand; rewrite ?Ew; cbn; try done; lia].
    rewrite (output_second o Hseg Hmax) by (done || lia). cbn.
    replace (drop (Z.to_nat (log_len s)) (pending (log c)))
      with (drop (Z.to_nat (handed (work c))) (pending (log c))) by by rewrite Ew.
    apply consistent_put; rewrite ?Ew; cbn; try done; lia.
  - injection E as <-.
    assert (consistent o (with_work (Releasing s) (put [] c))) as Hnil.
    { change (@nil byte) with (take (Z.to_nat 0) (drop (Z.to_nat (handed (work c))) (pending (log c)))).
      pose proof (snapshot_bounds o Hmax (log c) s Hr (Hs s eq_refl)).
      apply consistent_put; rewrite ?Ew; cbn; try done; lia. }
    unfold drop_report. rewrite Hseg. case_bool_decide; [|done].
    destruct (block o) eqn:Hb; [|by apply consistent_crash].
    destruct (cs_block _ _ Hc Hb) as (_ & _ & _ & Hd). rewrite (Hd s) in *; [lia|by rewrite Ew].
  - injection E as <-. specialize (Hs s eq_refl).
    destruct (release_ok o Hmax (log c) s Hr Hs) as [Hr' Hp].
    destruct Hc as [_ _ Ht Hf Hb]. split; try done; cbn.
    + unfold unwritten in *. cbn. by rewrite Hf, Hp, Ew.
    + intros Hbl. destruct (Hb Hbl) as (? & ? & ? & _). by split_and!.
  - injection E as <-.
    assert (consistent o (with_threads (wake <$> threads c) c)) as Hw.
    { apply consistent_threads; [done|]. intros i t. rewrite lookup_fmap_Some.
      intros (u & <- & Hu). pose proof (cs_threads _ _ Hc i u Hu). by destruct u. }
    case_bool_decide; apply consistent_work; try done; cbn; by rewrite Ew.
Qed.

Lemma consistent_step c c' : consistent o c -> any_step o print_callback c c' -> consistent o c'.
Proof.
  intros Hc [k Hstep]. inversion Hstep; subst.
  - by apply consistent_set.
  - by eapply consistent_thread.
  - by eapply consistent_writer.
  - apply consistent_set; [done|]. by apply (cs_threads _ _ Hc i (Waiting maxlen line)).
  - match goal with Hw : work c = Sleeping |- _ => apply consistent_work; try done; by rewrite Hw end.
  - destruct Hc. by split.
  - apply consistent_signal. destruct Hc. by split.
Qed.

Lemma consistent_reachable mem c :
  Z.of_nat (length mem) = buffsize o -> max_line_size o <= buffsize o ->
  reachable o print_callback mem c -> consistent o c.
Proof.
  intros Hmem Hsize. apply rtc_invariant; [apply consistent_step|].
  split; cbn; try done.
  split; cbn; lia.
Qed.
Lemma no_data l : has_data l = false -> pending l = [].
Proof.
  unfold has_data, pending. rewrite orb_false_iff, !bool_decide_eq_false.
  intros [He Hx]. rewrite bool_decide_eq_false_2 by done.
  replace (end_ l - start l) with 0 by lia. done.
Qed.

(** The other threads wake the writer and do nothing else to it. *)
Lemma signal_work c :
  work (signal c) = work c \/ work c = Sleeping /\ work (signal c) = Signalled.
Proof. unfold signal. destruct (work c) eqn:E; cbn; auto. Qed.

Lemma thread_work c i t c' :
  thread_step o print_callback i t c = Some c' ->
  work c' = work c \/ work c = Sleeping /\ work c' = Signalled.
Proof.
  destruct t; cbn; intros [= <-]; cbn; auto.
  - unfold call_step. destruct (need_drop _ _) as [l [|]]; [by left|].
    destruct (line_of _ _) as [[]| |]; by left.
  - unfold check_step. case_bool_decide.
    + pose proof (signal_work (with_notify true c)); case_bool_decide; destruct (block o); cbn; auto.
    + destruct (store_line _ _ _) as [l| |]; cbn; auto.
      pose proof (signal_work (with_notify true (accept line (with_log l c)))).
      destruct (is_wait _); cbn; auto.
Qed.

(** The writer leaves its loop only when the ring is empty. *)
Lemma exit_step c c' :
  any_step o print_callback c c' -> work c <> Exited -> work c' = Exited ->
  has_data (log c) = false /\ c' = with_work Exited c.
Proof.
  intros [k Hstep] Hne He. inversion Hstep; subst; cbn in *; try done.
  - match goal with E : thread_step _ _ _ _ _ = _ |- _ => apply thread_work in E end.
    naive_solver congruence.
  - match goal with E : work_step _ _ = Some _ |- _ => revert E end.
    destruct (has_data (log c)) eqn:Hd; unfold work_step, begin_writing, put_then; cbn; rewrite ?Hd;
      intros; repeat (case_match || case_bool_decide); simplify_eq; cbn in *; try congruence.
    + by rewrite andb_false_r in *.
    + done.
  - pose proof (signal_work (with_exit (run c) ExitSignalled c)). cbn in *. naive_solver congruence.
Qed.

(** C18. A log that is not in segment mode, with lines shorter than its line size, is a
    first-in first-out channel under every interleaving of the threads that log, the
    writer, spurious wake-ups and [tlog_exit]: the bytes handed to the output function are
    a prefix of the lines stored, in their order, none twice and none changed by a line
    stored meanwhile, and the rest is in the ring; when the ring is empty all have been
    handed out, so that the writer, told to stop, ends with nothing left. A log that blocks
    refuses no line, and none of its accesses is undefined. *)
Theorem tlog_fifo mem c :
  Z.of_nat (length mem) = buffsize o -> max_line_size o <= buffsize o ->
  reachable o print_callback mem c ->
  accepted c = written c ++ unwritten c
  /\ (has_data (log c) = false -> written c = accepted c)
  /\ (forall k c', step o print_callback c k c' -> work c <> Exited -> work c' = Exited ->
       written c' = accepted c')
  /\ (block o = true -> refused c = 0 /\ crashed c = false).
Proof.
  intros Hmem Hsize Hc. apply consistent_reachable in Hc; [|done..].
  assert (has_data (log c) = false -> written c = accepted c) as Hall.
  { intros Hd. rewrite (cs_fifo _ _ Hc). unfold unwritten.
    by rewrite no_data, drop_nil, app_nil_r. }
  split_and!; [apply (cs_fifo _ _ Hc)|done|..].
  - intros k c' Hstep Hne He. destruct (exit_step c c') as [Hd ->]; [by exists k|done..|].
    by apply Hall.
  - intros Hb. by destruct (cs_block _ _ Hc Hb) as (? & ? & _).
Qed.
End Fifo.

(** ** The root log of the daemon *)

(** A call of one of the logging macros: the prefix's data and the text. *)
Record root_message := mk_message {
  m_pid : option Z;
  m_info : tlog_loginfo;
  m_text : list byte
}.

Definition root_callback (m : root_message) (maxlen : Z) : outcome (Z * list byte) :=
  root_log_buffer None
    (root_default_format (bytes_of (log_prefix (m_pid m) (m_info m))) (m_text m)) maxlen.

(** Its lines fit, so the daemon's log is a channel in the sense of [tlog_fifo]. *)
#[export] Instance root_lines o : (6 < max_line_size o) -> Lines o root_callback.
Proof.
  intros Hm. split. intros m. unfold line_of, root_callback.
  destruct (root_log_buffer_fits
    (root_default_format (bytes_of (log_prefix (m_pid m) (m_info m))) (m_text m)) (max_line_size o))
    as (n & bs & -> & Hn); [by apply root_default_format_ok|done|].
  cbn. eexists. split; [done|]. intros line. unfold cut_line. case_bool_decide; [done|].
  rewrite bool_decide_eq_false_2 by lia. intros [= <-]. rewrite length_take. lia.
Qed.

(** ** Schedules *)

(** One step of a run: a call by a thread, a step of a thread, a step of the writer,
    the two steps of [tlog_exit]. *)
Inductive turn (message : Type) :=
  | ACall (i : nat) (m : message)
  | AThread (i : nat)
  | AWriter
  | AExit
  | AExitSignal.
Arguments ACall {message} i m.
Arguments AThread {message} i.
Arguments AWriter {message}.
Arguments AExit {message}.
Arguments AExitSignal {message}.

Section Schedules.
Context {message : Type} (o : settings) (print_callback : message -> Z -> outcome (Z * list byte)).

Definition take_turn (a : turn message) (c : config message) : option (config message) :=
  if crashed c then None
  else
    match a with
    | ACall i m =>
        match threads c !! i with
        | Some _ => None
        | None => if vprintf_ignored o then None else Some (set_thread i (Calling m) c)
        end
    | AThread i => t ← threads c !! i; thread_step o print_callback i t c
    | AWriter => work_step o c
    | AExit => match exit_ c with NotExiting => Some (with_exit false RunCleared c) | _ => None end
    | AExitSignal =>
        match exit_ c with
        | RunCleared => Some (signal (with_exit (run c) ExitSignalled c))
        | _ => None
        end
    end.

Fixpoint schedule (turns : list (turn message)) (c : config message) : option (config message) :=
  match turns with
  | [] => Some c
  | a :: turns => c ← take_turn a c; schedule turns c
  end.

Lemma take_turn_step a c c' : take_turn a c = Some c' -> any_step o print_callback c c'.
Proof.
  unfold take_turn. destruct (crashed c) eqn:Hc; [done|].
  destruct a as [i m|i| | |]; intros E.
  - destruct (threads c !! i) eqn:Hi; [done|]. destruct (vprintf_ignored o) eqn:Hv; simplify_eq.
    exists Outside. by constructor.
  - destruct (threads c !! i) as [t|] eqn:Hi; [|done]. exists Code. by eapply s_thread.
  - exists Code. by eapply s_writer.
  - destruct (exit_ c) eqn:He; simplify_eq. exists Outside. by constructor.
  - destruct (exit_ c) eqn:He; simplify_eq. exists Code. by constructor.
Qed.

Lemma schedule_reachable mem turns c :
  schedule turns (initial mem) = Some c -> reachable o print_callback mem c.
Proof.
  unfold reachable. generalize (initial (message := message) mem). clear mem.
  induction turns as [|a turns IH]; intros c0 E; cbn in E; [by injection E as ->|].
  destruct (take_turn a c0) as [c1|] eqn:E1; [|done].
  eapply rtc_l; [by eapply take_turn_step|by apply IH].
Qed.
End Schedules.

(** The root log as the daemon opens it, but for the smallest buffer [tlog_init]
    accepts, and the longest lines [tlog_set_maxline_size] allows. *)
Definition two_lines : settings :=
  tlog_set_maxline_size TLOG_MAX_LINE_SIZE_SET (open_settings 1 1 (TLOG_MAX_LINE_SIZE_SET * 2) 0 false false).

Definition long_message : root_message :=
  mk_message None (mk_info "ERROR" "ct_common.c" 1 (mk_time 2024 0 1 1 0 0 0))
    (replicate (Pos.to_nat 8130) x61).

(** Two threads fill the ring with two long lines; a third line has to wait, and
    the writer empties the ring between the test and the wait. *)
Definition lost_turns : list (turn root_message) :=
  [ACall 0 long_message; AThread 0; AThread 0; ACall 0 long_message; AThread 0; AThread 0;
   ACall 1 long_message; AThread 1; AThread 1]
  ++ replicate 11 AWriter ++ [AThread 1].

Definition lost : config root_message :=
  default (initial []) (schedule two_lines root_callback lost_turns
    (initial (replicate (Pos.to_nat 16384) x00))).

Definition asleep {message} (t : thread message) : bool :=
  match t with Waiting _ _ => true | _ => false end.

(** What was computed of [lost]. *)
Lemma lost_state :
  exists mem c, reachable two_lines root_callback mem c
  /\ size (threads c) = 1%nat
  /\ forallb (fun p => asleep p.2) (map_to_list (threads c)) = true
  /\ has_data (log c) = false /\ work c = Sleeping /\ exit_ c = NotExiting.
Proof.
  exists (replicate (Pos.to_nat 16384) x00), lost. split.
  - apply (schedule_reachable _ _ _ lost_turns). vm_compute. reflexivity.
  - split_and!; vm_compute; reflexivity.
Qed.

(** C30. A thread that waits for room can be forgotten: it lets go of [tlog.lock]
    before it takes [log->lock] and counts itself as a waiter, and the writer may
    empty the whole ring in between. There are runs, without any spurious wake-up,
    after which a thread sleeps although the ring is empty, the writer sleeps too,
    and no part of the code has a step left: only a later message, or
    [tlog_exit], sets the log going again. *)
Theorem tlog_lost_wakeup :
  exists mem c, reachable two_lines root_callback mem c
    /\ (exists i maxlen line, threads c !! i = Some (Waiting maxlen line))
    /\ has_data (log c) = false /\ work c = Sleeping /\ exit_ c = NotExiting
    /\ forall c', ~ step two_lines root_callback c Code c'.
Proof.
  destruct lost_state as (mem & c & Hr & Hsize & Hall & Hd & Hw & He).
  assert (forall i t, threads c !! i = Some t -> asleep t = true) as Hasleep.
  { intros i t Hi. rewrite forallb_forall in Hall.
    apply (Hall (i, t)). by apply list_elem_of_In, elem_of_map_to_list. }
  exists mem, c. split_and!; try done.
  - destruct (map_choose (threads c)) as (i & t & Hi); [intros E; by rewrite E in Hsize|].
    specialize (Hasleep i t Hi). destruct t; try done. by eauto.
  - intros c' Hstep. inversion Hstep as [|i t ? _ Hi Ht|? _ Hwork| | | |]; subst.
    + specialize (Hasleep i t Hi). by destruct t.
    + unfold work_step in Hwork. by rewrite Hw in Hwork.
    + congruence.
Qed.

(** Two messages, one after the other, both written before [tlog_exit] returns. *)
Definition short_message (t : string) : root_message :=
  mk_message None (mk_info "ERROR" "ct_common.c" 1 (mk_time 2024 0 1 1 0 0 0)) (bytes_of t).

Definition flush_turns : list (turn root_message) :=
  [ACall 0 (short_message "one"); AThread 0; ACall 1 (short_message "two"); AThread 1; AThread 0;
   AThread 1; AExit; AWriter; AWriter; AWriter; AWriter; AWriter; AWriter; AWriter; AExitSignal;
   AWriter].

Lemma tlog_fifo_witness :
  let c := default (initial []) (schedule two_lines root_callback flush_turns
             (initial (replicate (Pos.to_nat 16384) x00))) in
  accepted c = written c ++ unwritten c /\ written c = accepted c.
Proof.
  intros c.
  assert (reachable two_lines root_callback (replicate (Pos.to_nat 16384) x00) c) as Hc.
  { apply (schedule_reachable _ _ _ flush_turns). vm_compute. reflexivity. }
  pose proof (@tlog_fifo _ two_lines root_callback (root_lines two_lines eq_refl) eq_refl eq_refl
    (replicate (Pos.to_nat 16384) x00) c eq_refl ltac:(vm_compute; discriminate) Hc) as (H1 & H2 & _).
  split; [exact H1|]. apply H2. vm_compute. reflexivity.
Defined.

(** A line of exactly [max_line_size] bytes, which the print callback of a log of
    one's own can deliver though the root log's cannot, may close the ring up:
    [end] meets [start] with data in both parts, and the second is lost. *)
Definition closing_ring : tlog_log := mk_log (replicate 384 x61) 128 0 384 0 0.

Example full_line_lost :
  let o := tlog_set_maxline_size 128 (open_settings 1 1 384 0 false false) in
  let line := replicate 128 x62 in
  exists l, store_line o closing_ring line = Ret l
    /\ pending l = pending closing_ring ++ line
    /\ log_extlen (take_snapshot l) = 0
    /\ pending (release (take_snapshot l) l) = [].
Proof. eexists. split_and!; vm_compute; reflexivity. Qed.

(** A longer line size set while [end] lies near the end of the buffer leaves an
    empty ring with no room for a line, for good. *)
Example larger_lines_stall :
  let o := tlog_set_maxline_size 200 (open_settings 1 1 384 0 false false) in
  let l := mk_log (replicate 384 x61) 250 250 0 0 0 in
  has_data l = false /\ free_room o l 0 < max_line_size o.
Proof. split; vm_compute; reflexivity. Qed.

End Tlog.
