(* ===== verification/LogSmall.v ===== *)
(** * tlog.c: a log whose buffer is shorter than a line

    [tlog_init] asks for room for two lines; [tlog_open] takes any size. And what comes of
    a change of the line size while there is something in the ring. *)

From Stdlib Require Import ZArith Lia.
From Stdlib Require Import Strings.Byte.
From stdpp Require Import base gmap list strings.
From S2P Require Import Prelude TlogFormat Tlog.

Module LogSmall.

Import TlogFormat Tlog.
Local Open Scope Z_scope.

Section Small.
Context {message : Type} (o : settings) (print_callback : message -> Z -> outcome (Z * list byte)).

(** The ring never leaves its first state, and the writer never has anything to
    write. *)
Record unused (c : config message) : Prop := {
  un_start : start (log c) = 0;
  un_end : end_ (log c) = 0;
  un_ext : ext_end (log c) = 0;
  un_accepted : accepted c = [];
  un_written : written c = [];
  un_work : match work c with Top _ | Picking _ | Sleeping | Signalled | Exited => True | _ => False end
}.

(** A thread that has laid out its line. *)
Definition has_line (t : thread message) : bool :=
  match t with Calling _ => false | _ => true end.

Lemma unused_no_data c : unused c -> has_data (log c) = false.
Proof. intros []. unfold has_data. rewrite un_end0, un_start0, un_ext0. done. Qed.

Lemma unused_signal c : unused c -> unused (signal c).
Proof. intros []. unfold signal. destruct (work c) eqn:E; split; cbn; rewrite ?E; done. Qed.

Lemma unused_begin c : unused c -> unused (begin_writing c).
Proof. intros H. unfold begin_writing. rewrite unused_no_data by done. by destruct H. Qed.

Hypothesis Hsmall : buffsize o < max_line_size o.

Lemma unused_room c maxlen : unused c -> free_room o (log c) maxlen = buffsize o.
Proof.
  intros []. unfold free_room. rewrite un_end0, un_start0, un_ext0.
  rewrite !bool_decide_eq_true_2 by done. lia.
Qed.

Lemma unused_check i maxlen line c : unused c -> unused (check_step o i maxlen line c).
Proof.
  intros H. unfold check_step. rewrite unused_room, bool_decide_eq_true_2 by done.
  rewrite (bool_decide_eq_false_2 (end_ (log c) <> start (log c))) by (destruct H; intros []; congruence).
  destruct (block o); by destruct H.
Qed.

Lemma unused_thread i t c c' :
  unused c -> thread_step o print_callback i t c = Some c' -> unused c'.
Proof.
  intros H. destruct t; cbn; try (intros [= <-]; by destruct H).
  - unfold call_step, need_drop. intros [= <-].
    destruct (block o); cbn; [|case_bool_decide]; [| |].
    all: try (destruct (line_of _ _) as [[]| |]); by destruct H.
  - intros [= <-]. by apply unused_check.
Qed.

Lemma unused_writer c c' : unused c -> work_step o c = Some c' -> unused c'.
Proof.
  intros H. pose proof (un_work _ H) as Hw. unfold work_step. rewrite (unused_no_data c H).
  destruct (work c) as [last|[|]| | | | | | | |]; try done; cbn.
  - intros [= <-]. destruct (run c); by destruct H.
  - intros [= <-]. by destruct H.
  - destruct (run c); intros [= <-]; [by destruct H|by apply unused_begin].
  - destruct (notify_log c); intros [= <-]; [|by destruct H].
    apply unused_begin. by destruct H.
Qed.

Lemma unused_step c c' : unused c -> any_step o print_callback c c' -> unused c'.
Proof.
  intros H [k Hs]. inversion Hs; subst.
  - by destruct H.
  - by eapply unused_thread.
  - by eapply unused_writer.
  - by destruct H.
  - by destruct H.
  - by destruct H.
  - apply unused_signal. by destruct H.
Qed.

Lemma unused_reachable mem c : reachable o print_callback mem c -> unused c.
Proof.
  unfold reachable. intros H. remember (initial mem) as c0 eqn:E0.
  assert (unused c0) as H0 by (by subst; split).
  clear E0. induction H as [c|c c1 c2 Hs _ IH]; [done|]. apply IH. by eapply unused_step.
Qed.

(** A thread keeps its line, and the steps of the others leave it alone. *)
Lemma check_keeps i j maxlen line c :
  unused c -> block o = true ->
  threads (check_step o j maxlen line c) !! i
  = if decide (i = j) then Some (Entering (buffsize o) line) else threads c !! i.
Proof.
  intros H Hb. unfold check_step. rewrite unused_room, bool_decide_eq_true_2, Hb by done.
  rewrite (bool_decide_eq_false_2 (end_ (log c) <> start (log c))) by (destruct H; intros []; congruence).
  cbn. case_decide as Hij; [subst; apply lookup_insert_eq|by rewrite lookup_insert_ne].
Qed.

Lemma call_keeps i j m c : i <> j -> threads (call_step o print_callback j m c) !! i = threads c !! i.
Proof.
  intros Hij. unfold call_step, need_drop.
  destruct (block o); [|case_bool_decide]; [destruct (line_of _ _) as [[]| |]| |destruct (line_of _ _) as [[]| |]];
    cbn; rewrite ?lookup_insert_ne, ?lookup_delete_ne by done; done.
Qed.

Lemma thread_keeps i t j t' c c' :
  unused c -> block o = true -> threads c !! i = Some t -> has_line t = true ->
  threads c !! j = Some t' -> thread_step o print_callback j t' c = Some c' ->
  exists t', threads c' !! i = Some t' /\ has_line t' = true.
Proof.
  intros H Hb Hi Ht Hj. destruct t' as [m|maxlen line|maxlen line|maxlen line|maxlen line]; cbn;
    intros [= <-].
  - rewrite call_keeps by (intros ->; rewrite Hi in Hj; by injection Hj as ->). by exists t.
  - rewrite check_keeps by done. case_decide; eauto.
  - cbn. destruct (decide (i = j)) as [->|]; [rewrite lookup_insert_eq|rewrite lookup_insert_ne by done]; eauto.
  - cbn. destruct (decide (i = j)) as [->|]; [rewrite lookup_insert_eq|rewrite lookup_insert_ne by done]; eauto.
Qed.

Lemma writer_keeps c c' : unused c -> work_step o c = Some c' -> threads c' = threads c.
Proof.
  intros H. pose proof (un_work _ H) as Hw. unfold work_step, begin_writing. rewrite (unused_no_data c H).
  destruct (work c) as [last|[|]| | | | | | | |]; try done; cbn.
  1,2: by intros [= <-].
  - destruct (run c); cbn; intros [= <-]; done.
  - destruct (notify_log c); intros [= <-]; [|done].
    change (log (with_notify false c)) with (log c). by rewrite (unused_no_data c H).
Qed.

Lemma line_kept i t c c' :
  unused c -> block o = true -> threads c !! i = Some t -> has_line t = true ->
  any_step o print_callback c c' -> exists t', threads c' !! i = Some t' /\ has_line t' = true.
Proof.
  intros H Hb Hi Ht [k Hs]. inversion Hs as [j m _ Hj|j t' c1 _ Hj Hstep|c1 _ Hstep|j maxlen line _ Hj| | |]; subst.
  - exists t. cbn. rewrite lookup_insert_ne; [done|]. intros ->. congruence.
  - by eapply thread_keeps.
  - rewrite (writer_keeps c c') by done. eauto.
  - cbn. destruct (decide (i = j)) as [->|]; [rewrite lookup_insert_eq|rewrite lookup_insert_ne by done]; eauto.
  - by exists t.
  - by exists t.
  - exists t. unfold signal. by destruct (work _).
Qed.

(** C25. A log that [tlog_open] made with a buffer smaller than a line stores nothing, ever,
    under every interleaving; when it is a blocking log a thread that prints to it never
    returns from [_tlog_vprintf]. *)
Theorem tlog_small_buffer_stuck mem c :
  reachable o print_callback mem c ->
  accepted c = [] /\ written c = []
  /\ (block o = true -> forall i t c', threads c !! i = Some t -> has_line t = true ->
       rtc (any_step o print_callback) c c' -> exists t', threads c' !! i = Some t' /\ has_line t' = true).
Proof.
  intros H%unused_reachable. split_and!; [apply H..|].
  intros Hb i t c' Hi Ht Hs. revert t H Hi Ht. induction Hs as [c|c c1 c2 Hs _ IH]; intros t H Hi Ht; [eauto|].
  destruct (line_kept i t c c1) as (t' & Hi' & Ht'); [done..|].
  eapply IH; [by eapply unused_step|done..].
Qed.

End Small.

(** A log with a buffer of 1000 bytes, and one thread that prints. *)
Definition small : settings := open_settings 100 1 1000 0 false true.

Definition small_turns : list (turn root_message) :=
  [ACall 1 (short_message "x"); AThread 1; AThread 1; AThread 1].

Lemma tlog_small_buffer_stuck_witness :
  exists c, reachable small root_callback (replicate 1000 x61) c
    /\ accepted c = [] /\ exists t, threads c !! 1%nat = Some t /\ has_line t = true
    /\ forall c', rtc (any_step small root_callback) c c' ->
       exists t', threads c' !! 1%nat = Some t' /\ has_line t' = true.
Proof.
  assert (exists c, schedule small root_callback small_turns (initial (replicate 1000 x61)) = Some c
    /\ match threads c !! 1%nat with Some t => has_line t = true | None => False end) as (c & E & Ht).
  { vm_compute. eexists. by split. }
  exists c. pose proof (schedule_reachable _ _ _ _ _ E) as H.
  destruct (tlog_small_buffer_stuck small root_callback eq_refl _ c H) as (Ha & _ & Hk).
  destruct (threads c !! 1%nat) as [t|] eqn:Hi; [|done].
  split_and!; [done|done|]. exists t. split_and!; [done|done|].
  intros c'. by apply (Hk eq_refl 1%nat t).
Defined.

(** ** A longer line size for a log in use *)

(** [tlog_set_maxline_size] does not look at the ring. Where that goes on from its start, a
    line stored under a greater line size can be taken for the last one before the end of
    the buffer: the end of the old data is overwritten by the end of the line, and what was
    still to be written is lost, with the line. *)
Theorem maxline_size_loses_data o n l line :
  segment_log o = false -> ring_ok o l -> 0 < ext_end l ->
  let o' := tlog_set_maxline_size n o in
  max_line_size o' <= free_room o' l 0 -> Z.of_nat (length line) < max_line_size o' ->
  buffsize o - max_line_size o' < end_ l + Z.of_nat (length line) ->
  end_ l < start l ->
  exists l', store_line o' l line = Ret l' /\ 0 < Z.of_nat (length (pending l))
    /\ pending l' = [] /\ ext_end l' < start l'.
Proof.
  intros Hseg [Hb Hs He Hx] Hext o' Hroom Hline Hlast Hrev.
  assert (buffsize o' = buffsize o) as Hbs by done. unfold free_room in Hroom.
  rewrite bool_decide_eq_false_2, bool_decide_eq_false_2 in Hroom by lia.
  unfold store_line, entry. change (segment_log o') with (segment_log o). rewrite Hseg.
  rewrite bool_decide_eq_false_2 by lia. rewrite Hbs, bool_decide_eq_true_2 by lia.
  eexists. split; [done|]. unfold pending. cbn [buff start end_ ext_end].
  rewrite !bool_decide_eq_true_2 by lia. split_and!.
  - rewrite length_app, length_slice by lia. lia.
  - replace (Z.to_nat (end_ l + Z.of_nat (length line) - start l)) with 0%nat by lia. done.
  - lia.
Qed.

Definition half_full : tlog_log := mk_log (replicate (Pos.to_nat 16384) x61) 9000 100 16300 0 0.

Lemma maxline_size_loses_data_witness :
  exists l', store_line (tlog_set_maxline_size 8192 (tlog_set_maxline_size 128 (open_settings 100 1 16384 0 false true)))
      half_full (replicate (Pos.to_nat 8150) x62) = Ret l'
    /\ pending l' = [].
Proof.
  set (o := tlog_set_maxline_size 128 (open_settings 100 1 16384 0 false true)).
  assert (buffsize o = 16384 /\ max_line_size o = 128) as [Hb Hm] by done.
  destruct (maxline_size_loses_data o 8192 half_full (replicate (Pos.to_nat 8150) x62)) as (l' & E & _ & Hp & _).
  - done.
  - split; rewrite ?Hb, ?Hm; unfold half_full; cbn [buff start end_ ext_end]; rewrite ?length_replicate; lia.
  - done.
  - by vm_compute.
  - rewrite length_replicate. change (max_line_size _) with 8192. lia.
  - rewrite length_replicate, Hb. change (max_line_size _) with 8192. cbn [end_ half_full]. lia.
  - done.
  - exists l'. split; [exact E|exact Hp].
Defined.

End LogSmall.
