(* ===== verification/EarlyPrint.v ===== *)
(** * tlog.c: messages before [tlog_init]

    [_tlog_early_print] lays a message out in a buffer on the stack and prints it. The
    buffer is modelled as memory: what is read or written outside of it is
    undefined. *)

From Stdlib Require Import ZArith Lia.
From Stdlib Require Import Strings.Byte.
From stdpp Require Import base list strings.
From S2P Require Import Prelude TlogFormat Tlog.

Module EarlyPrint.

Import TlogFormat.
Import Tlog(TLOG_MAX_LINE_LEN).
Local Open Scope Z_scope.
Local Open Scope estuary_scope.

(** ** Settings *)

(** The fields of [struct tlog] for early messages; callbacks are there or not. *)
Record early := mk_early {
  early_print_disable : bool;
  early_print_no_prefix : bool;
  early_print_color : bool;
  early_print_with_screen : bool;
  early_print_callback : bool;
  early_print_output : bool
}.

Definition tlog_set_early_printf (enable no_prefix color : Z) (tty : bool) (e : early) : early :=
  mk_early (bool_decide (enable = 0)) (negb (bool_decide (no_prefix = 0)))
    (negb (bool_decide (color = 0)) && tty) (early_print_with_screen e)
    (early_print_callback e) (early_print_output e).

Definition tlog_reg_early_printf_callback (callback : bool) (e : early) : early :=
  mk_early (early_print_disable e) (early_print_no_prefix e) (early_print_color e)
    (early_print_with_screen e) callback (early_print_output e).

Definition tlog_reg_early_printf_output_callback (callback : bool) (log_screen : Z) (e : early) : early :=
  mk_early (early_print_disable e) (early_print_no_prefix e) (early_print_color e)
    (negb (bool_decide (log_screen = 0))) (early_print_callback e) callback.

(** ** The buffer *)

(** A byte of the buffer, and storing one. *)
Definition load (buf : list byte) (i : Z) : outcome byte :=
  if bool_decide (i < 0) then Crash else defined (buf !! Z.to_nat i).
Definition store (buf : list byte) (i : Z) (b : byte) : outcome (list byte) :=
  if bool_decide (i < 0) || bool_decide (i >= Z.of_nat (length buf)) then Crash
  else Ret (<[Z.to_nat i := b]> buf).

(** [snprintf] to offset [off] with room for [size] bytes: the text, cut, and its
    terminator; nothing when there is no room at all. *)
Definition snprintf_at (buf : list byte) (off size : Z) (text : list byte) : outcome (list byte) :=
  if bool_decide (size = 0) then Ret buf
  else
    let out := take (Z.to_nat (size - 1)) text ++ [NUL] in
    if bool_decide (off + Z.of_nat (length out) > Z.of_nat (length buf)) then Crash
    else Ret (overwrite (Z.to_nat off) out buf).

(** The newline and the terminator at the end of a line, and the line. *)
Definition early_end (buf : list byte) (out_len : Z) : outcome (list byte) :=
  l ← load buf (out_len -u 1);
  '(buf, out_len) ←
    (if bool_decide (l <> newline) then buf ← store buf out_len newline; Ret (buf, out_len +u 1)
     else Ret (buf, out_len));
  buf ← (if bool_decide (out_len +u 1 < TLOG_MAX_LINE_LEN -u out_len -u 1)
         then store buf out_len NUL else Ret buf);
  Ret (take (Z.to_nat out_len) buf).

(** The layout in [_tlog_early_print]: [stack] is what the buffer holds at first;
    [None] is a message that is not printed. *)
Definition early_line (no_prefix : bool) (prefix text stack : list byte) : outcome (option (list byte)) :=
  buf ← if no_prefix then Ret stack else snprintf_at stack 0 TLOG_MAX_LINE_LEN prefix;
  let out_len := if no_prefix then 0 else Z.of_nat (length prefix) in
  buf ← snprintf_at buf out_len (TLOG_MAX_LINE_LEN -u out_len -u 1) text;
  let len := Z.of_nat (length text) in
  let out_len := out_len +u len in
  if bool_decide (len <= 0) then Ret None
  else
    let out_len := if bool_decide (len >= TLOG_MAX_LINE_LEN -u 1) then TLOG_MAX_LINE_LEN -u 1 else out_len in
    line ← early_end buf out_len;
    Ret (Some line).

(** Where the line goes, and the result; the output callback answers [answer]. *)
Inductive printed :=
  | Quiet (rc : Z)                                       (* nothing is printed *)
  | Callback                                             (* the print callback has it; 0 *)
  | Line (line : list byte) (to_callback : bool) (screen : list byte) (rc : Z).

Definition early_print (e : early) (gettime_ok : bool) (level : Z) (prefix text stack : list byte)
    (answer : Z) : outcome printed :=
  if early_print_disable e then Ret (Quiet 0)
  else if negb gettime_ok then Ret (Quiet (-1))
  else if early_print_callback e then Ret Callback
  else
    o ← early_line (early_print_no_prefix e) prefix text stack;
    match o with
    | None => Ret (Quiet (-1))
    | Some line =>
        let screen := if early_print_color e then tlog_stdout_with_color level line else line in
        Ret (if early_print_output e && negb (early_print_with_screen e)
             then Line line true [] answer
             else Line line (early_print_output e) screen (Z.of_nat (length line)))
    end.

(** ** The buffer is too short *)

Lemma length_snprintf_at buf off size text buf' :
  0 <= off -> snprintf_at buf off size text = Ret buf' -> length buf' = length buf.
Proof.
  intros Hoff. unfold snprintf_at. case_bool_decide; [by intros [= ->]|]. cbn zeta.
  case_bool_decide as H1; [done|]. intros [= <-]. apply length_overwrite. lia.
Qed.

Lemma store_in buf i b :
  0 <= i < Z.of_nat (length buf) -> store buf i b = Ret (<[Z.to_nat i := b]> buf).
Proof. intros H. unfold store. by rewrite !bool_decide_eq_false_2 by lia. Qed.

Lemma load_in buf i b : 0 <= i -> buf !! Z.to_nat i = Some b -> load buf i = Ret b.
Proof. intros H E. unfold load. rewrite bool_decide_eq_false_2 by lia. by rewrite E. Qed.

Lemma load_out buf i : Z.of_nat (length buf) <= i -> load buf i = Crash.
Proof.
  intros H. unfold load. case_bool_decide; [done|]. by rewrite lookup_ge_None_2 by lia.
Qed.

Lemma store_out buf i b : Z.of_nat (length buf) <= i -> store buf i b = Crash.
Proof. intros H. unfold store. rewrite (bool_decide_eq_true_2 (i >= _)) by lia. by rewrite orb_true_r. Qed.

(** A line that leaves room for its newline. *)
Lemma early_end_fits buf line :
  Z.of_nat (length buf) = TLOG_MAX_LINE_LEN -> line <> [] -> Z.of_nat (length line) < 1023 ->
  take (length line) buf = line ->
  early_end buf (Z.of_nat (length line)) = Ret (with_newline line).
Proof.
  intros Hb Hne Hl Ht. unfold TLOG_MAX_LINE_LEN in *. set (n := length line) in *.
  assert (0 < n)%nat by (unfold n; destruct line; [done|cbn; lia]).
  unfold early_end, TLOG_MAX_LINE_LEN. rewrite (u64_id (_ - 1)) by (unfold two64; lia).
  destruct (last line) as [x|] eqn:Ex; [|by apply last_None in Ex].
  assert (buf !! (n - 1)%nat = Some x) as Hx.
  { rewrite last_lookup in Ex. fold n in Ex. rewrite <- Ht, lookup_take_lt in Ex by lia.
    by replace (n - 1)%nat with (pred n) by lia. }
  rewrite (load_in _ _ x) by (lia || by replace (Z.to_nat _) with (n - 1)%nat by lia).
  cbn [mbind outcome_bind]. unfold with_newline. rewrite Ex.
  (* the terminator does not reach the line *)
  assert (forall b o, length b = length buf -> 0 <= o <= 1023 ->
    (b ← (if bool_decide (o +u 1 < 1024 -u o -u 1) then store b o NUL else Ret b);
     Ret (take (Z.to_nat o) b)) = Ret (take (Z.to_nat o) b)) as Hnul.
  { intros b o Hlb Ho. case_bool_decide; [|done]. rewrite store_in by lia. cbn [mbind outcome_bind].
    by rewrite take_insert_ge by lia. }
  destruct (decide (x = newline)) as [->|Hx'].
  - rewrite bool_decide_eq_false_2 by (intros H'; by apply H'). cbn [mbind outcome_bind].
    rewrite Hnul by (done || lia). rewrite Nat2Z.id, Ht. by rewrite bool_decide_eq_true_2.
  - rewrite bool_decide_eq_true_2 by done. rewrite store_in by lia. cbn [mbind outcome_bind].
    rewrite (u64_id (_ + 1)) by (unfold two64; lia).
    rewrite Hnul by (rewrite ?length_insert; lia).
    rewrite (bool_decide_eq_false_2 (Some x = _)) by congruence.
    rewrite Nat2Z.id. replace (Z.to_nat _) with (S n) by lia.
    rewrite (take_S_r _ _ newline); [|apply list_lookup_insert_eq; lia].
    by rewrite take_insert_ge, Ht by lia.
Qed.

(** A line that ends at the last but one byte, or behind it. *)
Lemma early_end_overruns buf n :
  Z.of_nat (length buf) = TLOG_MAX_LINE_LEN ->
  (n = 1023 /\ exists b, buf !! 1022%nat = Some b /\ b <> newline) \/ 1024 <= n < 2 * INT_MAX ->
  early_end buf n = Crash.
Proof.
  intros Hb Hn. unfold early_end, TLOG_MAX_LINE_LEN, INT_MAX in *.
  assert (forall b, length b = length buf ->
    (b ← (if bool_decide (1024 +u 1 < 1024 -u 1024 -u 1) then store b 1024 NUL else Ret b);
     Ret (take (Z.to_nat 1024) b)) = Crash) as Hover.
  { intros b Hlb. change (bool_decide _) with true. cbn iota. by rewrite store_out by lia. }
  destruct Hn as [(-> & b & Hx & Hne)|Hn].
  - change (1023 -u 1) with 1022. rewrite (load_in _ _ b) by done. cbn [mbind outcome_bind].
    rewrite bool_decide_eq_true_2 by done. rewrite store_in by lia. cbn [mbind outcome_bind].
    change (1023 +u 1) with 1024. apply Hover. by rewrite length_insert.
  - rewrite (u64_id (n - 1)) by (unfold two64; lia).
    destruct (decide (n = 1024)) as [->|]; [|by rewrite load_out by lia].
    change (1024 - 1) with 1023. unfold load. rewrite bool_decide_eq_false_2 by lia.
    destruct (buf !! Z.to_nat 1023) as [b|]; [|done]. cbn [defined mbind outcome_bind].
    destruct (decide (b = newline)) as [->|].
    + rewrite bool_decide_eq_false_2 by (intros H'; by apply H'). cbn [mbind outcome_bind]. by apply Hover.
    + rewrite bool_decide_eq_true_2 by done. by rewrite store_out by lia.
Qed.

Section Layout.
Context (no_prefix : bool) (prefix text stack : list byte).
Let pre := if no_prefix then [] else prefix.
Context (stack_size : Z.of_nat (length stack) = TLOG_MAX_LINE_LEN)
  (pre_fits : Z.of_nat (length pre) < TLOG_MAX_LINE_LEN).

(** The buffer with the prefix. *)
Lemma prefix_stored :
  exists buf, (if no_prefix then Ret stack else snprintf_at stack 0 TLOG_MAX_LINE_LEN prefix) = Ret buf
    /\ (if no_prefix then 0 else Z.of_nat (length prefix)) = Z.of_nat (length pre)
    /\ length buf = length stack /\ take (length pre) buf = pre.
Proof.
  unfold pre in *. destruct no_prefix; [by exists stack|].
  unfold snprintf_at, TLOG_MAX_LINE_LEN in *. rewrite bool_decide_eq_false_2 by lia. cbn zeta.
  rewrite (take_ge prefix) by lia. rewrite bool_decide_eq_false_2 by (rewrite length_app; cbn; lia).
  eexists. split_and!; [done|done| |].
  - apply length_overwrite. rewrite length_app; cbn; lia.
  - change (Z.to_nat 0) with 0%nat. unfold overwrite.
    change (take 0 stack) with (@nil byte). rewrite app_nil_l.
    by rewrite <- app_assoc, take_app_length.
Qed.

(** The text behind it, as much as there is room for, and a terminator. *)
Lemma text_stored buf :
  length buf = length stack -> take (length pre) buf = pre ->
  exists buf', snprintf_at buf (Z.of_nat (length pre))
      (TLOG_MAX_LINE_LEN -u Z.of_nat (length pre) -u 1) text = Ret buf'
    /\ length buf' = length stack
    /\ (Z.of_nat (length pre + length text) < 1023 -> take (length pre + length text) buf' = pre ++ text)
    /\ (Z.of_nat (length pre + length text) >= 1023 -> Z.of_nat (length pre) < 1023 ->
        buf' !! 1022%nat = Some NUL)
    /\ (Z.of_nat (length pre) = 1023 -> buf' = buf).
Proof.
  intros Hl Hp. unfold snprintf_at, TLOG_MAX_LINE_LEN in *.
  rewrite (u64_id (1024 - _)), u64_id by (unfold two64; lia).
  case_bool_decide as H1; [exists buf; split_and!; intros; done || lia|]. cbn zeta.
  set (k := (1022 - length pre)%nat).
  replace (Z.to_nat (1024 - Z.of_nat (length pre) - 1 - 1)) with k by lia.
  assert (length pre + length (take k text ++ [NUL]) <= length buf)%nat as Hfit
    by (rewrite length_app, length_take; cbn; lia).
  rewrite bool_decide_eq_false_2 by lia. rewrite Nat2Z.id. eexists. split_and!; [done|..].
  - by rewrite length_overwrite.
  - intros Hn. rewrite (take_ge text) in * by lia.
    assert (length pre + length text = length pre + length (text ++ [NUL]) - 1)%nat as E
      by (rewrite length_app; cbn; lia).
    pose proof (take_overwrite (length pre) (text ++ [NUL]) buf Hfit) as Ht.
    rewrite Hp in Ht. apply (f_equal (take (length pre + length text))) in Ht.
    rewrite take_take, Nat.min_l in Ht by lia. rewrite Ht, app_assoc.
    apply take_app_length'. by rewrite length_app.
  - intros Hn _. assert (length (take k text) = k) as Hk by (rewrite length_take; lia).
    unfold overwrite. rewrite Hp, <- app_assoc.
    rewrite lookup_app_r by lia. rewrite lookup_app_r by lia. rewrite Hk.
    by replace (1022 - length pre - k)%nat with 0%nat by lia.
  - lia.
Qed.

(** C16. What becomes of an early message: where prefix and text together have less than
    1023 bytes it is printed whole, with a newline at its end; an empty text is not
    printed; and in all other cases the function reads or writes behind its buffer. *)
Theorem early_print_overruns :
  last pre <> Some newline -> Z.of_nat (length text) <= INT_MAX ->
  early_line no_prefix prefix text stack =
    if bool_decide (text = []) then Ret None
    else if bool_decide (Z.of_nat (length pre + length text) < 1023)
         then Ret (Some (with_newline (pre ++ text)))
         else Crash.
Proof.
  intros Hlast Htext. unfold early_line.
  destruct prefix_stored as (buf & -> & -> & Hl & Hp). cbn [mbind outcome_bind].
  destruct (text_stored buf Hl Hp) as (b2 & -> & Hl2 & Hin & Hnul & Hsame). cbn [mbind outcome_bind].
  unfold TLOG_MAX_LINE_LEN, INT_MAX in *.
  set (p := Z.of_nat (length pre)) in *. set (t := Z.of_nat (length text)) in *.
  rewrite (u64_id (1024 - 1)), (u64_id (p + t)) by (unfold two64; lia).
  destruct (decide (text = [])) as [E|E].
  { rewrite (bool_decide_eq_true_2 (text = [])) by done.
    rewrite bool_decide_eq_true_2; [done|]. unfold t. by rewrite E. }
  assert (0 < t) by (unfold t; destruct text; [done|cbn; lia]).
  rewrite (bool_decide_eq_false_2 (text = [])), (bool_decide_eq_false_2 (t <= 0)) by (done || lia).
  assert (Z.of_nat (length pre + length text) = p + t) as -> by lia.
  destruct (decide (p + t < 1023)) as [Hfit|Hfit].
  - rewrite bool_decide_eq_false_2, bool_decide_eq_true_2 by lia.
    replace (p + t) with (Z.of_nat (length (pre ++ text))) by (rewrite length_app; lia).
    rewrite early_end_fits; [done|unfold TLOG_MAX_LINE_LEN; lia| |rewrite length_app; lia|].
    + by destruct pre, text.
    + rewrite length_app. apply Hin. lia.
  - rewrite (bool_decide_eq_false_2 (p + t < 1023)) by done.
    rewrite early_end_overruns; [done|unfold TLOG_MAX_LINE_LEN; lia|]. unfold INT_MAX.
    assert (exists b, b2 !! 1022%nat = Some b /\ b <> newline) as Hb.
    { destruct (decide (p = 1023)) as [Hp'|]; [|exists NUL; split; [apply Hnul; lia|done]].
      rewrite Hsame by lia. rewrite last_lookup, <- Hp in Hlast.
      assert (pred (length pre) = 1022%nat) as E' by lia.
      rewrite Hp, E', <- Hp, lookup_take_lt in Hlast by lia.
      destruct (buf !! 1022%nat) as [b|] eqn:Eb; [exists b; split; [done|congruence]|].
      apply lookup_ge_None in Eb. lia. }
    case_bool_decide; [by left|].
    destruct (decide (p + t = 1023)) as [->|]; [by left|right; lia].
Qed.

End Layout.

Lemma early_print_overruns_witness :
  let stack := replicate 1024 x00 in
  early_line false (bytes_of "[x] ") (bytes_of "hello") stack = Ret (Some (bytes_of "[x] hello" ++ [newline]))
  /\ early_line false (replicate 60 x2e) (replicate 1000 x2e) stack = Crash
  /\ early_line true [] (replicate 2000 x2e) stack = Crash.
Proof.
  intros stack. split_and!.
  - etransitivity; [apply early_print_overruns; done|reflexivity].
  - etransitivity; [apply early_print_overruns; done|reflexivity].
  - etransitivity; [apply early_print_overruns; done|reflexivity].
Defined.

End EarlyPrint.
