(* ===== verification/Filesys.v ===== *)
(** * The file system calls of tlog.c

    A file system as the logging library sees it: directories and names, which are
    resolved to a list of components; files behind the names and behind open
    descriptors; the gzip processes it starts. What the operating system decides
    (which calls fail, what a clock shows, in which order a directory is read, how
    much of a write is taken) is the class [Kernel]. *)

From Stdlib Require Import ZArith Lia.
From Stdlib Require Import Strings.Byte.
From stdpp Require Import base countable gmap sets list numbers strings.
From S2P Require Import Prelude.

Module Filesys.

Local Open Scope Z_scope.

(** ** Paths *)

Definition path := list byte.

Definition slash : byte := x2f.

(** The pieces of a path between slashes. *)
Fixpoint split (p : path) : list path :=
  match p with
  | [] => [[]]
  | b :: p =>
      if bool_decide (b = slash) then [] :: split p
      else match split p with
           | c :: cs => (b :: c) :: cs
           | [] => [[b]]
           end
  end.

Definition dot : path := [x2e].

(** Pieces that name something; symbolic links and [..] are not followed. *)
Definition significant (c : path) : Prop := c <> [] /\ c <> dot.
#[export] Instance significant_dec c : Decision (significant c).
Proof. unfold significant. apply _. Defined.

(** What a path leads to: from the root or from the working directory, through
    these components. *)
Definition place : Type := bool * list path.

Definition resolve (p : path) : place :=
  (bool_decide (head p = Some slash), filter significant (split p)).

(** [path/name] *)
Definition below (d : path) (n : path) : path := d ++ slash :: n.

#[export] Instance byte_countable : Countable byte :=
  inj_countable Byte.to_N Byte.of_N Byte.of_to_N.

(** ** Files *)

Record inode := mk_inode {
  i_data : list byte;
  i_mtime : Z;
  i_perm : Z
}.

(** A gzip process: at work on a file, or ended. *)
Inductive child := Running (file : path) | Ended.

Record fs := mk_fs {
  dirs : gset place;
  names : gmap place nat;
  inodes : gmap nat inode;
  fds : gmap Z nat;
  next_ino : nat;
  children : gmap Z child;
  umask : Z;
  errno : Z;
  tick : nat             (* the calls made so far *)
}.

Inductive syscall :=
  | SAccess (p : path) | SStat (p : path) | SOpen (p : path) | SRename (p q : path)
  | SUnlink (p : path) | SMkdir (p : path) | SOpendir (p : path) | SChmod (p : path)
  | SFchmod | SWrite (n : Z) | SLock | SVfork | SExec | SWaitpid (pid : Z).

(** Broken-down time, as [localtime_r] gives it. *)
Record tm := mk_tm {
  tm_year : Z; tm_mon : Z; tm_mday : Z; tm_hour : Z; tm_min : Z; tm_sec : Z
}.

(** [refuses t c] is the error of a call [c], the [t]-th, that the state of the
    files does not explain. *)
Class Kernel := {
  refuses : nat -> syscall -> option Z;
  clock : nat -> Z;
  localtime_r : Z -> option tm;
  order : nat -> list path -> list path;
  taken : nat -> Z -> Z;
  fork_pid : nat -> positive;
  gzip_output : nat -> list byte -> option (list byte)
}.

(** Reading a directory gives every entry once, in any order. *)
Class ReaddirLaws (K : Kernel) := order_permutation : forall t l, order t l ≡ₚ l.

Definition ENOENT : Z := 2.
Definition EBADF : Z := 9.
Definition ECHILD : Z := 10.
Definition EACCES : Z := 13.
Definition EPERM : Z := 1.
Definition EEXIST : Z := 17.
Definition EISDIR : Z := 21.
Definition ENOSPC : Z := 28.

(** ** Access to the parts of a file system *)

Definition set_dirs x s :=
  mk_fs x (names s) (inodes s) (fds s) (next_ino s) (children s) (umask s) (errno s) (tick s).
Definition set_names x s :=
  mk_fs (dirs s) x (inodes s) (fds s) (next_ino s) (children s) (umask s) (errno s) (tick s).
Definition set_inodes x s :=
  mk_fs (dirs s) (names s) x (fds s) (next_ino s) (children s) (umask s) (errno s) (tick s).
Definition set_fds x s :=
  mk_fs (dirs s) (names s) (inodes s) x (next_ino s) (children s) (umask s) (errno s) (tick s).
Definition set_children x s :=
  mk_fs (dirs s) (names s) (inodes s) (fds s) (next_ino s) x (umask s) (errno s) (tick s).
Definition set_errno x s :=
  mk_fs (dirs s) (names s) (inodes s) (fds s) (next_ino s) (children s) (umask s) x (tick s).
Definition ticked s :=
  mk_fs (dirs s) (names s) (inodes s) (fds s) (next_ino s) (children s) (umask s) (errno s)
    (S (tick s)).

Definition file_at (s : fs) (p : path) : option inode :=
  i ← names s !! resolve p; inodes s !! i.

Definition is_dir (s : fs) (p : path) : bool := bool_decide (resolve p ∈ dirs s).

Definition present (s : fs) (p : path) : bool :=
  is_dir s p || bool_decide (is_Some (names s !! resolve p)).

(** The directory a path lies in. *)
Definition parent (q : place) : place := (q.1, removelast q.2).

(** ** Calls

    A call returns its result and the state it leaves. *)

Section Calls.
Context {K : Kernel}.

(** A call that the kernel may refuse: [bad] is its result then. *)
Definition call {A} (c : syscall) (bad : A) (run : nat -> fs -> fs * A) (s : fs) : fs * A :=
  match refuses (tick s) c with
  | Some e => (set_errno e (ticked s), bad)
  | None => run (tick s) (ticked s)
  end.

Definition fails {A} (e : Z) (bad : A) (s : fs) : fs * A := (set_errno e s, bad).

(** [access(p, F_OK) == 0] *)
Definition access (p : path) : fs -> fs * bool :=
  call (SAccess p) false (fun _ s => if present s p then (s, true) else fails ENOENT false s).

(** The modification time [stat] finds. *)
Definition stat (p : path) : fs -> fs * option Z :=
  call (SStat p) None (fun _ s =>
    if is_dir s p then (s, Some 0)
    else match file_at s p with
         | Some f => (s, Some (i_mtime f))
         | None => fails ENOENT None s
         end).

Definition rename (p q : path) : fs -> fs * Z :=
  call (SRename p q) (-1) (fun _ s =>
    match names s !! resolve p with
    | None => fails ENOENT (-1) s
    | Some i =>
        if is_dir s q then fails EISDIR (-1) s
        else if bool_decide (parent (resolve q) ∈ dirs s) then
          (set_names (<[resolve q := i]> (delete (resolve p) (names s))) s, 0)
        else fails ENOENT (-1) s
    end).

Definition unlink (p : path) : fs -> fs * Z :=
  call (SUnlink p) (-1) (fun _ s =>
    if is_dir s p then fails EISDIR (-1) s
    else match names s !! resolve p with
         | None => fails ENOENT (-1) s
         | Some _ => (set_names (delete (resolve p) (names s)) s, 0)
         end).

Definition mkdir (p : path) : fs -> fs * Z :=
  call (SMkdir p) (-1) (fun _ s =>
    if present s p then fails EEXIST (-1) s
    else if bool_decide (parent (resolve p) ∈ dirs s)
    then (set_dirs ({[ resolve p ]} ∪ dirs s) s, 0)
    else fails ENOENT (-1) s).

Definition change_perm (i : nat) (mode : Z) (s : fs) : fs :=
  set_inodes (alter (fun f => mk_inode (i_data f) (i_mtime f) mode) i (inodes s)) s.

Definition chmod (p : path) (mode : Z) : fs -> fs * Z :=
  call (SChmod p) (-1) (fun _ s =>
    match names s !! resolve p with
    | None => fails ENOENT (-1) s
    | Some i => (change_perm i mode s, 0)
    end).

Definition fchmod (fd mode : Z) : fs -> fs * Z :=
  call SFchmod (-1) (fun _ s =>
    match fds s !! fd with
    | None => fails EBADF (-1) s
    | Some i => (change_perm i mode s, 0)
    end).

(** The lowest descriptor that is not in use. *)
Definition lowest (fds : gmap Z nat) : Z :=
  match list_find (fun z => fds !! z = None) (seqZ 0 (Z.of_nat (size fds) + 1)) with
  | Some (_, z) => z
  | None => Z.of_nat (size fds) + 1
  end.

(** [open(p, ... | O_CREAT | ..., mode)] for writing *)
Definition open_creat (p : path) (mode : Z) : fs -> fs * Z :=
  call (SOpen p) (-1) (fun t s =>
    if is_dir s p then fails EISDIR (-1) s
    else
      let fd := lowest (fds s) in
      match names s !! resolve p with
      | Some i => (set_fds (<[fd := i]> (fds s)) s, fd)
      | None =>
          if bool_decide (parent (resolve p) ∈ dirs s) then
            let i := next_ino s in
            let f := mk_inode [] (clock t) (Z.land mode (Z.lnot (umask s))) in
            (mk_fs (dirs s) (<[resolve p := i]> (names s)) (<[i := f]> (inodes s))
               (<[fd := i]> (fds s)) (S i) (children s) (umask s) (errno s) (tick s), fd)
          else fails ENOENT (-1) s
      end).

Definition close (fd : Z) (s : fs) : fs := set_fds (delete fd (fds s)) (ticked s).

(** [lseek(fd, 0, SEEK_END)] *)
Definition lseek_end (fd : Z) (s : fs) : fs * Z :=
  match fds s !! fd ≫= (fun i => inodes s !! i) with
  | Some f => (ticked s, Z.of_nat (length (i_data f)))
  | None => fails EBADF (-1) (ticked s)
  end.

(** [write] to a descriptor opened with [O_APPEND]. *)
Definition append (fd : Z) (bs : list byte) : fs -> fs * Z :=
  call (SWrite (Z.of_nat (length bs))) (-1) (fun t s =>
    match fds s !! fd with
    | None => fails EBADF (-1) s
    | Some i =>
        let n := Z.min (Z.max 0 (taken t (Z.of_nat (length bs)))) (Z.of_nat (length bs)) in
        (set_inodes (alter (fun f => mk_inode (i_data f ++ take (Z.to_nat n) bs)
                                       (clock t) (i_perm f)) i (inodes s)) s, n)
    end).

(** [lockf(fd, F_TLOCK, 0)]; a lock of another process makes the kernel refuse. *)
Definition lock_file : fs -> fs * Z := call SLock (-1) (fun _ s => (s, 0)).

Definition time_now (s : fs) : fs * Z := (ticked s, clock (tick s)).

(** The entries [readdir] gives for a directory. *)
Definition child_name (d q : place) : option path :=
  if bool_decide (q.1 = d.1)
  then match reverse q.2 with
       | n :: r => if bool_decide (reverse r = d.2) then Some n else None
       | [] => None
       end
  else None.

Definition dotdot : path := [x2e; x2e].

Definition entries (s : fs) (d : place) : list path :=
  dot :: dotdot :: omap (child_name d) (elements (dom (names s)) ++ elements (dirs s)).

Definition opendir (p : path) : fs -> fs * option (list path) :=
  call (SOpendir p) None (fun t s =>
    if is_dir s p then (s, Some (order t (entries s (resolve p)))) else fails ENOENT None s).

(** *** gzip *)

Definition GZ : path := bytes_of ".gz".

(** [gzip -1 file], when it ends well: the file is replaced by its compressed form,
    which keeps the time and the mode. *)
Definition gzip_replaces (file : path) (data : list byte) (s : fs) : fs :=
  match file_at s file with
  | None => s
  | Some f =>
      let i := next_ino s in
      mk_fs (dirs s) (<[resolve (file ++ GZ) := i]> (delete (resolve file) (names s)))
        (<[i := mk_inode data (i_mtime f) (i_perm f)]> (inodes s)) (fds s) (S i)
        (children s) (umask s) (errno s) (tick s)
  end.

(** The end of the process [pid]: it compresses its file, unless that fails or
    there is a compressed file already, which gzip does not overwrite. *)
Definition gzip_ends (pid : Z) (s : fs) : fs :=
  match children s !! pid with
  | Some (Running file) =>
      let s := set_children (<[pid := Ended]> (children s)) s in
      if present s (file ++ GZ) then s
      else match file_at s file ≫= (fun f => gzip_output (tick s) (i_data f)) with
           | Some data => gzip_replaces file data s
           | None => s
           end
  | _ => s
  end.

(** [vfork] with the child up to [execl]: the pid, and whether [execl] failed. *)
Definition spawn_gzip (file : path) : fs -> fs * option (Z * bool) :=
  call SVfork None (fun t s =>
    let pid := Z.pos (fork_pid t) in
    let bad := bool_decide (is_Some (refuses (S t) SExec)) in
    (set_children (<[pid := if bad then Ended else Running file]> (children s)) (ticked s),
     Some (pid, bad))).

(** [waitpid(pid, &status, wait_hang ? 0 : WNOHANG)]; waiting lets the process
    come to its end. *)
Definition waitpid (pid : Z) (wait_hang : bool) : fs -> fs * Z :=
  call (SWaitpid pid) (-1) (fun _ s =>
    let s := if wait_hang then gzip_ends pid s else s in
    match children s !! pid with
    | None => fails ECHILD (-1) s
    | Some (Running _) => (s, 0)
    | Some Ended => (set_children (delete pid (children s)) s, pid)
    end).

End Calls.

(** ** Paths *)

Definition no_slash (p : path) : Prop := slash ∉ p.

(** A name of a directory entry. *)
Definition entry_name (p : path) : Prop := significant p /\ no_slash p.

Lemma split_nonempty p : split p <> [].
Proof. destruct p; cbn; [done|]. case_bool_decide; [done|]. by destruct (split p). Qed.

Lemma split_no_slash n : no_slash n -> split n = [n].
Proof.
  unfold no_slash. induction n as [|b n IH]; cbn; [done|].
  intros [H1 H2]%not_elem_of_cons. rewrite bool_decide_eq_false_2 by congruence.
  by rewrite IH.
Qed.

Lemma split_below d n : no_slash n -> split (below d n) = split d ++ [n].
Proof.
  intros Hn. unfold below. induction d as [|b d IH]; cbn.
  - by rewrite split_no_slash.
  - case_bool_decide; [by rewrite IH|]. rewrite IH.
    pose proof (split_nonempty d). by destruct (split d).
Qed.

Lemma resolve_below d n :
  d <> [] -> entry_name n -> resolve (below d n) = ((resolve d).1, (resolve d).2 ++ [n]).
Proof.
  intros Hd [Hs Hn]. unfold resolve; cbn. f_equal.
  - unfold below. by destruct d.
  - rewrite split_below, filter_app by done. f_equal. by rewrite filter_cons_True.
Qed.

Lemma resolve_below_nil d : d <> [] -> resolve (below d []) = resolve d.
Proof.
  intros Hd. unfold resolve. f_equal; [unfold below; by destruct d|].
  rewrite split_below, filter_app by (unfold no_slash; apply not_elem_of_nil).
  rewrite filter_cons_False, app_nil_r; [done|]. by intros [? _].
Qed.

Lemma parent_below d n : d <> [] -> entry_name n -> parent (resolve (below d n)) = resolve d.
Proof.
  intros Hd Hn. rewrite resolve_below by done. unfold parent; cbn [fst snd].
  rewrite removelast_last. by destruct (resolve d).
Qed.

Lemma resolve_below_inj d m n :
  d <> [] -> entry_name m -> entry_name n ->
  resolve (below d m) = resolve (below d n) -> m = n.
Proof. intros Hd Hm Hn. rewrite !resolve_below by done. intros [= E]. by apply app_inj_tail_iff in E as [_ ?]. Qed.

Lemma child_name_Some d q n : child_name d q = Some n <-> q = (d.1, d.2 ++ [n]).
Proof.
  unfold child_name. destruct q as [a q], d as [b d]; cbn [fst snd].
  case_bool_decide as Ea; [|naive_solver]. subst.
  destruct (reverse q) as [|m r] eqn:Er.
  - apply (f_equal reverse) in Er. rewrite reverse_involutive in Er. subst.
    split; [done|]. intros [= H]. by destruct d.
  - apply (f_equal reverse) in Er. rewrite reverse_involutive, reverse_cons in Er. subst q.
    case_bool_decide as Ed.
    + subst d. split; [by intros [= ->]|]. intros [= E]. apply app_inj_tail_iff in E as [_ ->]. done.
    + split; [done|]. intros [= E]. by apply app_inj_tail_iff in E as [? _].
Qed.

(** ** The files of a directory *)

Lemma split_entries p : Forall no_slash (split p).
Proof.
  unfold no_slash. induction p as [|b p IH]; cbn.
  - repeat constructor. apply not_elem_of_nil.
  - case_bool_decide as E; [constructor; [apply not_elem_of_nil|done]|].
    destruct (split p) as [|c cs]; [repeat constructor; set_solver|].
    inversion_clear IH. constructor; [|done]. apply not_elem_of_cons. naive_solver.
Qed.

Lemma resolve_entries p : Forall entry_name (resolve p).2.
Proof.
  unfold resolve; cbn. apply Forall_forall. intros c [Hs Hc]%list_elem_of_filter.
  split; [done|]. pose proof (split_entries p) as H. rewrite Forall_forall in H. by apply H.
Qed.

(** A state in which names stand for files of their own. *)
Record fs_wf (s : fs) : Prop := {
  wf_inj p q i : names s !! p = Some i -> names s !! q = Some i -> p = q;
  wf_inode p i : names s !! p = Some i -> is_Some (inodes s !! i);
  wf_new i : is_Some (inodes s !! i) -> (i < next_ino s)%nat;
  wf_fds f i : fds s !! f = Some i -> (i < next_ino s)%nat;
  wf_dirs p : p ∈ dirs s -> names s !! p = None;
  wf_entries p : is_Some (names s !! p) -> Forall entry_name p.2
}.

(** What is in the files. *)
Definition view (s : fs) : gmap place (list byte) :=
  omap (fun i => i_data <$> inodes s !! i) (names s).

(** States that differ in the error number and the number of calls only. *)
Definition same (s s' : fs) : Prop :=
  dirs s = dirs s' /\ names s = names s' /\ inodes s = inodes s' /\ fds s = fds s'
  /\ next_ino s = next_ino s' /\ children s = children s' /\ umask s = umask s'.

#[export] Instance same_equivalence : Equivalence same.
Proof.
  split; unfold same.
  - by intros s.
  - intros s t. naive_solver.
  - intros s t u (->&->&->&->&->&->&->). done.
Qed.

Lemma same_ticked s : same (ticked s) s.
Proof. done. Qed.

Lemma same_set_errno e s : same (set_errno e s) s.
Proof. done. Qed.

#[export] Instance fs_wf_same : Proper (same ==> iff) fs_wf.
Proof.
  intros s t (Ed & En & Ei & Ef & Ex & Ec & Eu).
  split; intros [H1 H2 H3 H4 H5 H6]; split;
    rewrite ?Ed, ?En, ?Ei, ?Ef, ?Ex in *; done.
Qed.

#[export] Instance view_same : Proper (same ==> eq) view.
Proof. intros s t (Ed & En & Ei & Ef & Ex & Ec & Eu). unfold view. by rewrite En, Ei. Qed.

#[export] Instance change_perm_same i mode : Proper (same ==> same) (change_perm i mode).
Proof. intros s t (Ed & En & Ei & Ef & Ex & Ec & Eu). split_and!; cbn; congruence. Qed.

#[export] Instance set_names_same m : Proper (same ==> same) (set_names m).
Proof. intros s t (Ed & En & Ei & Ef & Ex & Ec & Eu). split_and!; cbn; congruence. Qed.

#[export] Instance set_fds_same m : Proper (same ==> same) (set_fds m).
Proof. intros s t (Ed & En & Ei & Ef & Ex & Ec & Eu). split_and!; cbn; congruence. Qed.

#[export] Instance set_children_same m : Proper (same ==> same) (set_children m).
Proof. intros s t (Ed & En & Ei & Ef & Ex & Ec & Eu). split_and!; cbn; congruence. Qed.

Lemma view_lookup s p : view s !! p = i ← names s !! p; i_data <$> inodes s !! i.
Proof. apply lookup_omap. Qed.

Lemma view_names s p : fs_wf s -> view s !! p = None <-> names s !! p = None.
Proof.
  intros W. rewrite view_lookup. destruct (names s !! p) as [i|] eqn:E; cbn; [|done].
  destruct (wf_inode _ W _ _ E) as [f ->]. done.
Qed.

Lemma present_view s p :
  fs_wf s -> present s p = false <-> view s !! resolve p = None /\ resolve p ∉ dirs s.
Proof.
  intros W. unfold present, is_dir. rewrite orb_false_iff, !bool_decide_eq_false, <- eq_None_not_Some.
  rewrite view_names by done. tauto.
Qed.

(** ** What the changes do to the files *)

Lemma wf_unlinked s p : fs_wf s -> fs_wf (set_names (delete p (names s)) s).
Proof.
  intros [H1 H2 H3 H4 H5 H6]. split; cbn; [| |done|done| |].
  - intros q r i [_ Hq]%lookup_delete_Some [_ Hr]%lookup_delete_Some. by eapply H1.
  - intros q i [_ Hq]%lookup_delete_Some. by eapply H2.
  - intros q Hq. apply lookup_delete_None. right. by apply H5.
  - intros q [i [_ Hq]%lookup_delete_Some]. by apply H6.
Qed.

Lemma view_unlinked s p : view (set_names (delete p (names s)) s) = delete p (view s).
Proof. unfold view; cbn. apply omap_delete. Qed.

Lemma wf_renamed s p q i :
  fs_wf s -> names s !! p = Some i -> q ∉ dirs s -> Forall entry_name q.2 ->
  fs_wf (set_names (<[q := i]> (delete p (names s))) s).
Proof.
  intros [H1 H2 H3 H4 H5 H6] Hp Hq Hqe. split; cbn; [| |done|done| |].
  - intros a b j Ha Hb.
    assert (forall a, <[q := i]> (delete p (names s)) !! a = Some j ->
      a = q /\ j = i \/ a <> p /\ names s !! a = Some j) as Hx.
    { intros c [[<- <-]|[_ [? ?]%lookup_delete_Some]]%lookup_insert_Some; [by left|by right]. }
    destruct (Hx a Ha) as [[-> ->]|[? Ha']], (Hx b Hb) as [[-> E]|[? Hb']];
      [done|exfalso|exfalso|]; [..|by eapply H1]; [|subst j]; naive_solver.
  - intros a j [[_ <-]|[_ [_ Ha]%lookup_delete_Some]]%lookup_insert_Some; eauto.
  - intros a Ha. apply lookup_insert_None. split; [|by intros ->].
    apply lookup_delete_None. right. by apply H5.
  - intros a [j [[<- _]|[_ [_ Ha]%lookup_delete_Some]]%lookup_insert_Some]; [done|]. by apply H6.
Qed.

Lemma view_renamed s p q i d :
  view s !! p = Some d -> names s !! p = Some i ->
  view (set_names (<[q := i]> (delete p (names s))) s) = <[q := d]> (delete p (view s)).
Proof.
  intros Hd Hi. unfold view; cbn. rewrite omap_insert, omap_delete.
  rewrite view_lookup, Hi in Hd. cbn in Hd. by rewrite Hd.
Qed.

Lemma wf_perm s i mode : fs_wf s -> fs_wf (change_perm i mode s).
Proof.
  intros [H1 H2 H3 H4 H5 H6]. split; cbn; [done| |..|done|done|done].
  - intros p j Hp. rewrite lookup_alter_is_Some. eauto.
  - intros j. rewrite lookup_alter_is_Some. eauto.
Qed.

Lemma view_perm s i mode : view (change_perm i mode s) = view s.
Proof.
  apply map_eq. intros p. rewrite !view_lookup. cbn. destruct (names s !! p) as [j|]; [|done]; cbn.
  rewrite lookup_alter. case_decide; [|done]. subst. by destruct (inodes s !! j).
Qed.

(** A file made, and opened. *)
Lemma wf_created s p f fd :
  fs_wf s -> p ∉ dirs s -> Forall entry_name p.2 ->
  fs_wf (mk_fs (dirs s) (<[p := next_ino s]> (names s)) (<[next_ino s := f]> (inodes s))
    fd (S (next_ino s)) (children s) (umask s) (errno s) (tick s)) <->
  (forall g i, fd !! g = Some i -> (i <= next_ino s)%nat).
Proof.
  intros [H1 H2 H3 H4 H5 H6] Hp Hpe. split.
  { intros [_ _ _ H _ _] g i Hg. specialize (H g i Hg). cbn in H. lia. }
  intros Hfd.
  assert (forall q, names s !! q <> Some (next_ino s)) as Hn.
  { intros q Hq. apply H2, H3 in Hq. lia. }
  split; cbn.
  - intros a b i [[<- <-]|[? Ha]]%lookup_insert_Some [[<- E]|[? Hb]]%lookup_insert_Some;
      subst; [done|naive_solver|naive_solver|eauto].
  - intros a i [[_ <-]|[_ Ha]]%lookup_insert_Some; [by rewrite lookup_insert_eq|].
    rewrite lookup_insert_is_Some'. eauto.
  - intros i. rewrite lookup_insert_is_Some'. intros [<-|Hi]; [lia|]. apply H3 in Hi. lia.
  - intros g i Hg. specialize (Hfd g i Hg). lia.
  - intros a Ha. apply lookup_insert_None. split; [by apply H5|]. by intros <-.
  - intros a [i [[<- _]|[_ Ha]]%lookup_insert_Some]; [done|]. by apply H6.
Qed.

Lemma view_created s p f fd :
  fs_wf s ->
  view (mk_fs (dirs s) (<[p := next_ino s]> (names s)) (<[next_ino s := f]> (inodes s))
    fd (S (next_ino s)) (children s) (umask s) (errno s) (tick s)) = <[p := i_data f]> (view s).
Proof.
  intros W. apply map_eq. intros q. rewrite lookup_insert, !view_lookup. cbn.
  rewrite lookup_insert. case_decide; cbn; [by rewrite lookup_insert_eq|].
  destruct (names s !! q) as [i|] eqn:E; [|done]. cbn.
  assert (i <> next_ino s) by (apply W in E; apply W in E; lia).
  by rewrite lookup_insert_ne.
Qed.

Definition appended (i : nat) (bs : list byte) (t : Z) (s : fs) : fs :=
  set_inodes (alter (fun f => mk_inode (i_data f ++ bs) t (i_perm f)) i (inodes s)) s.

Lemma wf_appended s i bs t : fs_wf s -> fs_wf (appended i bs t s).
Proof.
  intros [H1 H2 H3 H4 H5 H6]. split; cbn; [done| |..|done|done|done].
  - intros p j Hp. rewrite lookup_alter_is_Some. eauto.
  - intros j. rewrite lookup_alter_is_Some. eauto.
Qed.

Lemma view_appended s p i bs t d :
  fs_wf s -> names s !! p = Some i -> view s !! p = Some d ->
  view (appended i bs t s) = <[p := d ++ bs]> (view s).
Proof.
  intros W Hi Hd. apply map_eq. intros q. rewrite lookup_insert, !view_lookup. cbn.
  case_decide as E.
  - subst q. rewrite view_lookup, Hi in Hd. rewrite Hi. cbn in *. rewrite lookup_alter_eq.
    destruct (inodes s !! i); cbn in *; [|done]. by injection Hd as ->.
  - destruct (names s !! q) as [j|] eqn:Ej; [|done]. cbn.
    rewrite lookup_alter_ne; [done|]. intros <-. by apply E, (wf_inj _ W p q i).
Qed.

(** ** Results of the calls *)

Lemma lowest_spec (m : gmap Z nat) :
  0 <= lowest m /\ m !! lowest m = None.
Proof.
  unfold lowest.
  destruct (list_find _ _) as [[j z]|] eqn:E.
  - apply list_find_Some in E as (Hz & Hn & _). apply list_elem_of_lookup_2, elem_of_seqZ in Hz.
    split; [lia|done].
  - exfalso. apply list_find_None in E.
    assert (list_to_set (seqZ 0 (Z.of_nat (size m) + 1)) ⊆ (dom m : gset Z)) as Hsub.
    { intros z Hz%elem_of_list_to_set. rewrite Forall_forall in E.
      apply elem_of_dom. destruct (m !! z) eqn:Ez; [by eexists|]. by destruct (E z Hz). }
    apply subseteq_size in Hsub.
    rewrite size_list_to_set, size_dom, length_seqZ in Hsub by apply NoDup_seqZ. lia.
Qed.

Section CallLemmas.
Context {K : Kernel}.

Lemma call_cases {A} c (bad : A) run s s' r :
  call c bad run s = (s', r) ->
  (is_Some (refuses (tick s) c) /\ same s' s /\ r = bad) \/
  (refuses (tick s) c = None /\ run (tick s) (ticked s) = (s', r)).
Proof.
  unfold call. destruct (refuses _ _) as [e|] eqn:E; [|by right].
  intros [= <- <-]. by left.
Qed.

Lemma access_cases p s s' b :
  (forall t q, refuses t (SAccess q) = None) -> access p s = (s', b) ->
  same s' s /\ b = present s p.
Proof.
  intros Hh [([e He] & _)|[_ H]]%call_cases; [by rewrite Hh in He|].
  change (present (ticked s) p) with (present s p) in H.
  destruct (present s p); injection H as <- <-; done.
Qed.

Lemma rename_cases p q s s' r :
  rename p q s = (s', r) ->
  (r = -1 /\ same s' s /\
     (refuses (tick s) (SRename p q) = None ->
      names s !! resolve p = None \/ resolve q ∈ dirs s \/ parent (resolve q) ∉ dirs s)) \/
  (r = 0 /\ exists i, names s !! resolve p = Some i /\ resolve q ∉ dirs s /\
     same s' (set_names (<[resolve q := i]> (delete (resolve p) (names s))) s)).
Proof.
  intros [([e He] & Hs & ->)|[Hr H]]%call_cases.
  { left. split_and!; [done|done|]. by rewrite He. }
  cbn in H. destruct (names s !! resolve p) as [i|] eqn:Ei.
  2: { injection H as <- <-. left. split_and!; [done|done|eauto]. }
  unfold is_dir in H. cbn in H.
  case_bool_decide as Eq; [injection H as <- <-; left; split_and!; by eauto|].
  case_bool_decide as Ep; injection H as <- <-; [right|left; split_and!; [done|done|eauto]].
  split; [done|]. by exists i.
Qed.

Lemma unlink_cases p s s' r :
  unlink p s = (s', r) ->
  (same s' s /\ (refuses (tick s) (SUnlink p) = None ->
     resolve p ∈ dirs s \/ names s !! resolve p = None)) \/
  (resolve p ∉ dirs s /\ is_Some (names s !! resolve p)
   /\ same s' (set_names (delete (resolve p) (names s)) s)).
Proof.
  intros [([e He] & Hs & _)|[_ H]]%call_cases; [left; split; [done|]; by rewrite He|].
  unfold is_dir in H; cbn in H. case_bool_decide.
  { injection H as <- <-. left. split; [done|]. by left. }
  destruct (names s !! resolve p) as [i|]; injection H as <- <-; [right|left; split; [done|by right]].
  split_and!; [done|by eexists|done].
Qed.

Lemma opendir_cases p s s' r :
  opendir p s = (s', r) ->
  same s' s /\ ((r = None /\ (refuses (tick s) (SOpendir p) = None -> resolve p ∉ dirs s)) \/
    exists t, r = Some (order t (entries s (resolve p)))).
Proof.
  intros [([e He] & Hs & ->)|[_ H]]%call_cases.
  { split; [done|]. left. by rewrite He. }
  unfold is_dir in H; cbn in H. case_bool_decide; injection H as <- <-; (split; [done|]).
  - right. by exists (tick s).
  - by left.
Qed.

Lemma chmod_cases p mode s s' r :
  chmod p mode s = (s', r) -> same s' s \/ exists i, same s' (change_perm i mode s).
Proof.
  intros [(_ & Hs & _)|[_ H]]%call_cases; [by left|].
  case_match; injection H as <- <-; [right; by eexists|by left].
Qed.

Lemma fchmod_cases fd mode s s' r :
  fchmod fd mode s = (s', r) -> same s' s \/ exists i, same s' (change_perm i mode s).
Proof.
  intros [(_ & Hs & _)|[_ H]]%call_cases; [by left|].
  case_match; injection H as <- <-; [right; by eexists|by left].
Qed.

(** The time [stat] gives, if it is not refused. *)
Definition mtime_of (s : fs) (p : path) : option Z :=
  if is_dir s p then Some 0 else i_mtime <$> file_at s p.

Lemma mtime_of_same s s' p : same s' s -> mtime_of s' p = mtime_of s p.
Proof. intros (Ed & En & Ei & _). unfold mtime_of, is_dir, file_at. by rewrite Ed, En, Ei. Qed.

Lemma stat_cases p s s' r :
  stat p s = (s', r) ->
  same s' s /\ (r = mtime_of s p \/ r = None /\ is_Some (refuses (tick s) (SStat p))).
Proof.
  intros [(He & Hs & ->)|[_ H]]%call_cases; [split; [done|by right]|].
  change (is_dir (ticked s) p) with (is_dir s p) in H.
  change (file_at (ticked s) p) with (file_at s p) in H. unfold mtime_of.
  destruct (is_dir s p); [injection H as <- <-; split; [done|by left]|].
  destruct (file_at s p); injection H as <- <-; (split; [done|by left]).
Qed.

Lemma open_creat_cases p mode s s' r :
  open_creat p mode s = (s', r) ->
  (r = -1 /\ same s' s /\
     (refuses (tick s) (SOpen p) = None ->
      resolve p ∈ dirs s \/ parent (resolve p) ∉ dirs s)) \/
  (r = lowest (fds s) /\ resolve p ∉ dirs s /\
    ((exists i, names s !! resolve p = Some i /\ same s' (set_fds (<[r := i]> (fds s)) s)) \/
     (names s !! resolve p = None /\ exists f, i_data f = [] /\
      same s' (mk_fs (dirs s) (<[resolve p := next_ino s]> (names s))
        (<[next_ino s := f]> (inodes s)) (<[r := next_ino s]> (fds s)) (S (next_ino s))
        (children s) (umask s) (errno s) (tick s))))).
Proof.
  intros [([e He] & Hs & ->)|[_ H]]%call_cases.
  { left. split_and!; [done|done|]. by rewrite He. }
  unfold is_dir in H. cbn in H. case_bool_decide as Ed.
  { injection H as <- <-. left. split_and!; [done|done|eauto]. }
  destruct (names s !! resolve p) as [i|] eqn:Ei.
  { injection H as <- <-. right. split_and!; [done..|]. left. by eexists. }
  case_bool_decide as Ep; injection H as <- <-; [|left; split_and!; [done|done|eauto]].
  right. split_and!; [done..|]. right. split; [done|].
  exists (mk_inode [] (clock (tick s)) (Z.land mode (Z.lnot (umask s)))). split; done.
Qed.

Lemma append_cases fd bs s s' r :
  append fd bs s = (s', r) ->
  (r = -1 /\ same s' s /\
     (refuses (tick s) (SWrite (Z.of_nat (length bs))) = None -> fds s !! fd = None)) \/
  (0 <= r <= Z.of_nat (length bs) /\ exists i t, fds s !! fd = Some i /\
     (Z.of_nat (length bs) <= taken (tick s) (Z.of_nat (length bs)) -> r = Z.of_nat (length bs)) /\
     same s' (appended i (take (Z.to_nat r) bs) t s)).
Proof.
  intros [([e He] & Hs & ->)|[_ H]]%call_cases.
  { left. split_and!; [done|done|]. by rewrite He. }
  cbn in H. destruct (fds s !! fd) as [i|] eqn:Ei; [|injection H as <- <-; left; split_and!; done].
  set (n := Z.of_nat (length bs)) in *. injection H as <- <-.
  right. split; [lia|]. exists i, (clock (tick s)). split_and!; [done|lia|done].
Qed.

Lemma lseek_end_cases fd s s' r :
  lseek_end fd s = (s', r) ->
  same s' s /\ ((r = -1 /\ (fds s !! fd ≫= (fun i => inodes s !! i)) = None) \/
    exists i f, fds s !! fd = Some i /\ inodes s !! i = Some f /\ r = Z.of_nat (length (i_data f))).
Proof.
  unfold lseek_end. destruct (fds s !! fd) as [i|] eqn:Ei; cbn.
  - destruct (inodes s !! i) as [f|] eqn:Ef; intros [= <- <-]; (split; [done|]); [right|by left].
    by exists i, f.
  - intros [= <- <-]. split; [done|]. by left.
Qed.

End CallLemmas.

End Filesys.
