(* ===== verification/LogFile.v ===== *)
(** * tlog.c: the log file and its archives

    The output function of a log: [_tlog_write_ext] with what it calls. A log is
    written to a file of a directory; when the file is longer than the log's limit it
    is renamed, compressed by a gzip process unless that is switched off, and kept
    under a name made of its time; archives beyond a number are removed, the oldest
    first. The output to standard error is left out. *)

From Stdlib Require Import ZArith Lia.
From Stdlib Require Import Strings.Byte.
From stdpp Require Import base gmap sets list strings pretty.
From S2P Require Import Prelude TlogFormat Tlog Filesys.

Module LogFile.

Import TlogFormat.
Import Tlog(settings, mk_settings, buffsize, logsize, logcount, block, nocompress, logscreen,
  multi_log, segment_log, max_line_size, tlog_logcount, tlog_logscreen).
Import Filesys.
Local Open Scope Z_scope.

Definition PATH_MAX : Z := 4096.
Definition TLOG_LOG_NAME_LEN : Z := 256.

(** ** The fields of [struct tlog_log] the log file uses *)

Record handle := mk_handle {
  fd : Z;
  fd_lock : Z;
  filesize : Z;
  zip_pid : Z;
  last_try : Z;
  print_errmsg : bool
}.

Record naming := mk_naming {
  logdir : path;
  logname : path;
  suffix : path;
  pending_logfile : path;
  rename_pending : bool
}.

Record perms := mk_perms {
  file_perm : Z;
  archive_perm : Z;
  mode_changed : bool
}.

Record logfile := mk_logfile {
  opts : settings;
  hnd : handle;
  nam : naming;
  per : perms;
  fail : bool
}.

(** The log, the files, what standard output got, and the cache of
    [_tlog_localtime]. *)
Record world := mk_world {
  sys : fs;
  lf : logfile;
  screen : list byte;
  last_time : Z;
  last_tm : tm
}.

Definition set_fd x h := mk_handle x (fd_lock h) (filesize h) (zip_pid h) (last_try h) (print_errmsg h).
Definition set_fd_lock x h := mk_handle (fd h) x (filesize h) (zip_pid h) (last_try h) (print_errmsg h).
Definition set_filesize x h := mk_handle (fd h) (fd_lock h) x (zip_pid h) (last_try h) (print_errmsg h).
Definition set_zip_pid x h := mk_handle (fd h) (fd_lock h) (filesize h) x (last_try h) (print_errmsg h).
Definition set_last_try x h := mk_handle (fd h) (fd_lock h) (filesize h) (zip_pid h) x (print_errmsg h).
Definition set_print_errmsg x h := mk_handle (fd h) (fd_lock h) (filesize h) (zip_pid h) (last_try h) x.

Definition set_nocompress (b : bool) (o : settings) : settings :=
  mk_settings (buffsize o) (logsize o) (logcount o) (block o) b (logscreen o) (multi_log o)
    (segment_log o) (max_line_size o).
Definition set_multi_log (b : bool) (o : settings) : settings :=
  mk_settings (buffsize o) (logsize o) (logcount o) (block o) (nocompress o) (logscreen o) b
    (segment_log o) (max_line_size o).

Definition with_hnd (f : handle -> handle) l := mk_logfile (opts l) (f (hnd l)) (nam l) (per l) (fail l).
Definition with_opts (f : settings -> settings) l :=
  mk_logfile (f (opts l)) (hnd l) (nam l) (per l) (fail l).
Definition with_nam (f : naming -> naming) l :=
  mk_logfile (opts l) (hnd l) (f (nam l)) (per l) (fail l).

(** ** Programs *)

Definition M (A : Type) : Type := world -> outcome (world * A).

#[export] Instance M_ret : MRet M := fun A a w => Ret (w, a).
#[export] Instance M_bind : MBind M := fun A B f m w => '(w, a) ← m w; f a w.

Definition do_sys {A} (f : fs -> fs * A) : M A := fun w =>
  let '(s, a) := f (sys w) in Ret (mk_world s (lf w) (screen w) (last_time w) (last_tm w), a).

Definition get {A} (f : logfile -> A) : M A := fun w => Ret (w, f (lf w)).
Definition get_sys {A} (f : fs -> A) : M A := fun w => Ret (w, f (sys w)).
Definition get_errno : M Z := get_sys errno.
Definition modify (f : logfile -> logfile) : M () := fun w =>
  Ret (mk_world (sys w) (f (lf w)) (screen w) (last_time w) (last_tm w), tt).
Definition on_hnd (f : handle -> handle) : M () := modify (with_hnd f).
Definition on_opts (f : settings -> settings) : M () := modify (with_opts f).
Definition lift {A} (o : outcome A) : M A := fun w => a ← o; Ret (w, a).

Notation "'let!' x ':=' m 'in' k" := (mbind (M := M) (fun x => k) m)
  (at level 10, x pattern, m at level 100, k at level 200).
Notation "m ';;;' k" := (mbind (M := M) (fun _ => k) m)
  (at level 199, right associativity).

(** ** The names of the files *)

(** The date in the name of an archive. *)
Definition stamp (t : tlog_time) : path :=
  bytes_of (digits 4 (TlogFormat.tm_year t) ++ digits 2 (TlogFormat.tm_mon t)
    ++ digits 2 (TlogFormat.tm_mday t) ++ "-" ++ digits 2 (TlogFormat.tm_hour t)
    ++ digits 2 (TlogFormat.tm_min t) ++ digits 2 (TlogFormat.tm_sec t))%string.

(** The name of an archive: [i] numbers those of one second, from the second on. *)
Definition archive_name (n : naming) (t : tlog_time) (i : nat) : path :=
  logname n ++ bytes_of "-" ++ stamp t
  ++ match i with O => [] | S _ => bytes_of ("-" ++ pretty i) end ++ suffix n.

Definition archive_file n t i : path := below (logdir n) (archive_name n t i).
Definition log_file (n : naming) : path := below (logdir n) (logname n).
Definition pending_file (n : naming) : path := below (logdir n) (logname n ++ bytes_of ".pending").
Definition gzip_file (n : naming) : path := below (logdir n) (logname n ++ bytes_of ".pending.gz").
Definition lock_name (n : naming) : path := below (logdir n) (logname n ++ bytes_of ".lock").

(** [strstr] *)
Fixpoint contains (s sub : list byte) : bool :=
  bool_decide (take (length sub) s = sub)
  || match s with [] => false | _ :: s => contains s sub end.

(** The test both directory callbacks make for an archive of this log. *)
Definition is_archive (n : naming) (name : path) : bool :=
  contains name (suffix n)
  && bool_decide (take (length (logname n) + 1) name = logname n ++ bytes_of "-").

Section Operations.
Context {K : Kernel}.

(** [_tlog_localtime]: the last result is kept. *)
Definition localtime (timep : Z) : M (option tm) := fun w =>
  if bool_decide (timep = last_time w) then Ret (w, Some (last_tm w))
  else match localtime_r timep with
       | Some tm => Ret (mk_world (sys w) (lf w) (screen w) timep tm, Some tm)
       | None => Ret (w, None)
       end.

Definition time_of_tm (usec : Z) (t : tm) : tlog_time :=
  mk_time (Filesys.tm_year t + 1900) usec (Filesys.tm_mon t + 1) (Filesys.tm_mday t)
    (Filesys.tm_hour t) (Filesys.tm_min t) (Filesys.tm_sec t).

Definition getmtime (file : path) : M (option tlog_time) :=
  let! sb := do_sys (stat file) in
  match sb with
  | None => mret None
  | Some st_mtime => let! t := localtime st_mtime in mret (time_of_tm 0 <$> t)
  end.

(** [_tlog_gettime]; [now] is what [gettimeofday] found. *)
Definition gettime (now : option (Z * Z)) : M (option tlog_time) :=
  match now with
  | None => mret None
  | Some (sec, usec) => let! t := localtime sec in mret (time_of_tm usec <$> t)
  end.

(** The loop of [_tlog_rename_logfile] that looks for a free name. *)
Fixpoint free_archive_file (fuel : nat) (n : naming) (t : tlog_time) (i : nat) : M path :=
  match fuel with
  | O => lift NoFuel
  | S fuel =>
      let! taken := do_sys (access (archive_file n t i)) in
      if (taken : bool) then free_archive_file fuel n t (S i) else mret (archive_file n t i)
  end.

(** [_tlog_rename_logfile] *)
Definition rename_logfile (file : path) : M Z :=
  let! n := get nam in
  let! logtime := getmtime file in
  match logtime with
  | None => mret (-1)
  | Some t =>
      let! fuel := get_sys (fun s => S (size (names s) + size (dirs s))) in
      let! target := free_archive_file fuel n t 0 in
      let! r := do_sys (rename file target) in
      if bool_decide (r <> 0) then mret (-1)
      else
        let! mode := get (fun l => archive_perm (per l)) in
        do_sys (chmod target mode);;;
        mret 0
  end.

(** [_tlog_list_dir]: [callback] runs on the entries until it returns nonzero. *)
Fixpoint list_entries {U} (callback : path -> U -> M (Z * U)) (names : list path) (u : U) : M (Z * U) :=
  match names with
  | [] => mret (0, u)
  | n :: names =>
      if bool_decide (n = dot) || bool_decide (n = dotdot) then list_entries callback names u
      else
        let! r := callback n u in
        if bool_decide (r.1 <> 0) then mret (-1, r.2) else list_entries callback names r.2
  end.

Definition list_dir {U} (p : path) (callback : path -> U -> M (Z * U)) (u : U) : M (Z * U) :=
  let! dir := do_sys (opendir p) in
  match dir with
  | None => mret (-1, u)
  | Some names => list_entries callback names u
  end.

Definition count_log_callback (name : path) (lognum : Z) : M (Z * Z) :=
  let! n := get nam in
  mret (0, if is_archive n name then lognum + 1 else lognum).

(** [struct oldest_log]: a name and its time, at first empty and 0. *)
Definition get_oldest_callback (dir name : path) (oldest : path * Z) : M (Z * (path * Z)) :=
  let! n := get nam in
  if is_archive n name then
    let! sb := do_sys (stat (below dir name)) in
    match sb with
    | None => mret (-1, oldest)
    | Some st_mtime =>
        mret (0, if bool_decide (oldest.2 = 0) || bool_decide (oldest.2 > st_mtime)
                 then (name, st_mtime) else oldest)
    end
  else mret (0, oldest).

Definition remove_oldestlog : M Z :=
  let! n := get nam in
  let! r := list_dir (logdir n) (get_oldest_callback (logdir n)) ([], 0) in
  if bool_decide (r.1 <> 0) then mret (-1)
  else do_sys (unlink (below (logdir n) r.2.1));;; mret 0.

Fixpoint remove_times (k : nat) : M () :=
  match k with
  | O => mret tt
  | S k => remove_oldestlog;;; remove_times k
  end.

(** [_tlog_remove_oldlog] *)
Definition remove_oldlog : M Z :=
  let! n := get nam in
  let! r := list_dir (logdir n) count_log_callback 0 in
  if bool_decide (r.1 <> 0) then mret (-1)
  else
    let! keep := get (fun l => logcount (opts l)) in
    remove_times (Z.to_nat (r.2 - keep));;;
    mret 0.

(** [_tlog_log_unlock] and [_tlog_log_lock] *)
Definition log_unlock : M () :=
  let! l := get (fun l => fd_lock (hnd l)) in
  if bool_decide (l <= 0) then mret tt
  else
    let! n := get nam in
    do_sys (unlink (lock_name n));;;
    do_sys (fun s => (close l s, tt));;;
    on_hnd (set_fd_lock (-1)).

Definition log_lock : M Z :=
  let! multi := get (fun l => multi_log (opts l)) in
  if negb multi then mret 0
  else
    let! n := get nam in
    let! f := do_sys (open_creat (lock_name n) 384) in
    if bool_decide (f = -1) then mret (-1)
    else
      let! r := do_sys lock_file in
      if bool_decide (r < 0) then
        (if bool_decide (f > 0) then do_sys (fun s => (close f s, tt)) else mret tt);;;
        mret (-1)
      else on_hnd (set_fd_lock f);;; mret 0.

(** [_tlog_wait_pid] *)
Definition wait_pid (wait_hang : bool) : M () :=
  let! pid := get (fun l => zip_pid (hnd l)) in
  if bool_decide (pid <= 0) then mret tt
  else
    let! r := do_sys (waitpid pid wait_hang) in
    if bool_decide (r <= 0) then mret tt
    else
      on_hnd (set_zip_pid (-1));;;
      let! n := get nam in
      let! r := rename_logfile (gzip_file n) in
      if bool_decide (r <> 0) then log_unlock
      else remove_oldlog;;; log_unlock.

(** The log file becomes the pending file, if there is none. *)
Definition make_pending : M Z :=
  let! n := get nam in
  let! there := do_sys (access (pending_file n)) in
  if (there : bool) then mret 0
  else let! r := do_sys (rename (log_file n) (pending_file n)) in
       mret (if bool_decide (r <> 0) then -1 else 0).

Definition errout : M Z := log_unlock;;; mret (-1).

(** [_tlog_archive_log_compressed] *)
Definition start_gzip : M Z :=
  let! n := get nam in
  let! pid := get (fun l => zip_pid (hnd l)) in
  if bool_decide (pid <= 0) then
    let! r := do_sys (spawn_gzip (pending_file n)) in
    match r with
    | None =>
        let! e := get_errno in
        (if bool_decide (e = EPERM) || bool_decide (e = EACCES)
         then on_opts (set_nocompress true) else mret tt);;;
        errout
    | Some (pid, exec_failed) =>
        (if (exec_failed : bool) then on_opts (set_nocompress true) else mret tt);;;
        on_hnd (set_zip_pid pid);;;
        mret 0
    end
  else mret 0.

Definition archive_log_compressed : M Z :=
  let! n := get nam in
  let! r := log_lock in
  if bool_decide (r <> 0) then mret (-1)
  else
    let! zipped := do_sys (access (gzip_file n)) in
    let! r := if (zipped : bool) then rename_logfile (gzip_file n) else mret 0 in
    if bool_decide (r <> 0) then errout
    else
      let! r := make_pending in
      if bool_decide (r <> 0) then errout else start_gzip.

(** [_tlog_archive_log_nocompress] *)
Definition archive_log_nocompress : M Z :=
  let! n := get nam in
  let! r := log_lock in
  if bool_decide (r <> 0) then mret (-1)
  else
    let! r := make_pending in
    if bool_decide (r <> 0) then errout
    else
      let! r := rename_logfile (pending_file n) in
      if bool_decide (r <> 0) then errout
      else remove_oldlog;;; log_unlock;;; mret 0.

Definition archive_log : M Z :=
  let! nozip := get (fun l => nocompress (opts l)) in
  if (nozip : bool) then archive_log_nocompress else archive_log_compressed.

(** *** The directory and the name of the log file *)

Fixpoint drop_slashes (p : path) : path :=
  match p with
  | b :: q => if bool_decide (b = slash) then drop_slashes q else p
  | [] => []
  end.
Fixpoint drop_component (p : path) : path :=
  match p with
  | b :: q => if bool_decide (b = slash) then p else drop_component q
  | [] => []
  end.
Fixpoint take_component (p : path) : path :=
  match p with
  | b :: q => if bool_decide (b = slash) then [] else b :: take_component q
  | [] => []
  end.
Definition strip (p : path) : path := reverse (drop_slashes (reverse p)).

(** [dirname] and [basename] of libgen.h *)
Definition dirname (p : path) : path :=
  match drop_slashes (reverse p) with
  | [] => if bool_decide (p = []) then dot else [slash]
  | q => match drop_component q with
         | [] => dot
         | d => match drop_slashes d with [] => [slash] | d => reverse d end
         end
  end.
Definition basename (p : path) : path :=
  match drop_slashes (reverse p) with
  | [] => if bool_decide (p = []) then dot else [slash]
  | q => reverse (take_component q)
  end.

(** [strncpy] into an array of [size] bytes, the last of which stays NUL. *)
Definition copied (size : Z) (p : path) : path := take (Z.to_nat (size - 1)) p.

(** [tlog_rename_logfile] *)
Definition rename_request (logfile : path) : M () :=
  modify (with_nam (fun n =>
    mk_naming (logdir n) (logname n) (suffix n) (copied PATH_MAX logfile) true)).

(** [_tlog_get_log_name_dir] *)
Definition get_log_name_dir : M () :=
  let! f := get (fun l => fd (hnd l)) in
  (if bool_decide (f > 0) then do_sys (fun s => (close f s, tt));;; on_hnd (set_fd (-1))
   else mret tt);;;
  modify (with_nam (fun n =>
    mk_naming (copied PATH_MAX (dirname (pending_logfile n)))
      (copied TLOG_LOG_NAME_LEN (basename (pending_logfile n)))
      (suffix n) (pending_logfile n) (rename_pending n))).

Fixpoint drop_blanks (p : path) : path :=
  match p with
  | b :: q => if bool_decide (b = x20) then drop_blanks q else p
  | [] => []
  end.

(** [_tlog_mkdir]; the loop stops at every slash but one at the start. *)
Fixpoint mkdir_loop (before rest : path) : M Z :=
  match rest with
  | [] => mret 0
  | b :: rest =>
      if negb (bool_decide (b = slash)) || bool_decide (before = [])
      then mkdir_loop (before ++ [b]) rest
      else
        let! there := do_sys (access before) in
        if (there : bool) then mkdir_loop (before ++ [b]) rest
        else
          let! r := do_sys (mkdir before) in
          if bool_decide (r <> 0) then mret (-1) else mkdir_loop (before ++ [b]) rest
  end.

Definition tlog_mkdir (p : path) : M Z :=
  let! there := do_sys (access p) in
  if (there : bool) then mret 0
  else
    let path_c := copied PATH_MAX (drop_blanks p) in
    if bool_decide (Z.of_nat (length path_c) + 1 >= PATH_MAX) then lift Crash
    else mkdir_loop [] (path_c ++ [slash]).

(** *** Writing *)

Definition multi_message : list byte :=
  bytes_of "[Auto enable multi-process write mode, log may be lost, please enable multi-process write mode manually]"
  ++ [newline].

(** The part of [_tlog_write_ext] that archives a file that has grown too long. *)
Definition rotate : M () :=
  let! l := get (fun l => l) in
  (if multi_log (opts l) && bool_decide (fd (hnd l) > 0)
   then let! n := do_sys (lseek_end (fd (hnd l))) in on_hnd (set_filesize n)
   else mret tt);;;
  let! l := get (fun l => l) in
  let h := hnd l in
  if bool_decide (filesize h > logsize (opts l)) && bool_decide (zip_pid h <= 0) then
    let! size := do_sys (lseek_end (fd h)) in
    (if bool_decide (filesize h < size) && negb (multi_log (opts l))
     then on_opts (set_multi_log true);;; do_sys (append (fd h) multi_message);;; mret tt
     else mret tt);;;
    do_sys (fun s => (close (fd h) s, tt));;;
    on_hnd (set_fd (-1));;;
    on_hnd (set_filesize 0);;;
    archive_log;;;
    mret tt
  else mret tt.

(** What [_tlog_write_ext] does when the directory cannot be made. *)
Definition mkdir_failed : M Z :=
  let! l := get (fun l => l) in
  if negb (print_errmsg (hnd l)) then mret (-1)
  else
    on_hnd (set_print_errmsg false);;;
    let! e := get_errno in
    (if bool_decide (e = EACCES) && negb (logscreen (opts l))
     then on_opts (tlog_logscreen 1);;; on_opts (tlog_logcount 0)
     else mret tt);;;
    mret (-1).

(** Opening the log file, once a second while that fails. *)
Definition open_log : M Z :=
  let! now := do_sys time_now in
  let! l := get (fun l => l) in
  if bool_decide (now = last_try (hnd l)) then mret (-1)
  else
    on_hnd (set_last_try now);;;
    let! r := tlog_mkdir (logdir (nam l)) in
    if bool_decide (r <> 0) then mkdir_failed
    else
      on_hnd (set_filesize 0);;;
      let! f := do_sys (open_creat (log_file (nam l)) (file_perm (per l))) in
      on_hnd (set_fd f);;;
      if bool_decide (f < 0) then
        on_hnd (set_print_errmsg false);;; mret (-1)
      else
        (if mode_changed (per l) then do_sys (fchmod f (file_perm (per l)));;; mret tt
         else mret tt);;;
        on_hnd (set_last_try 0);;;
        on_hnd (set_print_errmsg true);;;
        let! size := do_sys (lseek_end f) in
        on_hnd (set_filesize size);;;
        mret 0.

(** The end of [_tlog_write_ext]. *)
Definition write_data (buff : list byte) : M Z :=
  let! f := get (fun l => fd (hnd l)) in
  let! len := do_sys (append f buff) in
  (if bool_decide (len > 0) then on_hnd (fun h => set_filesize (filesize h + len) h)
   else
     let! e := get_errno in
     if bool_decide (f > 0) && bool_decide (e = ENOSPC)
     then do_sys (fun s => (close f s, tt));;; on_hnd (set_fd (-1))
     else mret tt);;;
  mret len.

(** [_tlog_write_ext] *)
Definition write_ext (buff : list byte) : M Z :=
  let! l := get (fun l => l) in
  if bool_decide (buff = []) || fail l then mret 0
  else
    (if rename_pending (nam l)
     then get_log_name_dir;;;
       modify (with_nam (fun n =>
         mk_naming (logdir n) (logname n) (suffix n) (pending_logfile n) false))
     else mret tt);;;
    let! count := get (fun l => logcount (opts l)) in
    if bool_decide (count <= 0) then mret 0
    else
      rotate;;;
      let! f := get (fun l => fd (hnd l)) in
      let! r := if bool_decide (f <= 0) then open_log else mret 0 in
      if bool_decide (r <> 0) then mret (-1) else write_data buff.

(** *** Output functions *)

Definition put_screen (bs : list byte) : M () := fun w =>
  Ret (mk_world (sys w) (lf w) (screen w ++ bs) (last_time w) (last_tm w), tt).

(** A number as it lies in memory, least significant byte first. *)
Fixpoint le_num (bs : list byte) : Z :=
  match bs with
  | [] => 0
  | b :: bs => Z.of_N (Byte.to_N b) + 256 * le_num bs
  end.

(** A [struct tlog_segment_log_head] in memory: its level, its length, and where its
    data begin. *)
Definition head_level (mem : list byte) : Z := le_num (take 4 mem).
Definition head_len (mem : list byte) : Z := le_num (slice 37 2 mem).
Definition head_data (mem : list byte) : list byte := drop 39 mem.

(** [_tlog_root_write_log]: [mem] is the memory from [buff] on, of which [bufflen]
    bytes are the call's; [output_func] is the callback registered for the root log. *)
Definition root_write_log (output_func : option (Z -> list byte -> M Z)) (mem : list byte) (bufflen : Z)
    : M Z :=
  let! l := get (fun l => l) in
  let on_screen := logscreen (opts l) in
  if segment_log (opts l) then
    let len := match output_func with None => head_len mem | Some _ => head_len mem - 1 end in
    if bool_decide (Z.of_nat (length mem) < SEGMENT_LOG_HEAD + len) then lift Crash
    else
      let data := take (Z.to_nat len) (head_data mem) in
      put_screen (write_screen on_screen (Some (head_level mem)) data);;;
      match output_func with
      | None => write_ext data
      | Some f => f (head_level mem) data
      end
  else if bool_decide (Z.of_nat (length mem) < bufflen) then lift Crash
  else
    let data := take (Z.to_nat bufflen) mem in
    put_screen (write_screen on_screen None data);;;
    match output_func with
    | None => write_ext data
    | Some f => f 0 data
    end.

(** [_tlog_write_output_func] *)
Definition write_output_func (is_root : bool) (output_func : option (list byte -> M Z)) (buff : list byte)
    : M Z :=
  let! l := get (fun l => l) in
  (if logscreen (opts l) && negb is_root
   then put_screen (write_screen true None buff) else mret tt);;;
  match output_func with
  | None => mret (-1)
  | Some f => f buff
  end.

(** ** What happens to a log file *)

(** The writer writes a buffer or looks after the gzip process, and that process
    comes to its end. *)
Inductive event := Write (bs : list byte) | Poll | GzipEnds.

(** The bytes of the event that got into the log file. *)
Definition run_event (e : event) : M (list byte) :=
  match e with
  | Write bs => let! r := write_ext bs in mret (take (Z.to_nat r) bs)
  | Poll => wait_pid false;;; mret []
  | GzipEnds =>
      let! pid := get (fun l => zip_pid (hnd l)) in
      do_sys (fun s => (gzip_ends pid s, tt));;; mret []
  end.

Fixpoint run_events (es : list event) : M (list byte) :=
  match es with
  | [] => mret []
  | e :: es => let! a := run_event e in let! b := run_events es in mret (a ++ b)
  end.

End Operations.

End LogFile.
