(* ===== verification/LogWp.v ===== *)
(** * tlog.c: names of log files, and a logic for what is done to them

    The names of the files of a log are names of entries of its directory, and those of
    archives differ among each other and from the rest. Weakest preconditions for the
    programs of LogFile.v. *)

From Stdlib Require Import ZArith Lia.
From Stdlib Require Import Strings.Byte.
From stdpp Require Import base gmap sets list strings pretty.
From S2P Require Import Prelude TlogFormat Tlog Filesys LogFile.

Module LogWp.

Import TlogFormat.
Import Filesys LogFile.
Local Open Scope Z_scope.

(** ** Names *)

Lemma no_slash_app a b : no_slash (a ++ b) <-> no_slash a /\ no_slash b.
Proof. unfold no_slash. rewrite elem_of_app. tauto. Qed.

Lemma no_slash_text p : forallb (fun b => negb (Byte.eqb b slash)) p = true -> no_slash p.
Proof.
  unfold no_slash. induction p as [|b p IH]; cbn; intros H; [by apply not_elem_of_nil|].
  apply andb_true_iff in H as [H1 H2]. apply not_elem_of_cons. split; [|by apply IH].
  intros <-. by vm_compute in H1.
Qed.

Lemma no_slash_pretty_N (x : N) : no_slash (bytes_of (pretty x)).
Proof.
  assert (forall x s, no_slash (bytes_of s) -> no_slash (bytes_of (pretty_N_go x s))) as H.
  { intros y. induction (N.lt_wf_0 y) as [y _ IH]; intros s Hs.
    destruct (decide (0 < y)%N) as [Hy|Hy].
    - rewrite pretty_N_go_step by done. apply IH; [by apply N.div_lt|].
      unfold no_slash in *; cbn. apply not_elem_of_cons. split; [|done].
      unfold pretty_N_char. by repeat case_match.
    - replace y with 0%N by lia. by rewrite pretty_N_go_0. }
  unfold pretty, pretty_N. case_decide; [by apply no_slash_text|].
  apply H. unfold no_slash. by apply not_elem_of_nil.
Qed.

Lemma no_slash_pretty (z : Z) : no_slash (bytes_of (pretty z)).
Proof.
  destruct z as [|p|p]; [apply (no_slash_pretty_N 0)|apply (no_slash_pretty_N (N.pos p))|].
  change (bytes_of (pretty (Z.neg p))) with (x2d :: bytes_of (pretty (N.pos p))).
  unfold no_slash. apply not_elem_of_cons. split; [done|apply no_slash_pretty_N].
Qed.

Lemma no_slash_digits w z : no_slash (bytes_of (digits w z)).
Proof.
  unfold digits. rewrite bytes_of_app. apply no_slash_app. split; [|apply no_slash_pretty].
  induction (w - _)%nat as [|[|k] IH]; [by apply no_slash_text..|].
  unfold no_slash in *. cbn in *. apply not_elem_of_cons. by split.
Qed.

#[export] Hint Resolve no_slash_pretty no_slash_pretty_N no_slash_digits : estuary.

Lemma no_slash_stamp t : no_slash (stamp t).
Proof.
  unfold stamp. rewrite !bytes_of_app, !no_slash_app.
  split_and!; auto with estuary. by apply no_slash_text.
Qed.

(** The names of a log as [_tlog_get_log_name_dir] and [tlog_open] leave them. *)
Record naming_ok (n : naming) : Prop := {
  ok_dir : logdir n <> [];
  ok_name : entry_name (logname n);
  ok_suffix : no_slash (suffix n);
  ok_settled : rename_pending n = false
}.

Section Names.
Context (n : naming) (N_ok : naming_ok n).

Lemma entry_name_app a b : entry_name a -> no_slash b -> entry_name (a ++ b).
Proof.
  intros [[H1 H2] H3] Hb. split; [split|].
  - by destruct a.
  - intros E. destruct a as [|x [|y a]]; [done| |done].
    injection E as -> E. by subst b.
  - by apply no_slash_app.
Qed.

(** The place of the file whose name is the log's with a tail. *)
Definition at_ (x : path) : place := resolve (below (logdir n) (logname n ++ x)).

Lemma at_inj x y : no_slash x -> no_slash y -> at_ x = at_ y -> x = y.
Proof.
  intros Hx Hy E. apply (app_inv_head (logname n)).
  apply (resolve_below_inj (logdir n));
    [apply N_ok|by apply entry_name_app, Hx; apply N_ok|by apply entry_name_app, Hy; apply N_ok|done].
Qed.

Lemma parent_at x : no_slash x -> parent (at_ x) = resolve (logdir n).
Proof. intros Hx. apply parent_below; [apply N_ok|]. apply entry_name_app, Hx. apply N_ok. Qed.

Definition PENDING : path := bytes_of ".pending".
Definition LOCK : path := bytes_of ".lock".

Lemma log_file_at : resolve (log_file n) = at_ [].
Proof. unfold log_file, at_. by rewrite app_nil_r. Qed.
Lemma pending_file_at : resolve (pending_file n) = at_ PENDING.
Proof. done. Qed.
Lemma gzip_file_at : resolve (gzip_file n) = at_ (PENDING ++ GZ).
Proof. done. Qed.
Lemma gzip_file_alt : gzip_file n = pending_file n ++ GZ.
Proof. unfold gzip_file, pending_file, below. by rewrite <- app_assoc, <- app_comm_cons, <- app_assoc. Qed.
Lemma lock_name_at : resolve (lock_name n) = at_ LOCK.
Proof. done. Qed.

(** The tail of the name of an archive. *)
Definition archive_tail (t : tlog_time) (i : nat) : path :=
  bytes_of "-" ++ stamp t ++ match i with O => [] | S _ => bytes_of ("-" ++ pretty i) end ++ suffix n.

Lemma archive_file_at t i : resolve (archive_file n t i) = at_ (archive_tail t i).
Proof. done. Qed.

Lemma no_slash_archive_tail t i : no_slash (archive_tail t i).
Proof.
  unfold archive_tail. rewrite !no_slash_app. split_and!.
  - by apply no_slash_text.
  - apply no_slash_stamp.
  - destruct i; [by apply not_elem_of_nil|]. rewrite bytes_of_app, no_slash_app.
    split; [|apply no_slash_pretty_N]. by apply no_slash_text.
  - apply N_ok.
Qed.

Lemma archive_tail_inj t i j : archive_tail t i = archive_tail t j -> i = j.
Proof.
  unfold archive_tail. intros E%app_inv_head%app_inv_head%app_inv_tail.
  destruct i, j; [done|done|done|]. apply (inj bytes_of) in E.
  by apply (inj (String.app "-")), (inj pretty) in E.
Qed.

Lemma contains_suffix a sub : contains (a ++ sub) sub = true.
Proof.
  induction a as [|b a IH]; cbn.
  - destruct sub; cbn; [done|]. rewrite firstn_all. by rewrite bool_decide_eq_true_2.
  - rewrite IH. apply orb_true_r.
Qed.

Lemma is_archive_name t i : is_archive n (archive_name n t i) = true.
Proof.
  unfold is_archive, archive_name. rewrite !app_assoc. apply andb_true_intro. split.
  - apply contains_suffix.
  - apply bool_decide_eq_true_2. rewrite <- !app_assoc, take_app.
    rewrite take_ge by lia. f_equal. by replace (_ + 1 - _)%nat with 1%nat by lia.
Qed.

(** The names of archives are not those of the other files. *)
Lemma is_archive_tail nm : is_archive n nm = true -> exists y, nm = logname n ++ x2d :: y.
Proof.
  unfold is_archive. intros [_ E%bool_decide_eq_true]%andb_true_iff.
  exists (drop (length (logname n) + 1) nm). rewrite <- (take_drop (length (logname n) + 1) nm) at 1.
  rewrite E, <- app_assoc. done.
Qed.

Lemma archive_place_ne nm y :
  is_archive n nm = true -> no_slash nm -> no_slash y -> head y <> Some x2d ->
  resolve (below (logdir n) nm) <> at_ y.
Proof.
  intros (z & ->)%is_archive_tail [_ Hz]%no_slash_app Hy Hh E.
  apply at_inj in E; [by subst y|done|done].
Qed.

End Names.

(** ** Weakest preconditions

    [wp m Q s l]: from the files [s] and the log [l], whatever is on the screen and
    in the cache of the time, [m] returns, and [Q] holds of what it returns. *)

Definition wp {A} (m : M A) (Q : A -> fs -> logfile -> Prop) (s : fs) (l : logfile) : Prop :=
  forall w, sys w = s -> lf w = l -> exists w' a, m w = Ret (w', a) /\ Q a (sys w') (lf w').

Section Wp.
Context {A B : Type}.
Implicit Types (Q : A -> fs -> logfile -> Prop) (s : fs) (l : logfile).

Lemma wp_ret (a : A) Q s l : Q a s l -> wp (mret a) Q s l.
Proof. intros H w <- <-. by exists w, a. Qed.

Lemma wp_bind (m : M B) (f : B -> M A) Q s l :
  wp m (fun b s l => wp (f b) Q s l) s l -> wp (m ≫= f) Q s l.
Proof.
  intros H w Hs Hl. destruct (H w Hs Hl) as (w1 & b & E & Hf).
  destruct (Hf w1 eq_refl eq_refl) as (w2 & a & E2 & HQ).
  exists w2, a. split; [|done]. unfold mbind, M_bind. rewrite E. done.
Qed.

Lemma wp_mono (m : M A) (Q R : A -> fs -> logfile -> Prop) s l :
  wp m Q s l -> (forall a s' l', Q a s' l' -> R a s' l') -> wp m R s l.
Proof. intros H HQ w Hs Hl. destruct (H w Hs Hl) as (w' & a & E & HR). eauto. Qed.

Lemma wp_sys (f : fs -> fs * A) Q s l :
  (forall s' a, f s = (s', a) -> Q a s' l) -> wp (do_sys f) Q s l.
Proof.
  intros H w <- <-. unfold do_sys. destruct (f (sys w)) as [s' a] eqn:E.
  do 2 eexists. split; [done|]. by apply H.
Qed.

Lemma wp_get (f : logfile -> A) Q s l : Q (f l) s l -> wp (get f) Q s l.
Proof. intros H w <- <-. by exists w, (f (lf w)). Qed.
End Wp.

Lemma wp_modify f (Q : () -> fs -> logfile -> Prop) s l : Q tt s (f l) -> wp (modify f) Q s l.
Proof. intros H w <- <-. do 2 eexists. split; [done|done]. Qed.

Lemma wp_get_sys {A} (f : fs -> A) (Q : A -> fs -> logfile -> Prop) s l :
  Q (f s) s l -> wp (get_sys f) Q s l.
Proof. intros H w <- <-. do 2 eexists. split; [done|done]. Qed.

(** One instruction of a program. *)
Ltac wp_step :=
  match goal with
  | |- wp (mret _) _ _ _ => apply wp_ret
  | |- wp (mbind (M := M) _ _) _ _ _ => apply wp_bind
  | |- wp (get _) _ _ _ => apply wp_get
  | |- wp (get_sys _) _ _ _ => apply wp_get_sys
  | |- wp get_errno _ _ _ => apply wp_get_sys
  | |- wp (modify _) _ _ _ => apply wp_modify
  | |- wp (on_hnd _) _ _ _ => apply wp_modify
  | |- wp (on_opts _) _ _ _ => apply wp_modify
  | |- wp (if bool_decide ?P then _ else _) _ _ _ =>
      first [rewrite (bool_decide_eq_true_2 P) by lia | rewrite (bool_decide_eq_false_2 P) by lia]
  end; cbn beta iota.
Ltac wp_steps := repeat wp_step.
Tactic Notation "wp_call" simple_intropattern(s) simple_intropattern(r) simple_intropattern(E) :=
  apply wp_sys; intros s r E; cbn beta iota.

End LogWp.
