(* ===== verification/LogRotate.v ===== *)
(** * tlog.c: what the log files hold

    The files of a log, whatever calls fail: the bytes that the writes report as
    written are in the archives, the pending file and the log file, in this order, but
    for archives removed because there were too many. Without failures every
    byte is written, and no file grows beyond its limit by more than one buffer. *)

From Stdlib Require Import ZArith Lia.
From Stdlib Require Import Strings.Byte.
From stdpp Require Import base gmap sets list strings pretty.
From S2P Require Import Prelude TlogFormat Tlog Filesys LogFile LogWp.

Module LogRotate.

Import TlogFormat.
Import Tlog(settings, logsize, logcount, nocompress, logscreen, multi_log).
Import Filesys LogFile LogWp.
Local Open Scope Z_scope.

(** ** The kernels considered *)

(** A directory is read once over, in any order; gzip's output stands for its input. *)
Record kernel_ok {K : Kernel} (gunzip : list byte -> option (list byte)) : Prop := {
  readdir_permutation t l : order t l ≡ₚ l;
  gzip_ok t data z : gzip_output t data = Some z -> gunzip z = Some data
}.

(** [access] tells the truth: it fails only for a name that does not exist. The code takes every failure
    of it for a name that is free; where one is not, the file of that name is overwritten
    ([access_failure_overwrites] in LogHistory.v). *)
Definition access_honest {K : Kernel} : Prop := forall t p, refuses t (SAccess p) = None.

(** Nothing fails, writes are whole, and the clock is not at 0. *)
Record benign {K : Kernel} : Prop := {
  never_refused t c : refuses t c = None;
  whole_writes t n : n <= taken t n;
  clock_set t : clock t <> 0;
  always_local t : localtime_r t <> None
}.

(** Membership of a list that is written out. *)
Ltac mem :=
  first [ solve [repeat first [apply list_elem_of_here | apply list_elem_of_further]]
        | solve [rewrite !elem_of_cons in *; tauto] | set_solver ].

Section Rotation.
Context {K : Kernel} (gunzip : list byte -> option (list byte)) (K_ok : kernel_ok gunzip).
Context (A_ok : access_honest) (n : naming) (N_ok : naming_ok n).

Implicit Types (s : fs) (l : logfile).

Lemma wp_access p (Q : bool -> fs -> logfile -> Prop) s l :
  (forall s', same s' s -> Q (present s p) s' l) -> wp (do_sys (access p)) Q s l.
Proof. intros H. wp_call s' b E. apply access_cases in E as [Hs ->]; [auto|apply A_ok]. Qed.

(** *** Looking for a free name *)

Lemma present_same s s' p : same s' s -> present s' p = present s p.
Proof. intros (Ed & En & _). unfold present, is_dir. by rewrite Ed, En. Qed.

(** There are not more names taken than files and directories. *)
Lemma archives_taken s t i :
  (forall k, (k < i)%nat -> present s (archive_file n t k) = true) ->
  (i <= size (names s) + size (dirs s))%nat.
Proof.
  intros H.
  assert (list_to_set ((fun k => at_ n (archive_tail n t k)) <$> seq 0 i)
          ⊆ dom (names s) ∪ dirs s) as Hsub.
  { intros q (k & -> & Hk%elem_of_seq)%elem_of_list_to_set%list_elem_of_fmap.
    specialize (H k ltac:(lia)). unfold present, is_dir in H.
    apply orb_true_iff in H as [H|H]; apply bool_decide_eq_true in H;
      rewrite archive_file_at in H; apply elem_of_union; [by right|left].
    by apply elem_of_dom. }
  apply subseteq_size in Hsub.
  rewrite size_list_to_set, length_fmap, length_seq in Hsub.
  - rewrite size_union_alt, size_dom in Hsub.
    assert (size (dirs s ∖ dom (names s)) <= size (dirs s))%nat by (apply subseteq_size; mem).
    lia.
  - apply NoDup_fmap_2_strong; [|apply NoDup_seq].
    intros j k _ _ E. eapply archive_tail_inj, (at_inj n N_ok); [..|exact E];
      by apply no_slash_archive_tail.
Qed.

Lemma wp_free_archive_file fuel t i (Q : path -> fs -> logfile -> Prop) s s0 l :
  same s s0 -> (forall k, (k < i)%nat -> present s0 (archive_file n t k) = true) ->
  (size (names s0) + size (dirs s0) < fuel + i)%nat ->
  (forall s' j, same s' s0 -> present s0 (archive_file n t j) = false ->
     Q (archive_file n t j) s' l) ->
  wp (free_archive_file fuel n t i) Q s l.
Proof.
  intros Hs Hi Hf HQ. revert s i Hs Hi Hf. induction fuel as [|fuel IH]; intros s i Hs Hi Hf.
  { pose proof (archives_taken s0 t i Hi). lia. }
  cbn. wp_step. apply wp_access. intros s' Hs'. rewrite (present_same _ _ _ Hs).
  destruct (present s0 (archive_file n t i)) eqn:E.
  - apply IH; [by rewrite Hs'| |lia]. intros k Hk.
    destruct (decide (k = i)) as [->|]; [done|]. apply Hi. lia.
  - wp_step. apply HQ; [by rewrite Hs'|done].
Qed.

(** *** Moving a file into the archive *)

(** The file at [p] has become the one at [q], where there was nothing. *)
Definition moved (p q : place) s s' : Prop :=
  exists i, names s !! p = Some i /\ (q ∉ dirs s) /\ Forall entry_name q.2 /\ names s !! q = None
  /\ let s1 := set_names (<[q := i]> (delete p (names s))) s in
     same s' s1 \/ exists j m, same s' (change_perm j m s1).

(** Nothing but names and contents of files has changed. *)
Record kin s s' : Prop := {
  kin_wf : fs_wf s';
  kin_dirs : dirs s' = dirs s;
  kin_fds : fds s' = fds s;
  kin_children : children s' = children s
}.

Lemma kin_same s s' : fs_wf s -> same s' s -> kin s s'.
Proof. intros W Hs. split; [by rewrite Hs|apply Hs..]. Qed.

Lemma kin_trans s1 s2 s3 : kin s1 s2 -> kin s2 s3 -> kin s1 s3.
Proof. intros [A1 A2 A3 A4] [B1 B2 B3 B4]. split; [done|congruence..]. Qed.

Lemma moved_inv p q s s' :
  fs_wf s -> moved p q s s' ->
  kin s s' /\ exists i d, names s !! p = Some i /\ view s !! p = Some d /\ view s !! q = None
    /\ (q ∉ dirs s) /\ names s' = <[q := i]> (delete p (names s))
    /\ view s' = <[q := d]> (delete p (view s)).
Proof.
  intros W (i & Hi & Hq & Hqe & Hn & H).
  destruct (wf_inode _ W _ _ Hi) as [f Hf].
  assert (view s !! p = Some (i_data f)) as Hd by by rewrite view_lookup, Hi; cbn; rewrite Hf.
  pose proof (wf_renamed _ _ _ _ W Hi Hq Hqe) as W1.
  pose proof (view_renamed _ _ q _ _ Hd Hi) as V1.
  cbn zeta in H. set (s1 := set_names _ s) in *.
  assert (kin s s' /\ names s' = names s1 /\ view s' = view s1) as (H1 & H2 & H3).
  { destruct H as [H|(j & m & H)].
    - split_and!; [split; [by rewrite H|apply H..]|apply H|by rewrite H].
    - split_and!; [split|apply H|].
      + rewrite H. by apply wf_perm.
      + apply H.
      + apply H.
      + apply H.
      + rewrite H. apply view_perm. }
  split; [done|]. exists i, (i_data f). split_and!; try done.
  - by apply view_names.
  - by rewrite H3.
Qed.

Lemma wp_getmtime file (Q : option tlog_time -> fs -> logfile -> Prop) s l :
  fs_wf s ->
  (forall s' t, same s' s -> Q (Some t) s' l) ->
  (forall s', same s' s -> (benign -> names s !! resolve file = None /\ resolve file ∉ dirs s) ->
     Q None s' l) ->
  wp (getmtime file) Q s l.
Proof.
  intros W HS HN. unfold getmtime. wp_step. wp_call s' r E. apply stat_cases in E as [Hs Hr].
  destruct r as [st|].
  - wp_step. intros w <- <-. unfold localtime.
    case_bool_decide; [do 2 eexists; split; [done|]; by apply wp_ret, HS|].
    destruct (localtime_r st) eqn:E.
    + do 2 eexists. split; [done|]. by apply wp_ret, HS.
    + do 2 eexists. split; [done|]. apply wp_ret, HN; [done|]. intros B. by destruct (always_local B st).
  - wp_step. apply HN; [done|]. intros B.
    destruct Hr as [Hr|[_ [e He]]]; [|by rewrite (never_refused B) in He].
    unfold mtime_of, is_dir, file_at in Hr. case_bool_decide as Hd; [done|]. split; [|done].
    destruct (names s !! resolve file) as [i|] eqn:Ei; [|done].
    cbn in Hr. by destruct (wf_inode _ W _ _ Ei) as [f Hf]; rewrite Hf in Hr.
Qed.

Lemma wp_rename_logfile file (Q : Z -> fs -> logfile -> Prop) s l :
  nam l = n -> fs_wf s -> resolve (logdir n) ∈ dirs s ->
  (forall s' nm, is_archive n nm = true -> no_slash nm ->
     moved (resolve file) (resolve (below (logdir n) nm)) s s' -> Q 0 s' l) ->
  (forall s', same s' s -> (benign -> names s !! resolve file = None) -> Q (-1) s' l) ->
  wp (rename_logfile file) Q s l.
Proof.
  intros Hn W Hdir H0 H1. unfold rename_logfile. do 2 wp_step. rewrite Hn. wp_step.
  apply wp_getmtime; [done| |by intros; wp_step; naive_solver].
  intros s1 t Hs1. do 3 wp_step.
  apply (wp_free_archive_file _ _ _ _ _ s); [done|lia| |].
  { destruct Hs1 as (-> & -> & _). lia. }
  intros s2 j Hs2 Hp. apply (present_view _ _ W) in Hp as [Hv Hnd].
  apply (view_names _ _ W) in Hv.
  set (q := resolve (archive_file n t j)) in *. wp_step. wp_call s3 r E.
  pose proof Hs2 as (Ed & En & _).
  apply rename_cases in E as [(-> & Hs3 & Hr)|(-> & i & Hi & _ & Hs3)].
  - wp_steps. apply H1; [by rewrite Hs3|]. intros B.
    specialize (Hr (never_refused B _ _)). rewrite Ed, En in Hr.
    destruct Hr as [?|[?|Hr]]; [done|done|]. destruct Hr. unfold q.
    rewrite archive_file_at, parent_at; [done|done|]. apply no_slash_archive_tail, N_ok.
  - cbn. rewrite En in Hi, Hs3. wp_steps. wp_call s4 r4 E4. wp_step.
    apply (H0 _ (archive_name n t j)); [apply is_archive_name| |].
    { apply no_slash_app. split; [apply N_ok|]. apply no_slash_archive_tail, N_ok. }
    exists i. split_and!; [done|done|apply resolve_entries|done|]. cbn zeta.
    assert (same s3 (set_names (<[q:=i]> (delete (resolve file) (names s))) s)) as Hs3'.
    { by rewrite Hs3, Hs2. }
    apply chmod_cases in E4 as [E4|[k E4]]; [left; by rewrite E4|].
    right. exists k, (archive_perm (per l)). by rewrite E4, Hs3'.
Qed.

(** *** Removing the oldest archives *)

(** The place of an entry of the log directory. *)
Definition entry_at (nm : path) : place := ((resolve (logdir n)).1, (resolve (logdir n)).2 ++ [nm]).

Lemma entry_at_below nm : entry_name nm -> entry_at nm = resolve (below (logdir n) nm).
Proof. intros H. rewrite resolve_below; [done|apply N_ok|done]. Qed.

#[export] Instance entry_at_inj : Inj (=) (=) entry_at.
Proof. unfold entry_at. intros a b [= E]. by apply app_inj_tail_iff in E as [_ ?]. Qed.

(** The archives of the log. *)
Definition archives s : list path :=
  filter (fun nm => is_archive n nm = true)
    (omap (child_name (resolve (logdir n))) (elements (dom (names s)))).

Definition no_archive_dirs s : Prop :=
  forall nm, is_archive n nm = true -> entry_at nm ∉ dirs s.

Lemma elem_of_archives s nm :
  nm ∈ archives s <-> is_archive n nm = true /\ is_Some (names s !! entry_at nm).
Proof.
  unfold archives. rewrite list_elem_of_filter, list_elem_of_omap. f_equiv.
  setoid_rewrite child_name_Some. setoid_rewrite elem_of_elements. setoid_rewrite elem_of_dom.
  split; [by intros (q & H & ->)|eauto].
Qed.

Lemma NoDup_child_names (d : place) (l : list place) :
  NoDup l -> NoDup (omap (child_name d) l).
Proof.
  induction 1 as [|q l Hq Hl IH]; cbn; [constructor|].
  destruct (child_name d q) as [nm|] eqn:E; [|done]. constructor; [|done].
  rewrite list_elem_of_omap. intros (r & Hr & E').
  apply child_name_Some in E as ->. apply child_name_Some in E' as ->. done.
Qed.

Lemma NoDup_archives s : NoDup (archives s).
Proof. apply NoDup_filter, NoDup_child_names, NoDup_elements. Qed.

Lemma archive_entry_name s nm : fs_wf s -> nm ∈ archives s -> entry_name nm.
Proof.
  intros W [_ H]%elem_of_archives. apply (wf_entries _ W) in H. cbn in H.
  apply Forall_app in H as [_ H]. by inversion H.
Qed.

Lemma is_archive_dots nm : is_archive n nm = true -> nm <> dot /\ nm <> dotdot.
Proof.
  intros (y & ->)%is_archive_tail. pose proof (ok_name _ N_ok) as [[H1 H2] _].
  destruct (logname n) as [|a [|b z]]; [done| |]; cbn; split; intros [= ]; subst; try done.
  by destruct z.
Qed.

(** The entries a listing gives, as far as the callbacks look at them. *)
Lemma listed_archives s t :
  no_archive_dirs s ->
  filter (fun nm => is_archive n nm = true) (order t (entries s (resolve (logdir n)))) ≡ₚ archives s.
Proof.
  intros Hd. rewrite (readdir_permutation _ K_ok). unfold entries, archives.
  assert (is_archive n dot <> true /\ is_archive n dotdot <> true) as [H1 H2].
  { split; intros H; by apply is_archive_dots in H as [??]. }
  rewrite !filter_cons_False, omap_app, filter_app by done.
  assert (filter (fun nm => is_archive n nm = true)
    (omap (child_name (resolve (logdir n))) (elements (dirs s))) = []) as ->; [|by rewrite app_nil_r].
  apply elem_of_nil_inv. intros nm [Ha (q & Hq & Hc)%list_elem_of_omap]%list_elem_of_filter.
  apply child_name_Some in Hc as ->. apply (Hd nm Ha). by apply elem_of_elements.
Qed.

Lemma wp_count_entries names0 u (Q : Z * Z -> fs -> logfile -> Prop) s l :
  nam l = n ->
  Q (0, u + Z.of_nat (length (filter (fun nm => is_archive n nm = true) names0))) s l ->
  wp (list_entries count_log_callback names0 u) Q s l.
Proof.
  intros Hn. revert u. induction names0 as [|nm names0 IH]; intros u HQ; cbn.
  { rewrite Z.add_0_r in HQ. by apply wp_ret. }
  destruct (bool_decide (nm = dot) || bool_decide (nm = dotdot)) eqn:E.
  - apply IH. rewrite filter_cons_False in HQ; [done|]. intros [??]%is_archive_dots.
    apply orb_true_iff in E as [E|E]; by apply bool_decide_eq_true in E.
  - wp_step. unfold count_log_callback at 1. do 3 wp_step. rewrite Hn. cbn [fst snd].
    wp_step. apply IH. rewrite filter_cons in HQ.
    destruct (is_archive n nm); cbn in *; [|done].
    by replace (u + 1 + _) with
      (u + Z.pos (Pos.of_succ_nat (length (filter (fun nm => is_archive n nm = true) names0)))) by lia.
Qed.

(** The oldest so far, with one more entry. *)
Definition pick s (oldest : path * Z) (nm : path) : path * Z :=
  if is_archive n nm then
    match mtime_of s (below (logdir n) nm) with
    | Some t => if bool_decide (oldest.2 = 0) || bool_decide (oldest.2 > t) then (nm, t) else oldest
    | None => oldest
    end
  else oldest.

Lemma pick_dots s o nm : nm = dot \/ nm = dotdot -> pick s o nm = o.
Proof.
  intros H. unfold pick. destruct (is_archive n nm) eqn:E; [|done].
  apply is_archive_dots in E. naive_solver.
Qed.

Lemma wp_oldest_entries names0 o (Q : Z * (path * Z) -> fs -> logfile -> Prop) s s0 l :
  nam l = n -> same s s0 ->
  (forall s', same s' s0 -> Q (0, foldl (pick s0) o names0) s' l) ->
  (forall s' o', same s' s0 ->
     (benign -> exists nm, nm ∈ names0 /\ is_archive n nm = true
        /\ mtime_of s0 (below (logdir n) nm) = None) -> Q (-1, o') s' l) ->
  wp (list_entries (get_oldest_callback (logdir n)) names0 o) Q s l.
Proof.
  intros Hn. revert s o. induction names0 as [|nm names0 IH]; intros s o Hs H0 H1; cbn.
  { apply wp_ret. by apply H0. }
  assert (forall o', pick s0 o nm = o' -> forall s', same s' s0 ->
    wp (list_entries (get_oldest_callback (logdir n)) names0 o') Q s' l) as Hnext.
  { intros o' <- s' Hs'. apply IH; [done|done|].
    intros s'' o'' Hs'' HB. apply H1; [done|]. intros (nm' & ? & ?)%HB. exists nm'. mem. }
  destruct (bool_decide (nm = dot) || bool_decide (nm = dotdot)) eqn:E.
  { apply Hnext; [|done]. apply pick_dots.
    apply orb_true_iff in E as [E|E]; apply bool_decide_eq_true in E; auto. }
  wp_step. unfold get_oldest_callback at 1. do 2 wp_step. rewrite Hn.
  destruct (is_archive n nm) eqn:Ea.
  - wp_step. wp_call s1 r E1. apply stat_cases in E1 as [Hs1 Hr].
    rewrite (mtime_of_same s0 s) in Hr by done.
    assert (same s1 s0) by by rewrite Hs1.
    destruct r as [t|]; cbn beta iota.
    + wp_step. cbn [fst snd]. wp_step. apply Hnext; [|done].
      destruct Hr as [Hr|[? _]]; [|done]. unfold pick. by rewrite Ea, <- Hr.
    + wp_step. cbn [fst snd]. wp_steps. apply H1; [done|]. intros B. exists nm.
      destruct Hr as [Hr|[_ [e He]]]; [|by rewrite (never_refused B) in He]. mem.
  - wp_step. cbn [fst snd]. wp_step. apply Hnext; [|done]. unfold pick. by rewrite Ea.
Qed.

Lemma foldl_pick_in s o names0 :
  foldl (pick s) o names0 = o \/
  ((foldl (pick s) o names0).1 ∈ names0 /\ is_archive n (foldl (pick s) o names0).1 = true
   /\ mtime_of s (below (logdir n) (foldl (pick s) o names0).1) = Some (foldl (pick s) o names0).2).
Proof.
  revert o. induction names0 as [|nm names0 IH]; intros o; cbn; [by left|].
  destruct (IH (pick s o nm)) as [->|(H1 & H2 & H3)]; [|right; mem].
  unfold pick. destruct (is_archive n nm) eqn:Ea; [|by left].
  destruct (mtime_of s _) as [t|] eqn:Et; [|by left].
  destruct (_ || _); [right|by left]. cbn. mem.
Qed.

(** With all times positive the oldest is found. *)
Lemma foldl_pick_least s o names0 :
  (forall nm, nm ∈ names0 -> is_archive n nm = true ->
     exists t, mtime_of s (below (logdir n) nm) = Some t /\ 0 < t) ->
  0 <= o.2 ->
  let r := foldl (pick s) o names0 in
  0 <= r.2 /\ (0 < o.2 -> 0 < r.2 <= o.2)
  /\ forall nm t, nm ∈ names0 -> is_archive n nm = true ->
       mtime_of s (below (logdir n) nm) = Some t -> 0 < r.2 <= t.
Proof.
  revert o. induction names0 as [|nm names0 IH]; intros o Hp Ho r.
  { split_and!; [done|cbn; lia|]. intros nm t H. by apply not_elem_of_nil in H. }
  assert (0 <= (pick s o nm).2 /\ (0 < o.2 -> 0 < (pick s o nm).2 <= o.2)
    /\ forall t, is_archive n nm = true -> mtime_of s (below (logdir n) nm) = Some t ->
         0 < (pick s o nm).2 <= t) as (P0 & P1 & P2).
  { unfold pick. destruct (is_archive n nm) eqn:Ea; [|split_and!; [done|lia|done]].
    destruct (Hp nm) as (t & Et & Ht); [mem|done|]. rewrite Et.
    destruct (bool_decide (o.2 = 0) || bool_decide (o.2 > t)) eqn:E; cbn.
    - apply orb_true_iff in E as [E|E]; apply bool_decide_eq_true in E;
        (split_and!; [lia|lia|]); intros t' _ [= <-]; lia.
    - apply orb_false_iff in E as [E1 E2]. apply bool_decide_eq_false in E1, E2.
      split_and!; [lia|lia|]. intros t' _ [= <-]. lia. }
  destruct (IH (pick s o nm)) as (H0 & H1 & H2); [by intros; apply Hp; [mem|]|done|].
  change (foldl (pick s) (pick s o nm) names0) with r in *.
  split_and!; [done|intros; lia|].
  intros nm' t [->|Hnm]%elem_of_cons Ha Ht; [|by eapply H2].
  specialize (P2 t Ha Ht). lia.
Qed.

(** Every archive has a time after the epoch. *)
Definition timed s : Prop :=
  forall nm, nm ∈ archives s -> exists t, mtime_of s (below (logdir n) nm) = Some t /\ 0 < t.

Definition no_younger s (a b : path) : Prop :=
  forall ta tb, mtime_of s (below (logdir n) a) = Some ta ->
    mtime_of s (below (logdir n) b) = Some tb -> ta <= tb.

(** What the whole component expects of the files: the log directory is there, and
    the names it uses are not those of directories. *)
Record ready s : Prop := {
  ready_wf : fs_wf s;
  ready_dir : resolve (logdir n) ∈ dirs s;
  ready_archives : no_archive_dirs s;
  ready_names x : x ∈ [[]; PENDING; PENDING ++ GZ; LOCK] -> at_ n x ∉ dirs s
}.

Lemma ready_same s s' : same s' s -> ready s -> ready s'.
Proof.
  intros Hs [W D A F]. pose proof Hs as (Ed & _).
  split; [by rewrite Hs|unfold no_archive_dirs; by rewrite Ed..].
Qed.

Lemma elem_of_listing s t nm :
  ready s -> nm ∈ order t (entries s (resolve (logdir n))) -> is_archive n nm = true ->
  nm ∈ archives s.
Proof.
  intros R Hm Ha. rewrite <- (listed_archives s t) by apply R. by apply list_elem_of_filter.
Qed.

Lemma wp_remove_oldestlog (Q : Z -> fs -> logfile -> Prop) s l :
  nam l = n -> ready s ->
  (forall r s', same s' s -> (benign -> timed s -> archives s = []) -> Q r s' l) ->
  (forall s' nm, nm ∈ archives s -> same s' (set_names (delete (entry_at nm) (names s)) s) ->
     (timed s -> forall b, b ∈ archives s -> no_younger s nm b) -> Q 0 s' l) ->
  wp remove_oldestlog Q s l.
Proof.
  intros Hn R H0 H1. unfold remove_oldestlog, list_dir. do 4 wp_step. rewrite Hn. wp_call s1 r E.
  apply opendir_cases in E as [Hs1 [[-> Hr]|[t ->]]]; cbn beta iota.
  { wp_step. cbn [fst snd]. wp_steps. apply H0; [done|]. intros B.
    destruct (Hr (never_refused B _ _)). apply R. }
  apply (wp_oldest_entries _ _ _ _ s); [done|done|..].
  2: { intros s2 o' Hs2 HB. cbn [fst snd]. wp_steps. apply H0; [done|]. intros B T.
       destruct (HB B) as (nm & Hm & Ha & Hx). destruct (T nm) as (x & Hy & _); [|congruence].
       by eapply elem_of_listing. }
  intros s2 Hs2. set (l0 := order t _) in *. cbn [fst snd]. wp_step. wp_step. wp_call s3 r3 E3. wp_step.
  apply unlink_cases in E3.
  assert (timed s -> let o := foldl (pick s) ([], 0) l0 in forall b tb, b ∈ archives s ->
    mtime_of s (below (logdir n) b) = Some tb -> 0 < o.2 <= tb) as Hleast.
  { intros T o b tb Hb Htb.
    destruct (foldl_pick_least s ([], 0) l0) as (_ & _ & H); [|done|].
    - intros nm Hm Ha. apply T. by eapply elem_of_listing.
    - assert (b ∈ filter (fun nm => is_archive n nm = true) l0) as [Ha Hl]%list_elem_of_filter.
      { unfold l0. by rewrite (listed_archives s t) by apply R. }
      by eapply H. }
  destruct (foldl_pick_in s ([], 0) l0) as [E|(Hin & Ha & Ht)].
  - rewrite E in *. cbn [fst snd] in *. rewrite resolve_below_nil in E3 by apply N_ok.
    destruct E3 as [[Hs3 _]|(_ & Hx & _)].
    + apply H0; [by rewrite Hs3|]. intros _ T. apply elem_of_nil_inv. intros b Hb.
      destruct (T b Hb) as (tb & Htb & _). specialize (Hleast T b tb Hb Htb). lia.
    + destruct Hs2 as (_ & Hs2 & _). rewrite Hs2, (wf_dirs _ (ready_wf _ R)) in Hx by apply R.
      by destruct Hx.
  - set (o := foldl (pick s) ([], 0) l0) in *. destruct o as [nm tm]. cbn [fst snd] in *.
    assert (nm ∈ archives s) as Hnm by by eapply elem_of_listing.
    rewrite <- (entry_at_below nm) in E3 by (eapply archive_entry_name; [apply R|done]).
    pose proof Hnm as [_ Hsome]%elem_of_archives. pose proof Hs2 as (Ed & En & _).
    rewrite Ed, En in E3.
    destruct E3 as [[Hs3 Hr]|(_ & _ & Hs3)].
    + apply H0; [by rewrite Hs3|]. intros B _.
      destruct (Hr (never_refused B _ _)) as [Hd|Hd]; [by destruct (ready_archives _ R nm Ha)|].
      by rewrite Hd in Hsome; destruct Hsome.
    + apply (H1 _ nm); [done|by rewrite Hs3, Hs2|].
      intros T b Hb ta tb Hta Htb. specialize (Hleast T b tb Hb Htb). rewrite Ht in Hta.
      injection Hta as <-. lia.
Qed.

(** [s'] is [s] without the archives [L]. *)
Definition without (L : list path) s : fs :=
  set_names (foldr delete (names s) (entry_at <$> L)) s.

Definition pruned (L : list path) s s' : Prop :=
  same s' (without L s) /\ NoDup L /\ L ⊆ archives s.

Lemma lookup_foldr_delete {A} (m : gmap place A) (L : list place) p :
  foldr delete m L !! p = if decide (p ∈ L) then None else m !! p.
Proof using.
  clear dependent K; clear dependent gunzip; clear N_ok.
  induction L as [|q L IH]; cbn.
  - rewrite decide_False by (apply not_elem_of_nil). done.
  - rewrite lookup_delete, IH. repeat case_decide; mem.
Qed.

Lemma ready_without L s : ready s -> ready (without L s).
Proof.
  intros [W D A F]. split; [|done..]. unfold without. clear D A F.
  induction (entry_at <$> L) as [|q L' IH]; cbn; [by destruct s|].
  apply (wf_unlinked _ q) in IH. done.
Qed.

Lemma view_without L s : view (without L s) = foldr delete (view s) (entry_at <$> L).
Proof.
  unfold without, view; cbn.
  induction (entry_at <$> L) as [|q L' IH]; cbn; [done|]. by rewrite omap_delete, IH.
Qed.

Lemma archives_same s s' : same s' s -> archives s' = archives s.
Proof. intros (_ & En & _). unfold archives. by rewrite En. Qed.

Lemma elem_of_archives_without L s b :
  b ∈ archives (without L s) <-> b ∈ archives s /\ b ∉ L.
Proof using.
  clear dependent K; clear dependent gunzip; clear N_ok.
  rewrite !elem_of_archives. cbn. rewrite lookup_foldr_delete.
  case_decide as H; rewrite (list_elem_of_fmap_inj entry_at) in H; [|tauto].
  split; [by intros [_ [? ?]]|tauto].
Qed.

Lemma archives_without L s :
  NoDup L -> L ⊆ archives s -> archives s ≡ₚ L ++ archives (without L s).
Proof using.
  clear dependent K; clear dependent gunzip; clear N_ok.
  intros HL Hsub. apply NoDup_Permutation; [apply NoDup_archives|..].
  - apply NoDup_app. split_and!; [done| |apply NoDup_archives].
    intros b Hb. rewrite elem_of_archives_without. tauto.
  - intros b. rewrite elem_of_app, elem_of_archives_without.
    destruct (decide (b ∈ L)); [|tauto]. split; [by left|]. intros _. by apply Hsub.
Qed.

Lemma mtime_without L s b :
  ready s -> b ∈ archives s -> b ∉ L ->
  mtime_of (without L s) (below (logdir n) b) = mtime_of s (below (logdir n) b).
Proof.
  intros R Hb HL. unfold mtime_of, file_at, is_dir. cbn.
  rewrite lookup_foldr_delete, decide_False; [done|].
  rewrite <- entry_at_below by (eapply archive_entry_name; [apply R|done]).
  by rewrite (list_elem_of_fmap_inj entry_at).
Qed.

(** [L] are archives such that none that is left is older. *)
Definition oldest_first (L : list path) s : Prop :=
  forall a b, a ∈ L -> b ∈ archives s -> b ∉ L -> no_younger s a b.

Lemma timed_without L s : ready s -> timed s -> timed (without L s).
Proof.
  intros R T b [Hb HL]%elem_of_archives_without. rewrite mtime_without by done. by apply T.
Qed.

Lemma wp_remove_times k (Q : () -> fs -> logfile -> Prop) s s0 l L0 :
  nam l = n -> ready s0 -> pruned L0 s0 s ->
  (forall s' L, pruned L s0 s' -> (length L <= k + length L0)%nat ->
     (benign -> timed s0 -> (k + length L0 <= length (archives s0))%nat -> oldest_first L0 s0 ->
      length L = (k + length L0)%nat /\ oldest_first L s0) -> Q tt s' l) ->
  wp (remove_times k) Q s l.
Proof.
  intros Hn R. revert s L0. induction k as [|k IH]; intros s L0 HP HQ; cbn.
  { apply wp_ret. by apply (HQ s L0). }
  destruct HP as (Hs & HL & Hsub). wp_step.
  apply wp_remove_oldestlog; [done|by eapply ready_same, ready_without|..].
  - intros r s' Hs' Hemp. apply (IH s' L0); [split_and!; [by rewrite Hs'|done|done]|].
    intros s'' L HP'' Hlen Hb. apply (HQ s'' L HP''); [lia|].
    intros B T Hk _. exfalso. specialize (Hemp B). rewrite (archives_same _ _ Hs) in Hemp.
    assert (timed s) as Ts.
    { intros b Hb'. rewrite (archives_same _ _ Hs) in Hb'.
      rewrite (mtime_of_same _ _ _ Hs). by apply (timed_without L0 s0 R T). }
    specialize (Hemp Ts). apply (f_equal length) in Hemp. cbn in Hemp.
    pose proof (Permutation_length (archives_without L0 s0 HL Hsub)) as Hp.
    rewrite length_app in Hp. lia.
  - intros s' nm Hnm Hs' Hold. rewrite (archives_same _ _ Hs) in Hnm.
    pose proof Hnm as [Hnm0 HnmL]%elem_of_archives_without.
    apply (IH s' (nm :: L0)).
    { split_and!; [|by constructor|mem].
      rewrite Hs'. destruct Hs as (Ed & En & ?&?&?&?&?). split_and!; cbn; try done. by rewrite En. }
    intros s'' L HP'' Hlen Hb. cbn in Hlen, Hb. apply (HQ s'' L HP''); [lia|].
    intros B T Hk HO. destruct (Hb B T) as [H1 H2]; [lia| |split; [lia|done]].
    assert (timed s) as Ts.
    { intros b Hb'. rewrite (archives_same _ _ Hs) in Hb'.
      rewrite (mtime_of_same _ _ _ Hs). by apply (timed_without L0 s0 R T). }
    intros a b Ha Hb' HbL. apply elem_of_cons in Ha as [->|Ha]; [|apply HO; mem].
    assert (b ∈ archives (without L0 s0)) as Hbw by (apply elem_of_archives_without; mem).
    intros ta tb Hta Htb.
    apply (Hold Ts b); [by rewrite (archives_same _ _ Hs)|..];
      rewrite (mtime_of_same _ _ _ Hs), mtime_without; try done. mem.
Qed.

Lemma wp_remove_oldlog (Q : Z -> fs -> logfile -> Prop) s l :
  nam l = n -> ready s ->
  let extra := (length (archives s) - Z.to_nat (logcount (opts l)))%nat in
  (forall r s' L, pruned L s s' -> (0 <= logcount (opts l) -> (length L <= extra)%nat) ->
     (benign -> timed s -> 0 <= logcount (opts l) ->
      r = 0 /\ length L = extra /\ oldest_first L s) -> Q r s' l) ->
  wp remove_oldlog Q s l.
Proof.
  intros Hn R extra HQ. unfold remove_oldlog, list_dir. do 4 wp_step. rewrite Hn. wp_call s1 r E.
  assert (forall s', same s' s -> pruned [] s s') as Hnone.
  { intros s' Hs'. split_and!; [|constructor|mem]. rewrite Hs'. by destruct s. }
  apply opendir_cases in E as [Hs1 [[-> Hr]|[t ->]]]; cbn beta iota.
  { wp_step. cbn [fst snd]. wp_steps. apply (HQ _ _ []); [by apply Hnone|cbn; lia|].
    intros B. destruct (Hr (never_refused B _ _)). apply R. }
  apply wp_count_entries; [done|]. cbn [fst snd]. wp_steps.
  rewrite (Permutation_length (listed_archives s t (ready_archives _ R))).
  replace (Z.to_nat _) with (Z.to_nat (Z.of_nat (length (archives s)) - logcount (opts l))) by lia.
  apply (wp_remove_times _ _ _ s _ []); [done|done|by apply Hnone|].
  intros s' L HP Hlen HB. wp_step. cbn in *. apply (HQ 0 s' L HP); [lia|].
  intros B T H0. destruct (HB B T) as [H1 H2]; [lia| |split_and!; [done|lia|done]].
  intros a b Ha. by apply not_elem_of_nil in Ha.
Qed.

(** ** The files of the log *)

(** What a file holds: the bytes themselves, or their compressed form. *)
Definition stands (data chunk : list byte) : Prop := data = chunk \/ gunzip data = Some chunk.

Context (count : nat) (limit : Z) (count_pos : (0 < count)%nat).

(** The files of the log: its archives in the order in which they were made, with
    the bytes they stand for, those removed without a name; the contents of the log
    file, of the pending file, and of the pending file compressed. Not more archives
    have been removed than to leave [count]. *)
Record files s (arch : list (option path * list byte)) (lg pnd gz : option (list byte)) : Prop := {
  f_ready : ready s;
  f_log : view s !! at_ n [] = lg;
  f_pnd : view s !! at_ n PENDING = pnd;
  f_gz : view s !! at_ n (PENDING ++ GZ) = gz;
  f_one : pnd = None \/ gz = None;
  f_arch nm c : (Some nm, c) ∈ arch ->
    is_archive n nm = true /\ exists d, view s !! entry_at nm = Some d /\ stands d c;
  f_all nm : is_archive n nm = true -> is_Some (view s !! entry_at nm) -> nm ∈ omap fst arch;
  f_nodup : NoDup (omap fst arch);
  f_retained : (count `min` length arch <= length (omap fst arch))%nat
}.

Lemma no_slash_names x : x ∈ [[]; PENDING; PENDING ++ GZ; LOCK] -> no_slash x.
Proof.
  rewrite !elem_of_cons. intros [->|[->|[->|[->|H]]]]; [by apply no_slash_text..|].
  by apply not_elem_of_nil in H.
Qed.

Lemma names_differ x y :
  x ∈ [[]; PENDING; PENDING ++ GZ; LOCK] -> y ∈ [[]; PENDING; PENDING ++ GZ; LOCK] ->
  at_ n x = at_ n y -> x = y.
Proof. intros Hx Hy. apply at_inj; [done|by apply no_slash_names..]. Qed.

Lemma archive_differs nm x :
  is_archive n nm = true -> entry_name nm -> x ∈ [[]; PENDING; PENDING ++ GZ; LOCK] ->
  entry_at nm <> at_ n x.
Proof.
  intros Ha He Hx. rewrite entry_at_below by done.
  apply archive_place_ne; [done|done|apply He|by apply no_slash_names|].
  revert Hx. rewrite !elem_of_cons. intros [->|[->|[->|[->|H]]]]; try done.
  by apply not_elem_of_nil in H.
Qed.

Lemma archive_is_entry nm : is_archive n nm = true -> no_slash nm -> entry_name nm.
Proof.
  intros (y & ->)%is_archive_tail [_ Hs]%no_slash_app. apply entry_name_app; [apply N_ok|done].
Qed.

Lemma view_entry_name s nm : fs_wf s -> is_Some (view s !! entry_at nm) -> entry_name nm.
Proof.
  intros W H. assert (is_Some (names s !! entry_at nm)) as Hn.
  { apply not_eq_None_Some. rewrite <- view_names by done. by apply not_eq_None_Some. }
  apply (wf_entries _ W) in Hn. cbn in Hn. apply Forall_app in Hn as [_ Hn]. by inversion Hn.
Qed.

(** Files that are not the log's do not matter. *)
Lemma files_frame s s' arch lg pnd gz :
  files s arch lg pnd gz -> ready s' ->
  (forall p, p <> at_ n LOCK -> view s' !! p = view s !! p) -> files s' arch lg pnd gz.
Proof.
  intros [R H1 H2 H3 H4 H5 H6 H7 H8] R' Hv.
  assert (forall x, x ∈ [[]; PENDING; PENDING ++ GZ] -> view s' !! at_ n x = view s !! at_ n x) as Hn.
  { intros x Hx. apply Hv. intros E. apply names_differ in E; [subst x|mem|mem].
    rewrite !elem_of_cons in Hx. destruct Hx as [Hx|[Hx|[Hx|Hx]]]; try discriminate Hx.
    by apply not_elem_of_nil in Hx. }
  assert (forall nm, is_archive n nm = true -> entry_name nm ->
    view s' !! entry_at nm = view s !! entry_at nm) as Ha.
  { intros nm Ha He. apply Hv, archive_differs; mem. }
  split; [done|rewrite Hn by mem; done..|done| | |done|done].
  - intros nm c Hm. destruct (H5 nm c Hm) as (Hm' & d & Hd & Hc). split; [done|].
    exists d. rewrite Ha; [done|done|]. eapply view_entry_name; [apply R|by eexists].
  - intros nm Hm Hs. apply H6; [done|]. rewrite <- Ha; [done|done|].
    eapply view_entry_name; [apply R'|done].
Qed.

Lemma ready_kin s s' : kin s s' -> ready s -> ready s'.
Proof.
  intros [W D _ _] [_ Rd Ra Rn]. split; [done|unfold no_archive_dirs; by rewrite ?D..].
Qed.

Lemma files_same s s' arch lg pnd gz : same s' s -> files s arch lg pnd gz -> files s' arch lg pnd gz.
Proof.
  intros Hs F. eapply files_frame; [done|by eapply ready_same, F|]. intros p _. by rewrite Hs.
Qed.

(** The pending file, compressed or not, becomes an archive. *)
Lemma files_archived s s' arch lg pnd gz x d c nm :
  files s arch lg pnd gz ->
  (x = PENDING /\ gz = None) \/ (x = PENDING ++ GZ /\ pnd = None) ->
  is_archive n nm = true -> no_slash nm -> moved (at_ n x) (entry_at nm) s s' ->
  view s !! at_ n x = Some d -> stands d c ->
  files s' (arch ++ [(Some nm, c)]) lg None None.
Proof.
  intros [R H1 H2 H3 H4 H5 H6 H7 H8] Hx Ha Hns Hm Hd Hc.
  assert (x ∈ [[]; PENDING; PENDING ++ GZ; LOCK] /\ x <> []) as [Hx' Hx0]
    by (destruct Hx as [[-> _]|[-> _]]; split; [mem|done|mem|done]).
  pose proof (archive_is_entry nm Ha Hns) as Hn.
  destruct (moved_inv _ _ _ _ (ready_wf _ R) Hm) as (Hk & i & d' & Hi & Hd' & Hq & _ & _ & Hv).
  rewrite Hd in Hd'. injection Hd' as <-.
  assert (forall y, y ∈ [[]; PENDING; PENDING ++ GZ; LOCK] -> y <> x ->
    view s' !! at_ n y = view s !! at_ n y) as Hy.
  { intros y Hy Hne. rewrite Hv, lookup_insert_ne by (by apply archive_differs).
    rewrite lookup_delete_ne; [done|]. intros E. by apply Hne, eq_sym, names_differ. }
  assert (view s' !! at_ n x = None) as Hgone.
  { rewrite Hv, lookup_insert_ne by (by apply archive_differs). apply lookup_delete_eq. }
  assert (forall m, m <> nm -> is_archive n m = true -> entry_name m ->
    view s' !! entry_at m = view s !! entry_at m) as Hm'.
  { intros m Hne Ham He. rewrite Hv, lookup_insert_ne by (by intros E%(inj entry_at)).
    apply lookup_delete_ne. intros E. by eapply archive_differs. }
  assert (nm ∉ omap fst arch) as Hnew.
  { intros ([m c'] & Hin & [= ->])%list_elem_of_omap. destruct (H5 _ _ Hin) as (_ & d' & Hd' & _).
    by rewrite Hd' in Hq. }
  split.
  - by eapply ready_kin.
  - rewrite Hy; [done|mem|done].
  - destruct Hx as [[-> _]|[-> ->]]; [done|]. rewrite Hy; [done|mem|done].
  - destruct Hx as [[-> ->]|[-> _]]; [|done]. rewrite Hy; [done|mem|done].
  - by left.
  - intros m c' [Hin|[= -> ->]%list_elem_of_singleton]%elem_of_app.
    + destruct (H5 m c' Hin) as (Ham & d' & Hd' & Hc'). split; [done|]. exists d'.
      rewrite Hm'; [done|..|done|].
      * intros ->. apply Hnew, list_elem_of_omap. by exists (Some nm, c').
      * eapply view_entry_name; [apply R|by eexists].
    + split; [done|]. exists d. split; [|done]. rewrite Hv. apply lookup_insert_eq.
  - intros m Ham Hs. rewrite omap_app, elem_of_app. destruct (decide (m = nm)) as [->|Hne]; [right; mem|].
    left. apply H6; [done|]. rewrite <- Hm'; [done|done|done|].
    eapply view_entry_name; [apply Hk|done].
  - rewrite omap_app. cbn. apply NoDup_app. split_and!; [done| |apply NoDup_singleton].
    intros m Hin Hm2%list_elem_of_singleton. by subst m.
  - rewrite omap_app, !length_app. cbn. lia.
Qed.

(** The log file becomes the pending file. *)
Lemma files_pending s s' arch d :
  files s arch (Some d) None None -> moved (at_ n []) (at_ n PENDING) s s' ->
  files s' arch None (Some d) None.
Proof.
  intros [R H1 H2 H3 H4 H5 H6 H7 H8] Hm.
  destruct (moved_inv _ _ _ _ (ready_wf _ R) Hm) as (Hk & i & d' & Hi & Hd' & Hq & _ & _ & Hv).
  rewrite H1 in Hd'. injection Hd' as <-.
  assert (forall x, x ∈ [[]; PENDING; PENDING ++ GZ; LOCK] -> forall y,
    y ∈ [[]; PENDING; PENDING ++ GZ; LOCK] -> x <> y -> at_ n x <> at_ n y) as Hne.
  { intros x Hx y Hy Hxy E. by apply Hxy, names_differ. }
  assert (forall m, is_archive n m = true -> entry_name m ->
    view s' !! entry_at m = view s !! entry_at m) as Hm'.
  { intros m Ham He. rewrite Hv, lookup_insert_ne by (by apply not_eq_sym, archive_differs; mem).
    apply lookup_delete_ne. by apply not_eq_sym, archive_differs; mem. }
  split; [by eapply ready_kin| | | |by right| | |done|done].
  - rewrite Hv, lookup_insert_ne by (apply Hne; [mem..|done]). apply lookup_delete_eq.
  - rewrite Hv. apply lookup_insert_eq.
  - rewrite Hv, lookup_insert_ne by (apply Hne; [mem..|done]).
    rewrite lookup_delete_ne; [done|]. apply Hne; [mem..|done].
  - intros m c Hin. destruct (H5 m c Hin) as (Ham & d' & Hd' & Hc). split; [done|]. exists d'.
    rewrite Hm'; [done|done|]. eapply view_entry_name; [apply R|by eexists].
  - intros m Ham Hs. apply H6; [done|]. rewrite <- Hm'; [done|done|].
    eapply view_entry_name; [apply Hk|done].
Qed.

(** Archives are removed: their entries lose their names. *)
Definition forget (L : list path) (e : option path * list byte) : option path * list byte :=
  (match e.1 with Some nm => if decide (nm ∈ L) then None else Some nm | None => None end, e.2).

Lemma omap_forget L (arch : list (option path * list byte)) :
  omap fst (forget L <$> arch) = filter (fun nm => nm ∉ L) (omap fst arch).
Proof.
  induction arch as [|[[nm|] c] arch IH]; [done| |done].
  cbn. repeat case_decide; cbn; try tauto. by f_equal.
Qed.

Lemma archives_listed s arch lg pnd gz :
  files s arch lg pnd gz -> archives s ≡ₚ omap fst arch.
Proof.
  intros [R H1 H2 H3 H4 H5 H6 H7 H8]. apply NoDup_Permutation; [apply NoDup_archives|done|].
  intros nm. rewrite elem_of_archives. split.
  - intros [Ha Hs]. apply H6; [done|]. apply not_eq_None_Some.
    rewrite view_names by apply R. by apply not_eq_None_Some.
  - intros ([m c] & Hin & [= ->])%list_elem_of_omap. destruct (H5 nm c Hin) as (Ha & d & Hd & _).
    split; [done|]. apply not_eq_None_Some. rewrite <- view_names by apply R. by rewrite Hd.
Qed.

Lemma files_pruned s s' arch lg pnd gz L :
  files s arch lg pnd gz -> pruned L s s' -> (length L <= length (archives s) - count)%nat ->
  files s' (forget L <$> arch) lg pnd gz.
Proof.
  intros F (Hs & HL & Hsub) Hlen. eapply files_same; [done|].
  pose proof (archives_listed _ _ _ _ _ F) as Hal.
  pose proof F as [R H1 H2 H3 H4 H5 H6 H7 H8].
  assert (forall x, x ∈ [[]; PENDING; PENDING ++ GZ; LOCK] ->
    view (without L s) !! at_ n x = view s !! at_ n x) as Hx.
  { intros x Hx. rewrite view_without, lookup_foldr_delete, decide_False; [done|].
    intros (nm & E & Hnm)%list_elem_of_fmap. apply Hsub in Hnm.
    apply (archive_differs nm x); [by apply elem_of_archives in Hnm as [? _]| |done|done].
    by eapply archive_entry_name; [apply R|]. }
  split; [by apply ready_without|rewrite Hx by mem; done..|done| | | |].
  - intros m c ([[m'|] c'] & E & Hin)%list_elem_of_fmap; unfold forget in E; cbn in E; [|done].
    case_decide as Hm; [done|]. injection E as -> ->.
    destruct (H5 _ _ Hin) as (Ha & d & Hd & Hc). split; [done|]. exists d. split; [|done].
    rewrite view_without, lookup_foldr_delete, decide_False; [done|].
    by rewrite (list_elem_of_fmap_inj entry_at).
  - intros m Ha. rewrite view_without, lookup_foldr_delete. case_decide as Hm; [by intros [??]|].
    intros Hsm. rewrite omap_forget, list_elem_of_filter. split; [|by apply H6].
    by rewrite (list_elem_of_fmap_inj entry_at) in Hm.
  - rewrite omap_forget. by apply NoDup_filter.
  - rewrite length_fmap. rewrite omap_forget.
    assert (omap fst arch ≡ₚ L ++ filter (fun nm => nm ∉ L) (omap fst arch)) as Hp.
    { apply NoDup_Permutation; [done|..].
      - apply NoDup_app. split_and!; [done| |by apply NoDup_filter].
        intros b Hb. rewrite list_elem_of_filter. tauto.
      - intros b. rewrite elem_of_app, list_elem_of_filter.
        destruct (decide (b ∈ L)) as [Hb|Hb]; [|tauto].
        split; [by left|]. intros _. rewrite <- Hal. by apply Hsub. }
    apply Permutation_length in Hp, Hal. rewrite length_app in Hp. lia.
Qed.

Lemma forget_chunks L (arch : list (option path * list byte)) : (forget L <$> arch).*2 = arch.*2.
Proof. rewrite <- list_fmap_compose. by apply list_fmap_ext. Qed.

(** ** The log and its descriptors *)

Definition chunk (o : option (list byte)) : list byte := default [] o.

(** The log file is open: its descriptor leads to it, and its size is known. *)
Definition opened s l (lg : option (list byte)) : Prop :=
  0 < fd (hnd l) /\ (exists i, fds s !! fd (hnd l) = Some i /\ names s !! at_ n [] = Some i)
  /\ filesize (hnd l) = Z.of_nat (length (chunk lg)).

Record handles s l (lg : option (list byte)) : Prop := {
  h_nam : nam l = n;
  h_count : logcount (opts l) = Z.of_nat count;
  h_limit : logsize (opts l) = limit;
  h_stdin : is_Some (fds s !! 0);
  h_fd : fd (hnd l) < 0 \/ opened s l lg;
  h_size : 0 <= filesize (hnd l);
  h_lock : 0 < fd_lock (hnd l) ->
    is_Some (fds s !! fd_lock (hnd l)) /\ fd_lock (hnd l) <> fd (hnd l);
  h_negative f : f < 0 -> fds s !! f = None;
  h_children pid f : children s !! pid = Some (Running f) ->
    f = pending_file n /\ 0 < pid /\ pid = zip_pid (hnd l) /\ nocompress (opts l) = false
}.

Lemma handles_kin s s' l lg :
  kin s s' -> (0 < fd (hnd l) -> names s' !! at_ n [] = names s !! at_ n []) ->
  handles s l lg -> handles s' l lg.
Proof.
  intros [_ _ Kf Kc] Hn [H1 H2 H3 H4 H5 H6 H7 H8 H9].
  split; rewrite ?Kf, ?Kc; try done.
  destruct H5 as [H5|(H5 & (i & Hi & Hl) & Hs)]; [by left|right].
  split_and!; [done| |done]. exists i. by rewrite Kf, Hn.
Qed.

Lemma handles_same s s' l lg : fs_wf s -> same s' s -> handles s l lg -> handles s' l lg.
Proof.
  intros W Hs. apply handles_kin; [by apply kin_same|]. intros _. by destruct Hs as (_ & -> & _).
Qed.

(** *** The invariant: [h] is everything that has been written to the log. *)

Record inv (h : list byte) (arch : list (option path * list byte)) (lg pnd gz : option (list byte))
    s l : Prop := {
  i_files : files s arch lg pnd gz;
  i_handles : handles s l lg;
  i_compress : is_Some gz -> nocompress (opts l) = false;
  i_history : exists p, match gz with Some g => stands g p | None => p = chunk pnd end
    /\ h = concat arch.*2 ++ p ++ chunk lg
}.

Lemma inv_same h arch lg pnd gz s s' l :
  same s' s -> inv h arch lg pnd gz s l -> inv h arch lg pnd gz s' l.
Proof.
  intros Hs [F H C Hh]. split; [by eapply files_same| |done|done].
  eapply handles_same; [apply F|done|done].
Qed.

Lemma inv_wf h arch lg pnd gz s l : inv h arch lg pnd gz s l -> fs_wf s.
Proof. intros [F _ _ _]. apply F. Qed.

Lemma inv_ready h arch lg pnd gz s l : inv h arch lg pnd gz s l -> ready s.
Proof. intros [F _ _ _]. apply F. Qed.

Lemma inv_nam h arch lg pnd gz s l : inv h arch lg pnd gz s l -> nam l = n.
Proof. intros [_ H _ _]. apply H. Qed.

(** A change of the log that the invariant does not look at. *)
Lemma inv_log h arch lg pnd gz s l l' :
  inv h arch lg pnd gz s l ->
  nam l' = nam l -> logcount (opts l') = logcount (opts l) -> logsize (opts l') = logsize (opts l) ->
  nocompress (opts l') = nocompress (opts l) -> zip_pid (hnd l') = zip_pid (hnd l) ->
  fd (hnd l') = fd (hnd l) -> filesize (hnd l') = filesize (hnd l) ->
  fd_lock (hnd l') = fd_lock (hnd l) \/ fd_lock (hnd l') <= 0 ->
  inv h arch lg pnd gz s l'.
Proof.
  intros [F [H1 H2 H3 H4 H5 H6 H7 H8 H9] C Hh] E1 E2 E3 E4 E4' E5 E6 E7.
  split; [done| |by rewrite E4|done].
  split; unfold opened in *; rewrite ?E1, ?E2, ?E3, ?E4, ?E4', ?E5, ?E6; try done.
  destruct E7 as [->|]; [done|lia].
Qed.

(** *** The pending file, compressed or not, is moved into the archive *)

Lemma inv_archived h arch lg pnd gz s s' l x d c nm :
  inv h arch lg pnd gz s l ->
  (x = PENDING /\ gz = None /\ pnd = Some c /\ d = c) \/
    (x = PENDING ++ GZ /\ pnd = None /\ gz = Some d /\ h = concat arch.*2 ++ c ++ chunk lg /\ stands d c) ->
  is_archive n nm = true -> no_slash nm -> moved (at_ n x) (entry_at nm) s s' ->
  inv h (arch ++ [(Some nm, c)]) lg None None s' l.
Proof.
  intros [F H C (p & Hp & Hh)] Hx Ha Hns Hm.
  pose proof (archive_is_entry nm Ha Hns) as Hn.
  assert (view s !! at_ n x = Some d /\ stands d c /\ h = concat arch.*2 ++ c ++ chunk lg
    /\ (x = PENDING /\ gz = None \/ x = PENDING ++ GZ /\ pnd = None)) as (Hd & Hc & Hh' & Hx').
  { destruct Hx as [(-> & -> & -> & ->)|(-> & -> & -> & Hh' & Hc)].
    - split_and!; [apply F|by left|by rewrite Hh, Hp|by left].
    - split_and!; [apply F|done|done|by right]. }
  assert (x ∈ [[]; PENDING; PENDING ++ GZ; LOCK] /\ x <> []) as [Hin Hne]
    by (destruct Hx' as [[-> _]|[-> _]]; split; [mem|done|mem|done]).
  destruct (moved_inv _ _ _ _ (ready_wf _ (f_ready _ _ _ _ _ F)) Hm) as (Hk & i & d' & _ & _ & _ & _ & Hnames & _).
  split.
  - by eapply files_archived.
  - eapply handles_kin; [done| |done]. intros _.
    rewrite Hnames, lookup_insert_ne by (apply archive_differs; [done|done|mem]).
    apply lookup_delete_ne. intros E. by apply Hne, names_differ; [|mem|].
  - by intros [].
  - exists []. split; [done|]. rewrite Hh', fmap_app, concat_app. cbn. by rewrite app_nil_r, <- app_assoc.
Qed.

Lemma view_of_name s p i d : view s !! p = d -> names s !! p = Some i -> fs_wf s -> is_Some d.
Proof. intros <- Hi W. apply not_eq_None_Some. rewrite view_names by done. by rewrite Hi. Qed.

Lemma wp_archive_gzip h arch lg pnd gz s l (Q : Z -> fs -> logfile -> Prop) :
  inv h arch lg pnd gz s l ->
  (forall s' e, pnd = None -> inv h (arch ++ [e]) lg None None s' l -> Q 0 s' l) ->
  (forall s', inv h arch lg pnd gz s' l -> (benign -> gz = None) -> Q (-1) s' l) ->
  wp (rename_logfile (gzip_file n)) Q s l.
Proof.
  intros I H0 H1. pose proof I as [F H C (p & Hp & Hh)].
  apply wp_rename_logfile; [apply H|apply F|apply F|..].
  - intros s' nm Ha Hns Hm. pose proof Hm as (i & Hi & _).
    destruct (view_of_name s _ i gz (f_gz _ _ _ _ _ F) Hi (inv_wf _ _ _ _ _ _ _ I)) as [d ->].
    destruct (f_one _ _ _ _ _ F) as [->|[=]].
    apply (H0 _ (Some nm, p)); [done|]. eapply (inv_archived _ _ _ _ _ s _ _ (PENDING ++ GZ) d p); try done.
    + right. by rewrite Hh.
    + by rewrite entry_at_below by (by apply archive_is_entry).
  - intros s' Hs Hb. apply H1; [by eapply inv_same|]. intros B.
    rewrite <- (f_gz _ _ _ _ _ F). apply view_names; [apply F|]. by apply Hb.
Qed.

Lemma wp_archive_pending h arch lg pnd s l (Q : Z -> fs -> logfile -> Prop) :
  inv h arch lg pnd None s l ->
  (forall s' e, pnd = Some e.2 -> inv h (arch ++ [e]) lg None None s' l -> Q 0 s' l) ->
  (forall s', inv h arch lg pnd None s' l -> (benign -> pnd = None) -> Q (-1) s' l) ->
  wp (rename_logfile (pending_file n)) Q s l.
Proof.
  intros I H0 H1. pose proof I as [F H C (p & Hp & Hh)].
  apply wp_rename_logfile; [apply H|apply F|apply F|..].
  - intros s' nm Ha Hns Hm. pose proof Hm as (i & Hi & _).
    destruct (view_of_name s _ i pnd (f_pnd _ _ _ _ _ F) Hi (inv_wf _ _ _ _ _ _ _ I)) as [d ->].
    apply (H0 _ (Some nm, d)); [done|]. eapply (inv_archived _ _ _ _ _ s _ _ PENDING d d); try done.
    + by left.
    + by rewrite entry_at_below by (by apply archive_is_entry).
  - intros s' Hs Hb. apply H1; [by eapply inv_same|]. intros B.
    rewrite <- (f_pnd _ _ _ _ _ F). apply view_names; [apply F|]. by apply Hb.
Qed.

Lemma wp_remove h arch lg pnd gz s l (Q : Z -> fs -> logfile -> Prop) :
  inv h arch lg pnd gz s l ->
  (forall r s' L, inv h (forget L <$> arch) lg pnd gz s' l -> Q r s' l) ->
  wp remove_oldlog Q s l.
Proof.
  intros I HQ. pose proof I as [F H C Hh]. apply wp_remove_oldlog; [apply H|apply F|].
  intros r s' L HP Hlen _. apply (HQ r s' L).
  rewrite (h_count _ _ _ H), Nat2Z.id in Hlen. specialize (Hlen ltac:(lia)).
  pose proof HP as (Hs & HL & Hsub).
  split; [by eapply files_pruned| |done|by rewrite forget_chunks].
  eapply handles_same; [|exact Hs|].
  { apply (ready_wf _), ready_without, F. }
  eapply handles_kin; [| |exact H].
  - split; [apply ready_without, F|done..].
  - intros _. unfold without; cbn. rewrite lookup_foldr_delete, decide_False; [done|].
    intros (nm & E & Hnm)%list_elem_of_fmap. apply Hsub in Hnm.
    apply (archive_differs nm []); [by apply elem_of_archives in Hnm as [? _]| |mem|done].
    by eapply archive_entry_name; [apply F|].
Qed.

(** *** The lock file *)

Lemma lock_in : LOCK ∈ [[]; PENDING; PENDING ++ GZ; LOCK].
Proof. mem. Qed.

(** Names and descriptors of the lock file come and go. *)
Lemma inv_lock_file h arch lg pnd gz s s' l l' :
  inv h arch lg pnd gz s l -> fs_wf s' -> dirs s' = dirs s -> children s' = children s ->
  (forall p, p <> at_ n LOCK -> view s' !! p = view s !! p) ->
  names s' !! at_ n [] = names s !! at_ n [] ->
  is_Some (fds s' !! 0) -> (forall g, g < 0 -> fds s' !! g = None) ->
  (0 < fd (hnd l) -> fds s' !! fd (hnd l) = fds s !! fd (hnd l)) ->
  (exists f, l' = with_hnd (set_fd_lock f) l
     /\ (0 < f -> is_Some (fds s' !! f) /\ f <> fd (hnd l))) ->
  inv h arch lg pnd gz s' l'.
Proof.
  intros [F [H1 H2 H3 H4 H5 H6 H7 H8 H9] C Hh] W Hd Hc Hv Hn H0 Hneg Hfd (f & -> & Hf).
  split; [| |done|done].
  - eapply files_frame; [done| |done]. destruct F as [[_ R1 R2 R3] _ _ _ _ _ _ _ _].
    split; [done|unfold no_archive_dirs; by rewrite ?Hd..].
  - split; unfold opened in *; cbn; rewrite ?Hc, ?Hn; try done.
    destruct H5 as [H5|(H5 & (i & Hi & Hl) & Hs)]; [by left|right].
    split_and!; [done| |done]. exists i. by rewrite Hfd.
Qed.


(** A change of the lock file's name only. *)
Record lock_step s s' : Prop := {
  ls_wf : fs_wf s';
  ls_dirs : dirs s' = dirs s;
  ls_children : children s' = children s;
  ls_view p : p <> at_ n LOCK -> view s' !! p = view s !! p;
  ls_names : names s' !! at_ n [] = names s !! at_ n []
}.

Lemma log_not_lock : at_ n [] <> at_ n LOCK.
Proof. intros E. by apply names_differ in E; [|mem..]. Qed.

Lemma lock_step_same s s1 s2 : lock_step s s1 -> same s2 s1 -> lock_step s s2.
Proof.
  intros [W D C V N] Hs. pose proof Hs as (Ed & En & _ & _ & _ & Ec & _).
  split; [by rewrite Hs|congruence..| |congruence]. intros p Hp. rewrite Hs. by apply V.
Qed.

Lemma lock_step_fds s s1 m :
  lock_step s s1 -> (forall f i, m !! f = Some i -> (i < next_ino s1)%nat) ->
  lock_step s (set_fds m s1).
Proof. intros [[W1 W2 W3 W4 W5 W6] D C V N] Hm. by split. Qed.

Lemma lock_step_refl s : fs_wf s -> lock_step s s.
Proof. by split. Qed.

Lemma lock_step_unlink s s' r :
  fs_wf s -> unlink (lock_name n) s = (s', r) -> lock_step s s' /\ fds s' = fds s.
Proof.
  intros W [[Hs _]|(_ & _ & Hs)]%unlink_cases.
  - split; [by eapply lock_step_same; [apply lock_step_refl|]|apply Hs].
  - split; [|apply Hs]. eapply lock_step_same; [|exact Hs]. rewrite lock_name_at. split.
    + by apply wf_unlinked.
    + done.
    + done.
    + intros p Hp. rewrite view_unlinked. by apply lookup_delete_ne.
    + apply lookup_delete_ne. apply not_eq_sym, log_not_lock.
Qed.

Lemma close_wf_fds s f g i : fs_wf s -> delete g (fds s) !! f = Some i -> (i < next_ino s)%nat.
Proof. intros W [_ H]%lookup_delete_Some. by eapply wf_fds. Qed.

Lemma inv_lock_step h arch lg pnd gz s s1 s' l f :
  inv h arch lg pnd gz s l -> lock_step s s1 -> same s' s1 ->
  is_Some (fds s1 !! 0) -> (forall g, g < 0 -> fds s1 !! g = None) ->
  (0 < fd (hnd l) -> fds s1 !! fd (hnd l) = fds s !! fd (hnd l)) ->
  (0 < f -> is_Some (fds s1 !! f) /\ f <> fd (hnd l)) ->
  inv h arch lg pnd gz s' (with_hnd (set_fd_lock f) l).
Proof.
  intros I LS Hs H0 Hneg Hfd Hf. eapply inv_same; [done|]. destruct LS.
  eapply (inv_lock_file _ _ _ _ _ s); try done. by exists f.
Qed.

Lemma with_same_lock l : with_hnd (set_fd_lock (fd_lock (hnd l))) l = l.
Proof. by destruct l as [o [] ? ? ?]. Qed.

Lemma wp_log_unlock h arch lg pnd gz s l (Q : () -> fs -> logfile -> Prop) :
  inv h arch lg pnd gz s l ->
  (forall s' f, inv h arch lg pnd gz s' (with_hnd (set_fd_lock f) l) ->
     Q tt s' (with_hnd (set_fd_lock f) l)) ->
  wp log_unlock Q s l.
Proof.
  intros I HQ. unfold log_unlock. do 2 wp_step. case_bool_decide as Hl.
  { wp_step. specialize (HQ s (fd_lock (hnd l))). rewrite with_same_lock in HQ. by apply HQ. }
  do 2 wp_step. rewrite (inv_nam _ _ _ _ _ _ _ I). wp_step. wp_call s1 r1 E1.
  pose proof (inv_wf _ _ _ _ _ _ _ I) as W.
  apply lock_step_unlink in E1 as [L1 Ef]; [|done]. pose proof (i_handles _ _ _ _ _ _ _ I) as H.
  destruct (h_lock _ _ _ H ltac:(lia)) as [_ Hne].
  wp_step. wp_call s2 r2 E2. injection E2 as <- <-. wp_step. apply HQ.
  eapply (inv_lock_step _ _ _ _ _ s (set_fds (delete (fd_lock (hnd l)) (fds s1)) s1)); [done| |done|..]; cbn.
  - apply lock_step_fds; [done|]. intros g i. apply close_wf_fds, L1.
  - rewrite lookup_delete_ne by lia. rewrite Ef. apply H.
  - intros g Hg. apply lookup_delete_None. right. rewrite Ef. by apply H.
  - intros _. rewrite lookup_delete_ne by lia. by rewrite Ef.
  - lia.
Qed.

(** Opening the lock file. *)
Lemma lock_step_open s s' mode r :
  ready s -> open_creat (lock_name n) mode s = (s', r) ->
  (r = -1 /\ same s' s /\ ~ benign) \/
  (r = lowest (fds s) /\ exists s1 i, lock_step s s1 /\ same s' s1 /\ fds s1 = <[r := i]> (fds s)).
Proof.
  intros R [(-> & Hs & Hr)|(-> & Hd & Hc)]%open_creat_cases; [left|right]; (split; [done|]).
  - split; [done|]. intros B. destruct (Hr (never_refused B _ _)) as [Hd|Hd]; rewrite lock_name_at in Hd.
    + by apply (ready_names _ R LOCK lock_in).
    + rewrite parent_at in Hd by (done || by apply no_slash_text). by apply Hd, R.
  - rewrite lock_name_at in *. pose proof (ready_wf _ R) as W.
    destruct Hc as [(i & Hi & Hs)|(Hn & f & Hf & Hs)]; (eexists _, _; split_and!; [|exact Hs|done]).
    + apply lock_step_fds; [by apply lock_step_refl|].
      intros g j [[_ <-]|[_ Hg]]%lookup_insert_Some; [|by eapply wf_fds].
      destruct (wf_inode _ W _ _ Hi) as [? Hx]. eapply wf_new; eauto.
    + split; [|done|done|..].
      * apply wf_created; [done|done|apply resolve_entries|].
        intros g j [[_ <-]|[_ Hg]]%lookup_insert_Some; [done|]. apply (wf_fds _ W) in Hg. lia.
      * intros p Hp. rewrite view_created by done. by rewrite lookup_insert_ne.
      * apply lookup_insert_ne. apply not_eq_sym, log_not_lock.
Qed.

Lemma wp_log_lock h arch lg pnd gz s l (Q : Z -> fs -> logfile -> Prop) :
  inv h arch lg pnd gz s l ->
  (forall r s' f, inv h arch lg pnd gz s' (with_hnd (set_fd_lock f) l) ->
     (benign -> r = 0) -> Q r s' (with_hnd (set_fd_lock f) l)) ->
  wp log_lock Q s l.
Proof.
  intros I HQ. unfold log_lock. pose proof (inv_ready _ _ _ _ _ _ _ I) as R.
  pose proof (i_handles _ _ _ _ _ _ _ I) as H. pose proof (inv_wf _ _ _ _ _ _ _ I) as W.
  assert (forall r s', inv h arch lg pnd gz s' l -> (benign -> r = 0) -> Q r s' l) as HQ'.
  { intros r s' I'. specialize (HQ r s' (fd_lock (hnd l))). rewrite with_same_lock in HQ. by apply HQ. }
  do 2 wp_step. destruct (multi_log (opts l)); cbn [negb]; [|wp_step; by apply HQ'].
  do 2 wp_step. rewrite (inv_nam _ _ _ _ _ _ _ I). wp_step. wp_call s1 r1 E1.
  apply lock_step_open in E1 as [(-> & Hs & B)|(-> & s2 & i & L & Hs & Ef)]; [| |done].
  { wp_steps. apply HQ'; [by eapply inv_same|]. by intros []%B. }
  destruct (lowest_spec (fds s)) as [H1 H2]. set (f := lowest (fds s)) in *.
  assert (f <> 0) by (intros E; rewrite E in H2; destruct (h_stdin _ _ _ H) as [? X]; by rewrite X in H2).
  assert (0 < fd (hnd l) -> f <> fd (hnd l)) as Hne.
  { intros Hfd E. destruct (h_fd _ _ _ H) as [?|(_ & (j & Hj & _) & _)]; [lia|]. by rewrite <- E, H2 in Hj. }
  wp_step. wp_step. wp_call s3 r3 E3.
  assert (same s3 s1 /\ (benign -> r3 = 0)) as [Hs3 Hb3].
  { apply call_cases in E3 as [([e He] & Hx & ->)|[_ [= <- <-]]]; [|done].
    split; [done|]. intros B. by rewrite (never_refused B) in He. }
  case_bool_decide as Hr3.
  - wp_steps. wp_call s4 r4 E4. injection E4 as <- <-. wp_step.
    apply HQ'; [|intros B; specialize (Hb3 B); lia].
    rewrite <- (with_same_lock l). pose proof Hs3 as (_ & _ & _ & Ef3 & _). pose proof Hs as (_ & _ & _ & Ef1 & _).
    eapply (inv_lock_step _ _ _ _ _ s (set_fds (delete f (fds s2)) s2)); [done| | |cbn..].
    + apply lock_step_fds; [done|]. intros g j. apply close_wf_fds, L.
    + unfold close. rewrite Ef3, Ef1. transitivity (set_fds (delete f (fds s2)) s3); [done|]. by rewrite Hs3, Hs.
    + rewrite lookup_delete_ne, Ef, lookup_insert_ne by done. apply H.
    + intros g Hg. apply lookup_delete_None. right. rewrite Ef, lookup_insert_ne by lia. by apply H.
    + intros Hfd. rewrite lookup_delete_ne, Ef, lookup_insert_ne by auto. done.
    + intros Hl. destruct (h_lock _ _ _ H Hl) as [Hx Hy]. split; [|done].
      assert (f <> fd_lock (hnd l)) by (intros E; rewrite <- E, H2 in Hx; by destruct Hx).
      by rewrite lookup_delete_ne, Ef, lookup_insert_ne.
  - wp_steps. apply HQ; [|intros _; done].
    eapply (inv_lock_step _ _ _ _ _ s s2); [done|done|by rewrite Hs3|..].
    + rewrite Ef, lookup_insert_ne by done. apply H.
    + intros g Hg. rewrite Ef, lookup_insert_ne by lia. by apply H.
    + intros Hfd. by rewrite Ef, lookup_insert_ne by auto.
    + intros Hf. split; [by rewrite Ef, lookup_insert_eq|]. intros E. apply Hne in E; [done|lia].
Qed.

(** *** Archiving the log file *)

Lemma handles_closed s l lg lg' : fd (hnd l) < 0 -> handles s l lg -> handles s l lg'.
Proof. intros Hfd []. split; try done. by left. Qed.

Lemma present_named s p x v :
  ready s -> resolve p = at_ n x -> x ∈ [[]; PENDING; PENDING ++ GZ; LOCK] ->
  view s !! at_ n x = v -> present s p = bool_decide (is_Some v).
Proof.
  intros R Hp Hx <-. destruct (present s p) eqn:E; symmetry.
  - apply bool_decide_eq_true. apply not_eq_None_Some. intros Hn.
    assert (present s p = false); [|congruence].
    apply present_view; [apply R|]. rewrite Hp. split; [done|by apply R].
  - apply bool_decide_eq_false. apply present_view in E as [E _]; [|apply R].
    rewrite <- Hp, E. by intros [].
Qed.

Lemma wp_make_pending h arch lg pnd s l (Q : Z -> fs -> logfile -> Prop) :
  inv h arch lg pnd None s l -> fd (hnd l) < 0 ->
  (forall s' lg' pnd', inv h arch lg' pnd' None s' l -> is_Some pnd' ->
     (pnd = None -> lg' = None /\ pnd' = lg) -> Q 0 s' l) ->
  (forall s', inv h arch lg pnd None s' l -> (benign -> lg = None) -> Q (-1) s' l) ->
  wp make_pending Q s l.
Proof.
  intros I Hfd H0 H1. pose proof I as [F H C (p & Hp & Hh)]. unfold make_pending.
  do 2 wp_step. rewrite (h_nam _ _ _ H). wp_step. apply wp_access. intros s1 Hs1.
  rewrite (present_named s _ PENDING pnd) by (apply F || done || mem).
  case_bool_decide as Hpnd; cbn beta iota.
  { wp_step. eapply H0; [by eapply inv_same|done|]. intros ->. by destruct Hpnd. }
  assert (pnd = None) as -> by (destruct pnd; [by destruct Hpnd|done]). clear Hpnd.
  pose proof (inv_same _ _ _ _ _ _ _ _ Hs1 I) as I1. pose proof I1 as [F1 Hh1 _ _].
  wp_step. wp_call s2 r E. wp_step.
  apply rename_cases in E as [(-> & Hs2 & Hr)|(-> & i & Hi & Hd & Hs2)].
  - apply H1; [by eapply inv_same|]. intros B.
    rewrite pending_file_at, parent_at, log_file_at in Hr by (done || by apply no_slash_text).
    destruct (Hr (never_refused B _ _)) as [Hn|[Hn|Hn]].
    + rewrite <- (f_log _ _ _ _ _ F1). apply view_names; [apply F1|done].
    + exfalso. eapply (ready_names _ (f_ready _ _ _ _ _ F1) PENDING); [mem|done].
    + exfalso. by apply Hn, F1.
  - rewrite log_file_at, pending_file_at in *.
    destruct (view_of_name s1 _ i lg (f_log _ _ _ _ _ F1) Hi (inv_wf _ _ _ _ _ _ _ I1)) as [d ->].
    assert (moved (at_ n []) (at_ n PENDING) s1 s2) as Hm.
    { exists i. split_and!; [done|done|apply resolve_entries| |by left].
      apply view_names; [apply F1|]. apply F1. }
    pose proof (moved_inv _ _ _ _ (inv_wf _ _ _ _ _ _ _ I1) Hm) as [Hk _].
    apply (H0 _ None (Some d)); [|by eexists|done]. split; [by eapply files_pending| |by intros []|].
    + eapply handles_kin; [done|intros; lia|]. by eapply handles_closed.
    + exists d. split; [done|]. rewrite Hh, Hp. cbn. by rewrite app_nil_r.
Qed.

(** [zip_pid], [nocompress] and [fail] as they are when nothing is compressed. *)
Definition calm l : Prop :=
  nocompress (opts l) = true /\ zip_pid (hnd l) <= 0 /\ fail l = false.

Lemma wp_errout h arch lg pnd gz s l (Q : Z -> fs -> logfile -> Prop) :
  inv h arch lg pnd gz s l ->
  (forall s' f, inv h arch lg pnd gz s' (with_hnd (set_fd_lock f) l) ->
     Q (-1) s' (with_hnd (set_fd_lock f) l)) ->
  wp errout Q s l.
Proof.
  intros I HQ. unfold errout. wp_step. eapply wp_log_unlock; [done|].
  intros s' f I'. wp_step. by apply HQ.
Qed.

(** The handles after a process has been started. *)
Lemma inv_spawned h arch lg pnd s l pid c b :
  inv h arch lg pnd None s l -> 0 < pid -> zip_pid (hnd l) <= 0 ->
  (c = Running (pending_file n) /\ b = nocompress (opts l) /\ b = false \/ c = Ended) ->
  inv h arch lg pnd None (set_children (<[pid := c]> (children s)) s)
    (with_hnd (set_zip_pid pid) (with_opts (set_nocompress b) l)).
Proof.
  intros [F [H1 H2 H3 H4 H5 H6 H7 H8 H9] C Hh] Hpid Hz Hc.
  split; [|split; try done|by intros []|done].
  - eapply files_frame; [done| |done]. destruct F as [[[]] ]. by split.
  - intros q f Hqf; cbn in Hqf |- *. apply lookup_insert_Some in Hqf as [[<- E]|[_ Hq]].
    + destruct Hc as [(-> & -> & E')| ->]; [|done]. injection E as <-. by split_and!.
    + apply H9 in Hq as (_ & ? & -> & _). lia.
Qed.

Lemma inv_nocompress h arch lg pnd s l :
  inv h arch lg pnd None s l -> zip_pid (hnd l) <= 0 ->
  inv h arch lg pnd None s (with_opts (set_nocompress true) l).
Proof.
  intros [F [H1 H2 H3 H4 H5 H6 H7 H8 H9] C Hh] Hz.
  split; [done|split; try done|by intros []|done].
  intros q f (_ & ? & -> & _)%H9. lia.
Qed.

Lemma set_nocompress_same l : with_opts (set_nocompress (nocompress (opts l))) l = l.
Proof. by destruct l as [[] ? ? ? ?]. Qed.

Lemma wp_start_gzip h arch lg pnd s l (Q : Z -> fs -> logfile -> Prop) :
  inv h arch lg pnd None s l -> nocompress (opts l) = false ->
  (forall r s' l', inv h arch lg pnd None s' l' -> fd (hnd l') = fd (hnd l) -> Q r s' l') ->
  wp start_gzip Q s l.
Proof.
  intros I Hz HQ. unfold start_gzip. do 2 wp_step. rewrite (inv_nam _ _ _ _ _ _ _ I). do 2 wp_step.
  case_bool_decide as Hpid; [|wp_step; by apply HQ]. wp_step. wp_call s1 r E.
  apply call_cases in E as [(_ & Hs & ->)|[_ E]].
  - do 2 wp_step. pose proof (inv_same _ _ _ _ _ _ _ _ Hs I) as I1. wp_step.
    destruct (_ || _); cbn beta iota.
    + wp_step. eapply wp_errout; [by apply inv_nocompress|]. intros s2 f I2. by apply HQ.
    + wp_step. eapply wp_errout; [done|]. intros s2 f I2. by apply HQ.
  - injection E as <- <-. cbn beta iota.
    destruct (bool_decide (is_Some _)); wp_steps; (apply HQ; [|done]).
    + eapply inv_same; [|apply (inv_spawned _ _ _ _ s l (Z.pos (fork_pid (tick s))) Ended true);
        [done|lia|done|by right]]. done.
    + rewrite <- (set_nocompress_same l) at 1.
      eapply inv_same; [|apply (inv_spawned _ _ _ _ s l (Z.pos (fork_pid (tick s)))
        (Running (pending_file n)) (nocompress (opts l))); [done|lia|done|by left]]. done.
Qed.

(** What archiving and rotating leave: all that was written, in some files. *)
Definition holds (h : list byte) s l : Prop := exists arch lg pnd gz, inv h arch lg pnd gz s l.

Lemma wp_archive_log_compressed h arch lg pnd gz s l (Q : Z -> fs -> logfile -> Prop) :
  inv h arch lg pnd gz s l -> fd (hnd l) < 0 -> nocompress (opts l) = false ->
  (forall r s' l', holds h s' l' -> fd (hnd l') < 0 -> Q r s' l') ->
  wp archive_log_compressed Q s l.
Proof.
  intros I Hfd Hz HQ. unfold archive_log_compressed. do 2 wp_step. rewrite (inv_nam _ _ _ _ _ _ _ I).
  wp_step. eapply wp_log_lock; [done|]. intros r1 s1 f1 I1 _. clear s I.
  assert (forall r s' l' a b c d, inv h a b c d s' l' -> fd (hnd l') = fd (hnd l) -> Q r s' l') as HQ'.
  { intros r s' l' a b c d I' E. apply HQ; [by exists a, b, c, d|by rewrite E]. }
  case_bool_decide as Hr1; [wp_step; by eapply HQ'|]. wp_step. apply wp_access. intros s2 Hs2.
  pose proof (inv_ready _ _ _ _ _ _ _ I1) as R1.
  rewrite (present_named s1 _ (PENDING ++ GZ) gz) by (done || apply I1 || mem).
  pose proof (inv_same _ _ _ _ _ _ _ _ Hs2 I1) as I2. clear s1 I1 Hs2 R1. wp_step.
  (* once the compressed file is out of the way *)
  assert (forall s' arch' pnd',
    inv h arch' lg pnd' None s' (with_hnd (set_fd_lock f1) l) ->
    wp (let! r := make_pending in if bool_decide (r <> 0) then errout else start_gzip) Q s'
      (with_hnd (set_fd_lock f1) l)) as Hrest.
  { intros s' arch' pnd' I'. wp_step. eapply wp_make_pending; [done|done|..].
    - intros s3 lg3 pnd3 I3 _ _. wp_step. eapply wp_start_gzip; [done|done|].
      intros r s4 l4 I4 E4. by eapply HQ'; [|rewrite E4].
    - intros s3 I3 _. wp_step. eapply wp_errout; [done|]. intros s4 f4 I4. by eapply HQ'. }
  case_bool_decide as Hgz; cbn beta iota.
  - eapply wp_archive_gzip; [done|..].
    + intros s3 e _ I3. wp_step. by eapply Hrest.
    + intros s3 I3 _. wp_step. eapply wp_errout; [done|]. intros s4 f4 I4. by eapply HQ'.
  - do 2 wp_step. assert (gz = None) as -> by (destruct gz; [by destruct Hgz|done]). by eapply Hrest.
Qed.

Lemma wp_archive_log_nocompress h arch lg pnd s l (Q : Z -> fs -> logfile -> Prop) :
  inv h arch lg pnd None s l -> fd (hnd l) < 0 ->
  (forall r s' arch' lg' pnd' f, inv h arch' lg' pnd' None s' (with_hnd (set_fd_lock f) l) ->
     (benign -> pnd = None -> is_Some lg ->
      lg' = None /\ pnd' = None /\ arch'.*2 = arch.*2 ++ [chunk lg]) ->
     Q r s' (with_hnd (set_fd_lock f) l)) ->
  wp archive_log_nocompress Q s l.
Proof.
  intros I Hfd HQ. unfold archive_log_nocompress. do 2 wp_step. rewrite (inv_nam _ _ _ _ _ _ _ I).
  wp_step. eapply wp_log_lock; [done|]. intros r1 s1 f1 I1 Hb1.
  case_bool_decide as Hr1.
  { wp_step. eapply HQ; [done|]. intros B. by destruct (Hr1 (Hb1 B)). }
  wp_step. eapply wp_make_pending; [done|done|..].
  2: { intros s2 I2 Hb2. wp_step. eapply wp_errout; [done|]. intros s3 f3 I3.
       eapply (HQ _ _ _ _ _ f3); [exact I3|]. intros B _ [d Hd]. by rewrite (Hb2 B) in Hd. }
  intros s2 lg2 pnd2 I2 Hsome2 Hb2. wp_steps. eapply wp_archive_pending; [done|..].
  2: { intros s3 I3 Hb3. wp_step. eapply wp_errout; [done|]. intros s4 f4 I4.
       eapply (HQ _ _ _ _ _ f4); [exact I4|]. intros B. rewrite (Hb3 B) in Hsome2. by destruct Hsome2. }
  intros s3 e He I3. wp_steps. eapply wp_remove; [done|]. intros r4 s4 L I4. wp_step.
  eapply wp_log_unlock; [done|]. intros s5 f5 I5. wp_step.
  eapply (HQ _ _ _ _ _ f5); [exact I5|]. intros B Hp Hlg. destruct (Hb2 Hp) as [-> ->].
  split_and!; [done|done|]. rewrite forget_chunks, fmap_app. by rewrite He.
Qed.

(** *** Writing *)

(** The log file that is open, in the file system. *)
Lemma opened_file s l lg h arch pnd gz :
  inv h arch lg pnd gz s l -> 0 < fd (hnd l) ->
  exists i f, fds s !! fd (hnd l) = Some i /\ names s !! at_ n [] = Some i
    /\ inodes s !! i = Some f /\ lg = Some (i_data f)
    /\ filesize (hnd l) = Z.of_nat (length (i_data f)).
Proof.
  intros [F H C Hh] Hfd. destruct (h_fd _ _ _ H) as [?|(_ & (i & Hi & Hl) & Hs)]; [lia|].
  destruct (wf_inode _ (ready_wf _ (f_ready _ _ _ _ _ F)) _ _ Hl) as [f Hf].
  pose proof (f_log _ _ _ _ _ F) as Hv. rewrite view_lookup, Hl in Hv. cbn in Hv.
  rewrite Hf in Hv. cbn in Hv. exists i, f. split_and!; try done. by rewrite Hs, <- Hv.
Qed.

(** Closing the log file. *)
Lemma inv_close h arch lg pnd gz s l size :
  inv h arch lg pnd gz s l -> 0 <= size ->
  fd_lock (hnd l) <= 0 \/ fd_lock (hnd l) <> fd (hnd l) ->
  inv h arch lg pnd gz (set_fds (delete (fd (hnd l)) (fds s)) s)
    (with_hnd (fun g => set_filesize size (set_fd (-1) g)) l).
Proof.
  intros [F [H1 H2 H3 H4 H5 H6 H7 H8 H9] C Hh] Hsz Hlk.
  assert (fd (hnd l) <> 0) as Hf0 by (destruct H5 as [?|[? _]]; lia).
  split; [|split; cbn; try done|done|done].
  - eapply files_frame; [done| |done]. destruct F as [[[] ? ? ?] ]. split; try done.
    split; try done. cbn. intros f i [_ Hf]%lookup_delete_Some. eauto.
  - by rewrite lookup_delete_ne.
  - by left.
  - intros Hl. destruct (H7 Hl) as [Hx Hy]. rewrite lookup_delete_ne by done. split; [done|lia].
  - intros f Hf. apply lookup_delete_None. right. by apply H8.
Qed.

Lemma inv_lock_apart h arch lg pnd gz s l :
  inv h arch lg pnd gz s l -> fd_lock (hnd l) <= 0 \/ fd_lock (hnd l) <> fd (hnd l).
Proof.
  intros [_ H _ _]. destruct (decide (0 < fd_lock (hnd l))); [right|left; lia].
  by apply (h_lock _ _ _ H).
Qed.

Lemma set_filesize_same l : with_hnd (set_filesize (filesize (hnd l))) l = l.
Proof. by destruct l as [? [] ? ? ?]. Qed.

(** What a rotation does without failures and without compression: nothing, or
    the log file becomes an archive. *)
Definition rotated (arch : list (option path * list byte)) lg l arch' lg' (pnd' gz' : option (list byte)) l' : Prop :=
  pnd' = None /\ gz' = None /\
  ((filesize (hnd l) <= limit /\ arch' = arch /\ lg' = lg
    /\ fd (hnd l') = fd (hnd l) /\ filesize (hnd l') = filesize (hnd l)) \/
   (limit < Z.of_nat (length (chunk lg)) /\ arch'.*2 = arch.*2 ++ [chunk lg] /\ lg' = None
    /\ fd (hnd l') < 0)).

Lemma wp_rotate h arch lg pnd gz s l (Q : () -> fs -> logfile -> Prop) :
  inv h arch lg pnd gz s l ->
  (forall s' l' arch' lg' pnd' gz', inv h arch' lg' pnd' gz' s' l' ->
     (calm l -> calm l' /\ last_try (hnd l') = last_try (hnd l)) ->
     (benign -> calm l -> pnd = None -> gz = None -> 0 <= limit ->
      0 < fd (hnd l) \/ filesize (hnd l) = 0 -> rotated arch lg l arch' lg' pnd' gz' l') ->
     Q tt s' l') ->
  wp rotate Q s l.
Proof.
  intros I HQ. unfold rotate. do 3 wp_step.
  (* after the look at the size of the file *)
  assert (forall s1, inv h arch lg pnd gz s1 l -> wp (
    let! l := get (fun l => l) in
    let h := hnd l in
    if bool_decide (filesize h > logsize (opts l)) && bool_decide (zip_pid h <= 0) then
      let! size := do_sys (lseek_end (fd h)) in
      (if bool_decide (filesize h < size) && negb (multi_log (opts l))
       then on_opts (set_multi_log true);;; do_sys (append (fd h) multi_message);;; mret tt
       else mret tt);;;
      do_sys (fun s => (close (fd h) s, tt));;;
      on_hnd (set_fd (-1));;;
      on_hnd (set_filesize 0);;;
      archive_log;;;
      mret tt
    else mret tt) Q s1 l) as Hrest.
  { clear s I. intros s I. do 2 wp_step. cbn zeta. rewrite (h_limit _ _ _ (i_handles _ _ _ _ _ _ _ I)).
    case_bool_decide as Hsz; cbn [andb].
    2: { wp_step. eapply HQ; [done..|]. intros _ _ -> -> _ _. split_and!; [done|done|].
         left. split_and!; [lia|done..]. }
    case_bool_decide as Hz.
    2: { wp_step. eapply HQ; [done..|]. intros _ (_ & ? & _). lia. }
    wp_step. wp_call s1 size E. apply lseek_end_cases in E as [Hs1 E].
    assert (bool_decide (filesize (hnd l) < size) = false) as ->.
    { apply bool_decide_eq_false. pose proof (h_size _ _ _ (i_handles _ _ _ _ _ _ _ I)).
      destruct E as [[-> _]|(i & f & Hi & Hf & ->)]; [lia|].
      destruct (h_fd _ _ _ (i_handles _ _ _ _ _ _ _ I)) as [Hn|[Hp _]].
      - by rewrite (h_negative _ _ _ (i_handles _ _ _ _ _ _ _ I)) in Hi.
      - destruct (opened_file _ _ _ _ _ _ _ I Hp) as (j & g & Hj & _ & Hg & _ & ->).
        assert (j = i) as -> by congruence. assert (g = f) as -> by congruence. lia. }
    cbn [andb]. wp_steps. wp_call s2 r2 E2. injection E2 as <- <-.
    wp_step. cbn beta iota. wp_step. wp_step. wp_step. wp_step.
    pose proof (inv_same _ _ _ _ _ _ _ _ Hs1 I) as I1.
    pose proof (inv_close _ _ _ _ _ _ _ 0 I1 ltac:(lia) (inv_lock_apart _ _ _ _ _ _ _ I1)) as I2.
    eapply (inv_same _ _ _ _ _ _ (close (fd (hnd l)) s1)) in I2; [|done].
    unfold archive_log. do 2 wp_step.
    change (nocompress (opts _)) with (nocompress (opts l)).
    destruct (nocompress (opts l)) eqn:Enc; cbn beta iota.
    - assert (gz = None) as ->.
      { destruct gz; [|done]. by rewrite (i_compress _ _ _ _ _ _ _ I) in Enc by eauto. }
      eapply wp_archive_log_nocompress; [exact I2|done|].
      intros r s3 arch3 lg3 pnd3 f3 I3 Hb3. wp_step. eapply HQ; [exact I3|done..|].
      intros B _ -> _ Hlim Hfd. destruct Hfd as [Hfd|Hfd]; [|lia].
      destruct (opened_file _ _ _ _ _ _ _ I Hfd) as (i & f & _ & _ & _ & -> & Hlen).
      destruct (Hb3 B eq_refl ltac:(by eexists)) as (-> & -> & Ha).
      split_and!; [done|done|]. right. split_and!; [cbn; lia|done|done|done].
    - eapply wp_archive_log_compressed; [exact I2|done|done|].
      intros r s3 l3 (a3 & b3 & c3 & d3 & I3) Hfd3. wp_step.
      assert (~ calm l) as Hc by (intros [E' _]; congruence).
      eapply HQ; [exact I3|by intros ?%Hc|by intros _ ?%Hc]. }
  destruct (multi_log (opts l)); cbn [andb]; [|wp_step; by apply Hrest].
  case_bool_decide as Hfd; cbn [andb]; [|wp_step; by apply Hrest].
  wp_step. wp_call s1 size E. apply lseek_end_cases in E as [Hs1 E].
  destruct (opened_file _ _ _ _ _ _ _ I ltac:(lia)) as (i & f & Hi & _ & Hf & -> & Hlen).
  assert (size = filesize (hnd l)) as ->.
  { destruct E as [[_ E]|(j & g & Hj & Hg & ->)].
    - rewrite Hi in E. cbn in E. congruence.
    - rewrite Hlen. rewrite Hi in Hj. injection Hj as <-. congruence. }
  wp_step. rewrite set_filesize_same. apply Hrest. by eapply inv_same.
Qed.

Lemma wp_tlog_mkdir_there h arch lg pnd gz s l (Q : Z -> fs -> logfile -> Prop) :
  inv h arch lg pnd gz s l -> (forall s', same s' s -> Q 0 s' l) ->
  wp (tlog_mkdir (logdir n)) Q s l.
Proof.
  intros I HQ. unfold tlog_mkdir. wp_step. apply wp_access. intros s' Hs.
  assert (present s (logdir n) = true) as ->; [|wp_steps; by apply HQ].
  unfold present, is_dir. rewrite bool_decide_eq_true_2; [done|]. by apply (inv_ready _ _ _ _ _ _ _ I).
Qed.

(** The log file has been opened. *)
Lemma inv_opened h arch lg pnd gz s s' l mode r :
  inv h arch lg pnd gz s l -> fd (hnd l) < 0 ->
  open_creat (log_file n) mode s = (s', r) ->
  (r = -1 /\ same s' s /\ ~ benign) \/
  (0 < r /\ exists lg', (lg' = lg \/ lg = None /\ lg' = Some []) /\
     inv h arch lg' pnd gz s' (with_hnd (fun g => set_filesize (Z.of_nat (length (chunk lg'))) (set_fd r g)) l)).
Proof.
  intros I Hfd E. pose proof I as [F [H1 H2 H3 H4 H5 H6 H7 H8 H9] C Hh].
  pose proof (inv_ready _ _ _ _ _ _ _ I) as R.
  apply open_creat_cases in E as [(-> & Hs & Hr)|(-> & Hd & Hc)]; rewrite log_file_at in *; [left|right].
  { split_and!; [done|done|]. intros B. destruct (Hr (never_refused B _ _)) as [Hd|Hd].
    - by apply (ready_names _ R []) in Hd; [|mem].
    - rewrite parent_at in Hd by (done || by apply no_slash_text). by apply Hd, R. }
  destruct (lowest_spec (fds s)) as [Hl1 Hl2]. set (f := lowest (fds s)) in *.
  assert (0 < f) as Hf.
  { enough (f <> 0) by lia. intros E. rewrite E in Hl2. rewrite Hl2 in H4. by destruct H4. }
  split; [done|].
  assert (0 < fd_lock (hnd l) -> is_Some (fds s !! fd_lock (hnd l)) /\ fd_lock (hnd l) <> f) as Hlock.
  { intros Hl. destruct (H7 Hl) as [Hx _]. split; [done|]. intros E. rewrite E, Hl2 in Hx. by destruct Hx. }
  assert (forall i, let m := <[f := i]> (fds s) in is_Some (m !! 0) /\ (forall g, g < 0 -> m !! g = None)
    /\ (0 < fd_lock (hnd l) -> is_Some (m !! fd_lock (hnd l)) /\ fd_lock (hnd l) <> f)) as Hm.
  { intros i m. unfold m. split_and!.
    - by rewrite lookup_insert_ne by lia.
    - intros g Hg. rewrite lookup_insert_ne by lia. by apply H8.
    - intros Hl. destruct (Hlock Hl) as [Hx Hy]. by rewrite lookup_insert_ne by done. }
  destruct Hc as [(i & Hi & Hs)|(Hn & nf & Hnf & Hs)].
  - exists lg. split; [by left|]. eapply inv_same; [exact Hs|].
    destruct (Hm i) as (M1 & M2 & M3). split; [|split; cbn; try done|done|done].
    + eapply files_frame; [done| |done]. destruct R as [[W1 W2 W3 W4 W5 W6] Rd Ra Rn].
      split; try done. split; try done. cbn. intros g j [[_ <-]|[_ Hg]]%lookup_insert_Some; [|eauto].
      destruct (W2 _ _ Hi). eapply W3; eauto.
    + right. split_and!; [done| |done]. exists i. cbn. by rewrite lookup_insert_eq.
    + lia.
  - assert (lg = None) as -> by (rewrite <- (f_log _ _ _ _ _ F); by apply view_names; [apply R|]).
    exists (Some []). split; [by right|]. eapply inv_same; [exact Hs|].
    destruct (Hm (next_ino s)) as (M1 & M2 & M3).
    pose proof (view_created s (at_ n []) nf (<[f := next_ino s]> (fds s)) (ready_wf _ R)) as Hv.
    rewrite Hnf in Hv.
    assert (ready (mk_fs (dirs s) (<[at_ n [] := next_ino s]> (names s)) (<[next_ino s := nf]> (inodes s))
      (<[f := next_ino s]> (fds s)) (S (next_ino s)) (children s) (umask s) (errno s) (tick s))) as R'.
    { destruct R as [W Rd Ra Rn]. split; [|done..].
      apply wf_created; [done|done|apply resolve_entries|].
      intros g j [[_ <-]|[_ Hg]]%lookup_insert_Some; [done|]. apply (wf_fds _ W) in Hg. lia. }
    split; [|split; cbn; try done|done|].
    + destruct F as [_ F1 F2 F3 F4 F5 F6 F7 F8].
      assert (forall nm, is_archive n nm = true -> entry_name nm -> entry_at nm <> at_ n []) as Hne.
      { intros nm Ha He. apply archive_differs; mem. }
      split; try done; rewrite ?Hv.
      * apply lookup_insert_eq.
      * rewrite lookup_insert_ne; [done|]. intros E. apply names_differ in E; [done|mem..].
      * rewrite lookup_insert_ne; [done|]. intros E. apply names_differ in E; [done|mem..].
      * intros nm c Hin. destruct (F5 _ _ Hin) as (Ha & d & Hd' & Hc'). split; [done|]. exists d.
        rewrite lookup_insert_ne; [done|]. apply not_eq_sym, Hne; [done|].
        eapply view_entry_name; [apply R|by eexists].
      * intros nm Ha [d [[E _]|[_ Hd']]%lookup_insert_Some]; [|apply F6; [done|by eexists]].
        exfalso. apply (Hne nm); [done| |done].
        eapply (view_entry_name _ nm (ready_wf _ R')). rewrite Hv, E, lookup_insert_eq. by eexists.
    + right. split_and!; [done| |done]. exists (next_ino s). cbn. by rewrite !lookup_insert_eq.
    + done.
Qed.

Lemma inv_perm h arch lg pnd gz s l i mode :
  inv h arch lg pnd gz s l -> inv h arch lg pnd gz (change_perm i mode s) l.
Proof.
  intros [F H C Hh]. pose proof (wf_perm s i mode (ready_wf _ (f_ready _ _ _ _ _ F))) as W.
  split; [| |done|done].
  - eapply files_frame; [done| |intros; by rewrite view_perm].
    destruct F as [[] ]. by split.
  - eapply handles_kin; [| |exact H]; [by split|done].
Qed.

Lemma wp_open_log h arch lg pnd gz s l (Q : Z -> fs -> logfile -> Prop) :
  inv h arch lg pnd gz s l -> fd (hnd l) < 0 ->
  (forall s' l' lg', inv h arch lg' pnd gz s' l' -> 0 < fd (hnd l') -> chunk lg' = chunk lg ->
     last_try (hnd l') = 0 -> (calm l -> calm l') -> Q 0 s' l') ->
  (forall s' l', inv h arch lg pnd gz s' l' -> ~ (benign /\ last_try (hnd l) = 0) -> Q (-1) s' l') ->
  wp open_log Q s l.
Proof.
  intros I Hfd H0 H1. unfold open_log. wp_step. wp_call s1 now E. injection E as <- <-.
  do 2 wp_step. case_bool_decide as Hnow.
  { wp_step. apply H1; [by eapply inv_same; [|exact I]|]. intros [B E]. rewrite E in Hnow. by apply (clock_set B) in Hnow. }
  rewrite (inv_nam _ _ _ _ _ _ _ I). do 3 wp_step. set (l1 := with_hnd _ l).
  assert (inv h arch lg pnd gz (ticked s) l1) as I1.
  { eapply inv_log; [by eapply inv_same; [|exact I]|done..|by left]. }
  eapply wp_tlog_mkdir_there; [exact I1|]. intros s2 Hs2. wp_steps. cbn beta iota.
  wp_call s3 f E3. pose proof (inv_same _ _ _ _ _ _ _ _ Hs2 I1) as I2.
  assert (inv h arch lg pnd gz s2 (with_hnd (set_filesize 0) l1)) as I2'.
  { destruct I2 as [F [G1 G2 G3 G4 G5 G6 G7 G8 G9] C Hh]. split; [done|split; try done; by left|done|done]. }
  clear I2. eapply inv_opened in E3; [|exact I2'|exact Hfd]. wp_steps.
  destruct E3 as [(-> & Hs3 & B)|(Hf & lg' & Hlg' & I3)].
  - wp_steps. apply H1; [|by intros [??]].
    eapply inv_same; [exact Hs3|]. destruct I2' as [F [G1 G2 G3 G4 G5 G6 G7 G8 G9] C Hh].
    split; [done|split; try done; cbn|done|done]; [by left|].
    intros Hl. destruct (G7 Hl). split; [done|lia].
  - wp_step. wp_step.
    (* the size of the file, and the end *)
    assert (forall s4, inv h arch lg' pnd gz s4 (with_hnd (fun g =>
      set_filesize (Z.of_nat (length (chunk lg'))) (set_fd f g)) (with_hnd (set_filesize 0) l1)) ->
      wp (on_hnd (set_last_try 0);;; on_hnd (set_print_errmsg true);;;
        let! size := do_sys (lseek_end f) in on_hnd (set_filesize size);;; mret 0) Q s4
        (with_hnd (set_fd f) (with_hnd (set_filesize 0) l1))) as Hend.
    { intros s4 I4. wp_steps. wp_call s5 size E5. apply lseek_end_cases in E5 as [Hs5 E5].
      destruct (opened_file _ _ _ _ _ _ _ I4 Hf) as (i & g & Hi & _ & Hg & Elg & Hlen). cbn in Hi, Hlen.
      assert (size = Z.of_nat (length (chunk lg'))) as ->.
      { destruct E5 as [[_ E5]|(j & g' & Hj & Hg' & ->)].
        - rewrite Hi in E5. cbn in E5. congruence.
        - rewrite Hi in Hj. injection Hj as <-. by rewrite Hlen; f_equal; f_equal; congruence. }
      wp_steps. eapply (H0 _ _ lg'); [|done| |done|done].
      - eapply inv_same; [exact Hs5|]. eapply inv_log; [exact I4|done..|by left].
      - by destruct Hlg' as [->|[-> ->]]. }
    change (mode_changed (per _)) with (mode_changed (per l)).
    destruct (mode_changed (per l)); cbn beta iota; [|wp_step; by apply Hend].
    wp_step. wp_call s4 r4 E4. wp_step. apply Hend.
    apply fchmod_cases in E4 as [E4|[i E4]]; [by eapply inv_same|].
    eapply inv_same; [exact E4|]. by apply inv_perm.
Qed.

(** Bytes are appended to the open log file. *)
Lemma inv_written h arch lg pnd gz s l i d bs t :
  inv h arch lg pnd gz s l -> 0 < fd (hnd l) -> names s !! at_ n [] = Some i -> lg = Some d ->
  inv (h ++ bs) arch (Some (d ++ bs)) pnd gz (appended i bs t s)
    (with_hnd (fun g => set_filesize (filesize g + Z.of_nat (length bs)) g) l).
Proof.
  intros I Hfd Hi ->. pose proof (inv_ready _ _ _ _ _ _ _ I) as R.
  destruct (opened_file _ _ _ _ _ _ _ I Hfd) as (j & f & Hj & Hj' & Hf & [= ->] & Hlen).
  assert (j = i) as -> by congruence.
  destruct I as [F [H1 H2 H3 H4 H5 H6 H7 H8 H9] C (p & Hp & Hh)].
  pose proof (view_appended _ _ _ bs t _ (ready_wf _ R) Hi (f_log _ _ _ _ _ F)) as Hv.
  assert (ready (appended i bs t s)) as R'.
  { destruct R as [W Rd Ra Rn]. split; [by apply wf_appended|done..]. }
  split.
  - destruct F as [_ F1 F2 F3 F4 F5 F6 F7 F8].
    assert (forall nm, is_archive n nm = true -> entry_name nm -> at_ n [] <> entry_at nm) as Hne.
    { intros nm Ha He. apply not_eq_sym, archive_differs; mem. }
    split; try done; rewrite ?Hv.
    + apply lookup_insert_eq.
    + rewrite lookup_insert_ne; [done|]. intros E. apply names_differ in E; [done|mem..].
    + rewrite lookup_insert_ne; [done|]. intros E. apply names_differ in E; [done|mem..].
    + intros nm c Hin. destruct (F5 _ _ Hin) as (Ha & e & He & Hc'). split; [done|]. exists e.
      rewrite lookup_insert_ne; [done|]. apply Hne; [done|].
      eapply view_entry_name; [apply R|by eexists].
    + intros nm Ha [e He]. apply F6; [done|].
      rewrite lookup_insert_ne in He; [by eexists|]. apply Hne; [done|].
      eapply (view_entry_name _ nm (ready_wf _ R')). rewrite Hv. apply lookup_insert_is_Some'.
      destruct (decide (at_ n [] = entry_at nm)); [by left|right].
      rewrite lookup_insert_ne in He by done. by eexists.
  - split; try done; cbn; [right|lia].
    split_and!; [done| |cbn; rewrite length_app; lia]. by exists i.
  - done.
  - exists p. split; [done|]. rewrite Hh. cbn. by rewrite <- !app_assoc.
Qed.

Lemma wp_write_data h arch lg pnd gz s l bs (Q : Z -> fs -> logfile -> Prop) :
  inv h arch lg pnd gz s l -> 0 < fd (hnd l) -> bs <> [] ->
  (forall r s' l' lg', let out := take (Z.to_nat r) bs in
     inv (h ++ out) arch lg' pnd gz s' l' -> chunk lg' = chunk lg ++ out ->
     (calm l -> calm l') ->
     (benign -> r = Z.of_nat (length bs) /\ 0 < fd (hnd l') /\ last_try (hnd l') = last_try (hnd l)) ->
     Q r s' l') ->
  wp (write_data bs) Q s l.
Proof.
  intros I Hfd Hbs HQ. unfold write_data. do 3 wp_step. wp_call s1 r E.
  destruct (opened_file _ _ _ _ _ _ _ I Hfd) as (i & f & Hi & Hl & Hf & -> & Hlen).
  pose proof (inv_lock_apart _ _ _ _ _ _ _ I) as Hlk.
  assert (0 < length bs)%nat by (destruct bs; [done|cbn; lia]).
  (* nothing was written: the file may be closed *)
  assert (r <= 0 -> inv h arch (Some (i_data f)) pnd gz s1 l -> ~ benign ->
    wp (let! e := get_errno in
        if bool_decide (fd (hnd l) > 0) && bool_decide (e = ENOSPC)
        then do_sys (fun s => (close (fd (hnd l)) s, tt));;; on_hnd (set_fd (-1)) else mret tt)
      (fun _ s' l' => wp (mret r) Q s' l') s1 l) as Hfull.
  { intros Hr I1 B. wp_steps. assert (take (Z.to_nat r) bs = []) as Ht by by replace (Z.to_nat r) with 0%nat by lia.
    destruct (_ && _); cbn beta iota.
    - wp_step. wp_call s2 u E2. injection E2 as <- <-. wp_step. wp_step.
      apply (HQ r _ _ (Some (i_data f))); rewrite ?Ht, ?app_nil_r; try done.
      eapply inv_same; [|apply (inv_close _ _ _ _ _ s1 l (filesize (hnd l))); [done|lia|done]].
      done.
    - do 2 wp_step. apply (HQ r _ _ (Some (i_data f))); rewrite ?Ht, ?app_nil_r; done. }
  apply append_cases in E as [(-> & Hs & Hr)|(Hr & j & t & Hj & Hw & Hs)].
  - do 2 wp_step. apply Hfull; [lia|by eapply inv_same|]. intros B. by rewrite Hr in Hi by apply (never_refused B).
  - assert (j = i) as -> by congruence.
    pose proof (inv_written _ _ _ _ _ _ _ i _ (take (Z.to_nat r) bs) t I Hfd Hl eq_refl) as I1.
    eapply inv_same in I1; [|exact Hs].
    assert (Z.of_nat (length (take (Z.to_nat r) bs)) = r) as Hr' by (rewrite length_take; lia).
    rewrite Hr' in I1. wp_step. destruct (decide (r > 0)) as [Hpos|Hpos].
    + wp_steps. eapply HQ; [exact I1|done|done|].
      intros B. split; [|done]. apply Hw, (whole_writes B).
    + wp_step. assert (r = 0) as -> by lia. cbn [take Z.to_nat] in *. apply Hfull; [lia| |].
      * rewrite !app_nil_r in I1. eapply inv_log; [exact I1|done..| |by left]. cbn. lia.
      * intros B. specialize (Hw (whole_writes B _ _)). lia.
Qed.

(** What [write_ext] does to the files when nothing fails and nothing is compressed:
    it appends to the log file, or to a new one. *)
Definition appended_to (arch : list (option path * list byte)) lg l bs arch' lg' (pnd' gz' : option (list byte)) l' :=
  pnd' = None /\ gz' = None /\ 0 < fd (hnd l') /\ last_try (hnd l') = 0 /\ calm l' /\
  ((filesize (hnd l) <= limit /\ arch' = arch /\ chunk lg' = chunk lg ++ bs) \/
   (limit < Z.of_nat (length (chunk lg)) /\ arch'.*2 = arch.*2 ++ [chunk lg] /\ chunk lg' = bs)).

Lemma wp_write_ext h arch lg pnd gz s l bs (Q : Z -> fs -> logfile -> Prop) :
  inv h arch lg pnd gz s l ->
  (forall r s' l' arch' lg' pnd' gz',
     inv (h ++ take (Z.to_nat r) bs) arch' lg' pnd' gz' s' l' ->
     (benign -> calm l -> pnd = None -> gz = None -> 0 <= limit -> bs <> [] ->
      last_try (hnd l) = 0 -> 0 < fd (hnd l) \/ filesize (hnd l) = 0 ->
      r = Z.of_nat (length bs) /\ appended_to arch lg l bs arch' lg' pnd' gz' l') ->
     Q r s' l') ->
  wp (write_ext bs) Q s l.
Proof.
  intros I HQ. unfold write_ext. do 2 wp_step.
  pose proof (i_handles _ _ _ _ _ _ _ I) as H.
  case_bool_decide as Hbs; cbn [orb].
  { wp_step. subst bs. eapply HQ; [by rewrite app_nil_r|]. by intros. }
  destruct (fail l) eqn:Ef.
  { wp_step. eapply (HQ 0); [by rewrite app_nil_r|]. intros _ (_ & _ & ?). congruence. }
  wp_step. rewrite (h_nam _ _ _ H), (ok_settled _ N_ok). wp_step. wp_step. wp_step.
  rewrite (h_count _ _ _ H). wp_step. wp_step.
  eapply wp_rotate; [exact I|]. intros s1 l1 arch1 lg1 pnd1 gz1 I1 Hc1 Hb1. do 3 wp_step.
  (* the end, with an open log file *)
  assert (forall s2 l2 lg2, inv h arch1 lg2 pnd1 gz1 s2 l2 -> 0 < fd (hnd l2) ->
    chunk lg2 = chunk lg1 -> (calm l1 -> calm l2) -> (last_try (hnd l1) = 0 -> last_try (hnd l2) = 0) ->
    wp (write_data bs) Q s2 l2) as Hend.
  { intros s2 l2 lg2 I2 Hfd2 Hlg2 Hc2 Ht2. eapply wp_write_data; [exact I2|done|done|].
    intros r s3 l3 lg3 out I3 Hlg3 Hc3 Hb3. eapply HQ; [exact I3|].
    intros B Hc Hp Hg Hlim _ Ht Hfd. destruct (Hb3 B) as (Hr & Hfd3 & Ht3). split; [done|].
    assert (out = bs) as Hout by (unfold out; rewrite Hr, Nat2Z.id; apply firstn_all).
    rewrite Hout in Hlg3. destruct (Hc1 Hc) as [Hc1' Ht1].
    destruct (Hb1 B Hc Hp Hg Hlim Hfd) as (-> & -> & Hcase).
    split_and!; [done|done|done| |by auto|].
    - rewrite Ht3. apply Ht2. congruence.
    - destruct Hcase as [(? & -> & -> & _)|(? & ? & -> & _)]; [left|right].
      + split_and!; [done|done|]. by rewrite Hlg3, Hlg2.
      + split_and!; [done|done|]. by rewrite Hlg3, Hlg2. }
  destruct (h_fd _ _ _ (i_handles _ _ _ _ _ _ _ I1)) as [Hfd|[Hfd _]].
  - wp_step. eapply wp_open_log; [exact I1|done|..].
    + intros s2 l2 lg2 I2 Hfd2 Hlg2 Ht2 Hc2. wp_step. by eapply Hend.
    + intros s2 l2 I2 Hnb. wp_steps. eapply (HQ (-1)); [by rewrite app_nil_r|].
      intros B Hc _ _ _ _ Ht _. destruct Hnb. split; [done|]. destruct (Hc1 Hc). congruence.
  - do 2 wp_step. wp_step. by eapply Hend.
Qed.

(** *** The gzip process *)

Lemma inv_gzip_ends h arch lg pnd gz s l pid :
  inv h arch lg pnd gz s l ->
  (children s !! pid = None /\ gzip_ends pid s = s) \/
  (children s !! pid = Some Ended /\ gzip_ends pid s = s) \/
  (children (gzip_ends pid s) !! pid = Some Ended /\
     exists pnd' gz', inv h arch lg pnd' gz' (gzip_ends pid s) l).
Proof.
  intros I. unfold gzip_ends. destruct (children s !! pid) as [[file|]|] eqn:Ec; [|by auto..].
  do 2 right. pose proof I as [F [H1 H2 H3 H4 H5 H6 H7 H8 H9] C (p & Hp & Hh)].
  destruct (H9 _ _ Ec) as (-> & Hpid & Hz & Hnc).
  set (s1 := set_children _ s).
  assert (inv h arch lg pnd gz s1 l) as I1.
  { split; [|split; try done|done|by exists p].
    - eapply files_frame; [done| |done]. destruct F as [[[]] ]. by split.
    - intros q f Hq. cbn in Hq. apply lookup_insert_Some in Hq as [[_ [=]]|[_ Hq]]. by apply H9. }
  pose proof (inv_ready _ _ _ _ _ _ _ I1) as R1.
  rewrite <- gzip_file_alt.
  rewrite (present_named s1 _ (PENDING ++ GZ) gz) by (done || apply I1 || mem).
  case_bool_decide as Hgz.
  { split; [cbn; by rewrite lookup_insert_eq|eauto]. }
  assert (gz = None) as -> by (destruct gz; [by destruct Hgz|done]).
  destruct (file_at s1 (pending_file n)) as [f|] eqn:Ef; cbn [mbind option_bind].
  2: { split; [cbn; by rewrite lookup_insert_eq|eauto]. }
  destruct (gzip_output _ _) as [data|] eqn:Eo.
  2: { split; [cbn; by rewrite lookup_insert_eq|eauto]. }
  apply (gzip_ok _ K_ok) in Eo. unfold gzip_replaces. rewrite Ef.
  split; [cbn; by rewrite lookup_insert_eq|]. exists None, (Some data).
  rewrite <- gzip_file_alt, gzip_file_at, pending_file_at.
  (* the file disappears, and its compressed form is made *)
  set (s2 := set_names (delete (at_ n PENDING) (names s1)) s1).
  pose proof (wf_unlinked s1 (at_ n PENDING) (ready_wf _ R1)) as W2. fold s2 in W2.
  pose proof (view_created s2 (at_ n (PENDING ++ GZ)) (mk_inode data (i_mtime f) (i_perm f)) (fds s2) W2) as Hv.
  cbn [i_data] in Hv. pose proof (view_unlinked s1 (at_ n PENDING)) as Hv1. fold s2 in Hv1. rewrite Hv1 in Hv.
  assert (pnd = Some (i_data f)) as ->.
  { rewrite <- (f_pnd _ _ _ _ _ (i_files _ _ _ _ _ _ _ I1)), view_lookup.
    unfold file_at in Ef. rewrite pending_file_at in Ef.
    destruct (names s1 !! at_ n PENDING) as [i|]; [|done]. cbn in *. by rewrite Ef. }
  assert (forall y, y ∈ [[]; LOCK] -> at_ n PENDING <> at_ n y /\ at_ n (PENDING ++ GZ) <> at_ n y) as Hy.
  { intros y Hy. split; intros E; apply names_differ in E; try (rewrite !elem_of_cons in *; tauto);
      subst y; rewrite !elem_of_cons in Hy; destruct Hy as [Hy|[Hy|Hy]];
      try discriminate Hy; by apply not_elem_of_nil in Hy. }
  set (s3 := mk_fs _ _ _ _ _ _ _ _ _).
  change (view s3 = <[at_ n (PENDING ++ GZ) := data]> (delete (at_ n PENDING) (view s1))) in Hv.
  assert (fs_wf s3) as W3.
  { apply (wf_created s2); [done|apply (ready_names _ R1); mem|apply resolve_entries|].
    intros g i Hg. apply (wf_fds _ W2) in Hg. lia. }
  assert (ready s3) as R3 by (destruct R1; by split).
  pose proof (i_files _ _ _ _ _ _ _ I1) as F1.
  assert (forall nm x, is_archive n nm = true -> entry_name nm -> x ∈ [PENDING; PENDING ++ GZ] ->
    at_ n x <> entry_at nm) as Hne.
  { intros nm x Ha He Hx E. eapply archive_differs; [done|done| |by symmetry].
    rewrite !elem_of_cons in *. tauto. }
  split.
  - destruct F1 as [_ F1 F2 F3 F4 F5 F6 F7 F8].
    split; try done; rewrite ?Hv.
    + rewrite !lookup_insert_ne, lookup_delete_ne by (apply Hy; mem). done.
    + rewrite lookup_insert_ne, lookup_delete_eq; [done|].
      intros E. by apply names_differ in E; [|mem..].
    + apply lookup_insert_eq.
    + by left.
    + intros nm c Hin. destruct (F5 _ _ Hin) as (Ha & d & Hd & Hc). split; [done|]. exists d.
      assert (entry_name nm) by (eapply view_entry_name; [apply R1|by eexists]).
      by rewrite lookup_insert_ne, lookup_delete_ne by (apply Hne; [done..|mem]).
    + intros nm Ha Hs. pose proof Hs as Hs'. rewrite <- Hv in Hs'. apply view_entry_name in Hs'; [|done].
      rewrite lookup_insert_ne, lookup_delete_ne in Hs by (apply Hne; [done..|mem]). by apply F6.
  - pose proof (i_handles _ _ _ _ _ _ _ I1) as G.
    assert (kin s1 s3) as Hk by by split.
    eapply handles_kin; [exact Hk| |exact G]. intros _. cbn.
    by rewrite lookup_insert_ne, lookup_delete_ne by (apply Hy; mem).
  - intros _. done.
  - exists (i_data f). split; [by right|]. by rewrite Hh, Hp.
Qed.

Lemma wp_wait_pid h arch lg pnd gz s l (Q : () -> fs -> logfile -> Prop) :
  inv h arch lg pnd gz s l ->
  (forall s' l', holds h s' l' -> Q tt s' l') ->
  wp (wait_pid false) Q s l.
Proof.
  intros I HQ. unfold wait_pid.
  assert (forall s' l' a b c d, inv h a b c d s' l' -> Q tt s' l') as HQ'.
  { intros s' l' a b c d I'. apply HQ. by exists a, b, c, d. }
  do 2 wp_step. case_bool_decide as Hpid; [wp_step; by eapply HQ'|]. wp_step. wp_call s1 r E.
  apply call_cases in E as [(_ & Hs & ->)|[_ E]].
  { wp_steps. eapply HQ'. by eapply inv_same. }
  cbn in E. destruct (children s !! zip_pid (hnd l)) as [[f|]|] eqn:Ec; injection E as <- <-.
  { wp_steps. eapply HQ'. eapply inv_same; [|exact I]. done. }
  2: { wp_steps. eapply HQ'. eapply inv_same; [|exact I]. done. }
  rewrite bool_decide_eq_false_2 by done.
  (* the process has ended *)
  assert (inv h arch lg pnd gz (set_children (delete (zip_pid (hnd l)) (children (ticked s))) (ticked s))
    (with_hnd (set_zip_pid (-1)) l)) as I1.
  { destruct I as [F [H1 H2 H3 H4 H5 H6 H7 H8 H9] C Hh]. split; [|split; try done|done|done].
    - eapply files_frame; [done| |done]. destruct F as [[[]] ]. by split.
    - intros q f Hq. cbn in Hq. apply lookup_delete_Some in Hq as [Hne Hq].
      by apply H9 in Hq as (_ & _ & -> & _). }
  wp_step. wp_step. do 2 wp_step. rewrite (inv_nam _ _ _ _ _ _ _ I1). wp_step.
  eapply wp_archive_gzip; [exact I1|..].
  - intros s2 e _ I2. wp_step. wp_step. eapply wp_remove; [done|]. intros r3 s3 L I3.
    eapply wp_log_unlock; [done|]. intros s4 f4 I4. by eapply HQ'.
  - intros s2 I2 _. wp_step. eapply wp_log_unlock; [done|]. intros s3 f3 I3. by eapply HQ'.
Qed.

(** *** Any events *)

Lemma wp_run_event h e s l (Q : list byte -> fs -> logfile -> Prop) :
  holds h s l -> (forall a s' l', holds (h ++ a) s' l' -> Q a s' l') -> wp (run_event e) Q s l.
Proof.
  intros (arch & lg & pnd & gz & I) HQ. destruct e as [bs| |]; unfold run_event; wp_step.
  - eapply wp_write_ext; [done|]. intros r s' l' a b c d I' _. wp_step. apply HQ. by exists a, b, c, d.
  - eapply wp_wait_pid; [done|]. intros s' l' H'. wp_step. apply HQ. by rewrite app_nil_r.
  - wp_steps. wp_call s' u E. injection E as <- _. wp_step. apply HQ. rewrite app_nil_r.
    destruct (inv_gzip_ends _ _ _ _ _ _ _ (zip_pid (hnd l)) I)
      as [[_ ->]|[[_ ->]|(_ & p' & g' & I')]]; by eexists _, _, _, _.
Qed.

Lemma wp_run_events h es s l (Q : list byte -> fs -> logfile -> Prop) :
  holds h s l -> (forall a s' l', holds (h ++ a) s' l' -> Q a s' l') -> wp (run_events es) Q s l.
Proof.
  revert h s l Q. induction es as [|e es IH]; intros h s l Q H HQ; cbn.
  { wp_step. apply HQ. by rewrite app_nil_r. }
  wp_step. eapply wp_run_event; [done|]. intros a s1 l1 H1.
  wp_step. eapply IH; [done|]. intros b s2 l2 H2. wp_step. apply HQ. by rewrite app_assoc.
Qed.

(** *** Writes without failures and without compression *)

(** The archives are longer than the limit, and no file exceeds it by more than [m]. *)
Definition bounded (m : Z) (arch : list (option path * list byte)) (lg : option (list byte)) : Prop :=
  Forall (fun e => limit < Z.of_nat (length e) <= limit + m) arch.*2
  /\ Z.of_nat (length (chunk lg)) <= limit + m.

Definition settled l (lg : option (list byte)) : Prop :=
  calm l /\ last_try (hnd l) = 0
  /\ (0 < fd (hnd l) \/ filesize (hnd l) = 0 /\ Z.of_nat (length (chunk lg)) <= limit).

Lemma wp_write_bounded h arch lg s l m bs (Q : Z -> fs -> logfile -> Prop) :
  benign -> 0 <= limit -> Z.of_nat (length bs) <= m ->
  inv h arch lg None None s l -> settled l lg -> bounded m arch lg ->
  (forall s' l' arch' lg', inv (h ++ bs) arch' lg' None None s' l' -> settled l' lg' ->
     bounded m arch' lg' -> Q (Z.of_nat (length bs)) s' l') ->
  wp (write_ext bs) Q s l.
Proof.
  intros B Hlim Hm I (Hc & Ht & Hfd) [HA HB] HQ.
  destruct (decide (bs = [])) as [->|Hne].
  { unfold write_ext. do 2 wp_step. rewrite bool_decide_eq_true_2 by done. cbn [orb]. wp_step.
    apply (HQ _ _ arch lg); [by rewrite app_nil_r|done|done]. }
  assert (forall o, opened s l o -> filesize (hnd l) = Z.of_nat (length (chunk o))) as Hsize
    by (intros o (_ & _ & ?); done).
  eapply wp_write_ext; [done|]. intros r s' l' arch' lg' pnd' gz' I' Hb.
  destruct Hb as (-> & -> & -> & Hfd' & Ht' & Hc' & Hcase); try done; [tauto|].
  rewrite Nat2Z.id, firstn_all in I'. apply (HQ _ _ arch' lg'); [done|split_and!; [done|done|by left]|].
  destruct Hcase as [(Hle & -> & Hlg)|(Hgt & Ha & Hlg)].
  - split; [done|]. rewrite Hlg, length_app.
    destruct Hfd as [Hfd|[_ Hlen]]; [|lia].
    destruct (h_fd _ _ _ (i_handles _ _ _ _ _ _ _ I)) as [?|Ho]; [lia|].
    rewrite (Hsize _ Ho) in Hle. lia.
  - split; [|rewrite Hlg; lia]. rewrite Ha. apply Forall_app. split; [done|].
    constructor; [lia|constructor].
Qed.

Lemma wp_writes_bounded bss h arch lg s l m (Q : list byte -> fs -> logfile -> Prop) :
  benign -> 0 <= limit -> Forall (fun bs => Z.of_nat (length bs) <= m) bss ->
  inv h arch lg None None s l -> settled l lg -> bounded m arch lg ->
  (forall s' l' arch' lg', inv (h ++ concat bss) arch' lg' None None s' l' -> settled l' lg' ->
     bounded m arch' lg' -> Q (concat bss) s' l') ->
  wp (run_events (Write <$> bss)) Q s l.
Proof.
  intros B Hlim. revert h arch lg s l Q.
  induction bss as [|bs bss IH]; intros h arch lg s l Q Hm I Hs Hb HQ; cbn.
  { wp_step. apply (HQ _ _ arch lg); [by rewrite app_nil_r|done|done]. }
  apply Forall_cons in Hm as [Hm1 Hm]. do 2 wp_step.
  eapply wp_write_bounded; [done..|]. intros s1 l1 arch1 lg1 I1 Hs1 Hb1. do 2 wp_step.
  rewrite Nat2Z.id, firstn_all. eapply IH; [done..|]. intros s2 l2 arch2 lg2 I2 Hs2 Hb2. wp_step.
  rewrite <- app_assoc in I2. by apply (HQ _ _ arch2 lg2).
Qed.

End Rotation.

End LogRotate.
