(* ===== verification/LogHistory.v ===== *)
(** * tlog.c: the theorems on the files of a log

    From the specifications of LogRotate.v: archives are never overwritten, the oldest
    are removed first, the files hold what was written, and they stay within their bounds;
    each with a run on a concrete file system. *)

From Stdlib Require Import ZArith Lia Sorted.
From Stdlib Require Import Strings.Byte.
From stdpp Require Import base gmap sets list sorting strings pretty.
From S2P Require Import Prelude TlogFormat Tlog Filesys LogFile LogWp LogRotate.

Module LogHistory.

Import TlogFormat.
Import Tlog(settings, mk_settings, logsize, logcount).
Import Filesys LogFile LogWp LogRotate.
Local Open Scope Z_scope.

(** ** A concrete kernel

    It refuses the calls whose numbers are listed, reads directories backwards,
    takes at most [most] bytes of a write, if that is given, and has its own idea of time and of gzip. *)

Definition demo_gzip (data : list byte) : list byte := x1f :: data.
Definition demo_gunzip (data : list byte) : option (list byte) :=
  match data with x1f :: data => Some data | _ => None end.

Definition demo (most : option Z) (refused : list nat) : Kernel := {|
  refuses t c :=
    match c with
    | SAccess _ => None
    | _ => if bool_decide (t ∈ refused) then Some EIO else None
    end;
  clock t := 1000 + Z.of_nat t;
  localtime_r t := Some (mk_tm 124 (t / 7200 mod 12) (t / 3600 mod 30) 0 (t / 60 mod 60) (t mod 60));
  order _ l := reverse l;
  taken _ n := match most with Some m => Z.min m n | None => n end;
  fork_pid _ := 7%positive;
  gzip_output _ data := Some (demo_gzip data)
|}.

Lemma demo_ok most refused : kernel_ok (K := demo most refused) demo_gunzip.
Proof.
  split.
  - intros t l. cbn. by rewrite reverse_Permutation.
  - by intros t data z [= <-].
Qed.

Lemma demo_honest most refused : access_honest (K := demo most refused).
Proof. done. Qed.

Lemma benign_honest {K : Kernel} : benign -> access_honest.
Proof. intros B t p. apply (never_refused B). Qed.

Lemma demo_benign : benign (K := demo None []).
Proof.
  split; cbn; [|done|intros t; lia|done].
  intros t c. destruct c; by rewrite ?bool_decide_eq_false_2 by apply not_elem_of_nil.
Qed.

Definition demo_dir : place := (true, [bytes_of "var"; bytes_of "log"]).
Definition demo_fs : fs :=
  mk_fs {[ demo_dir; (true, []) ]} ∅ ∅ {[ 0 := 0%nat; 1 := 1%nat; 2 := 2%nat ]} 3 ∅ 0 0 0.

Definition demo_naming (suffix : path) : naming :=
  mk_naming (bytes_of "/var/log") (bytes_of "a.log") suffix (bytes_of "/var/log/a.log") false.

Definition demo_log (nocompress : bool) (limit : Z) (count : nat) : logfile :=
  mk_logfile (mk_settings 100 limit (Z.of_nat count) true nocompress false false false 1024)
    (mk_handle (-1) 0 0 (-1) 0 true) (demo_naming (if nocompress then [] else GZ))
    (mk_perms 416 288 false) false.

Definition demo_world (nocompress : bool) (limit : Z) (count : nat) : world :=
  mk_world demo_fs (demo_log nocompress limit count) [] 0 (mk_tm 0 0 0 0 0 0).

Lemma demo_naming_ok suffix : no_slash suffix -> naming_ok (demo_naming suffix).
Proof.
  intros H. split; [done| |done|done]. split; [|by apply no_slash_text].
  split; vm_compute; discriminate.
Qed.

Lemma demo_fs_wf : fs_wf demo_fs.
Proof.
  split; cbn; try done.
  - by intros i [].
  - intros f i. rewrite !lookup_insert_Some, lookup_singleton_Some. lia.
  - by intros p [].
Qed.

Lemma demo_dirs_short q : q ∈ dirs demo_fs -> (length q.2 <= 2)%nat.
Proof. cbn. intros [->%elem_of_singleton| ->%elem_of_singleton]%elem_of_union; cbn; lia. Qed.

Lemma demo_ready s suffix :
  fs_wf s -> dirs s = dirs demo_fs -> no_slash suffix -> ready (demo_naming suffix) s.
Proof.
  intros W Hd Hs. pose proof (demo_naming_ok _ Hs) as N.
  assert (forall nm, (true, [bytes_of "var"; bytes_of "log"; nm]) ∉ dirs demo_fs) as H3.
  { intros nm Hin%demo_dirs_short. cbn in Hin. lia. }
  split; [done| | |].
  - rewrite Hd. cbn. apply elem_of_union_l. by apply elem_of_singleton.
  - intros nm _. rewrite Hd. apply H3.
  - intros x Hx%no_slash_names. rewrite Hd. unfold at_. rewrite resolve_below;
      [apply H3|done|apply entry_name_app; [apply N|done]].
Qed.

(** What is seen of a run that returns. *)
Definition returns {A B} (o : outcome (world * A)) (f : world -> A -> B) : option B :=
  match o with Ret (w, a) => Some (f w a) | _ => None end.

(** One more file. *)
Definition add_file (nm : string) (data : list byte) (t : Z) (s : fs) : fs :=
  mk_fs (dirs s) (<[resolve (below (bytes_of "/var/log") (bytes_of nm)) := next_ino s]> (names s))
    (<[next_ino s := mk_inode data t 0]> (inodes s)) (fds s) (S (next_ino s))
    (children s) (umask s) (errno s) (tick s).

Lemma wf_add_file nm data t s :
  fs_wf s -> dirs s = dirs demo_fs -> length (resolve (below (bytes_of "/var/log") (bytes_of nm))).2 = 3%nat ->
  fs_wf (add_file nm data t s).
Proof.
  intros W Hd Hl. apply wf_created; [done| |apply resolve_entries|].
  - rewrite Hd. intros Hin%demo_dirs_short. lia.
  - intros g i Hg. apply (wf_fds _ W) in Hg. lia.
Qed.

(** Nothing is written yet. *)
Lemma demo_inv gunzip (nocompress : bool) limit count :
  inv gunzip (demo_naming (if nocompress then [] else GZ)) count limit [] [] None None None
    demo_fs (demo_log nocompress limit count).
Proof.
  assert (no_slash (if nocompress then [] else GZ)) as Hs by (destruct nocompress; by apply no_slash_text).
  split.
  - split; try done.
    + by apply demo_ready; [apply demo_fs_wf|..].
    + by left.
    + intros nm c H. by apply not_elem_of_nil in H.
    + by intros nm _ [].
    + constructor.
    + cbn; lia.
  - split; try done.
    + by left.
    + intros f Hf. cbn. rewrite !lookup_insert_ne by lia. apply lookup_singleton_ne. lia.
  - by intros [].
  - by exists [].
Qed.

(** ** Archives *)

(** C23. Where [access] fails only for names that do not exist, [_tlog_rename_logfile] always
    returns, whatever other calls fail. With the result 0 the file has a name in the
    log directory that nothing had before, with its contents, and every other file
    keeps its own; with -1 the files are as they were. *)
Theorem tlog_rename_fresh {K : Kernel} gunzip n file w :
  kernel_ok gunzip -> access_honest -> naming_ok n -> nam (lf w) = n -> fs_wf (sys w) ->
  resolve (logdir n) ∈ dirs (sys w) ->
  exists w' r, rename_logfile file w = Ret (w', r) /\ lf w' = lf w /\
    ((r = 0 /\ exists nm data, is_archive n nm = true
        /\ present (sys w) (below (logdir n) nm) = false
        /\ view (sys w) !! resolve file = Some data
        /\ view (sys w') = <[resolve (below (logdir n) nm) := data]>
             (delete (resolve file) (view (sys w)))) \/
     (r = -1 /\ view (sys w') = view (sys w) /\ (benign -> view (sys w) !! resolve file = None))).
Proof.
  intros K_ok A N Hn W Hd.
  edestruct (wp_rename_logfile gunzip K_ok A n N file
    (fun r s' l' => l' = lf w /\
      ((r = 0 /\ exists nm, is_archive n nm = true
        /\ moved (resolve file) (resolve (below (logdir n) nm)) (sys w) s') \/
       (r = -1 /\ same s' (sys w) /\ (benign -> names (sys w) !! resolve file = None)))))
    as (w' & r & E & Hl & H); [exact Hn|exact W|exact Hd| | |reflexivity|reflexivity|].
  { intros s' nm Ha _ Hm. split; [done|]. left. eauto. }
  { intros s' Hs Hb. split; [done|]. right. eauto. }
  exists w', r. split_and!; [done|done|].
  destruct H as [(-> & nm & Ha & Hm)|(-> & Hs & Hb)]; [left|right].
  - split; [done|]. destruct (moved_inv _ _ _ _ W Hm) as (_ & i & d & _ & Hd' & Hq & Hq' & _ & Hv).
    exists nm, d. split_and!; try done. by apply present_view.
  - split_and!; [done|by rewrite Hs|]. intros B. apply view_names; auto.
Qed.

(** The name made of the time of the log file is taken: it gets a number. *)
Definition demo_taken : fs :=
  add_file "a.log" (bytes_of "new") 7261 (add_file "a.log-20240202-000101" (bytes_of "old") 7261 demo_fs).

Lemma demo_taken_wf : fs_wf demo_taken.
Proof. by repeat apply wf_add_file; [apply demo_fs_wf|..]. Qed.

Lemma tlog_rename_fresh_witness :
  let K := demo None [] in
  let w := mk_world demo_taken (demo_log true 10 2) [] 0 (mk_tm 0 0 0 0 0 0) in
  exists w' nm, rename_logfile (log_file (demo_naming [])) w = Ret (w', 0)
    /\ present demo_taken (below (bytes_of "/var/log") nm) = false
    /\ view (sys w') !! resolve (below (bytes_of "/var/log") nm) = Some (bytes_of "new")
    /\ present (sys w') (below (bytes_of "/var/log") (bytes_of "a.log-20240202-000101-1")) = true.
Proof.
  intros K w.
  destruct (tlog_rename_fresh (K := K) demo_gunzip (demo_naming []) (log_file (demo_naming [])) w)
    as (w' & r & E & _ & [(-> & nm & data & _ & Hp & Hd & Hv)|(_ & _ & H)]).
  - apply demo_ok.
  - apply demo_honest.
  - apply demo_naming_ok. by apply no_slash_text.
  - done.
  - apply demo_taken_wf.
  - by apply (demo_ready demo_taken []); [apply demo_taken_wf| |apply no_slash_text].
  - exists w', nm. split_and!; [done|done| |].
    + rewrite Hv. rewrite lookup_insert_eq. rewrite <- Hd. vm_compute. reflexivity.
    + assert (returns (rename_logfile (log_file (demo_naming [])) w) (fun w1 _ =>
        present (sys w1) (below (bytes_of "/var/log") (bytes_of "a.log-20240202-000101-1"))) = Some true)
        as H1 by (vm_compute; reflexivity).
      rewrite E in H1. by injection H1.
  - exfalso. specialize (H demo_benign). vm_compute in H. discriminate H.
Defined.

(** What [access_honest] excludes: [access] fails, here for want of memory, on the name of an
    archive. The code takes the name for free, [rename] replaces the archive, and its
    contents are in no file any more. *)
Definition blind : Kernel := {|
  refuses t c := match c with SAccess _ => Some ENOMEM | _ => None end;
  clock := @clock (demo None []);
  localtime_r := @localtime_r (demo None []);
  order := @order (demo None []);
  taken := @taken (demo None []);
  fork_pid := @fork_pid (demo None []);
  gzip_output := @gzip_output (demo None [])
|}.

Example access_failure_overwrites :
  let K := blind in
  let w := mk_world demo_taken (demo_log true 10 2) [] 0 (mk_tm 0 0 0 0 0 0) in
  let archive := resolve (below (bytes_of "/var/log") (bytes_of "a.log-20240202-000101")) in
  view demo_taken !! archive = Some (bytes_of "old")
  /\ returns (rename_logfile (log_file (demo_naming [])) w) (fun w' r =>
       (r, view (sys w') !! archive, (map_to_list (view (sys w'))).*2))
     = Some (0, Some (bytes_of "new"), [bytes_of "new"]).
Proof. split; vm_compute; reflexivity. Qed.

(** The age of an archive: its modification time. *)
Definition mtime (n : naming) (s : fs) (nm : path) : Z :=
  default 0 (mtime_of s (below (logdir n) nm)).

Definition older (n : naming) (s : fs) (a b : path) : Prop := mtime n s a <= mtime n s b.

#[export] Instance older_dec n s a b : Decision (older n s a b) := decide (mtime n s a <= mtime n s b).
#[export] Instance older_total n s : Total (older n s).
Proof. intros a b. unfold older. lia. Qed.
#[export] Instance older_trans n s : Transitive (older n s).
Proof. intros a b c. unfold older. lia. Qed.

(** The reference: the archives in the order of their age, without the first ones. *)
Definition keep_newest (keep : nat) (by_age : list path) : list path :=
  drop (length by_age - keep) by_age.

Lemma sorted_app_oldest n s (L rest : list path) :
  (forall a b, a ∈ L -> b ∈ rest -> older n s a b) ->
  exists P, P ≡ₚ L ++ rest /\ StronglySorted (older n s) P /\ take (length L) P ≡ₚ L
    /\ drop (length L) P ≡ₚ rest.
Proof.
  intros H. exists (merge_sort (older n s) L ++ merge_sort (older n s) rest).
  assert (length (merge_sort (older n s) L) = length L) as Hl
    by (apply Permutation_length, merge_sort_Permutation).
  split_and!.
  - by rewrite !merge_sort_Permutation.
  - apply StronglySorted_app_2; [|by apply (StronglySorted_merge_sort _)..].
    intros a b. rewrite !merge_sort_Permutation. apply H.
  - rewrite <- Hl, take_app_length. apply merge_sort_Permutation.
  - rewrite <- Hl, drop_app_length. apply merge_sort_Permutation.
Qed.

(** C12. Where no call fails and every archive has a modification time after 0,
    [_tlog_remove_oldlog], which looks through the directory once
    for each file it removes, does what sorting the archives by their age does: of some
    order by age it keeps the newest [logcount], and removes nothing else. *)
Theorem tlog_remove_oldlog_keeps_newest {K : Kernel} gunzip n w :
  kernel_ok gunzip -> benign -> naming_ok n -> nam (lf w) = n -> ready n (sys w) -> timed n (sys w) ->
  0 <= logcount (opts (lf w)) ->
  exists w' by_age, remove_oldlog w = Ret (w', 0) /\ lf w' = lf w
    /\ by_age ≡ₚ archives n (sys w) /\ StronglySorted (older n (sys w)) by_age
    /\ archives n (sys w') ≡ₚ keep_newest (Z.to_nat (logcount (opts (lf w)))) by_age
    /\ forall p, (forall nm, nm ∈ archives n (sys w) -> p <> entry_at n nm) ->
         view (sys w') !! p = view (sys w) !! p.
Proof.
  intros K_ok B N Hn R T Hc.
  edestruct (wp_remove_oldlog gunzip K_ok (benign_honest B) n N
    (fun r s' l' => l' = lf w /\ r = 0 /\ exists L, pruned n L (sys w) s' /\
       length L = (length (archives n (sys w)) - Z.to_nat (logcount (opts (lf w))))%nat
       /\ oldest_first n L (sys w)))
    as (w' & r & E & Hl & -> & L & (Hs & HL & Hsub) & Hlen & HO);
    [exact Hn|exact R| |reflexivity|reflexivity|].
  { intros r s' L HP _ HB. destruct (HB B T Hc) as (-> & H1 & H2). eauto 10. }
  pose proof (archives_without n L (sys w) HL Hsub) as Hp.
  destruct (sorted_app_oldest n (sys w) L (archives n (without n L (sys w)))) as (P & HP & HS & _ & Hdrop).
  { intros a b Ha [Hb HbL]%elem_of_archives_without. unfold older, mtime.
    destruct (T a (Hsub _ Ha)) as (ta & Eta & _), (T b Hb) as (tb & Etb & _).
    rewrite Eta, Etb. cbn. by apply (HO a b Ha Hb HbL). }
  exists w', P. split_and!; [done|done|by rewrite HP, <- Hp|done| |].
  - rewrite (archives_same n _ _ Hs). unfold keep_newest.
    rewrite (Permutation_length HP), <- Hp, <- Hlen. by rewrite Hdrop.
  - intros p Hne. rewrite Hs, view_without, lookup_foldr_delete, decide_False; [done|].
    intros (nm & -> & Hnm)%list_elem_of_fmap. by apply (Hne nm); [apply Hsub|].
Qed.

(** Three archives, of which one is kept. *)
Definition demo_three : fs :=
  add_file "a.log-c" (bytes_of "3") 30 (add_file "a.log-a" (bytes_of "1") 10
    (add_file "a.log-b" (bytes_of "2") 20 demo_fs)).

Lemma demo_three_wf : fs_wf demo_three.
Proof. by repeat apply wf_add_file; [apply demo_fs_wf|..]. Qed.

Lemma demo_three_timed : timed (demo_naming []) demo_three.
Proof.
  intros nm [_ Hs]%elem_of_archives.
  assert (nm = bytes_of "a.log-a" \/ nm = bytes_of "a.log-b" \/ nm = bytes_of "a.log-c") as H.
  { unfold demo_three, add_file in Hs. cbn [names] in Hs.
    rewrite !lookup_insert_is_Some' in Hs. destruct Hs as [E|[E|[E|[? E]]]]; [..|done];
      injection E as E; auto. }
  destruct H as [-> | [-> | ->]]; eexists; (split; [vm_compute; reflexivity|lia]).
Qed.

Lemma tlog_remove_oldlog_keeps_newest_witness :
  let K := demo None [] in
  let w := mk_world demo_three (demo_log true 10 1) [] 0 (mk_tm 0 0 0 0 0 0) in
  exists w', remove_oldlog w = Ret (w', 0)
    /\ exists by_age, StronglySorted (older (demo_naming []) demo_three) by_age
         /\ archives (demo_naming []) (sys w') ≡ₚ keep_newest 1 by_age
         /\ archives (demo_naming []) (sys w') = [bytes_of "a.log-c"].
Proof.
  intros K w.
  destruct (tlog_remove_oldlog_keeps_newest (K := K) demo_gunzip (demo_naming []) w)
    as (w' & P & E & _ & _ & HS & HP & _).
  - apply demo_ok.
  - apply demo_benign.
  - apply demo_naming_ok. by apply no_slash_text.
  - done.
  - by apply demo_ready; [apply demo_three_wf| |apply no_slash_text].
  - apply demo_three_timed.
  - cbn. lia.
  - exists w'. split; [done|]. exists P. split_and!; [done|done|].
    assert (returns (remove_oldlog w) (fun w1 _ => archives (demo_naming []) (sys w1))
      = Some [bytes_of "a.log-c"]) as H1 by (vm_compute; reflexivity).
    rewrite E in H1. by injection H1.
Defined.

(** ** What the files hold *)

(** C7. Where [access] fails only for names that do not exist, whatever other calls fail and
    however writes are cut short, a log with a name and a directory always gets to the end of a write, of a look after gzip, and of gzip itself;
    and what its files hold, the archives in the order in which they were made, the
    pending file, compressed or not, and the log file, is what they held before with the
    bytes that the writes report as written. Only whole archives are lost, and only
    where there are more than [count]. *)
Theorem tlog_files_hold {K : Kernel} gunzip n count limit h es w :
  kernel_ok gunzip -> access_honest -> naming_ok n -> (0 < count)%nat ->
  holds gunzip n count limit h (sys w) (lf w) ->
  exists w' out, run_events es w = Ret (w', out)
    /\ holds gunzip n count limit (h ++ out) (sys w') (lf w').
Proof.
  intros K_ok A N Hc H.
  edestruct (wp_run_events gunzip K_ok A n N count limit Hc h es _ _
    (fun a s' l' => holds gunzip n count limit (h ++ a) s' l') H) as (w' & out & E & H');
    [done|reflexivity|reflexivity|]. eauto.
Qed.

(** C20. Where no call fails and the log compresses nothing (while gzip runs, the rotation is
    put off and the file grows on), every buffer is written whole, an
    archive is longer than [logsize], and no file exceeds it by more than one buffer. *)
Theorem tlog_files_bounded {K : Kernel} gunzip n count limit h bss lg w m :
  kernel_ok gunzip -> benign -> naming_ok n -> (0 < count)%nat -> 0 <= limit ->
  Forall (fun bs => Z.of_nat (length bs) <= m) bss ->
  inv gunzip n count limit h [] lg None None (sys w) (lf w) ->
  settled limit (lf w) lg -> Z.of_nat (length (chunk lg)) <= limit + m ->
  exists w' arch lg', run_events (Write <$> bss) w = Ret (w', concat bss)
    /\ inv gunzip n count limit (h ++ concat bss) arch lg' None None (sys w') (lf w')
    /\ Forall (fun e => limit < Z.of_nat (length e) <= limit + m) arch.*2
    /\ Z.of_nat (length (chunk lg')) <= limit + m.
Proof.
  intros K_ok B N Hc Hlim Hm I Hs Hlen.
  edestruct (wp_writes_bounded gunzip K_ok (benign_honest B) n N count limit Hc bss h [] lg _ _ m
    (fun a s' l' => a = concat bss /\ exists arch lg',
       inv gunzip n count limit (h ++ concat bss) arch lg' None None s' l' /\ bounded limit m arch lg')
    B Hlim Hm I Hs) as (w' & out & E & -> & arch & lg' & I' & Hb & Hl);
    [split; [constructor|done]|eauto 10|reflexivity|reflexivity|].
  exists w', arch, lg'. by split_and!.
Qed.

(** Writes of which some fail or are cut short, and archives compressed. *)
Definition demo_events : list event :=
  [Write (bytes_of "one "); Write (bytes_of "two three"); Write (bytes_of "four "); Poll; GzipEnds;
   Write (bytes_of "five "); Poll; Write (bytes_of "six "); Write (bytes_of "seven ")].

Lemma tlog_files_hold_witness :
  let K := demo (Some 6) [19%nat] in
  exists w' out, run_events demo_events (demo_world false 5 1) = Ret (w', out)
    /\ holds demo_gunzip (demo_naming GZ) 1 5 out (sys w') (lf w')
    /\ out = bytes_of "one two thfour six seven ".
Proof.
  intros K.
  destruct (tlog_files_hold (K := K) demo_gunzip (demo_naming GZ) 1 5 [] demo_events (demo_world false 5 1))
    as (w' & out & E & H).
  - apply demo_ok.
  - apply demo_honest.
  - apply demo_naming_ok. by apply no_slash_text.
  - lia.
  - exists [], None, None, None. apply (demo_inv demo_gunzip false 5 1).
  - exists w', out. split_and!; [done|done|].
    assert (returns (run_events demo_events (demo_world false 5 1)) (fun _ out => out)
      = Some (bytes_of "one two thfour six seven ")) as H1 by (vm_compute; reflexivity).
    rewrite E in H1. by injection H1.
Defined.

Lemma tlog_files_bounded_witness :
  let K := demo None [] in
  let bss := [bytes_of "one "; bytes_of "two "; bytes_of "three "; bytes_of "four "] in
  exists w' arch, run_events (Write <$> bss) (demo_world true 5 2) = Ret (w', bytes_of "one two three four ")
    /\ Forall (fun e => 5 < Z.of_nat (length e) <= 11) (arch : list (option path * list byte)).*2.
Proof.
  intros K bss.
  destruct (tlog_files_bounded (K := K) demo_gunzip (demo_naming []) 2 5 [] bss None (demo_world true 5 2) 6)
    as (w' & arch & lg & E & _ & HA & _).
  - apply demo_ok.
  - apply demo_benign.
  - apply demo_naming_ok. by apply no_slash_text.
  - lia.
  - lia.
  - repeat constructor; cbn; lia.
  - apply (demo_inv demo_gunzip true 5 2).
  - split_and!; [by split_and!|done|]. right. split; [done|cbn; lia].
  - cbn. lia.
  - exists w', arch. split; [exact E|]. done.
Defined.

End LogHistory.
