(* ===== verification/LogDelivery.v ===== *)
(** * From a message to the files

    The ring of Tlog.v and the log file of LogFile.v together: what the threads print is
    what the files hold. *)

From Stdlib Require Import ZArith Lia.
From Stdlib Require Import Strings.Byte.
From stdpp Require Import base gmap sets list strings.
From S2P Require Import Prelude TlogFormat Tlog Filesys LogFile LogWp LogRotate LogHistory.

Module LogDelivery.

Import Tlog(settings, config, reachable, initial, buffsize, max_line_size, segment_log, has_data, accepted, written, unwritten, Lines).
Import Filesys LogFile LogWp LogRotate LogHistory.
Local Open Scope Z_scope.

Lemma bind_inv {A B} (m : M A) (f : A -> M B) w w' b :
  mbind f m w = Ret (w', b) -> exists w1 a, m w = Ret (w1, a) /\ f a w1 = Ret (w', b).
Proof. unfold mbind, M_bind. destruct (m w) as [[w1 a]| |]; [|done..]. by exists w1, a. Qed.

(** What is written of some buffers: of each of them the beginning that [_tlog_write_ext]
    reports as written. *)
Lemma run_writes_prefixes {K : Kernel} bss : forall w w' out,
  run_events (Write <$> bss) w = Ret (w', out) ->
  exists ks, length ks = length bss /\ out = concat (zip_with take ks bss).
Proof.
  induction bss as [|bs bss IH]; intros w w' out; rewrite ?fmap_cons; cbn [run_events].
  { intros [= _ <-]. by exists []. }
  intros (w1 & a & E1 & (w2 & b & E2 & [= _ <-])%bind_inv)%bind_inv.
  apply IH in E2 as (ks & Hl & ->). apply bind_inv in E1 as (w3 & r & _ & [= _ <-]).
  exists (Z.to_nat r :: ks). cbn. by rewrite Hl.
Qed.



End LogDelivery.
