(* ===== verification/LogDir.v ===== *)
(** * tlog.c: the directory and the name of a log file, and local time

    [_tlog_get_log_name_dir] takes a path apart so that putting it together gives the path,
    [_tlog_mkdir] makes the directory with those above it, and the cache of
    [_tlog_localtime] does not show. *)

From Stdlib Require Import ZArith Lia.
From Stdlib Require Import Strings.Byte.
From stdpp Require Import base gmap sets list strings.
From S2P Require Import Prelude TlogFormat Tlog Filesys LogFile LogWp LogRotate LogHistory.

Module LogDir.

Import Filesys LogFile LogWp LogRotate.
Local Open Scope Z_scope.

(** ** Directory and name *)

Lemma drop_slashes_id p : head p <> Some slash -> drop_slashes p = p.
Proof. destruct p as [|b p]; [done|]. cbn. intros H. rewrite bool_decide_eq_false_2; [done|congruence]. Qed.

Lemma take_component_app c p : no_slash c -> take_component (c ++ slash :: p) = c.
Proof.
  unfold no_slash. induction c as [|b c IH]; cbn.
  - intros _. by rewrite bool_decide_eq_true_2.
  - intros [Hb Hc]%not_elem_of_cons. rewrite bool_decide_eq_false_2 by congruence. by rewrite IH.
Qed.

Lemma drop_component_app c p : no_slash c -> drop_component (c ++ slash :: p) = slash :: p.
Proof.
  unfold no_slash. induction c as [|b c IH]; cbn.
  - intros _. by rewrite bool_decide_eq_true_2.
  - intros [Hb Hc]%not_elem_of_cons. rewrite bool_decide_eq_false_2 by congruence. by apply IH.
Qed.

Lemma head_reverse_no_slash (c p : path) :
  c <> [] -> no_slash c -> head (reverse c ++ p) <> Some slash.
Proof.
  intros Hc Hn. destruct (reverse c) as [|b r] eqn:E.
  - apply (f_equal reverse) in E. by rewrite reverse_involutive in E.
  - cbn. intros [= ->]. apply Hn. rewrite <- elem_of_reverse, E. left.
Qed.

Section Names.
Context (d c : path) (d_nonempty : d <> []) (d_last : last d <> Some slash)
  (c_nonempty : c <> []) (c_name : no_slash c).

Lemma reverse_below : reverse (below d c) = reverse c ++ slash :: reverse d.
Proof. unfold below. by rewrite reverse_app, reverse_cons, <- app_assoc. Qed.

Lemma basename_below : basename (below d c) = c.
Proof.
  unfold basename. rewrite reverse_below, drop_slashes_id by by apply head_reverse_no_slash.
  assert (no_slash (reverse c)) as Hr by (unfold no_slash; by rewrite elem_of_reverse).
  destruct (reverse c ++ slash :: reverse d) as [|b q] eqn:E; [by destruct (reverse c)|].
  rewrite <- E, take_component_app by done. apply reverse_involutive.
Qed.

Lemma dirname_below : dirname (below d c) = d.
Proof.
  unfold dirname. rewrite reverse_below, drop_slashes_id by by apply head_reverse_no_slash.
  assert (no_slash (reverse c)) as Hr by (unfold no_slash; by rewrite elem_of_reverse).
  destruct (reverse c ++ slash :: reverse d) as [|b q] eqn:E; [by destruct (reverse c)|].
  rewrite <- E, drop_component_app by done. cbn [drop_slashes].
  rewrite bool_decide_eq_true_2 by done. rewrite drop_slashes_id.
  - destruct (reverse d) as [|x r] eqn:Er; [by apply (f_equal reverse) in Er; rewrite reverse_involutive in Er|].
    by rewrite <- Er, reverse_involutive.
  - by rewrite head_reverse.
Qed.

End Names.

(** Nothing but descriptors has changed. *)
Definition files_unchanged (s s' : fs) : Prop :=
  dirs s' = dirs s /\ names s' = names s /\ inodes s' = inodes s.

(** *** Any path *)

Lemma split_slash d c : split (below d c) = split d ++ split c.
Proof.
  unfold below. induction d as [|b d IH]; cbn [app split].
  { by rewrite bool_decide_eq_true_2. }
  rewrite IH. case_bool_decide; [done|]. pose proof (split_nonempty d). by destruct (split d).
Qed.

Lemma resolve_slash d c :
  d <> [] -> resolve (below d c) = ((resolve d).1, (resolve d).2 ++ filter significant (split c)).
Proof. intros Hd. unfold resolve. rewrite split_slash, filter_app. by destruct d. Qed.

Lemma strip_snoc_slash p : strip (p ++ [slash]) = strip p.
Proof. unfold strip. rewrite reverse_snoc. cbn [drop_slashes]. by rewrite bool_decide_eq_true_2. Qed.

Lemma strip_snoc p b : b <> slash -> strip (p ++ [b]) = p ++ [b].
Proof.
  intros Hb. unfold strip. rewrite drop_slashes_id; [apply reverse_involutive|].
  rewrite reverse_snoc. cbn. congruence.
Qed.

(** Slashes at the end make no difference. *)
Lemma resolve_strip p : strip p <> [] -> resolve (strip p) = resolve p.
Proof.
  induction p as [|b p IH] using rev_ind; [done|]. destruct (decide (b = slash)) as [->|Hb].
  - rewrite strip_snoc_slash. intros Hs. rewrite IH by done. symmetry. apply resolve_below_nil. by intros ->.
  - by rewrite strip_snoc.
Qed.

(** And where there is nothing else, they lead to the root. *)
Lemma resolve_slashes p : strip p = [] -> p <> [] -> resolve p = (true, []).
Proof.
  induction p as [|b p IH] using rev_ind; [done|]. destruct (decide (b = slash)) as [->|Hb].
  - rewrite strip_snoc_slash. intros Hs _. destruct (decide (p = [])) as [->|Hp]; [done|].
    rewrite <- IH by done. by apply (resolve_below_nil p).
  - rewrite strip_snoc by done. intros E. by apply app_nil in E as [_ ?].
Qed.

Lemma components q : q = take_component q ++ drop_component q /\ no_slash (take_component q).
Proof.
  unfold no_slash. induction q as [|b q [E IH]]; cbn; [split; [done|apply not_elem_of_nil]|].
  case_bool_decide as Hb; [split; [done|apply not_elem_of_nil]|]. split; [cbn; by rewrite <- E|].
  rewrite not_elem_of_cons. split; [congruence|done].
Qed.

Lemma drop_component_head q b r : drop_component q = b :: r -> b = slash.
Proof. induction q as [|x q IH]; cbn; [done|]. case_bool_decide; [by intros [= <- _]|done]. Qed.

(** The directory of a path and the name in it lead where the path leads. *)
Lemma resolve_parts p : strip p <> [] -> resolve (below (dirname p) (basename p)) = resolve p.
Proof.
  intros Hp. rewrite <- (resolve_strip p Hp). unfold strip, dirname, basename in *.
  set (q := drop_slashes (reverse p)) in *. destruct q as [|x q'] eqn:Eq; [done|]. rewrite <- Eq in *. clear Hp.
  destruct (components q) as [E Hc]. pose proof (drop_component_head q) as Hd.
  assert (reverse q = reverse (drop_component q) ++ reverse (take_component q)) as Erev
    by (by rewrite E at 1; rewrite reverse_app).
  rewrite Erev. set (c := take_component q) in *. clear Erev.
  destruct (drop_component q) as [|b r].
  - rewrite app_nil_r in E. assert (c <> []) as Hne by congruence. cbn [reverse app].
    assert (no_slash (reverse c)) as Hrc by (unfold no_slash; by rewrite elem_of_reverse).
    rewrite resolve_slash by done. unfold resolve. cbn [fst snd].
    assert (head (reverse c) <> Some slash) as Hh.
    { intros Hs. apply Hrc. destruct (reverse c); [done|]. injection Hs as ->. left. }
    by rewrite (bool_decide_eq_false_2 (head (reverse c) = _)).
  - specialize (Hd b r eq_refl) as ->. rewrite reverse_cons, <- app_assoc.
    change (reverse r ++ [slash] ++ reverse c) with (below (reverse r) (reverse c)).
    cbn [drop_slashes]. rewrite bool_decide_eq_true_2 by done.
    assert (strip (reverse r) = reverse (drop_slashes r)) as Es by (unfold strip; by rewrite reverse_involutive).
    destruct (drop_slashes r) as [|y r'] eqn:Er.
    + rewrite resolve_slash by done. destruct (decide (reverse r = [])) as [->|Hr]; [done|].
      rewrite (resolve_slash (reverse r)) by done. by rewrite (resolve_slashes (reverse r)).
    + rewrite <- Er, <- Es in *.
      assert (strip (reverse r) <> []) as Hs.
      { rewrite Es, Er. intros H. apply (f_equal reverse) in H. by rewrite reverse_involutive in H. }
      assert (reverse r <> []) as Hr by (intros H; by rewrite H in Hs).
      rewrite !resolve_slash by done. by rewrite (resolve_strip (reverse r)).
Qed.

Lemma length_drop_slashes p : (length (drop_slashes p) <= length p)%nat.
Proof. induction p as [|b p IH]; cbn; [done|]. case_bool_decide; cbn; lia. Qed.

Lemma length_drop_component p : (length (drop_component p) <= length p)%nat.
Proof. induction p as [|b p IH]; cbn; [done|]. case_bool_decide; cbn; lia. Qed.

Lemma length_dirname p : (length (dirname p) <= Nat.max 1 (length p))%nat.
Proof.
  unfold dirname. pose proof (length_drop_slashes (reverse p)) as H1. rewrite length_reverse in H1.
  destruct (drop_slashes (reverse p)) as [|x q]; [case_bool_decide; cbn; lia|].
  pose proof (length_drop_component (x :: q)) as H2. destruct (drop_component (x :: q)) as [|y d]; [cbn; lia|].
  pose proof (length_drop_slashes (y :: d)) as H3.
  destruct (drop_slashes (y :: d)); [cbn; lia|]. rewrite length_reverse. lia.
Qed.

(** What [tlog_rename_logfile] and then [_tlog_get_log_name_dir] make of a path that fits. *)
Lemma log_name_dir_parts p w :
  Z.of_nat (length p) < PATH_MAX -> Z.of_nat (length (basename p)) < TLOG_LOG_NAME_LEN ->
  exists w', (rename_request p;;; get_log_name_dir) w = Ret (w', tt)
    /\ logdir (nam (lf w')) = dirname p /\ logname (nam (lf w')) = basename p
    /\ fd (hnd (lf w')) <= 0 /\ files_unchanged (sys w) (sys w').
Proof.
  intros Hlen Hclen. unfold PATH_MAX in *.
  assert (copied 4096 p = p) as Hcp by (apply take_ge; lia).
  assert (copied 4096 (dirname p) = dirname p) as Hcd
    by (apply take_ge; pose proof (length_dirname p); lia).
  assert (copied TLOG_LOG_NAME_LEN (basename p) = basename p) as Hcc by (apply take_ge; lia).
  edestruct (wp_bind (rename_request p) (fun _ => get_log_name_dir)
    (fun _ s' l' => logdir (nam l') = dirname p /\ logname (nam l') = basename p
       /\ fd (hnd l') <= 0 /\ files_unchanged (sys w) s') (sys w) (lf w))
    as (w' & [] & E & H); [|reflexivity|reflexivity|by exists w'].
  unfold rename_request, get_log_name_dir, PATH_MAX. do 4 wp_step. cbn [fd hnd with_nam].
  destruct (decide (fd (hnd (lf w)) > 0)) as [Hfd|Hfd]; wp_step.
  - wp_step. wp_call s1 u E1. injection E1 as <- <-. do 2 wp_step.
    cbn. rewrite Hcp, Hcd, Hcc. by split_and!.
  - do 2 wp_step. cbn. rewrite Hcp, Hcd, Hcc. split_and!; [done|done|lia|done].
Qed.

(** C28. A log file is found again: for every path that fits the buffers, whose last
    component fits too, and that has more to it than slashes - with a directory or without,
    below the root, with doubled slashes or slashes at the end - the directory and the name
    that [_tlog_get_log_name_dir] takes from it after [tlog_rename_logfile], put together
    again, lead where the path leads, and give the path itself when it is a directory, one
    slash and a name; the file that was open is closed and no file is touched. *)
Theorem tlog_logfile_round_trip p w :
  strip p <> [] -> Z.of_nat (length p) < PATH_MAX ->
  Z.of_nat (length (basename p)) < TLOG_LOG_NAME_LEN ->
  exists w', (rename_request p;;; get_log_name_dir) w = Ret (w', tt)
    /\ resolve (log_file (nam (lf w'))) = resolve p
    /\ (forall d c, p = below d c -> d <> [] -> last d <> Some slash -> c <> [] -> no_slash c ->
          logdir (nam (lf w')) = d /\ logname (nam (lf w')) = c /\ log_file (nam (lf w')) = p)
    /\ fd (hnd (lf w')) <= 0 /\ files_unchanged (sys w) (sys w').
Proof.
  intros Hp Hlen Hclen. destruct (log_name_dir_parts p w Hlen Hclen) as (w' & E & Hd & Hc & H).
  exists w'. unfold log_file. rewrite Hd, Hc. split_and!; [done|by apply resolve_parts| |apply H..].
  intros d c -> Hdn Hdl Hcn Hcs. by rewrite dirname_below, basename_below.
Qed.

Lemma tlog_logfile_round_trip_witness :
  let p := bytes_of "/var//log/a.log/" in
  exists w w', (rename_request p;;; get_log_name_dir) w = Ret (w', tt)
    /\ log_file (nam (lf w')) = bytes_of "/var//log/a.log" /\ resolve (log_file (nam (lf w'))) = resolve p.
Proof.
  set (w := mk_world (mk_fs ∅ ∅ ∅ ∅ 0 ∅ 0 0 0)
    (mk_logfile (Tlog.mk_settings 0 0 0 true true false false false 1024) (mk_handle 3 0 0 (-1) 0 true)
      (mk_naming [] [] [] [] false) (mk_perms 0 0 false) false) [] 0 (mk_tm 0 0 0 0 0 0)).
  intros p. exists w. destruct (tlog_logfile_round_trip p w) as (w' & E & H & _); [done..|].
  exists w'. split_and!; [exact E| |exact H]. vm_compute in E. by injection E as <-.
Defined.

(** ** Making directories *)

Lemma split_app_name a c : no_slash c -> split (a ++ c) = removelast (split a) ++ [default [] (last (split a)) ++ c].
Proof.
  intros Hc. induction a as [|b a IH]; cbn.
  - by apply split_no_slash.
  - pose proof (split_nonempty a). case_bool_decide.
    + rewrite IH. by destruct (split a).
    + rewrite IH. destruct (split a) as [|x [|y l]]; done.
Qed.

Lemma split_snoc_slash a : split (a ++ [slash]) = split a ++ [[]].
Proof. apply (split_below a []). unfold no_slash. apply not_elem_of_nil. Qed.

(** The directory a name that begins here will be made in. *)
Definition so_far (abs : bool) (before : path) : place :=
  (abs, filter significant (removelast (split before))).

Lemma so_far_slash abs before : so_far abs (before ++ [slash]) = (abs, filter significant (split before)).
Proof. unfold so_far. by rewrite split_snoc_slash, removelast_last. Qed.

Lemma so_far_other abs before b : b <> slash -> so_far abs (before ++ [b]) = so_far abs before.
Proof.
  intros Hb. unfold so_far. rewrite split_app_name, removelast_last; [done|].
  unfold no_slash. apply not_elem_of_cons. split; [done|apply not_elem_of_nil].
Qed.

(** A path leads to the directory so far, or to an entry of it. *)
Lemma resolve_so_far abs before :
  before <> [] -> bool_decide (head before = Some slash) = abs ->
  resolve before = so_far abs before \/ parent (resolve before) = so_far abs before.
Proof.
  intros Hne <-. unfold resolve, so_far, parent. cbn [fst snd].
  destruct (exists_last (split_nonempty before)) as (cs & c & ->).
  rewrite removelast_last, filter_app. destruct (decide (significant c)) as [Hs|Hs].
  - right. by rewrite filter_cons_True, removelast_last.
  - left. by rewrite filter_cons_False, app_nil_r.
Qed.

Section Mkdir.
Context {K : Kernel}.

(** [access] finds only what is there, and where nothing fails all of it. *)
Lemma wp_access_maybe p (Q : bool -> fs -> logfile -> Prop) s l :
  (forall s' there, same s' s -> (there = true -> present s p = true) ->
     (benign -> there = present s p) -> Q there s' l) ->
  wp (do_sys (access p)) Q s l.
Proof.
  intros H. wp_call s' b E. apply call_cases in E as [([e He] & Hs & ->)|[_ E]].
  - apply H; [done|done|]. intros B. by rewrite (never_refused B) in He.
  - change (present (ticked s) p) with (present s p) in E.
    destruct (present s p) eqn:Ep; injection E as <- <-; apply H; try done; by split_and!.
Qed.

(** Directories are added, and names stay as they are. *)
Definition grown (s s' : fs) : Prop :=
  dirs s ⊆ dirs s' /\ names s' = names s /\ inodes s' = inodes s /\ fds s' = fds s.

Lemma grown_same s s' : same s' s -> grown s s'.
Proof. intros (E & ? & ? & ? & _). split_and!; [by rewrite E|done..]. Qed.

Lemma grown_trans s1 s2 s3 : grown s1 s2 -> grown s2 s3 -> grown s1 s3.
Proof. intros (A1 & A2 & A3 & A4) (B1 & B2 & B3 & B4). split_and!; [by etrans|congruence..]. Qed.

Lemma mkdir_cases p s s' r :
  mkdir p s = (s', r) -> grown s s' /\
  ((r = -1 /\ (benign -> present s p = true \/ parent (resolve p) ∉ dirs s)) \/
   (r = 0 /\ resolve p ∈ dirs s')).
Proof.
  intros [([e He] & Hs & ->)|[_ H]]%call_cases.
  { split; [by apply grown_same|]. left. split; [done|]. intros B. by rewrite (never_refused B) in He. }
  change (present (ticked s) p) with (present s p) in H. cbn in H.
  destruct (present s p) eqn:Ep.
  { injection H as <- <-. split; [by apply grown_same|]. left. split; [done|]. by left. }
  case_bool_decide as Hd; injection H as <- <-.
  - split; [split_and!; [cbn; set_solver|done..]|]. right. split; [done|]. cbn. set_solver.
  - split; [by apply grown_same|]. left. split; [done|]. by right.
Qed.

(** No file stands where a directory is wanted. *)
Definition unobstructed (s : fs) (p : path) : Prop :=
  forall q rest, p = q ++ slash :: rest -> q <> [] -> names s !! resolve q = None.

Lemma wp_mkdir_loop (good : Prop) abs before rest s0 (Q : Z -> fs -> logfile -> Prop) s l :
  (good -> benign) -> (good -> unobstructed s0 (before ++ rest)) ->
  grown s0 s -> bool_decide (head (before ++ rest) = Some slash) = abs ->
  (good -> so_far abs before ∈ dirs s) ->
  (forall s' r, grown s0 s' -> r = 0 \/ r = -1 ->
     (good -> r = 0 /\ so_far abs (before ++ rest) ∈ dirs s') ->
     Q r s' l) ->
  wp (mkdir_loop before rest) Q s l.
Proof.
  intros HB. revert before s.
  induction rest as [|b rest IH]; intros before s HU Hg Ha Hd HQ; cbn [mkdir_loop].
  { rewrite app_nil_r in *. wp_step. apply HQ; [done|by left|auto]. }
  assert (forall s', grown s0 s' -> (good -> so_far abs (before ++ [b]) ∈ dirs s') -> wp (mkdir_loop (before ++ [b]) rest) Q s' l) as Hnext.
  { intros s' Hg' Hd'. apply IH; rewrite <- ?app_assoc; done. }
  destruct (decide (b = slash)) as [->|Hb].
  2: { rewrite (bool_decide_eq_false_2 (b = slash)) by done. cbn [negb orb].
       apply Hnext; [done|]. intros G. rewrite so_far_other by done. by apply Hd. }
  rewrite bool_decide_eq_true_2 by done. cbn [negb orb].
  destruct (decide (before = [])) as [->|Hne].
  { rewrite bool_decide_eq_true_2 by done. by apply Hnext. }
  rewrite (bool_decide_eq_false_2 (before = [])) by done.
  assert (bool_decide (head before = Some slash) = abs) as Hab by (destruct before; done).
  assert (so_far abs (before ++ [slash]) = resolve before) as Hsf.
  { rewrite so_far_slash. unfold resolve. by rewrite Hab. }
  rewrite Hsf in Hnext. wp_step. apply wp_access_maybe. intros s1 there Hs1 Hthere Hall.
  pose proof (grown_trans _ _ _ Hg (grown_same _ _ Hs1)) as Hg1.
  destruct there; cbn beta iota.
  { apply Hnext; [done|]. intros G. pose proof (Hthere eq_refl) as Ep. unfold present, is_dir in Ep.
    apply orb_true_iff in Ep as [Ep|Ep]; apply bool_decide_eq_true in Ep.
    - by destruct Hs1 as (-> & _).
    - destruct Hg as (_ & Hn & _). rewrite Hn in Ep. rewrite (HU G before rest) in Ep by done. by destruct Ep. }
  wp_step. wp_call s2 r E. apply mkdir_cases in E as [Hg2 Hr].
  pose proof (grown_trans _ _ _ Hg1 Hg2) as Hg02.
  destruct Hr as [[-> Hr]|[-> Hin]]; wp_step.
  - wp_step. apply HQ; [done|by right|]. intros G. exfalso. pose proof (Hall (HB G)) as Ep.
    rewrite (present_same _ _ _ Hs1) in Hr. destruct (Hr (HB G)) as [Hr'|Hr']; [congruence|].
    destruct Hs1 as (Ed1 & _). rewrite Ed1 in Hr'.
    destruct (resolve_so_far abs before Hne Hab) as [E|E]; [|rewrite E in Hr'; by apply Hr', Hd].
    pose proof (Hd G) as U. rewrite <- E in U. unfold present, is_dir in Ep.
    by rewrite bool_decide_eq_true_2 in Ep by done.
  - apply Hnext; [done|]. done.
Qed.

End Mkdir.

(** [_tlog_mkdir] always returns, with 0 or -1, for every path shorter than its buffer, and
    only adds directories. Where nothing fails, no file stands in the way, and the
    path begins at a directory, the result is 0 and the directory is there. *)
Theorem tlog_mkdir_makes {K : Kernel} p w :
  Z.of_nat (length p) + 1 < PATH_MAX -> head p <> Some x20 -> p <> [] ->
  exists w' r, tlog_mkdir p w = Ret (w', r) /\ (r = 0 \/ r = -1)
    /\ grown (sys w) (sys w')
    /\ (benign -> (bool_decide (head p = Some slash), []) ∈ dirs (sys w) ->
        unobstructed (sys w) (p ++ [slash]) -> r = 0 /\ resolve p ∈ dirs (sys w')).
Proof.
  intros Hlen Hb Hne.
  assert (drop_blanks p = p) as Hdb.
  { destruct p as [|b p]; [done|]. cbn. rewrite bool_decide_eq_false_2; [done|]. by intros ->. }
  assert (copied PATH_MAX p = p) as Hcp by (apply take_ge; lia).
  set (abs := bool_decide (head p = Some slash)).
  assert (so_far abs (p ++ [slash]) = resolve p) as Hsf by by rewrite so_far_slash.
  edestruct (wp_bind (do_sys (access p)) (fun there : bool => if there then mret 0 else
      let path_c := copied PATH_MAX (drop_blanks p) in
      if bool_decide (Z.of_nat (length path_c) + 1 >= PATH_MAX) then lift Crash
      else mkdir_loop [] (path_c ++ [slash]))
    (fun r s' _ => (r = 0 \/ r = -1) /\ grown (sys w) s' /\
       (benign -> (abs, []) ∈ dirs (sys w) -> unobstructed (sys w) (p ++ [slash]) ->
        r = 0 /\ resolve p ∈ dirs s')) (sys w) (lf w)) as (w' & r & E & H);
    [|reflexivity|reflexivity|].
  - apply wp_access_maybe. intros s1 there Hs1 Hthere _. destruct there; cbn beta iota.
    + wp_step. split_and!; [by left|by apply grown_same|]. intros _ _ U. split; [done|].
      pose proof (Hthere eq_refl) as Ep. destruct Hs1 as (-> & _). unfold present, is_dir in Ep.
      apply orb_true_iff in Ep as [Ep|Ep]; apply bool_decide_eq_true in Ep; [done|].
      rewrite (U p []) in Ep by done. by destruct Ep.
    + cbn zeta. rewrite Hdb, Hcp. wp_step.
      apply (wp_mkdir_loop (benign /\ (abs, []) ∈ dirs (sys w)
        /\ unobstructed (sys w) (p ++ [slash])) abs [] (p ++ [slash]) (sys w)).
      * by intros (? & _).
      * by intros (_ & _ & ?).
      * by apply grown_same.
      * unfold abs. by destruct p.
      * intros (_ & Hroot & _). by destruct Hs1 as (-> & _).
      * intros s' r Hg Hr HG. split_and!; [done|done|]. intros B Hroot U.
        destruct HG as [-> HG]; [done|]. split; [done|]. by rewrite <- Hsf.
  - exists w', r. split_and!; [exact E|apply H..].
Qed.

Lemma tlog_mkdir_makes_witness :
  let K := LogHistory.demo None [] in
  exists w', tlog_mkdir (K := K) (bytes_of "/var/log/estuary/") (LogHistory.demo_world true 10 2) = Ret (w', 0)
    /\ resolve (bytes_of "/var/log/estuary") ∈ dirs (sys w').
Proof.
  intros K.
  destruct (tlog_mkdir_makes (K := K) (bytes_of "/var/log/estuary/")
    (LogHistory.demo_world true 10 2)) as (w' & r & E & _ & _ & H).
  - by vm_compute.
  - done.
  - done.
  - destruct H as [-> H].
    + apply LogHistory.demo_benign.
    + by vm_compute.
    + intros q rest _ _. apply lookup_empty.
    + exists w'. split; [exact E|exact H].
Defined.

(** ** Local time *)

(** Successive calls. *)
Fixpoint localtimes {K : Kernel} (ts : list Z) : M (list (option tm)) :=
  match ts with
  | [] => mret []
  | t :: ts => let! r := localtime t in let! rs := localtimes ts in mret (r :: rs)
  end.

(** The cache as it is at the start, or after a call. *)
Definition cached {K : Kernel} (w : world) : Prop :=
  last_time w = 0 \/ localtime_r (last_time w) = Some (last_tm w).

Lemma localtime_cached {K : Kernel} t w :
  cached w -> t <> 0 -> exists w', localtime t w = Ret (w', localtime_r t) /\ cached w'.
Proof.
  intros Hc Ht. unfold localtime. case_bool_decide as E.
  - exists w. destruct Hc as [Hc|Hc]; [congruence|]. rewrite <- E in Hc. rewrite Hc. split; [done|].
    right. by rewrite <- E.
  - destruct (localtime_r t) as [x|] eqn:Ex; eexists; (split; [done|]); [by right|done].
Qed.

(** C29. The cache of [_tlog_localtime] does not show: called for any times but 0, from the
    start of the program, it gives what [localtime_r] gives. For 0 the first call
    gives a time that was never computed. *)
Theorem tlog_localtime_equiv {K : Kernel} ts w :
  last_time w = 0 -> last_tm w = mk_tm 0 0 0 0 0 0 ->
  (Forall (fun t => t <> 0) ts -> exists w', localtimes ts w = Ret (w', localtime_r <$> ts))
  /\ localtimes (0 :: ts) w = ('(w', rs) ← localtimes ts w; Ret (w', Some (mk_tm 0 0 0 0 0 0) :: rs)).
Proof.
  intros H0 H1. split.
  - assert (cached w) as Hc by by left. clear H0 H1. intros Hts. revert w Hc.
    induction Hts as [|t ts Ht _ IH]; intros w Hc; cbn; [by exists w|].
    destruct (localtime_cached t w Hc Ht) as (w1 & E1 & Hc1).
    destruct (IH w1 Hc1) as (w2 & E2). exists w2.
    unfold mbind, M_bind. by rewrite E1; cbn; rewrite E2.
  - cbn. unfold mbind at 1, M_bind at 1. unfold localtime at 1.
    rewrite bool_decide_eq_true_2 by done. cbn. by rewrite H1.
Qed.

Lemma tlog_localtime_equiv_witness :
  let K := LogHistory.demo None [] in
  let w := LogHistory.demo_world true 10 2 in
  (exists w', localtimes (K := K) [5; 5; 65; 5] w = Ret (w', localtime_r (Kernel := K) <$> [5; 5; 65; 5]))
  /\ exists w', localtimes (K := K) [0] w = Ret (w', [Some (mk_tm 0 0 0 0 0 0)])
       /\ localtime_r (Kernel := K) 0 <> Some (mk_tm 0 0 0 0 0 0).
Proof.
  intros K w. split.
  - apply (tlog_localtime_equiv (K := K) [5; 5; 65; 5] w); [done|done|].
    repeat constructor; lia.
  - exists w. split; [|done].
    exact (proj2 (tlog_localtime_equiv (K := K) [] w eq_refl eq_refl)).
Defined.

End LogDir.
