(* ===== verification/LogControl.v ===== *)
(** * tlog.c: opening, choosing and closing logs

    The logs of the process are a singly linked list; here they lie in a store, and what
    is read from a log that was freed is undefined. [tlog_open] and [_tlog_close], the
    way the writer goes through the list, waiting for the gzip processes, and
    [tlog_init] and [tlog_exit]. *)

From Stdlib Require Import ZArith Lia.
From Stdlib Require Import Strings.Byte.
From stdpp Require Import base gmap sets list strings.
From S2P Require Import Prelude TlogFormat Tlog EarlyPrint Filesys LogFile LogWp.

Module LogControl.

Import TlogFormat.
Import Tlog(settings, tlog_log, mk_log, open_settings, init_settings, has_data, max_line_size,
  buffsize, logsize, logcount, logscreen, block, has_flag, TLOG_NOCOMPRESS, TLOG_MAX_LINE_SIZE_SET,
  need_drop, free_room, store_line, set_dropped, dropped, take_snapshot, release).
Import EarlyPrint(early, mk_early, tlog_set_early_printf, tlog_reg_early_printf_callback,
  tlog_reg_early_printf_output_callback).
Import Filesys LogFile.
Local Open Scope Z_scope.

(** ** Logs *)

Definition ptr := positive.

(** What [output_func] points to. *)
Inductive output := FileOutput | RootOutput | UserOutput.

(** A [struct tlog_log]: its ring, its file, and its place in the list. *)
Record node := mk_node {
  ring : tlog_log;
  file : logfile;
  next : option ptr;
  is_exit : bool;
  last_waitpid : Z;
  output_func : output;
  private_data : Z            (* 0 is NULL *)
}.

(** [struct tlog], the static [last_log] of [_tlog_wait_pids], and the outside. *)
Record ctl := mk_ctl {
  nodes : gmap ptr node;
  log : option ptr;
  root : option ptr;
  running : bool;
  root_format : bool;
  output_no_prefix : bool;
  gzip_cmd : path;
  last_log : option ptr;
  outside : world;            (* its [lf] is not used *)
  log_output : bool;          (* [tlog.output_func] is set *)
  early_print : early
}.

Definition set_next q v := mk_node (ring v) (file v) q (is_exit v) (last_waitpid v) (output_func v) (private_data v).
Definition set_file f v := mk_node (ring v) f (next v) (is_exit v) (last_waitpid v) (output_func v) (private_data v).
Definition set_ring r v := mk_node r (file v) (next v) (is_exit v) (last_waitpid v) (output_func v) (private_data v).
Definition set_is_exit v := mk_node (ring v) (file v) (next v) true (last_waitpid v) (output_func v) (private_data v).
Definition set_last_waitpid t v := mk_node (ring v) (file v) (next v) (is_exit v) t (output_func v) (private_data v).

Definition set_output_func x v := mk_node (ring v) (file v) (next v) (is_exit v) (last_waitpid v) x (private_data v).
Definition set_private_data n v :=
  mk_node (ring v) (file v) (next v) (is_exit v) (last_waitpid v) (output_func v) n.

Definition set_nodes m c := mk_ctl m (log c) (root c) (running c) (root_format c)
  (output_no_prefix c) (gzip_cmd c) (last_log c) (outside c) (log_output c) (early_print c).
Definition set_log q c := mk_ctl (nodes c) q (root c) (running c) (root_format c)
  (output_no_prefix c) (gzip_cmd c) (last_log c) (outside c) (log_output c) (early_print c).
Definition set_root q b c := mk_ctl (nodes c) (log c) q (running c) b
  (output_no_prefix c) (gzip_cmd c) (last_log c) (outside c) (log_output c) (early_print c).
Definition set_running b c := mk_ctl (nodes c) (log c) (root c) b (root_format c)
  (output_no_prefix c) (gzip_cmd c) (last_log c) (outside c) (log_output c) (early_print c).
Definition set_last_log q c := mk_ctl (nodes c) (log c) (root c) (running c) (root_format c)
  (output_no_prefix c) (gzip_cmd c) q (outside c)
  (log_output c) (early_print c).
Definition set_outside w c := mk_ctl (nodes c) (log c) (root c) (running c) (root_format c)
  (output_no_prefix c) (gzip_cmd c) (last_log c) w
  (log_output c) (early_print c).

Definition C (A : Type) : Type := ctl -> outcome (ctl * A).
#[export] Instance C_ret : MRet C := fun A a c => Ret (c, a).
#[export] Instance C_bind : MBind C := fun A B f m c => '(c, a) ← m c; f a c.

Notation "'do!' x ':=' m 'in' k" := (mbind (M := C) (fun x => k) m)
  (at level 10, x pattern, m at level 100, k at level 200).

Definition asks {A} (f : ctl -> A) : C A := fun c => Ret (c, f c).
Definition change (f : ctl -> ctl) : C () := fun c => Ret (f c, tt).

(** Reading and changing a log through a pointer. *)
Definition deref (p : ptr) : C node := fun c => v ← defined (nodes c !! p); Ret (c, v).
Definition update (p : ptr) (f : node -> node) : C () := fun c =>
  v ← defined (nodes c !! p); Ret (set_nodes (<[p := f v]> (nodes c)) c, tt).
Definition free (p : ptr) : C () := fun c =>
  _ ← defined (nodes c !! p); Ret (set_nodes (delete p (nodes c)) c, tt).

(** An operation of LogFile.v on the log at [p]. *)
Definition on_file {A} (p : ptr) (m : M A) : C A := fun c =>
  v ← defined (nodes c !! p);
  let o := outside c in
  '(w, a) ← m (mk_world (sys o) (file v) (screen o) (last_time o) (last_tm o));
  Ret (set_outside w (set_nodes (<[p := set_file (lf w) v]> (nodes c)) c), a).

Section Operations.
Context {K : Kernel}.

(** ** Opening and closing *)

(** The log [tlog_open] fills in. *)
Definition new_log (mem : list byte) (tty gzip : bool) (logname : path)
    (maxlogsize maxlogcount buffsize flag : Z) (head : option ptr) : node :=
  let o := open_settings maxlogsize maxlogcount buffsize flag tty gzip in
  mk_node (mk_log mem 0 0 0 0 0)
    (mk_logfile o (mk_handle (-1) 0 0 (-1) 0 true)
       (mk_naming [] [] (if Tlog.nocompress o then [] else GZ) (copied PATH_MAX logname) true)
       (mk_perms 416 288 false) false)
    head false 0 FileOutput 0.

(** [tlog_open]: [p] is what the first [malloc] gave, [buffer] the second. *)
Definition tlog_open (p : option ptr) (buffer : option (list byte)) (tty : bool)
    (logname : path) (maxlogsize maxlogcount buffsize flag : Z) : C (option ptr) :=
  do! run := asks running in
  if negb run then mret None
  else
    match p with
    | None => mret None
    | Some p =>
        do! gzip := asks (fun c => negb (bool_decide (gzip_cmd c = []))) in
        match buffer with
        | None => mret None
        | Some mem =>
            do! head := asks log in
            do! _ := change (fun c => set_nodes
              (<[p := new_log mem tty gzip logname maxlogsize maxlogcount buffsize flag head]> (nodes c)) c) in
            do! _ := change (set_log (Some p)) in
            mret (Some p)
        end
    end.

(** [tlog_close] *)
Definition tlog_close (p : option ptr) : C () :=
  match p with
  | None => mret tt
  | Some p => update p set_is_exit
  end.

(** The loop of [_tlog_close] that takes a log out of the list behind its head. *)
Fixpoint unlink_log (fuel : nat) (p : ptr) (q : option ptr) : C Z :=
  match q with
  | None => mret 0
  | Some q =>
      match fuel with
      | O => fun _ => NoFuel
      | S fuel =>
          do! v := deref q in
          if bool_decide (next v = Some p) then
            do! x := deref p in
            do! _ := update q (set_next (next x)) in
            do! _ := free p in
            mret (-1)
          else unlink_log fuel p (next v)
      end
  end.

Definition close_file (p : ptr) : C () :=
  do! v := deref p in
  do! _ := (if bool_decide (fd (hnd (file v)) > 0)
            then on_file p (do_sys (fun s => (close (fd (hnd (file v))) s, tt));;; on_hnd (set_fd (-1)))
            else mret tt) in
  on_file p log_unlock.

(** [_tlog_close] *)
Definition close_log (p : ptr) (wait_hang : bool) : C Z :=
  do! head := asks log in
  do! v := deref p in
  do! _ := (if bool_decide (zip_pid (hnd (file v)) > 0) then on_file p (wait_pid wait_hang) else mret tt) in
  do! v := deref p in
  if bool_decide (zip_pid (hnd (file v)) > 0) then mret (-1)
  else
    do! _ := close_file p in
    if bool_decide (head = Some p) then
      do! v := deref p in
      do! _ := change (set_log (next v)) in
      do! _ := free p in
      mret 0
    else
      do! fuel := asks (fun c => S (size (nodes c))) in
      unlink_log fuel p head.

(** ** The writer's way through the list *)

Definition next_log (last : option ptr) : C (option ptr) :=
  match last with
  | None => asks log
  | Some p => do! v := deref p in mret (next v)
  end.

(** [_tlog_any_has_data_locked] *)
Fixpoint any_has_data (fuel : nat) (q : option ptr) : C bool :=
  match q with
  | None => mret false
  | Some q =>
      match fuel with
      | O => fun _ => NoFuel
      | S fuel =>
          do! v := deref q in
          if has_data (ring v) then mret true else any_has_data fuel (next v)
      end
  end.

(** What a round of [_tlog_work] comes to, with [log] in hand. *)
Inductive picked :=
  | Again (log : option ptr)     (* the next round, with this log *)
  | WaitOn (log : ptr)           (* [_tlog_wait_log_locked] *)
  | WriteOut (log : ptr).        (* there is something to write *)

(** From [_tlog_next_log] to the test for data; a log without data that is to be closed is
    closed. *)
Definition work_pick (log0 : option ptr) : C picked :=
  do! p := next_log log0 in
  match p with
  | None => mret (Again None)
  | Some p =>
      do! fuel := asks (fun c => S (size (nodes c))) in
      do! head := asks log in
      do! any := any_has_data fuel head in
      do! run := asks running in
      if negb any && run then mret (WaitOn p)
      else
        do! v := deref p in
        if has_data (ring v) then mret (WriteOut p)
        else if is_exit v then
          do! r := close_log p false in
          mret (Again (if bool_decide (r = 0) then None else Some p))
        else mret (Again (Some p))
  end.

(** [_tlog_wait_pids]: at most one log is looked at. *)
Fixpoint poll_one (fuel : nat) (now : Z) (q : option ptr) : C () :=
  match q with
  | None => change (set_last_log None)
  | Some p =>
      match fuel with
      | O => fun _ => NoFuel
      | S fuel =>
          do! v := deref p in
          do! last := asks last_log in
          if bool_decide (zip_pid (hnd (file v)) <= 0) || bool_decide (Some p = last)
             || bool_decide (last_waitpid v = now)
          then poll_one fuel now (next v)
          else
            do! _ := change (set_last_log (Some p)) in
            do! _ := update p (set_last_waitpid now) in
            on_file p (wait_pid false)
      end
  end.

Definition wait_pids (now : Z) : C () :=
  do! fuel := asks (fun c => S (size (nodes c))) in
  do! head := asks log in
  poll_one fuel now head.

(** A round of [_tlog_work] up to the output; [None] when the loop is left. *)
Definition work_round (now : Z) (log0 : option ptr) : C (option picked) :=
  do! run := asks running in
  do! over := (if (run : bool) then mret false
               else do! fuel := asks (fun c => S (size (nodes c))) in
                    do! head := asks log in
                    do! any := any_has_data fuel head in
                    mret (negb any)) in
  if (over : bool) then mret None
  else
    do! _ := wait_pids now in
    do! r := work_pick log0 in
    mret (Some r).

(** ** Waiting for gzip at the start *)

(** One round of [tlog_wait_zip_fini], the [time_out]-th; [alive pid] is whether
    [kill(pid, 0)] succeeds. *)
Fixpoint zip_round (alive : Z -> bool) (fuel : nat) (time_out : Z) (q : option ptr) (wait_zip : bool) : C bool :=
  match q with
  | None => mret wait_zip
  | Some p =>
      match fuel with
      | O => fun _ => NoFuel
      | S fuel =>
          do! v := deref p in
          let pid := zip_pid (hnd (file v)) in
          let wait_zip := wait_zip || bool_decide (pid > 0) in
          do! _ := (if negb (alive pid) || bool_decide (time_out >= 5000)
                    then update p (fun v => set_file (with_hnd (set_zip_pid (-1)) (file v)) v)
                    else mret tt) in
          zip_round alive fuel time_out (next v) wait_zip
      end
  end.

Fixpoint zip_rounds (alive : Z -> Z -> bool) (rounds : nat) (time_out : Z) : C () :=
  match rounds with
  | O => fun _ => NoFuel
  | S rounds =>
      let time_out := time_out + 1 in
      do! fuel := asks (fun c => S (size (nodes c))) in
      do! head := asks log in
      do! wait_zip := zip_round (alive time_out) fuel time_out head false in
      if (wait_zip : bool) then zip_rounds alive rounds time_out else mret tt
  end.

(** [tlog_wait_zip_fini]; there are at most 5001 rounds. *)
Definition wait_zip_fini (alive : Z -> Z -> bool) (rounds : nat) : C () :=
  do! r := asks root in
  match r with
  | None => mret tt
  | Some _ => zip_rounds alive rounds 0
  end.

(** ** Forks *)

(** The loops of [tlog_fork_prepare] and [tlog_fork_child]. *)
Fixpoint for_logs (fuel : nat) (f : node -> node) (q : option ptr) : C () :=
  match q with
  | None => mret tt
  | Some p =>
      match fuel with
      | O => fun _ => NoFuel
      | S fuel => do! v := deref p in do! _ := update p f in for_logs fuel f (next v)
      end
  end.

Definition each_log (f : node -> node) : C () :=
  do! r := asks root in
  match r with
  | None => mret tt
  | Some _ =>
      do! fuel := asks (fun c => S (size (nodes c))) in
      do! head := asks log in
      for_logs fuel f head
  end.

Definition tlog_fork_prepare : C () :=
  each_log (fun v => set_file (with_opts (set_multi_log true) (file v)) v).

(** [created] is whether the child's writer thread could be created. *)
Definition tlog_fork_child (created : bool) : C () :=
  do! _ := each_log (fun v =>
    set_ring (mk_log (Tlog.buff (ring v)) 0 0 0 0 (Tlog.waiters (ring v)))
      (set_file (with_hnd (set_filesize 0) (file v)) v)) in
  if (created : bool) then mret tt
  else each_log (fun v => set_file (mk_logfile (opts (file v)) (hnd (file v)) (nam (file v)) (per (file v)) true) v).

(** ** Start and end *)

(** The settings for early messages when [tlog] is all zero. *)
Definition no_early : early := mk_early false false false false false false.


(** The loop of [tlog_exit]. *)
Fixpoint close_all (fuel : nat) : C () :=
  do! head := asks log in
  match head with
  | None => mret tt
  | Some p =>
      match fuel with
      | O => fun _ => NoFuel
      | S fuel => do! _ := close_log p true in close_all fuel
      end
  end.

(** [tlog_exit], after the writer has been joined. *)
Definition tlog_exit (fuel : nat) : C () :=
  do! up := asks root_format in
  if negb up then mret tt
  else
    do! _ := change (set_running false) in
    do! _ := change (set_root None true) in
    do! _ := close_all fuel in
    change (set_root None false).

Definition set_no_prefix b c := mk_ctl (nodes c) (log c) (root c) (running c) (root_format c)
  b (gzip_cmd c) (last_log c) (outside c) (log_output c) (early_print c).
Definition set_log_output b c := mk_ctl (nodes c) (log c) (root c) (running c) (root_format c)
  (output_no_prefix c) (gzip_cmd c) (last_log c) (outside c) b (early_print c).
Definition set_early f c := mk_ctl (nodes c) (log c) (root c) (running c) (root_format c)
  (output_no_prefix c) (gzip_cmd c) (last_log c) (outside c) (log_output c) (f (early_print c)).
Definition TLOG_FORMAT_NO_PREFIX : Z := Z.shiftl 1 7.

(** [tlog_init]; [gzip] is the command found, [created] whether the writer thread could
    be created. *)
Definition tlog_init (p : option ptr) (buffer : option (list byte)) (tty : bool) (gzip : path) (created : bool)
    (logfile : path) (maxlogsize maxlogcount buffsize flag : Z) : C Z :=
  do! up := asks root_format in
  if (up : bool) then mret (-1)
  else if bool_decide (0 < buffsize < TLOG_MAX_LINE_SIZE_SET * 2) then mret (-1)
  else
    (* memset *)
    do! _ := change (fun c => mk_ctl (nodes c) None None true false false gzip (last_log c) (outside c)
      false no_early) in
    do! l := tlog_open p buffer tty logfile maxlogsize maxlogcount buffsize flag in
    match l with
    | None => do! _ := change (fun c => set_root None false (set_running false c)) in mret (-1)
    | Some p =>
        do! _ := update p (set_output_func RootOutput) in
        do! _ := change (set_no_prefix (has_flag flag TLOG_FORMAT_NO_PREFIX)) in
        do! _ := change (set_root (Some p) true) in
        if (created : bool) then mret 0
        else
          do! _ := change (fun c => set_root None false (set_running false c)) in
          do! _ := close_log p true in
          mret (-1)
    end.

(** ** What a program asks of the library *)

(** A change of a log that the caller may have none of. *)
Definition on_log (p : option ptr) (f : logfile -> logfile) : C () :=
  match p with
  | None => mret tt
  | Some p => update p (fun v => set_file (f (file v)) v)
  end.

Definition tlog_set_permission (file_perm archive_perm : Z) (f : logfile) : logfile :=
  mk_logfile (opts f) (hnd f) (nam f) (mk_perms file_perm archive_perm true) (fail f).

(** [tlog_rename_logfile] reads the log it is given, whatever it is. *)
Definition tlog_rename_logfile (p : option ptr) (logfile : path) : C () :=
  match p with
  | None => fun _ => Crash
  | Some p => on_file p (rename_request logfile)
  end.

(** [tlog_reg_output_func]; [user] is whether the caller has a function of its own. *)
Definition tlog_reg_output_func (p : option ptr) (user : bool) : C Z :=
  do! r := asks root in
  if bool_decide (p = r) then mret (-1)
  else
    match p with
    | None => mret (-1)
    | Some p => do! _ := update p (set_output_func (if user then UserOutput else FileOutput)) in mret 0
    end.

(** [tlog_set_private] *)
Definition tlog_set_private (p : option ptr) (data : Z) : C () :=
  match p with
  | None => mret tt
  | Some p => update p (set_private_data data)
  end.

(** [tlog_reg_log_output_func]; [callback] is whether it is not NULL. *)
Definition tlog_reg_log_output_func (callback : bool) (data : Z) : C Z :=
  do! _ := change (set_log_output callback) in
  do! r := asks root in
  do! _ := tlog_set_private r data in
  mret 0.

(** [tlog_reg_format_func]; [callback] is whether it is not NULL. *)
Definition tlog_reg_format_func (callback : bool) : C Z :=
  do! _ := change (fun c => set_root (root c) callback c) in mret 0.

(** *** Printing *)

(** [_tlog_vprintf] with its line laid out, from [_tlog_need_drop] to the end of the first
    round of its loop, or a later round: [maxlen] is the value the round before left. The
    result says whether the function is through; otherwise the caller sleeps until the
    writer wakes it, and comes round again. *)
Definition print_round (p : ptr) (maxlen : Z) (line : list byte) : C bool :=
  do! v := deref p in
  let o := opts (file v) in
  if bool_decide (logcount o <= 0) && negb (logscreen o) then mret true
  else
    let '(l, drop) := need_drop o (ring v) in
    if (drop : bool) then do! _ := update p (set_ring l) in mret true
    else
      if bool_decide (free_room o l maxlen < max_line_size o) then
        if block o then mret false
        else do! _ := update p (set_ring (set_dropped (dropped l + 1) l)) in mret true
      else
        match store_line o l line with
        | Ret l => do! _ := update p (set_ring l) in mret true
        | _ => fun _ => Crash
        end.

(** [tlog_vprintf] *)
Definition tlog_vprintf (p : option ptr) (maxlen : Z) (line : list byte) : C bool :=
  match p with
  | None => mret true
  | Some p => print_round p maxlen line
  end.

(** [tlog_vext] with a message of a level that passes; before [tlog_init] it is printed by
    the functions of EarlyPrint.v. *)
Definition tlog_vext (maxlen : Z) (line : list byte) : C bool :=
  do! r := asks root in
  match r with
  | None => mret true
  | Some p =>
      do! v := deref p in
      if bool_decide (logsize (opts (file v)) <= 0) then mret true else print_round p maxlen line
  end.

(** What [_tlog_work] does to the ring of a log whose data it has written. *)
Definition work_release (p : ptr) : C () :=
  update p (fun v => set_ring (release (take_snapshot (ring v)) (set_dropped 0 (ring v))) v).

(** *** All of them *)

(** The public functions that do something to a log or to the list, with the values
    [malloc], [isatty] and [pthread_create] give; a printing call comes with its line and with what
    [maxlen] is. What [tlog_write] does to a log's file is in LogFile.v. *)
Inductive request :=
  | Init (p : option ptr) (buffer : option (list byte)) (tty : bool) (gzip : path) (created : bool)
      (logfile : path) (maxlogsize maxlogcount buffsize flag : Z)
  | Open (p : option ptr) (buffer : option (list byte)) (tty : bool)
      (logfile : path) (maxlogsize maxlogcount buffsize flag : Z)
  | Close (p : option ptr)
  | Exit (fuel : nat)
  | Vprintf (p : option ptr) (maxlen : Z) (line : list byte)
  | Vext (maxlen : Z) (line : list byte)
  | RenameLogfile (p : ptr) (logfile : path)
  | SetMaxlineSize (p : option ptr) (size : Z)
  | SetCount (p : option ptr) (count : Z)
  | SetScreen (p : option ptr) (enable : Z)
  | SetPermission (p : ptr) (file_perm archive_perm : Z)
  | SetMaxlogCount (count : Z)
  | SetLogfile (logfile : path)
  | SetlogScreen (enable : Z)
  | RegOutputFunc (p : option ptr) (user : bool)
  | RegFormatFunc (callback : bool)
  | RegLogOutputFunc (callback : bool) (data : Z)
  | SetPrivate (p : option ptr) (data : Z)
  | SetEarlyPrintf (enable no_prefix color : Z) (tty : bool)
  | RegEarlyPrintf (callback : bool)
  | RegEarlyOutput (callback : bool) (log_screen : Z)
  | ForkPrepare
  | ForkChild (created : bool).

Definition run_request (r : request) : C () :=
  match r with
  | Init p buffer tty gzip created f size count bsize flag =>
      do! _ := tlog_init p buffer tty gzip created f size count bsize flag in mret tt
  | Open p buffer tty f size count bsize flag =>
      do! _ := tlog_open p buffer tty f size count bsize flag in mret tt
  | Close p => tlog_close p
  | Exit fuel => tlog_exit fuel
  | Vprintf p maxlen line => do! _ := tlog_vprintf p maxlen line in mret tt
  | Vext maxlen line => do! _ := tlog_vext maxlen line in mret tt
  | RenameLogfile p f => tlog_rename_logfile (Some p) f
  | SetLogfile f => do! p := asks root in tlog_rename_logfile p f
  | SetMaxlineSize p n => on_log p (with_opts (Tlog.tlog_set_maxline_size n))
  | SetCount p n => on_log p (with_opts (Tlog.tlog_logcount n))
  | SetScreen p b => on_log p (with_opts (Tlog.tlog_logscreen b))
  | SetPermission p f a => on_log (Some p) (tlog_set_permission f a)
  | SetMaxlogCount n => do! p := asks root in on_log p (with_opts (Tlog.tlog_logcount n))
  | SetlogScreen b => do! p := asks root in on_log p (with_opts (Tlog.tlog_logscreen b))
  | RegOutputFunc p user => do! _ := tlog_reg_output_func p user in mret tt
  | RegFormatFunc b => do! _ := tlog_reg_format_func b in mret tt
  | RegLogOutputFunc b d => do! _ := tlog_reg_log_output_func b d in mret tt
  | SetPrivate p d => tlog_set_private p d
  | SetEarlyPrintf e n k tty => change (set_early (tlog_set_early_printf e n k tty))
  | RegEarlyPrintf b => change (set_early (tlog_reg_early_printf_callback b))
  | RegEarlyOutput b s => change (set_early (tlog_reg_early_printf_output_callback b s))
  | ForkPrepare => tlog_fork_prepare
  | ForkChild created => tlog_fork_child created
  end.

(** The state a process starts with. *)
Definition no_logs (w : world) : ctl := mk_ctl ∅ None None false false false [] None w false no_early.

End Operations.

End LogControl.
