(* ===== verification/LogList.v ===== *)
(** * The list of logs

    What the operations of LogControl.v do to the list: opening and closing a log, the
    writer's round, the wait for gzip at the start, and the end of the library. *)

From Stdlib Require Import ZArith Lia.
From Stdlib Require Import Strings.Byte.
From stdpp Require Import base gmap sets list strings.
From S2P Require Import Prelude TlogFormat Tlog Filesys LogFile LogWp LogHistory LogControl.

Module LogList.

Import TlogFormat.
Import Tlog(settings, tlog_log, mk_log, open_settings, init_settings, has_data, max_line_size,
  buffsize, logsize, logcount, has_flag, TLOG_NOCOMPRESS, TLOG_MAX_LINE_SIZE_SET).
Import Filesys LogFile LogControl.
Import LogHistory(demo, demo_log, demo_world).
Local Open Scope Z_scope.


(** ** The list of logs *)

(** The logs from [q] on are [l]. *)
Fixpoint chain (m : gmap ptr node) (q : option ptr) (l : list ptr) : Prop :=
  match l with
  | [] => q = None
  | p :: l => q = Some p /\ exists v, m !! p = Some v /\ chain m (next v) l
  end.

Lemma chain_unique m q l l' : chain m q l -> chain m q l' -> l = l'.
Proof.
  revert q l'. induction l as [|p l IH]; intros q [|p' l'].
  - done.
  - by intros -> [? _].
  - by intros [-> _] ?.
  - intros (-> & v & Hv & H) ([= <-] & v' & Hv' & H'). simplify_eq. f_equal. by eapply IH.
Qed.

Lemma chain_suffix m q a p b : chain m q (a ++ p :: b) -> chain m (Some p) (p :: b).
Proof.
  revert q. induction a as [|x a IH]; intros q; cbn.
  - by intros (-> & H).
  - intros (_ & v & _ & H). by eapply IH.
Qed.

(** A chain that ends has no loops. *)
Lemma chain_NoDup m q l : chain m q l -> NoDup l.
Proof.
  revert q. induction l as [|p l IH]; intros q H; [constructor|].
  pose proof H as (-> & v & Hv & Hl). constructor; [|by eapply IH].
  intros (a & b & ->)%list_elem_of_split. apply chain_suffix in Hl.
  pose proof (chain_unique _ _ _ _ H Hl) as E. apply (f_equal length) in E.
  cbn in E. rewrite length_app in E. cbn in E. lia.
Qed.

Lemma chain_in m q l p : chain m q l -> p ∈ l -> is_Some (m !! p).
Proof.
  revert q. induction l as [|x l IH]; intros q H; [by intros ?%not_elem_of_nil|].
  destruct H as (-> & v & Hv & Hl). intros [->|Hp]%elem_of_cons; [by eexists|by eapply IH].
Qed.

Lemma chain_length m q l : chain m q l -> (length l <= size m)%nat.
Proof.
  intros H. rewrite <- size_dom.
  rewrite <- (size_list_to_set (C := gset ptr)) by (by eapply chain_NoDup).
  apply subseteq_size. intros p Hp%elem_of_list_to_set. apply elem_of_dom. by eapply chain_in.
Qed.

(** Changes that leave the list as it is. *)
Lemma chain_insert m q l p v v' :
  m !! p = Some v -> next v' = next v -> chain m q l -> chain (<[p := v']> m) q l.
Proof.
  intros Hp Hn. revert q. induction l as [|x l IH]; intros q; cbn; [done|].
  intros (-> & u & Hu & H). split; [done|]. destruct (decide (x = p)) as [->|Hne].
  - exists v'. rewrite lookup_insert_eq. split; [done|]. rewrite Hn. simplify_eq. by apply IH.
  - exists u. rewrite lookup_insert_ne by done. split; [done|by apply IH].
Qed.

Lemma chain_outside m m' q l :
  (forall p, p ∈ l -> m' !! p = m !! p) -> chain m q l -> chain m' q l.
Proof.
  revert q. induction l as [|x l IH]; intros q Hm; cbn; [done|].
  intros (-> & u & Hu & H). split; [done|]. exists u. rewrite Hm by left. split; [done|].
  apply IH; [|done]. intros p Hp. apply Hm. by right.
Qed.

(** A log is taken out from behind [q]. *)
Lemma chain_remove m h a q p b vq vp :
  chain m h (a ++ q :: p :: b) -> m !! q = Some vq -> m !! p = Some vp ->
  chain (delete p (<[q := set_next (next vp) vq]> m)) h (a ++ q :: b).
Proof.
  intros H Hq Hp. pose proof (chain_NoDup _ _ _ H) as Hd.
  assert (q <> p /\ p ∉ b /\ q ∉ b) as (Hqp & Hpb & Hqb).
  { apply NoDup_app in Hd as (_ & _ & Hd). rewrite !NoDup_cons, elem_of_cons in Hd. naive_solver. }
  revert h H Hd. induction a as [|x a IH]; intros h H Hd.
  - cbn in H. destruct H as (-> & v & Hv & Hn & v' & Hv' & H). simplify_eq. split; [done|].
    exists (set_next (next vp) vq). rewrite lookup_delete_ne, lookup_insert_eq by done.
    split; [done|]. cbn. eapply chain_outside; [|exact H].
    intros y Hy. rewrite lookup_delete_ne, lookup_insert_ne; [done|..]; by intros ->.
  - cbn in H. destruct H as (-> & v & Hv & H).
    assert (x <> q /\ x <> p) as [Hxq Hxp].
    { apply NoDup_cons in Hd as [Hx _]. rewrite elem_of_app, !elem_of_cons in Hx. naive_solver. }
    apply NoDup_cons in Hd as [_ Hd]. split; [done|]. exists v.
    rewrite lookup_delete_ne, lookup_insert_ne by done. split; [done|]. by apply IH.
Qed.

(** ** What the operations do *)

(** *** Running a program of [C] *)

Lemma bind_ret {A B} (m : C A) (k : A -> C B) c c' a : m c = Ret (c', a) -> mbind k m c = k a c'.
Proof. intros E. unfold mbind, C_bind. by rewrite E. Qed.

Lemma bind_asks {A B} (f : ctl -> A) (k : A -> C B) c : mbind k (asks f) c = k (f c) c.
Proof. done. Qed.

Lemma bind_change {B} f (k : () -> C B) c : mbind k (change f) c = k tt (f c).
Proof. done. Qed.

Lemma bind_mret {A B} (a : A) (k : A -> C B) c : mbind k (mret a : C A) c = k a c.
Proof. done. Qed.

Lemma bind_deref {B} p v (k : node -> C B) c : nodes c !! p = Some v -> mbind k (deref p) c = k v c.
Proof. intros E. apply bind_ret. unfold deref. by rewrite E. Qed.

Lemma bind_free {B} p v (k : () -> C B) c :
  nodes c !! p = Some v -> mbind k (free p) c = k tt (set_nodes (delete p (nodes c)) c).
Proof. intros E. apply bind_ret. unfold free. by rewrite E. Qed.

Lemma bind_update {B} p v f (k : () -> C B) c :
  nodes c !! p = Some v -> mbind k (update p f) c = k tt (set_nodes (<[p := f v]> (nodes c)) c).
Proof. intros E. apply bind_ret. unfold update. by rewrite E. Qed.

Ltac log_at := cbn [nodes set_nodes set_outside set_log set_root set_running set_last_log];
  first [eassumption | apply lookup_insert_eq | rewrite lookup_insert_ne by done; eassumption].

(** One step of the program. *)
Ltac c_step := first
  [ rewrite bind_asks | rewrite bind_change | rewrite bind_mret
  | erewrite bind_deref by log_at | erewrite bind_free by log_at | erewrite bind_update by log_at ];
  cbv beta.
Ltac c_steps := repeat c_step.

Section Returns.
Context {K : Kernel}.

Lemma on_file_returns {A} p (m : M A) (R : logfile -> A -> logfile -> Prop) v c :
  nodes c !! p = Some v ->
  (forall w, lf w = file v -> exists w' a, m w = Ret (w', a) /\ R (lf w) a (lf w')) ->
  exists c' a f, on_file p m c = Ret (c', a) /\ R (file v) a f
    /\ exists w, c' = set_outside w (set_nodes (<[p := set_file f v]> (nodes c)) c).
Proof.
  intros Hp Hm. unfold on_file. rewrite Hp. cbn [defined mbind outcome_bind].
  set (w0 := mk_world _ _ _ _ _). destruct (Hm w0 eq_refl) as (w & a & E & HR). rewrite E. cbn.
  exists (set_outside w (set_nodes (<[p := set_file (lf w) v]> (nodes c)) c)), a, (lf w).
  split_and!; [done|done|]. by exists w.
Qed.

Lemma log_unlock_returns w :
  exists w', log_unlock w = Ret (w', tt) /\ exists f, lf w' = with_hnd (set_fd_lock f) (lf w).
Proof.
  assert (LogWp.wp log_unlock (fun _ _ l' => exists f, l' = with_hnd (set_fd_lock f) (lf w)) (sys w) (lf w)) as H.
  { unfold log_unlock. do 2 LogWp.wp_step. destruct (decide (fd_lock (hnd (lf w)) <= 0)) as [Hl|Hl]; LogWp.wp_step.
    - LogWp.wp_step. exists (fd_lock (hnd (lf w))). by destruct (lf w) as [? [] ? ? ?].
    - do 3 LogWp.wp_step. apply LogWp.wp_sys. intros s1 r1 _. LogWp.wp_step. apply LogWp.wp_sys.
      intros s2 r2 _. LogWp.wp_step. by exists (-1). }
  destruct (H w eq_refl eq_refl) as (w' & [] & E & Hf). eauto.
Qed.

(** The file of a log is closed; the list stays as it is. *)
Lemma close_file_returns p v c :
  nodes c !! p = Some v ->
  exists c' f w, close_file p c = Ret (c', tt)
    /\ c' = set_outside w (set_nodes (<[p := set_file f v]> (nodes c)) c)
    /\ zip_pid (hnd f) = zip_pid (hnd (file v)).
Proof.
  intros Hp. unfold close_file, deref. unfold mbind, C_bind. rewrite Hp. cbn [defined mbind outcome_bind].
  assert (exists c1 f1 w1, (if bool_decide (fd (hnd (file v)) > 0)
      then on_file p (do_sys (fun s => (close (fd (hnd (file v))) s, tt));;; on_hnd (set_fd (-1)))
      else mret tt) c = Ret (c1, tt)
    /\ c1 = set_outside w1 (set_nodes (<[p := set_file f1 v]> (nodes c)) c)
    /\ zip_pid (hnd f1) = zip_pid (hnd (file v))) as (c1 & f1 & w1 & E1 & -> & Hz1).
  { case_bool_decide.
    - edestruct (on_file_returns p (do_sys (fun s => (close (fd (hnd (file v))) s, tt));;; on_hnd (set_fd (-1)))
        (fun l _ l' => zip_pid (hnd l') = zip_pid (hnd l)) v c Hp) as (c1 & [] & f1 & E1 & Hz & w1 & ->).
      + intros w _. do 2 eexists. split; [reflexivity|done].
      + exists (set_outside w1 (set_nodes (<[p := set_file f1 v]> (nodes c)) c)), f1, w1. by split_and!.
    - exists c, (file v), (outside c). split_and!; [done| |done].
      rewrite (insert_id _ _ (set_file (file v) v)); [by destruct c|]. by destruct v. }
  unfold mbind in E1. cbn. rewrite E1. cbn.
  destruct (on_file_returns p log_unlock (fun l _ l' => zip_pid (hnd l') = zip_pid (hnd l)) (set_file f1 v)
      (set_outside w1 (set_nodes (<[p := set_file f1 v]> (nodes c)) c)))
    as (c2 & [] & f2 & E2 & Hz2 & w2 & ->).
  - apply lookup_insert_eq.
  - intros w _. destruct (log_unlock_returns w) as (w' & E & f & Hf). exists w', tt. split; [done|]. by rewrite Hf.
  - exists (set_outside w2 (set_nodes (<[p := set_file f2 v]> (nodes c)) c)), f2, w2. cbn in *.
    split_and!; [|done|by rewrite Hz2]. rewrite E2. by rewrite insert_insert_eq.
Qed.

(** The log behind the head that is to be closed is found and taken out. *)
Lemma unlink_log_returns fuel p a q b h vq vp c :
  chain (nodes c) h (a ++ q :: p :: b) -> nodes c !! q = Some vq -> nodes c !! p = Some vp ->
  (length a < fuel)%nat ->
  unlink_log fuel p h c = Ret (set_nodes (delete p (<[q := set_next (next vp) vq]> (nodes c))) c, -1).
Proof.
  revert fuel h. induction a as [|x a IH]; intros [|fuel] h H Hq Hp Hf;
    rewrite ?length_cons in Hf; [by apply Nat.nlt_0_r in Hf| |lia|].
  - cbn in H. destruct H as (-> & v & Hv & Hn & _). simplify_eq.
    cbn [unlink_log]. c_steps. rewrite bool_decide_eq_true_2 by done. c_steps.
    destruct (decide (q = p)) as [->|Hne]; c_steps; done.
  - pose proof (chain_NoDup _ _ _ H) as Hd. cbn in H. destruct H as (-> & v & Hv & H).
    cbn [unlink_log]. c_steps. rewrite bool_decide_eq_false_2; [apply IH; [done..|lia]|].
    intros E. rewrite E in H. apply NoDup_cons in Hd as [_ Hd].
    destruct a as [|y a]; cbn in H; destruct H as [[= <-] _]; rewrite !NoDup_cons in Hd; set_solver.
Qed.

(** The logs and the head of the list after the log at [p] was closed. *)
Lemma close_log_returns p v wait_hang a b c :
  chain (nodes c) (log c) (a ++ p :: b) -> nodes c !! p = Some v -> zip_pid (hnd (file v)) <= 0 ->
  exists w m, close_log p wait_hang c
      = Ret (set_outside w (set_log (if bool_decide (log c = Some p) then next v else log c) (set_nodes m c)),
             if bool_decide (log c = Some p) then 0 else -1)
    /\ m !! p = None
    /\ chain m (if bool_decide (log c = Some p) then next v else log c) (a ++ b)
    /\ (forall q, q <> p -> exists r, m !! q = set_next r <$> nodes c !! q)
    /\ dom m = dom (nodes c) ∖ {[p]}
    /\ (a = [] -> m = delete p (nodes c)).
Proof.
  intros H Hp Hz. pose proof (chain_NoDup _ _ _ H) as Hd.
  destruct (close_file_returns p v c Hp) as (c1 & f & w & E & -> & Hf).
  pose (unzipped := bool_decide_eq_false_2 (zip_pid (hnd (file v)) > 0)).
  unfold close_log. c_steps. rewrite unzipped by lia. c_steps. rewrite unzipped by lia.
  rewrite (bind_ret _ _ _ _ _ E). destruct a as [|q a _] using rev_ind.
  - cbn in H. destruct H as (-> & v' & Hv' & H). assert (v' = v) as -> by congruence.
    rewrite !bool_decide_eq_true_2 by done. c_steps. exists w, (delete p (<[p := set_file f v]> (nodes c))). split_and!; [done|..].
    + apply lookup_delete_eq.
    + apply (chain_outside (nodes c)); [|done]. intros y Hy. apply NoDup_cons in Hd as [Hd _].
      rewrite lookup_delete_ne, lookup_insert_ne; [done|..]; by intros ->.
    + intros y Hy. rewrite lookup_delete_ne, lookup_insert_ne by done.
      destruct (nodes c !! y) as [u|]; [exists (next u); by destruct u|by exists None].
    + rewrite dom_delete_L, dom_insert_L. set_solver.
    + intros _. apply delete_insert_eq.
  - rewrite <- app_assoc in H. cbn in H. assert (log c <> Some p) as Hh.
    { intros Eh. rewrite Eh in H. rewrite NoDup_app in Hd.
      destruct a as [|y a]; cbn in H; destruct H as [[= ->] _]; set_solver. }
    rewrite !bool_decide_eq_false_2 by done.
    destruct (chain_in _ _ _ q H) as [vq Hq]; [apply elem_of_app; right; left|].
    assert (q <> p) as Hqp.
    { intros ->. apply NoDup_app in Hd as (_ & Hd & _). apply (Hd p); [|left].
      apply elem_of_app. right. left. }
    pose proof (chain_length _ _ _ H) as Hl.
    set (c2 := set_outside w (set_nodes (<[p := set_file f v]> (nodes c)) c)).
    c_steps. rewrite (unlink_log_returns _ p a q b (log c) vq (set_file f v) c2).
    + exists w, (delete p (<[q := set_next (next v) vq]> (<[p := set_file f v]> (nodes c)))). split_and!; [done|..].
      * apply lookup_delete_eq.
      * rewrite <- app_assoc. cbn.
        apply (chain_remove (<[p := set_file f v]> (nodes c)) (log c) a q p b vq (set_file f v)).
        -- by apply (chain_insert _ _ _ _ v).
        -- by rewrite lookup_insert_ne.
        -- apply lookup_insert_eq.
      * intros y Hy. rewrite lookup_delete_ne by done. destruct (decide (y = q)) as [->|].
        -- rewrite lookup_insert_eq, Hq. by eexists.
        -- rewrite !lookup_insert_ne by done. destruct (nodes c !! y) as [u|]; [exists (next u); by destruct u|by exists None].
      * cbn. rewrite dom_delete_L, !dom_insert_L. assert (q ∈ dom (nodes c)) by (apply elem_of_dom; eauto). set_solver.
      * intros Ea. by destruct a.
    + cbn. by apply (chain_insert _ _ _ _ v).
    + cbn. by rewrite lookup_insert_ne.
    + cbn. apply lookup_insert_eq.
    + cbn. rewrite length_app in Hl. cbn in Hl. rewrite map_size_insert_Some by (by eexists). lia.
Qed.

(** No log of [l] has a gzip process. *)
Definition unzipping (m : gmap ptr node) (l : list ptr) : Prop :=
  forall p v, p ∈ l -> m !! p = Some v -> zip_pid (hnd (file v)) <= 0.

Definition some_data (m : gmap ptr node) (l : list ptr) : bool :=
  existsb (fun p => match m !! p with Some v => has_data (ring v) | None => false end) l.

Lemma any_has_data_returns fuel q l c :
  chain (nodes c) q l -> (length l <= fuel)%nat -> any_has_data fuel q c = Ret (c, some_data (nodes c) l).
Proof.
  revert q l. induction fuel as [|fuel IH]; intros q [|p l] H Hf.
  - by rewrite H.
  - cbn in Hf. lia.
  - by rewrite H.
  - destruct H as (-> & v & Hv & H). cbn [any_has_data some_data existsb]. c_step. rewrite Hv.
    destruct (has_data (ring v)); [done|]. apply IH; [done|]. cbn in Hf. lia.
Qed.

Lemma any_has_data_list l c :
  chain (nodes c) (log c) l ->
  any_has_data (S (size (nodes c))) (log c) c = Ret (c, some_data (nodes c) l).
Proof. intros H. apply any_has_data_returns; [done|]. pose proof (chain_length _ _ _ H). lia. Qed.

Lemma poll_one_idle fuel now q l c :
  chain (nodes c) q l -> unzipping (nodes c) l -> (length l <= fuel)%nat ->
  poll_one fuel now q c = Ret (set_last_log None c, tt).
Proof.
  revert q l. induction fuel as [|fuel IH]; intros q [|p l] H Hz Hf.
  - by rewrite H.
  - cbn in Hf. lia.
  - by rewrite H.
  - destruct H as (-> & v & Hv & H). cbn [poll_one]. c_steps.
    rewrite (bool_decide_eq_true_2 (zip_pid _ <= 0)) by (eapply Hz; [left|done]).
    cbn [orb]. eapply IH; [done| |cbn in Hf; lia]. intros y u Hy. apply Hz. by right.
Qed.

Lemma wait_pids_idle now l c :
  chain (nodes c) (log c) l -> unzipping (nodes c) l -> wait_pids now c = Ret (set_last_log None c, tt).
Proof.
  intros H Hz. unfold wait_pids. c_steps. eapply poll_one_idle; [done..|].
  pose proof (chain_length _ _ _ H). lia.
Qed.

(** A round that comes to the choice of a log. *)
Lemma work_round_picks now log0 l c :
  chain (nodes c) (log c) l -> unzipping (nodes c) l -> some_data (nodes c) l = true ->
  work_round now log0 c = (work_pick log0 ≫= fun r => mret (Some r)) (set_last_log None c).
Proof.
  intros H Hz Hd. unfold work_round. c_steps.
  assert ((if running c then mret false
           else do! fuel := asks (fun c => S (size (nodes c))) in
                do! head := asks log in
                do! any := any_has_data fuel head in
                mret (negb any)) c = Ret (c, false)) as E.
  { destruct (running c); [done|]. c_steps.
    rewrite (bind_ret _ _ _ _ _ (any_has_data_list l c H)). by rewrite Hd. }
  rewrite (bind_ret _ _ _ _ _ E). cbn iota. by rewrite (bind_ret _ _ _ _ _ (wait_pids_idle now l c H Hz)).
Qed.

(** The log after [log0] is to be closed. *)
Lemma work_pick_closes log0 p v a b c :
  chain (nodes c) (log c) (a ++ p :: b) -> some_data (nodes c) (a ++ p :: b) = true ->
  next_log log0 c = Ret (c, Some p) ->
  nodes c !! p = Some v -> has_data (ring v) = false -> is_exit v = true ->
  work_pick log0 c = (close_log p false ≫= fun r => mret (Again (if bool_decide (r = 0) then None else Some p))) c.
Proof.
  intros H Hd E Hv Hr Hx. unfold work_pick.
  rewrite (bind_ret _ _ _ _ _ E). c_steps.
  rewrite (bind_ret _ _ _ _ _ (any_has_data_list _ c H)), Hd. c_steps.
  cbn [negb andb]. c_step. by rewrite Hr, Hx.
Qed.

Lemma some_data_without m m' a p v b :
  m !! p = Some v -> has_data (ring v) = false ->
  (forall q, q ∈ a ++ b -> exists r, m' !! q = set_next r <$> m !! q) ->
  some_data m (a ++ p :: b) = true -> some_data m' (a ++ b) = true.
Proof.
  intros Hp Hr Hm. unfold some_data. rewrite !existsb_app. cbn. rewrite Hp, Hr. cbn.
  rewrite <- existsb_app. intros (q & Hq & E)%existsb_exists.
  rewrite <- existsb_app. apply existsb_exists. exists q. split; [done|].
  destruct (Hm q) as [r ->]; [by apply list_elem_of_In|]. by destruct (m !! q) as [u|].
Qed.

(** The loop of [tlog_exit]. *)
Lemma close_all_returns l fuel c :
  chain (nodes c) (log c) l -> unzipping (nodes c) l -> (length l <= fuel)%nat ->
  exists w m, close_all fuel c = Ret (set_outside w (set_log None (set_nodes m c)), tt)
    /\ dom m = dom (nodes c) ∖ list_to_set l.
Proof.
  revert fuel c. induction l as [|p l IH]; intros [|fuel] c H Hz Hf; cbn [length] in Hf;
    [..|by apply Nat.nle_succ_0 in Hf|].
  1,2: cbn in H; exists (outside c), (nodes c); cbn [close_all]; rewrite bind_asks, H;
    (split; [by destruct c; cbn in H; rewrite H|set_solver]).
  pose proof H as (Hl & v & Hv & _). cbn [close_all]. rewrite bind_asks, Hl.
  destruct (close_log_returns p v true [] l c H Hv) as (w & m & E & Hm & Hc & Ho & Hd & _); [eapply Hz; [left|done]|].
  rewrite (bind_ret _ _ _ _ _ E). rewrite bool_decide_eq_true_2 in * by done.
  edestruct (IH fuel (set_outside w (set_log (next v) (set_nodes m c)))) as (w' & m' & E' & Hd').
  - exact Hc.
  - intros q u Hq Hu. assert (q <> p) as Hqp by (intros ->; cbn in Hu; congruence).
    destruct (Ho q Hqp) as [r Er]. cbn in Hu. rewrite Er in Hu. apply fmap_Some in Hu as (u' & Hu' & ->).
    apply (Hz q u'); [by right|done].
  - lia.
  - exists w', m'. split; [done|]. rewrite Hd'. cbn. rewrite Hd. set_solver.
Qed.

(** A log after its turn in a round of [tlog_wait_zip_fini]. *)
Definition after_zip (alive : Z -> bool) (t : Z) (v : node) : node :=
  if negb (alive (zip_pid (hnd (file v)))) || bool_decide (t >= 5000)
  then set_file (with_hnd (set_zip_pid (-1)) (file v)) v else v.

Lemma next_after_zip alive t v : next (after_zip alive t v) = next v.
Proof. unfold after_zip. by destruct (negb _ || _). Qed.

Lemma zip_after_zip alive t v :
  zip_pid (hnd (file (after_zip alive t v))) = zip_pid (hnd (file v))
  \/ zip_pid (hnd (file (after_zip alive t v))) = -1.
Proof. unfold after_zip. destruct (negb _ || _); [by right|by left]. Qed.

Lemma late_after_zip alive t v : t >= 5000 -> zip_pid (hnd (file (after_zip alive t v))) = -1.
Proof. intros Ht. unfold after_zip. by rewrite (bool_decide_eq_true_2 (t >= 5000)), orb_true_r. Qed.

Lemma after_zip_runs alive t p v c :
  nodes c !! p = Some v ->
  (if negb (alive (zip_pid (hnd (file v)))) || bool_decide (t >= 5000)
   then update p (fun v => set_file (with_hnd (set_zip_pid (-1)) (file v)) v) else mret tt) c
  = Ret (set_nodes (<[p := after_zip alive t v]> (nodes c)) c, tt).
Proof.
  intros Hv. unfold after_zip. destruct (negb _ || _); [unfold update; by rewrite Hv|].
  rewrite insert_id by done. by destruct c.
Qed.

(** A round of [tlog_wait_zip_fini]: whether it saw a gzip process, and that it forgets
    them all when the time is over. *)
Lemma zip_round_returns alive fuel t q l b c :
  chain (nodes c) q l -> (length l <= fuel)%nat ->
  exists m b', zip_round alive fuel t q b c = Ret (set_nodes m c, b')
    /\ (forall h k, chain (nodes c) h k -> chain m h k)
    /\ dom m = dom (nodes c)
    /\ (unzipping (nodes c) l -> b' = b)
    /\ (b' = false -> unzipping (nodes c) l)
    /\ (forall p v, p ∈ l -> m !! p = Some v -> t >= 5000 -> zip_pid (hnd (file v)) = -1)
    /\ (forall p v, m !! p = Some v -> exists u, nodes c !! p = Some u
         /\ (zip_pid (hnd (file v)) = zip_pid (hnd (file u)) \/ zip_pid (hnd (file v)) = -1)).
Proof.
  revert q l b c. induction fuel as [|fuel IH]; intros q [|p l] b c H Hf; [|cbn in Hf; lia|..].
  1,2: rewrite H; exists (nodes c), b; split_and!; [by destruct c|done|done|done| | |eauto];
    [intros _ ? ? ?%not_elem_of_nil|intros ? ? ?%not_elem_of_nil]; done.
  destruct H as (-> & v & Hv & H). cbn [zip_round]. c_step.
  set (b1 := b || bool_decide (zip_pid (hnd (file v)) > 0)).
  rewrite (bind_ret _ _ _ _ _ (after_zip_runs alive t p v c Hv)). set (v1 := after_zip alive t v).
  pose proof (next_after_zip alive t v : next v1 = next v) as Hn.
  pose proof (zip_after_zip alive t v) as Hz1. fold v1 in Hz1.
  assert (forall h k, chain (nodes c) h k -> chain (<[p := v1]> (nodes c)) h k) as Hch.
  { intros h k. by apply (chain_insert _ _ _ _ v). }
  destruct (IH (next v) l b1 (set_nodes (<[p := v1]> (nodes c)) c)) as (m & b' & E' & Hc' & Hd & Hb1 & Hb2 & Ht & Hm);
    [by apply Hch|cbn in Hf; lia|]. cbn [nodes set_nodes] in *.
  assert (forall y u, y ∈ l -> <[p := v1]> (nodes c) !! y = Some u ->
    unzipping (nodes c) (p :: l) -> zip_pid (hnd (file u)) <= 0) as Hun.
  { intros y u Hy Hu Hz. destruct (decide (y = p)) as [->|Hne].
    - rewrite lookup_insert_eq in Hu. assert (u = v1) as -> by congruence. pose proof (Hz p v ltac:(left) Hv). lia.
    - rewrite lookup_insert_ne in Hu by done. eapply Hz; [by right|done]. }
  exists m, b'. split_and!.
  - exact E'.
  - intros h k Hk. by apply Hc', Hch.
  - rewrite Hd, dom_insert_L. assert (p ∈ dom (nodes c)) by (apply elem_of_dom; eauto). set_solver.
  - intros Hz. rewrite Hb1 by (intros y u Hy Hu; by eapply Hun). unfold b1.
    rewrite (bool_decide_eq_false_2 (zip_pid _ > 0)); [by rewrite orb_false_r|].
    pose proof (Hz p v ltac:(left) Hv). lia.
  - intros Eb y u Hy Hu. specialize (Hb2 Eb).
    assert (b1 = false) as Eb1 by (rewrite <- Eb; symmetry; by apply Hb1).
    apply orb_false_elim in Eb1 as [_ Eb1]. apply bool_decide_eq_false in Eb1.
    destruct (decide (y = p)) as [->|Hne]; [simplify_eq; lia|].
    apply elem_of_cons in Hy as [?|Hy]; [done|]. apply (Hb2 y u Hy). by rewrite lookup_insert_ne.
  - intros y u Hy Hu Ht'. destruct (decide (y ∈ l)) as [Hyl|Hyl]; [by eapply Ht|].
    apply elem_of_cons in Hy as [->|?]; [|done]. destruct (Hm p u Hu) as (u' & Hu' & [->| ->]); [|done].
    rewrite lookup_insert_eq in Hu'. assert (u' = v1) as -> by congruence. by apply late_after_zip.
  - intros y u Hu. destruct (Hm y u Hu) as (u' & Hu' & Hz). destruct (decide (y = p)) as [->|Hne].
    + rewrite lookup_insert_eq in Hu'. assert (u' = v1) as -> by congruence. exists v. split; [done|]. lia.
    + rewrite lookup_insert_ne in Hu' by done. by exists u'.
Qed.

Lemma zip_rounds_end alive rounds t l c :
  chain (nodes c) (log c) l -> 5000 - t < Z.of_nat rounds -> (0 < rounds)%nat ->
  (t >= 5000 -> unzipping (nodes c) l) ->
  exists m, zip_rounds alive rounds t c = Ret (set_nodes m c, tt)
    /\ chain m (log c) l /\ dom m = dom (nodes c) /\ unzipping m l.
Proof.
  revert t c. induction rounds as [|rounds IH]; intros t c H Hr Hp Ht; [lia|].
  cbn [zip_rounds]. rewrite !bind_asks. pose proof (chain_length _ _ _ H) as Hl.
  destruct (zip_round_returns (alive (t + 1)) (S (size (nodes c))) (t + 1) (log c) l false c H ltac:(lia))
    as (m & b & E & Hc & Hd & Hb1 & Hb2 & Ht' & Hm).
  rewrite (bind_ret _ _ _ _ _ E).
  assert (unzipping (nodes c) l -> unzipping m l) as Hkeep.
  { intros Hz p v Hpl Hv. destruct (Hm p v Hv) as (u & Hu & Ez). pose proof (Hz p u Hpl Hu). lia. }
  destruct b.
  - assert (t < 5000) as Hlt.
    { destruct (decide (t < 5000)); [done|]. pose proof (Hb1 (Ht ltac:(lia))). done. }
    destruct (IH (t + 1) (set_nodes m c)) as (m' & E' & Hc' & Hd' & Hz').
    + by apply Hc.
    + lia.
    + lia.
    + intros Hge p v Hpl Hv. rewrite (Ht' p v Hpl Hv Hge). lia.
    + exists m'. split_and!; [done|done| |done]. rewrite Hd'. exact Hd.
  - exists m. split_and!; [done|by apply Hc|done|by apply Hkeep, Hb2].
Qed.

(** What [tlog_open] leaves and returns. *)
Definition opened (p : option ptr) (buffer : option (list byte)) tty f size count bsize flag c : ctl * option ptr :=
  match p, buffer, running c with
  | Some q, Some mem, true =>
      (set_log (Some q) (set_nodes (<[q := new_log mem tty (negb (bool_decide (gzip_cmd c = []))) f
         size count bsize flag (log c)]> (nodes c)) c), Some q)
  | _, _, _ => (c, None)
  end.

Lemma tlog_open_returns p buffer tty f size count bsize flag c :
  tlog_open p buffer tty f size count bsize flag c
  = Ret ((opened p buffer tty f size count bsize flag c).1, (opened p buffer tty f size count bsize flag c).2).
Proof.
  unfold tlog_open, opened. rewrite bind_asks. destruct (running c); cbn [negb].
  - destruct p, buffer; done.
  - by destruct p, buffer.
Qed.

(** [tlog_init]: nothing is done, or the list is left empty, or it is the new root log
    alone. *)
Lemma tlog_init_returns p buffer tty gzip created f size count bsize flag c :
  (forall q, p = Some q -> nodes c !! q = None) ->
  exists c' r, tlog_init p buffer tty gzip created f size count bsize flag c = Ret (c', r)
    /\ (r = -1 /\ c' = c
        \/ r = -1 /\ root_format c = false /\ nodes c' = nodes c /\ log c' = None /\ root c' = None
           /\ root_format c' = false /\ running c' = false
        \/ exists q mem, r = 0 /\ p = Some q /\ buffer = Some mem /\ root_format c = false /\ created = true
           /\ ~ 0 < bsize < TLOG_MAX_LINE_SIZE_SET * 2
           /\ nodes c' = <[q := set_output_func RootOutput
                (new_log mem tty (negb (bool_decide (gzip = []))) f size count bsize flag None)]> (nodes c)
           /\ log c' = Some q /\ root c' = Some q /\ root_format c' = true /\ running c' = true).
Proof.
  intros Hp. unfold tlog_init. rewrite bind_asks. destruct (root_format c) eqn:Hf.
  { exists c, (-1). split; [done|]. by left. }
  case_bool_decide as Hb.
  { exists c, (-1). split; [done|]. by left. }
  rewrite bind_change. set (c1 := mk_ctl _ _ _ _ _ _ _ _ _ _ _).
  rewrite (bind_ret _ _ _ _ _ (tlog_open_returns p buffer tty f size count bsize flag c1)).
  destruct p as [q|]; [destruct buffer as [mem|]|]; cbn [running c1 opened fst snd];
    [|do 2 eexists; split; [reflexivity|]; right; left; by split_and!..].
  erewrite bind_update by apply lookup_insert_eq. rewrite !bind_change. cbn [nodes set_log set_nodes].
  rewrite insert_insert_eq. destruct created.
  - do 2 eexists. split; [reflexivity|]. right. right. exists q, mem. by split_and!.
  - rewrite bind_change. set (c2 := set_root None false _).
    destruct (close_log_returns q (set_output_func RootOutput
        (new_log mem tty (negb (bool_decide (gzip = []))) f size count bsize flag None)) true [] [] c2) as (w & m & E & _ & _ & _ & _ & Hm).
    + cbn. split; [done|]. eexists. split; [apply lookup_insert_eq|done].
    + apply lookup_insert_eq.
    + done.
    + rewrite (bind_ret _ _ _ _ _ E). do 2 eexists. split; [reflexivity|]. right. left.
      rewrite bool_decide_eq_true_2 by done. split_and!; [done|done| |done..]. cbn. rewrite Hm by done.
      apply delete_insert_id. by apply Hp.
Qed.

End Returns.

(** ** Theorems *)

Section Theorems.
Context {K : Kernel}.

(** Closing a log ([_tlog_close], no gzip process under way) takes it, and only it, out
    of the list and frees it: the other logs keep their order and everything but their
    links. The result is 0 for the first log of the list, and -1, the code's failure, for
    every other one although it was closed just the same. *)
Theorem tlog_close_removes p v wait_hang a b c :
  chain (nodes c) (log c) (a ++ p :: b) -> nodes c !! p = Some v -> zip_pid (hnd (file v)) <= 0 ->
  exists c', close_log p wait_hang c = Ret (c', if bool_decide (a = []) then 0 else -1)
    /\ chain (nodes c') (log c') (a ++ b)
    /\ nodes c' !! p = None
    /\ (forall q, q <> p -> exists r, nodes c' !! q = set_next r <$> nodes c !! q)
    /\ running c' = running c /\ root c' = root c.
Proof.
  intros H Hp Hz. destruct (close_log_returns p v wait_hang a b c H Hp Hz) as (w & m & E & Hn & Hc & Ho & _).
  assert (bool_decide (log c = Some p) = bool_decide (a = [])) as Ea.
  { apply bool_decide_ext. pose proof (chain_NoDup _ _ _ H) as Hd.
    destruct a as [|y a]; destruct H as [-> _]; [done|]. split; [|done]. intros [= ->].
    cbn in Hd. apply NoDup_cons in Hd as [Hd _]. set_solver. }
  rewrite <- Ea. eexists. split_and!; [exact E|done..].
Qed.

(** C13. The writer uses a log it has freed. When the log behind [q] was given to
    [tlog_close] and is empty, while another log has data, the round of [_tlog_work]
    after the one for [q] closes and frees it, keeps it as the current log since
    [_tlog_close] answers -1, and the next round reads its [next]. *)
Theorem tlog_work_uses_freed_log now now' a q x v b c :
  chain (nodes c) (log c) (a ++ q :: x :: b) -> unzipping (nodes c) (a ++ q :: x :: b) ->
  some_data (nodes c) (a ++ q :: x :: b) = true ->
  nodes c !! x = Some v -> is_exit v = true -> has_data (ring v) = false ->
  exists c', work_round now (Some q) c = Ret (c', Some (Again (Some x)))
    /\ nodes c' !! x = None
    /\ work_round now' (Some x) c' = Crash.
Proof.
  intros H Hz Hd Hv Hx Hr. set (c0 := set_last_log None c).
  assert (a ++ q :: x :: b = (a ++ [q]) ++ x :: b) as Es by (by rewrite <- app_assoc).
  assert (next_log (Some q) c0 = Ret (c0, Some x)) as En.
  { cbn [next_log]. pose proof (chain_suffix _ _ _ _ _ H) as (_ & u & Hu & Hn & _).
    erewrite bind_deref by exact Hu. by rewrite Hn. }
  rewrite (work_round_picks _ _ _ _ H Hz Hd). rewrite Es in *.
  destruct (close_log_returns x v false (a ++ [q]) b c0 H Hv) as (w & m & E & Hm & Hc & Ho & _).
  { eapply Hz; [|done]. apply elem_of_app. right. left. }
  assert (bool_decide (log c0 = Some x) = false) as Eb.
  { apply bool_decide_eq_false_2. pose proof (chain_NoDup _ _ _ H) as Hd'. cbn. intros El. rewrite El in H.
    rewrite !NoDup_app in Hd'. destruct a as [|y a]; cbn in H; destruct H as [[= ->] _]; set_solver. }
  rewrite Eb in *. set (c1 := set_outside w (set_log (log c0) (set_nodes m c0))) in *.
  exists c1. split_and!; [|done|].
  - erewrite bind_ret; [reflexivity|]. rewrite (work_pick_closes (Some q) x v (a ++ [q]) b c0 H Hd En Hv Hr Hx).
    by rewrite (bind_ret _ _ _ _ _ E).
  - rewrite (work_round_picks now' (Some x) ((a ++ [q]) ++ b) c1 Hc).
    + unfold work_pick, mbind, C_bind, next_log, deref, mbind, C_bind. cbn. by rewrite Hm.
    + intros p u Hp Hu. assert (p <> x) as Hpx by (intros ->; cbn in Hu; congruence).
      destruct (Ho p Hpx) as [r Er]. cbn in Hu. rewrite Er in Hu. apply fmap_Some in Hu as (u' & Hu' & ->).
      apply (Hz p u'); [|done]. rewrite elem_of_app, elem_of_cons. apply elem_of_app in Hp. tauto.
    + eapply some_data_without; [exact Hv|done| |exact Hd]. intros p Hp. apply Ho. intros ->.
      apply chain_in with (p := x) in Hc as [? Hc]; [|done]. congruence.
Qed.

(** [tlog_exit] with no gzip process under way closes and frees every log of the list,
    however many there are, and leaves the library as before [tlog_init]. *)
Theorem tlog_exit_frees l fuel c :
  root_format c = true -> chain (nodes c) (log c) l -> unzipping (nodes c) l -> (length l <= fuel)%nat ->
  exists c', tlog_exit fuel c = Ret (c', tt)
    /\ dom (nodes c') = dom (nodes c) ∖ list_to_set l
    /\ log c' = None /\ root c' = None /\ root_format c' = false /\ running c' = false.
Proof.
  intros Hf H Hz Hl. unfold tlog_exit. rewrite bind_asks, Hf. cbn [negb]. rewrite !bind_change.
  destruct (close_all_returns l fuel (set_root None true (set_running false c)) H Hz Hl) as (w & m & E & Hd).
  rewrite (bind_ret _ _ _ _ _ E). by eexists.
Qed.

(** C24. [tlog_exit] never returns when the first log has a gzip process that [waitpid]
    does not know, because the program ignores SIGCHLD or has waited for it itself: no
    number of rounds is enough. *)
Theorem tlog_exit_hangs p v c :
  root_format c = true -> log c = Some p -> nodes c !! p = Some v ->
  0 < zip_pid (hnd (file v)) -> children (sys (outside c)) !! zip_pid (hnd (file v)) = None ->
  forall fuel, tlog_exit fuel c = NoFuel.
Proof.
  intros Hf Hl Hv Hz Hc fuel. unfold tlog_exit. rewrite bind_asks, Hf. cbn [negb]. rewrite !bind_change.
  set (c1 := set_root None true (set_running false c)).
  assert (close_all fuel c1 = NoFuel) as E.
  { assert (log c1 = Some p) as Hl1 by done. assert (nodes c1 !! p = Some v) as Hv1 by done.
    assert (children (sys (outside c1)) !! zip_pid (hnd (file v)) = None) as Hc1 by done.
    clearbody c1. clear Hl Hv Hc Hf. revert c1 Hl1 Hv1 Hc1. induction fuel as [|fuel IH]; intros c1 Hl Hv Hc.
    - cbn [close_all]. by rewrite bind_asks, Hl.
    - cbn [close_all]. rewrite bind_asks, Hl.
      assert (exists w, on_file p (wait_pid true) c1
          = Ret (set_outside w (set_nodes (<[p := v]> (nodes c1)) c1), tt)
        /\ children (sys w) = children (sys (outside c1))) as (w & E & Hw).
      { unfold on_file. rewrite Hv. unfold wait_pid, mbind, M_bind, get, do_sys. cbn.
        rewrite bool_decide_eq_false_2 by lia. unfold waitpid, call, gzip_ends. cbn.
        destruct (refuses _ _); cbn; rewrite ?Hc; cbn; rewrite ?Hc; cbn;
          (eexists; split; [by destruct v|done]). }
      assert (close_log p true c1 = Ret (set_outside w (set_nodes (<[p := v]> (nodes c1)) c1), -1)) as E'.
      { unfold close_log. rewrite !bind_asks. c_step. rewrite (bool_decide_eq_true_2 (zip_pid _ > 0)) by lia.
        rewrite (bind_ret _ _ _ _ _ E). c_step. by rewrite (bool_decide_eq_true_2 (zip_pid _ > 0)) by lia. }
      rewrite (bind_ret _ _ _ _ _ E'). apply IH; [done|apply lookup_insert_eq|cbn; by rewrite Hw]. }
  unfold mbind, C_bind. by rewrite E.
Qed.

(** [tlog_wait_zip_fini] ends within 5001 rounds of a millisecond whatever the gzip
    processes do, and no log waits for one afterwards; the list of logs is as before. *)
Theorem tlog_wait_zip_fini_ends alive l c :
  chain (nodes c) (log c) l -> root c <> None ->
  exists c', wait_zip_fini alive (Z.to_nat 5001) c = Ret (c', tt)
    /\ chain (nodes c') (log c') l /\ dom (nodes c') = dom (nodes c) /\ unzipping (nodes c') l.
Proof.
  intros H Hr. unfold wait_zip_fini. rewrite bind_asks. destruct (root c); [|done].
  destruct (zip_rounds_end alive (Z.to_nat 5001) 0 l c H) as (m & E & Hc & Hd & Hz); [lia..|].
  rewrite E. by eexists.
Qed.

(** [tlog_init] with new memory. It fails when it was called before, when the buffer is
    smaller than two lines of the greatest size, when memory runs out or the writer cannot
    be created, and then leaves no log behind; otherwise the list is the root log alone,
    which is linked nowhere and has the settings asked for. *)
Theorem tlog_init_cases p buffer tty gzip created f size count bsize flag c :
  (forall q, p = Some q -> nodes c !! q = None) ->
  exists c' r, tlog_init p buffer tty gzip created f size count bsize flag c = Ret (c', r)
    /\ (r = 0 /\ root_format c = false /\ created = true /\ running c' = true /\ root_format c' = true
         /\ (exists q v o, p = Some q /\ init_settings size count bsize flag tty (negb (bool_decide (gzip = []))) = Some o
              /\ nodes c' = <[q := v]> (nodes c) /\ log c' = Some q /\ root c' = Some q
              /\ next v = None /\ opts (file v) = o /\ has_data (ring v) = false
              /\ output_func v = RootOutput)
         \/ r = -1 /\ nodes c' = nodes c
            /\ (c' = c \/ log c' = None /\ root c' = None /\ root_format c' = false /\ running c' = false)).
Proof.
  intros Hp. destruct (tlog_init_returns p buffer tty gzip created f size count bsize flag c Hp)
    as (c' & r & E & [(-> & ->)|[(-> & _ & Hn & H)|(q & mem & -> & -> & _ & Hf & Hc & Hb & Hn & Hl & Hr & Hf' & Hu)]]);
    do 2 eexists; (split; [exact E|]).
  - right. auto.
  - right. auto.
  - left. split_and!; [done..|]. exists q. do 2 eexists. split_and!; [done| |exact Hn|done..].
    unfold init_settings. by rewrite bool_decide_eq_false_2.
Qed.

End Theorems.

(** ** A list of three logs *)

Definition demo_ring (n : Z) : tlog_log := mk_log (replicate (Z.to_nat 16384) x61) 0 n 0 0 0.

(** A log with [n] bytes to write and a gzip process [pid]. *)
Definition demo_node (next : option ptr) (n : Z) (exit : bool) (pid : Z) : node :=
  mk_node (demo_ring n) (with_hnd (set_zip_pid pid) (demo_log false 100 1)) next exit 0 FileOutput 0.

(** The log at 2 is to be closed, the one at 1 has data; the one at 3 is the root log. *)
Definition demo_ctl (pid : Z) : ctl :=
  mk_ctl {[ 1 := demo_node (Some 2) 5 false pid; 2 := demo_node (Some 3) 0 true (-1); 3 := demo_node None 0 false (-1) ]}%positive
    (Some 1%positive) (Some 3%positive) true true false (bytes_of "/bin/gzip") None (demo_world false 100 1) false no_early.

Lemma demo_chain pid : chain (nodes (demo_ctl pid)) (log (demo_ctl pid)) [1; 2; 3]%positive.
Proof. repeat (split; [done|]; eexists; split; [done|]). done. Qed.

Lemma demo_unzipping : unzipping (nodes (demo_ctl (-1))) [1; 2; 3]%positive.
Proof.
  intros p v Hp Hv. cbn in Hv. rewrite !elem_of_cons in Hp.
  destruct Hp as [->|[->|[->|?%not_elem_of_nil]]]; vm_compute in Hv; simplify_eq; done.
Qed.

Lemma tlog_close_removes_witness :
  let K := demo None [] in
  exists c', close_log 2%positive false (demo_ctl (-1)) = Ret (c', -1)
    /\ chain (nodes c') (log c') [1; 3]%positive.
Proof.
  intros K.
  destruct (tlog_close_removes (K := K) 2%positive (demo_node (Some 3%positive) 0 true (-1)) false [1%positive] [3%positive] (demo_ctl (-1)))
    as (c' & E & H & _); [apply demo_chain|done|done|].
  exists c'. by split.
Defined.

Lemma tlog_work_uses_freed_log_witness :
  let K := demo None [] in
  exists c', work_round 5 (Some 1%positive) (demo_ctl (-1)) = Ret (c', Some (Again (Some 2%positive)))
    /\ work_round 6 (Some 2%positive) c' = Crash.
Proof.
  intros K.
  destruct (tlog_work_uses_freed_log (K := K) 5 6 [] 1%positive 2%positive (demo_node (Some 3%positive) 0 true (-1)) [3%positive] (demo_ctl (-1)))
    as (c' & E & _ & H); [apply demo_chain|apply demo_unzipping|done..|].
  exists c'. by split.
Defined.

Lemma tlog_exit_frees_witness :
  let K := demo None [] in
  exists c', tlog_exit 3 (demo_ctl (-1)) = Ret (c', tt) /\ dom (nodes c') = ∅ /\ log c' = None.
Proof.
  intros K.
  destruct (tlog_exit_frees (K := K) [1; 2; 3]%positive 3 (demo_ctl (-1))) as (c' & E & H & Hl & _);
    [done|apply demo_chain|apply demo_unzipping|done|].
  exists c'. split_and!; [done| |done]. by rewrite H.
Defined.

Lemma tlog_exit_hangs_witness :
  let K := demo None [] in tlog_exit 1000 (demo_ctl 77) = NoFuel.
Proof.
  intros K. by apply (tlog_exit_hangs (K := K) 1%positive (demo_node (Some 2%positive) 5 false 77) (demo_ctl 77)).
Defined.

(** The process 77 never ends. *)
Lemma tlog_wait_zip_fini_ends_witness :
  exists c', wait_zip_fini (fun _ _ => true) (Z.to_nat 5001) (demo_ctl 77) = Ret (c', tt)
    /\ unzipping (nodes c') [1; 2; 3]%positive.
Proof.
  destruct (tlog_wait_zip_fini_ends (fun _ _ => true) [1; 2; 3]%positive (demo_ctl 77)) as (c' & E & _ & _ & H);
    [apply demo_chain|done|].
  exists c'. by split.
Defined.

Lemma tlog_init_cases_witness :
  let K := demo None [] in
  exists c', tlog_init (Some 1%positive) (Some (replicate (Z.to_nat 16384) x61)) false [] true (bytes_of "/var/log/a.log") 100 2 16384 0
      (no_logs (demo_world true 10 1)) = Ret (c', 0)
    /\ chain (nodes c') (root c') [1%positive].
Proof.
  intros K.
  destruct (tlog_init_cases (K := K) (Some 1%positive) (Some (replicate (Z.to_nat 16384) x61)) false [] true (bytes_of "/var/log/a.log") 100 2 16384 0
      (no_logs (demo_world true 10 1)) ltac:(done))
    as (c' & r & E & [(-> & _ & _ & _ & _ & q & v & o & [= <-] & _ & Hn & _ & Hr & Hv & _)|(-> & _)]).
  - exists c'. split; [exact E|]. rewrite Hn, Hr. split; [done|]. exists v. split; [apply lookup_insert_eq|exact Hv].
  - exfalso. vm_compute in E. discriminate.
Defined.

End LogList.
