(* ===== verification/LogTypes.v ===== *)
(** * The logs are well formed

    Whatever sequence of public functions a program calls with live logs, while the writer
    does its part in between, the calls return, and the list is made of the logs opened, each
    well formed: its numbers are ints in their ranges, its indices lie in its buffer and its
    names in their arrays. *)

From Stdlib Require Import ZArith Lia.
From Stdlib Require Import Strings.Byte.
From stdpp Require Import base gmap sets list strings.
From S2P Require Import Prelude TlogFormat Tlog Filesys LogFile LogHistory LogControl LogList.

Module LogTypes.

Import TlogFormat.
Import Tlog(settings, tlog_log, mk_log, open_settings, max_line_size, buffsize, logsize, logcount,
  buff, start, end_, ext_end, has_data, entry, store_line, free_room, need_drop, set_dropped, dropped,
  take_snapshot, release).
Import Filesys LogFile LogControl LogList.
Local Open Scope Z_scope.

Definition is_int (n : Z) : Prop := - 2 ^ 31 <= n < 2 ^ 31.

Record settings_ok (o : settings) : Prop := {
  so_buffsize : 0 < buffsize o < 2 ^ 31;
  so_logsize : 0 <= logsize o < 2 ^ 31;
  so_logcount : 0 <= logcount o < 2 ^ 31;
  so_max_line_size : 128 <= max_line_size o <= 8192
}.

Record naming_fits (n : naming) : Prop := {
  nf_logdir : Z.of_nat (length (logdir n)) < PATH_MAX;
  nf_logname : Z.of_nat (length (logname n)) < TLOG_LOG_NAME_LEN;
  nf_pending : Z.of_nat (length (pending_logfile n)) < PATH_MAX
}.

Record node_ok (v : node) : Prop := {
  no_settings : settings_ok (opts (file v));
  no_naming : naming_fits (nam (file v));
  no_buff : Z.of_nat (length (buff (ring v))) = buffsize (opts (file v));
  no_start : 0 <= start (ring v) <= buffsize (opts (file v));
  no_end : 0 <= end_ (ring v) <= buffsize (opts (file v));
  no_ext_end : 0 <= ext_end (ring v) <= buffsize (opts (file v))
}.

(** The list holds exactly the logs there are; before [tlog_init] and after
    [tlog_exit] there are none. *)
Record logs_ok (c : ctl) : Prop := {
  lo_list : exists l, chain (nodes c) (log c) l /\ dom (nodes c) = list_to_set l
              /\ forall p, root c = Some p -> p ∈ l;
  lo_nodes : forall p v, nodes c !! p = Some v -> node_ok v;
  lo_down : root_format c = false -> log c = None /\ running c = false
}.

(** What the caller owes: logs that are there, new memory, and ints. *)
Definition new_memory (p : option ptr) (buffer : option (list byte)) (size count bsize flag : Z) c : Prop :=
  (forall q, p = Some q -> nodes c !! q = None)
  /\ (forall mem, buffer = Some mem -> Z.of_nat (length mem) = buffsize (open_settings size count bsize flag false true))
  /\ is_int size /\ is_int count /\ is_int bsize.

Definition live (p : option ptr) c : Prop := forall q, p = Some q -> is_Some (nodes c !! q).

(** A line laid out for a log: with its head it is no longer than [max_line_size], and so is
    not the room found in a round before. *)
Definition laid_out (p : option ptr) (maxlen : Z) (line : list byte) c : Prop :=
  forall q v, p = Some q -> nodes c !! q = Some v ->
    maxlen < max_line_size (opts (file v))
    /\ Z.of_nat (length (entry (opts (file v)) line)) <= max_line_size (opts (file v)).

Definition valid (c : ctl) (r : request) : Prop :=
  match r with
  | Exit fuel => (size (nodes c) <= fuel)%nat /\ (forall p v, nodes c !! p = Some v -> zip_pid (hnd (file v)) <= 0)
  | Vprintf p maxlen line => live p c /\ laid_out p maxlen line c
  | Vext maxlen line => laid_out (root c) maxlen line c
  | Init p buffer _ _ _ _ size count bsize flag => new_memory p buffer size count bsize flag c
  | Open p buffer _ _ size count bsize flag => new_memory p buffer size count bsize flag c
  | Close p => live p c
  | RenameLogfile p _ => live (Some p) c
  | SetMaxlineSize p n => live p c /\ is_int n
  | SetCount p n => live p c /\ is_int n
  | SetScreen p _ => live p c
  | SetPermission p _ _ => live (Some p) c
  | SetMaxlogCount n => is_int n
  | SetLogfile _ => root c <> None
  | RegOutputFunc p _ => live p c
  | SetPrivate p _ => live p c
  | RegFormatFunc callback => root_format c = true /\ callback = true
  | RegLogOutputFunc _ _ | SetEarlyPrintf _ _ _ _ | RegEarlyPrintf _ | RegEarlyOutput _ _
  | SetlogScreen _ | ForkPrepare | ForkChild _ => True
  end.

(** ** Well-formed parts *)

Lemma settings_ok_open size count bsize flag tty gzip :
  is_int size -> is_int count -> is_int bsize -> settings_ok (open_settings size count bsize flag tty gzip).
Proof.
  unfold is_int. intros Hs Hc Hb. split; cbn; repeat case_bool_decide;
    unfold Tlog.TLOG_BUFF_SIZE, Tlog.TLOG_LOG_SIZE, Tlog.TLOG_MAX_LINE_LEN; lia.
Qed.

Lemma settings_ok_line n o : settings_ok o -> settings_ok (Tlog.tlog_set_maxline_size n o).
Proof.
  intros []. split; cbn; [done..|]. unfold Tlog.TLOG_MIN_LINE_SIZE_SET, Tlog.TLOG_MAX_LINE_SIZE_SET.
  repeat case_bool_decide; lia.
Qed.

Lemma settings_ok_count n o : is_int n -> settings_ok o -> settings_ok (Tlog.tlog_logcount n o).
Proof. unfold is_int. intros Hn []. split; cbn; [done..| |done]. case_bool_decide; lia. Qed.

Lemma settings_ok_screen b o : settings_ok o -> settings_ok (Tlog.tlog_logscreen b o).
Proof. by intros []. Qed.

Lemma settings_ok_multi b o : settings_ok o -> settings_ok (set_multi_log b o).
Proof. by intros []. Qed.

Lemma length_copied size p : 0 < size -> Z.of_nat (length (copied size p)) < size.
Proof. intros H. unfold copied. rewrite length_take. lia. Qed.

Lemma naming_fits_rename f n :
  naming_fits n -> naming_fits (mk_naming (logdir n) (logname n) (suffix n) (copied PATH_MAX f) true).
Proof. intros []. split; [done..|]. by apply length_copied. Qed.

#[local] Hint Resolve settings_ok_line settings_ok_count settings_ok_screen settings_ok_multi naming_fits_rename : core.

(** A change of the file's settings or names that keeps them well formed and the size
    of the buffer. *)
Lemma node_ok_file (f : logfile -> logfile) v :
  (forall l, settings_ok (opts l) -> settings_ok (opts (f l))) ->
  (forall l, naming_fits (nam l) -> naming_fits (nam (f l))) ->
  (forall l, buffsize (opts (f l)) = buffsize (opts l)) ->
  node_ok v -> node_ok (set_file (f (file v)) v).
Proof. intros Ho Hn Hb []. split; cbn; [by apply Ho|by apply Hn|by rewrite Hb..]. Qed.

Lemma node_ok_new mem tty gzip f size count bsize flag head :
  Z.of_nat (length mem) = buffsize (open_settings size count bsize flag false true) ->
  is_int size -> is_int count -> is_int bsize ->
  node_ok (new_log mem tty gzip f size count bsize flag head).
Proof.
  intros Hm Hs Hc Hb. pose proof (settings_ok_open size count bsize flag tty gzip Hs Hc Hb) as Ho.
  pose proof (so_buffsize _ Ho). split; cbn [new_log file ring opts nam Tlog.buff Tlog.start Tlog.end_ Tlog.ext_end];
    [done| |done|lia..].
  split; cbn; [done..|by apply length_copied].
Qed.

Lemma node_ok_output x v : node_ok v -> node_ok (set_output_func x v).
Proof. by intros []. Qed.

(** ** Lines in the ring *)

Definition in_buffer (o : settings) (l : tlog_log) : Prop :=
  Z.of_nat (length (buff l)) = buffsize o
  /\ 0 <= start l <= buffsize o /\ 0 <= end_ l <= buffsize o /\ 0 <= ext_end l <= buffsize o.

Lemma node_ok_ring l v : in_buffer (opts (file v)) l -> node_ok v -> node_ok (set_ring l v).
Proof. intros (? & ? & ? & ?) []. by split. Qed.

Lemma ring_in_buffer v : node_ok v -> in_buffer (opts (file v)) (ring v).
Proof. by intros []. Qed.

(** Where [_tlog_vprintf] finds room, the line lies in the buffer, wherever the indices are. *)
Lemma store_line_fits o l maxlen line :
  in_buffer o l -> maxlen < max_line_size o -> max_line_size o <= free_room o l maxlen ->
  Z.of_nat (length (entry o line)) <= max_line_size o ->
  exists l', store_line o l line = Ret l' /\ in_buffer o l'.
Proof.
  intros (Hb & Hs & He & Hx) Hm Hroom Hline. unfold store_line, free_room in *.
  assert (end_ l + Z.of_nat (length (entry o line)) <= Z.of_nat (length (buff l))) as Hfit
    by (repeat case_bool_decide; lia).
  rewrite bool_decide_eq_false_2 by lia. eexists. split; [done|].
  assert (length (overwrite (Z.to_nat (end_ l)) (entry o line) (buff l)) = length (buff l)) as Hlen
    by (rewrite length_overwrite; lia).
  clear Hroom. case_bool_decide; unfold in_buffer; cbn [buff start end_ ext_end]; rewrite Hlen; lia.
Qed.

Lemma release_in_buffer o l : in_buffer o l -> in_buffer o (release (take_snapshot l) (set_dropped 0 l)).
Proof.
  intros (Hb & Hs & He & Hx). unfold release, take_snapshot, in_buffer.
  repeat case_bool_decide; cbn in *; lia.
Qed.

(** ** What the operations on a file leave as it is

    They may rename the log, and change some of its settings when something fails, but
    neither the size of the buffer nor the bounds of the others. *)

Record file_kept (l l' : logfile) : Prop := {
  fk_buffsize : buffsize (opts l') = buffsize (opts l);
  fk_settings : settings_ok (opts l) -> settings_ok (opts l');
  fk_naming : naming_fits (nam l) -> naming_fits (nam l')
}.

#[export] Instance file_kept_preorder : PreOrder file_kept.
Proof. split; [by intros l|]. intros l1 l2 l3 [] []. split; [congruence|auto..]. Qed.

Definition keeping {A} (m : M A) : Prop := forall w w' a, m w = Ret (w', a) -> file_kept (lf w) (lf w').

Section Keeping.
Context {K : Kernel}.

Lemma keeping_bind {A B} (m : M A) (f : A -> M B) : keeping m -> (forall a, keeping (f a)) -> keeping (mbind f m).
Proof.
  intros Hm Hf w w' b. unfold mbind, M_bind. destruct (m w) as [[w1 a]| |] eqn:E; [|done..]. cbn.
  intros E'. etrans; [by eapply Hm|by eapply Hf].
Qed.
Lemma keeping_ret {A} (a : A) : keeping (mret a). Proof. by intros w w' b [= <- _]. Qed.
Lemma keeping_get {A} (f : logfile -> A) : keeping (get f). Proof. by intros w w' b [= <- _]. Qed.
Lemma keeping_get_sys {A} (f : fs -> A) : keeping (get_sys f). Proof. by intros w w' b [= <- _]. Qed.
Lemma keeping_sys {A} (f : fs -> fs * A) : keeping (do_sys f).
Proof. intros w w' b. unfold do_sys. destruct (f (sys w)). by intros [= <- _]. Qed.
Lemma keeping_lift {A} (o : outcome A) : keeping (lift o).
Proof. intros w w' b. unfold lift. destruct o; [|done..]. by intros [= <- _]. Qed.
Lemma keeping_localtime t : keeping (localtime t).
Proof. intros w w' b. unfold localtime. repeat case_match; by intros [= <- _]. Qed.
Lemma keeping_modify f : (forall l, file_kept l (f l)) -> keeping (modify f).
Proof. intros Hf w w' b [= <- _]. apply Hf. Qed.
Lemma keeping_hnd f : keeping (on_hnd f). Proof. by apply keeping_modify. Qed.
Lemma keeping_opts f :
  (forall o, buffsize (f o) = buffsize o) -> (forall o, settings_ok o -> settings_ok (f o)) -> keeping (on_opts f).
Proof. intros H1 H2. apply keeping_modify. intros l. split; cbn; auto. Qed.

End Keeping.

Create HintDb keeping.
#[local] Hint Resolve keeping_ret keeping_get keeping_get_sys keeping_sys keeping_lift keeping_localtime
  keeping_hnd : keeping.

(** Goes through an operation. *)
Ltac keep := repeat first
  [ solve [eauto with keeping nocore] | apply keeping_bind; [|intros ?]
  | progress (cbv beta zeta) | case_match ].

Section Operations.
Context {K : Kernel}.

Lemma keeping_free_archive_file fuel n t i : keeping (free_archive_file fuel n t i).
Proof. revert i. induction fuel as [|fuel IH]; intros i; cbn [free_archive_file]; keep. Qed.
#[local] Hint Resolve keeping_free_archive_file : keeping.

Lemma keeping_rename_logfile f : keeping (rename_logfile f).
Proof. unfold rename_logfile, getmtime. keep. Qed.

Lemma keeping_list_dir {U} p (callback : path -> U -> M (Z * U)) u :
  (forall n u, keeping (callback n u)) -> keeping (list_dir p callback u).
Proof.
  intros H. unfold list_dir. apply keeping_bind; [apply keeping_sys|]. intros [names|]; [|keep].
  revert u. induction names as [|n names IH]; intros u; cbn [list_entries]; keep.
Qed.

Lemma keeping_count n u : keeping (count_log_callback n u).
Proof. unfold count_log_callback. keep. Qed.
Lemma keeping_oldest d n u : keeping (get_oldest_callback d n u).
Proof. unfold get_oldest_callback. keep. Qed.
#[local] Hint Resolve keeping_list_dir keeping_count keeping_oldest : keeping.

Lemma keeping_remove_times k : keeping (remove_times k).
Proof. induction k as [|k IH]; cbn [remove_times]; unfold remove_oldestlog; keep. Qed.
#[local] Hint Resolve keeping_remove_times : keeping.

Lemma keeping_remove_oldlog : keeping remove_oldlog.
Proof. unfold remove_oldlog. keep. Qed.

Lemma keeping_log_unlock : keeping log_unlock.
Proof. unfold log_unlock. keep. Qed.
Lemma keeping_log_lock : keeping log_lock.
Proof. unfold log_lock. keep. Qed.
#[local] Hint Resolve keeping_rename_logfile keeping_remove_oldlog keeping_log_unlock keeping_log_lock : keeping.

Lemma keeping_wait_pid b : keeping (wait_pid b).
Proof. unfold wait_pid. keep. Qed.

Lemma keeping_nocompress b : keeping (on_opts (set_nocompress b)).
Proof. apply keeping_opts; [done|]. by intros o []. Qed.
Lemma keeping_multi b : keeping (on_opts (set_multi_log b)).
Proof. apply keeping_opts; [done|]. by intros o []. Qed.
Lemma keeping_screen n : keeping (on_opts (Tlog.tlog_logscreen n)).
Proof. apply keeping_opts; [done|]. intros o. apply settings_ok_screen. Qed.
Lemma keeping_count0 : keeping (on_opts (Tlog.tlog_logcount 0)).
Proof. apply keeping_opts; [done|]. intros o. by apply settings_ok_count. Qed.
#[local] Hint Resolve keeping_nocompress keeping_multi keeping_screen keeping_count0 : keeping.

Lemma keeping_archive_log : keeping archive_log.
Proof.
  unfold archive_log, archive_log_nocompress, archive_log_compressed, make_pending, start_gzip, errout, get_errno.
  keep.
Qed.

Lemma keeping_mkdir p : keeping (tlog_mkdir p).
Proof.
  assert (forall before rest, keeping (mkdir_loop before rest)) as H.
  { intros before rest. revert before. induction rest as [|b rest IH]; intros before; cbn [mkdir_loop]; keep. }
  unfold tlog_mkdir. keep; try apply H.
Qed.
#[local] Hint Resolve keeping_archive_log keeping_mkdir : keeping.

Lemma keeping_open_log : keeping open_log.
Proof. unfold open_log, mkdir_failed, get_errno. keep. Qed.
Lemma keeping_rotate : keeping rotate.
Proof. unfold rotate. keep. Qed.
Lemma keeping_names : keeping get_log_name_dir.
Proof.
  unfold get_log_name_dir. keep. apply keeping_modify. intros l. split; [done..|]. cbn. intros [H1 H2 H3].
  split; cbn; [by apply length_copied..|done].
Qed.
Lemma keeping_renamed : keeping (modify (with_nam (fun n =>
  mk_naming (logdir n) (logname n) (suffix n) (pending_logfile n) false))).
Proof. apply keeping_modify. intros l. split; [done..|]. by intros []. Qed.
#[local] Hint Resolve keeping_open_log keeping_rotate keeping_names keeping_renamed : keeping.

Lemma keeping_write_ext bs : keeping (write_ext bs).
Proof. unfold write_ext, write_data, get_errno. keep. Qed.

End Operations.

(** ** The calls *)

Section Calls.
Context {K : Kernel}.

Lemma logs_ok_update p v v' c :
  nodes c !! p = Some v -> next v' = next v -> node_ok v' -> logs_ok c ->
  logs_ok (set_nodes (<[p := v']> (nodes c)) c).
Proof.
  intros Hv Hn Ho [(l & Hc & Hd & Hr) Hk Hw]. split; cbn; [|..|done].
  - exists l. split_and!; [by eapply chain_insert| |done].
    rewrite dom_insert_L. assert (p ∈ dom (nodes c)) by (apply elem_of_dom; eauto). set_solver.
  - intros q u [[<- <-]|[_ Hu]]%lookup_insert_Some; [done|by eapply Hk].
Qed.

Lemma on_log_ok p (f : logfile -> logfile) c :
  (forall v, node_ok v -> node_ok (set_file (f (file v)) v)) -> live p c -> logs_ok c ->
  exists c', on_log p f c = Ret (c', tt) /\ logs_ok c'.
Proof.
  intros Hf Hp Hc. destruct p as [p|]; [|by exists c]. destruct (Hp p eq_refl) as [v Hv].
  exists (set_nodes (<[p := set_file (f (file v)) v]> (nodes c)) c). split.
  - unfold on_log, update. by rewrite Hv.
  - eapply logs_ok_update; [done..| |done]. by apply Hf, (lo_nodes _ Hc p).
Qed.

Lemma rename_ok p f c : is_Some (nodes c !! p) -> logs_ok c ->
  exists c', tlog_rename_logfile (Some p) f c = Ret (c', tt) /\ logs_ok c'.
Proof.
  intros [v Hv] Hc. unfold tlog_rename_logfile, on_file, rename_request, modify. rewrite Hv. cbn.
  eexists. split; [reflexivity|].
  assert (forall w c, logs_ok c -> logs_ok (set_outside w c)) as Hw by (intros w c' []; by split).
  apply Hw. eapply logs_ok_update; [done..| |done].
  apply (node_ok_file (with_nam (fun n => mk_naming (logdir n) (logname n) (suffix n) (copied PATH_MAX f) true)));
    [done|cbn; eauto|done|by apply (lo_nodes _ Hc p)].
Qed.

Lemma live_root c : logs_ok c -> live (root c) c.
Proof. intros [(l & Hc & Hd & Hr) _ _] p Hp. eapply chain_in; [done|by apply Hr]. Qed.

Lemma for_logs_ok fuel f q l c :
  (forall v, next (f v) = next v) -> (forall v, node_ok v -> node_ok (f v)) ->
  chain (nodes c) q l -> (length l <= fuel)%nat -> logs_ok c ->
  exists m, for_logs fuel f q c = Ret (set_nodes m c, tt) /\ logs_ok (set_nodes m c).
Proof.
  intros Hn Hf. revert q l c. induction fuel as [|fuel IH]; intros q [|p l] c H Hl Hc.
  1,3: rewrite H; exists (nodes c); by destruct c.
  - cbn in Hl. lia.
  - destruct H as (-> & v & Hv & H). cbn [for_logs]. c_steps.
    destruct (IH (next v) l (set_nodes (<[p := f v]> (nodes c)) c)) as (m & E & Hm).
    + by apply (chain_insert _ _ _ _ v).
    + cbn in Hl. lia.
    + eapply logs_ok_update; [done..| |done]. by apply Hf, (lo_nodes _ Hc p).
    + by exists m.
Qed.

Lemma each_log_ok f c :
  (forall v, next (f v) = next v) -> (forall v, node_ok v -> node_ok (f v)) -> logs_ok c ->
  exists c', each_log f c = Ret (c', tt) /\ logs_ok c'.
Proof.
  intros Hn Hf Hc. unfold each_log. c_steps. destruct (root c); [|by exists c].
  destruct (lo_list _ Hc) as (l & H & _). pose proof (chain_length _ _ _ H). c_steps.
  destruct (for_logs_ok (S (size (nodes c))) f (log c) l c) as (m & E & Hm); [done..|lia|done|].
  by exists (set_nodes m c).
Qed.

Lemma open_ok p buffer tty f size count bsize flag c :
  new_memory p buffer size count bsize flag c -> logs_ok c ->
  logs_ok (opened p buffer tty f size count bsize flag c).1.
Proof.
  intros (Hp & Hb & Hs & Hn & Hz) Hc. unfold opened.
  destruct p as [q|]; [|done]. destruct buffer as [mem|]; [|done]. destruct (running c) eqn:Hu; [|done].
  destruct Hc as [(l & H & Hd & Hr) Hk Hw]. split; cbn.
  - exists (q :: l). split_and!.
    + split; [done|]. eexists. split; [apply lookup_insert_eq|]. cbn.
      apply (chain_outside (nodes c)); [|done]. intros y Hy.
      rewrite lookup_insert_ne; [done|]. intros ->. destruct (chain_in _ _ _ _ H Hy) as [? E].
      by rewrite Hp in E.
    + rewrite dom_insert_L, Hd. set_solver.
    + intros y Hy. right. by apply Hr.
  - intros y u [[<- <-]|[_ Hy]]%lookup_insert_Some; [|by eapply Hk]. apply node_ok_new; auto.
  - intros Hf. destruct (Hw Hf). congruence.
Qed.

Lemma logs_down c : logs_ok c -> root_format c = false -> nodes c = ∅.
Proof.
  intros Hc Hd. destruct (lo_down _ Hc Hd) as [Hnil _]. destruct (lo_list _ Hc) as (l & H & Hdom & _).
  assert (l = []) as -> by (destruct l; [done|]; rewrite Hnil in H; by destruct H).
  by apply dom_empty_inv_L.
Qed.

Lemma init_ok p buffer tty gzip created f size count bsize flag c :
  new_memory p buffer size count bsize flag c -> logs_ok c ->
  exists c' r, tlog_init p buffer tty gzip created f size count bsize flag c = Ret (c', r) /\ logs_ok c'.
Proof.
  intros (Hp & Hb & Hs & Hn & Hz) Hc.
  destruct (tlog_init_returns p buffer tty gzip created f size count bsize flag c Hp)
    as (c' & r & E & [(-> & ->)|[(-> & Hd & Hm & Hl & Hr & Hf & Hu)
      |(q & mem & -> & -> & -> & Hd & _ & _ & Hm & Hl & Hr & Hf & _)]]);
    do 2 eexists; (split; [exact E|]).
  - done.
  - rewrite (logs_down c Hc Hd) in Hm. split.
    + exists []. rewrite Hm, Hl, Hr. split_and!; [done| |done]. set_solver.
    + intros y v. by rewrite Hm.
    + done.
  - rewrite (logs_down c Hc Hd) in Hm. split.
    + exists [q]. rewrite Hm, Hl. split_and!.
      * split; [done|]. eexists. by split; [apply lookup_insert_eq|].
      * set_solver.
      * intros y. rewrite Hr. intros [= ->]. left.
    + intros y v. rewrite Hm. intros [[<- <-]|[_ Hy]]%lookup_insert_Some; [|done].
      apply node_ok_output, node_ok_new; auto.
    + congruence.
Qed.

Lemma reg_output_ok p user c :
  live p c -> logs_ok c -> exists c' r, tlog_reg_output_func p user c = Ret (c', r) /\ logs_ok c'.
Proof.
  intros Hp Hc. unfold tlog_reg_output_func. c_steps. case_bool_decide; [by exists c, (-1)|].
  destruct p as [p|]; [|by exists c, (-1)]. destruct (Hp p eq_refl) as [v Hv]. c_steps.
  do 2 eexists. split; [reflexivity|]. eapply logs_ok_update; [done..| |done].
  by apply node_ok_output, (lo_nodes _ Hc p).
Qed.

Lemma set_private_ok p d c :
  live p c -> logs_ok c -> exists c', tlog_set_private p d c = Ret (c', tt) /\ logs_ok c'.
Proof.
  intros Hp Hc. destruct p as [p|]; [|by exists c]. destruct (Hp p eq_refl) as [v Hv].
  exists (set_nodes (<[p := set_private_data d v]> (nodes c)) c). split.
  - unfold tlog_set_private, update. by rewrite Hv.
  - eapply logs_ok_update; [done..| |done]. by destruct (lo_nodes _ Hc p v Hv).
Qed.

Lemma exit_ok fuel c :
  (size (nodes c) <= fuel)%nat -> (forall p v, nodes c !! p = Some v -> zip_pid (hnd (file v)) <= 0) ->
  logs_ok c -> exists c', tlog_exit fuel c = Ret (c', tt) /\ logs_ok c'.
Proof.
  intros Hf Hz Hc. destruct (root_format c) eqn:Hup.
  - destruct (lo_list _ Hc) as (l & H & Hd & _). pose proof (chain_length _ _ _ H) as Hl.
    destruct (tlog_exit_frees l fuel c Hup H) as (c' & E & Hd' & El & Er & Ef & Eu);
      [intros p v _; apply Hz|lia|]. exists c'. split; [done|].
    assert (nodes c' = ∅) as Hn by (apply dom_empty_inv_L; rewrite Hd', Hd; set_solver).
    split; [|intros p v; by rewrite Hn|done].
    exists []. rewrite Hn, El, Er. split_and!; [done|set_solver|done].
  - exists c. split; [|done]. unfold tlog_exit. by rewrite bind_asks, Hup.
Qed.

Lemma update_ring_ok p v l c :
  nodes c !! p = Some v -> in_buffer (opts (file v)) l -> logs_ok c ->
  exists c', update p (set_ring l) c = Ret (c', tt) /\ logs_ok c'.
Proof.
  intros Hv Hl Hc. exists (set_nodes (<[p := set_ring l v]> (nodes c)) c). split.
  - unfold update. by rewrite Hv.
  - eapply logs_ok_update; [done..| |done]. apply node_ok_ring; [done|]. by apply (lo_nodes _ Hc p).
Qed.

Lemma print_round_ok p v maxlen line c :
  nodes c !! p = Some v -> laid_out (Some p) maxlen line c -> logs_ok c ->
  exists c' b, print_round p maxlen line c = Ret (c', b) /\ logs_ok c'.
Proof.
  intros Hv Hl Hc. destruct (Hl p v eq_refl Hv) as [Hm Hlen].
  pose proof (ring_in_buffer v (lo_nodes _ Hc p v Hv)) as Hb.
  assert (forall n, in_buffer (opts (file v)) (set_dropped n (ring v))) as Hd by (intros n; exact Hb).
  unfold print_round. c_steps. destruct (_ && negb _); [by exists c, true|].
  assert (exists (n : Z) (b : bool), need_drop (opts (file v)) (ring v) = (if b then set_dropped n (ring v) else ring v, b))
    as (n & b & Eb).
  { unfold need_drop. destruct (Tlog.block _); [by exists 0, false|]. case_bool_decide; [by eexists _, true|by exists 0, false]. }
  rewrite Eb. destruct b.
  { destruct (update_ring_ok p v _ c Hv (Hd n) Hc) as (c' & E & H).
    exists c', true. by rewrite (bind_ret _ _ _ _ _ E). }
  case_bool_decide as Hroom.
  - destruct (Tlog.block _); [by exists c, false|].
    destruct (update_ring_ok p v _ c Hv (Hd (dropped (ring v) + 1)) Hc) as (c' & E & H).
    exists c', true. by rewrite (bind_ret _ _ _ _ _ E).
  - destruct (store_line_fits (opts (file v)) (ring v) maxlen line Hb Hm) as (l & E & Hin); [lia|done|].
    rewrite E. destruct (update_ring_ok p v l c Hv Hin Hc) as (c' & E' & H).
    exists c', true. by rewrite (bind_ret _ _ _ _ _ E').
Qed.

Lemma vprintf_ok p maxlen line c :
  live p c -> laid_out p maxlen line c -> logs_ok c ->
  exists c' b, tlog_vprintf p maxlen line c = Ret (c', b) /\ logs_ok c'.
Proof.
  intros Hp Hl Hc. destruct p as [p|]; [|by exists c, true].
  destruct (Hp p eq_refl) as [v Hv]. by apply (print_round_ok p v).
Qed.

Lemma vext_ok maxlen line c :
  laid_out (root c) maxlen line c -> logs_ok c ->
  exists c' b, tlog_vext maxlen line c = Ret (c', b) /\ logs_ok c'.
Proof.
  intros Hl Hc. pose proof (live_root c Hc) as Hr. unfold tlog_vext. c_steps.
  destruct (root c) as [p|]; [|by exists c, true]. destruct (Hr p eq_refl) as [v Hv]. c_steps.
  case_bool_decide; [by exists c, true|]. by apply (print_round_ok p v).
Qed.

(** *** The writer *)

Lemma on_file_ok {A} p (m : M A) c c' a :
  keeping m -> logs_ok c -> on_file p m c = Ret (c', a) ->
  logs_ok c' /\ root c' = root c /\ log c' = log c
  /\ forall v, nodes c !! p = Some v -> exists f, nodes c' !! p = Some (set_file f v).
Proof.
  intros Hm Hc E. unfold on_file in E. destruct (nodes c !! p) as [v|] eqn:Hv; [|done]. cbn in E.
  set (w := mk_world _ _ _ _ _) in E. destruct (m w) as [[w' b]| |] eqn:Ew; [|done..]. cbn in E.
  injection E as <- <-. destruct (Hm _ _ _ Ew) as [H1 H2 H3]. cbn in H1, H2, H3.
  split_and!; [|done|done|intros u [= <-]; exists (lf w'); apply lookup_insert_eq].
  assert (forall x d, logs_ok d -> logs_ok (set_outside x d)) as Hw by (intros x d []; by split).
  apply Hw. eapply logs_ok_update; [done..| |done].
  destruct (lo_nodes _ Hc p v Hv). split; cbn; [auto|auto|by rewrite H1..].
Qed.

Lemma work_release_ok p c c' : logs_ok c -> work_release p c = Ret (c', tt) -> logs_ok c'.
Proof.
  intros Hc. unfold work_release, update. destruct (nodes c !! p) as [v|] eqn:Hv; [|done].
  intros [= <-]. eapply logs_ok_update; [done..| |done]. pose proof (lo_nodes _ Hc p v Hv) as Ho.
  apply node_ok_ring; [|done]. by apply release_in_buffer, ring_in_buffer.
Qed.

(** A log without a gzip process is taken out of the list. *)
Lemma close_idle_ok p v wait_hang c c' r :
  logs_ok c -> nodes c !! p = Some v -> root c <> Some p -> zip_pid (hnd (file v)) <= 0 ->
  close_log p wait_hang c = Ret (c', r) -> logs_ok c'.
Proof.
  intros Hc Hv Hr Hz E. destruct (lo_list _ Hc) as (l & H & Hd & Hrl).
  assert (p ∈ l) as (a & b & ->)%list_elem_of_split.
  { apply (elem_of_list_to_set (C := gset ptr)). rewrite <- Hd. apply elem_of_dom. by eexists. }
  destruct (close_log_returns p v wait_hang a b c H Hv Hz) as (w & m & E' & Hp & Hc' & Ho & Hd' & _).
  rewrite E in E'. injection E' as -> _. pose proof (chain_NoDup _ _ _ H) as Hnd. split; cbn.
  - exists (a ++ b). split_and!; [exact Hc'| |].
    + rewrite Hd', Hd. apply set_eq. intros x.
      rewrite elem_of_difference, !elem_of_list_to_set, !elem_of_app, elem_of_cons, elem_of_singleton.
      rewrite NoDup_app, NoDup_cons in Hnd. set_solver.
    + intros x Hx. pose proof (Hrl x Hx) as Hin. rewrite elem_of_app, elem_of_cons in *.
      destruct Hin as [?|[->|?]]; [by left|done|by right].
  - intros x u Hx. assert (x <> p) as Hxp by (intros ->; congruence).
    destruct (Ho x Hxp) as [n En]. rewrite Hx in En. symmetry in En. apply fmap_Some in En as (u' & Hu' & ->).
    by destruct (lo_nodes _ Hc x u' Hu').
  - intros Hf. destruct (lo_down _ Hc Hf) as [Hl _]. rewrite Hl in H. destruct a; by destruct H.
Qed.

Lemma close_log_ok p v wait_hang c c' r :
  logs_ok c -> nodes c !! p = Some v -> root c <> Some p ->
  close_log p wait_hang c = Ret (c', r) -> logs_ok c'.
Proof.
  intros Hc Hv Hr E. destruct (decide (zip_pid (hnd (file v)) <= 0)) as [Hz|Hz]; [by eapply close_idle_ok|].
  pose proof E as E0. unfold close_log in E. rewrite bind_asks, (bind_deref p v) in E by done.
  rewrite (bool_decide_eq_true_2 (zip_pid _ > 0)) in E by lia.
  destruct (on_file p (wait_pid wait_hang) c) as [[c1 []]| |] eqn:E1;
    [|by unfold mbind, C_bind in E; rewrite E1 in E..].
  rewrite (bind_ret _ _ _ _ _ E1) in E.
  destruct (on_file_ok p _ c c1 tt (keeping_wait_pid wait_hang) Hc E1) as (Hc1 & Hr1 & Hl1 & Hv1).
  destruct (Hv1 v Hv) as [f Hf]. rewrite (bind_deref p (set_file f v)) in E by done. cbn [file set_file] in E.
  case_bool_decide as Hz1; [by injection E as <- <-|].
  eapply (close_idle_ok p (set_file f v) wait_hang c1); [done|done|by rewrite Hr1|cbn; lia|].
  unfold close_log. rewrite bind_asks, (bind_deref p (set_file f v)) by done. cbn [file set_file].
  rewrite !(bool_decide_eq_false_2 (zip_pid _ > 0)) by lia. rewrite bind_mret, (bind_deref p (set_file f v)) by done.
  cbn [file set_file]. rewrite (bool_decide_eq_false_2 (zip_pid _ > 0)) by lia. by rewrite Hl1.
Qed.

End Calls.

(** ** Theorem *)

Section Theorems.
Context {K : Kernel}.

(** The states a program reaches: it calls the public functions, [tlog_write] among them, and in
    between the writer writes, looks after a gzip process, releases what it has written
    of a ring, and closes logs that the program has closed, but not the root log. *)
Inductive requested (w : world) : ctl -> Prop :=
  | Started : requested w (no_logs w)
  | Requested c r c' : requested w c -> valid c r -> run_request r c = Ret (c', tt) -> requested w c'
  | Written c p bs c' r : requested w c -> on_file p (write_ext bs) c = Ret (c', r) -> requested w c'
  | Polled c p hang c' : requested w c -> on_file p (wait_pid hang) c = Ret (c', tt) -> requested w c'
  | Released c p c' : requested w c -> work_release p c = Ret (c', tt) -> requested w c'
  | Closed c p v c' r :
      requested w c -> nodes c !! p = Some v -> is_exit v = true -> root c <> Some p ->
      close_log p false c = Ret (c', r) -> requested w c'.

(** One call returns and keeps the logs well formed. *)
Lemma run_request_ok r c :
  logs_ok c -> valid c r -> exists c', run_request r c = Ret (c', tt) /\ logs_ok c'.
Proof.
  intros Hc Hv. destruct r; cbn [valid run_request] in *.
  - destruct (init_ok p buffer tty gzip created logfile0 maxlogsize maxlogcount buffsize0 flag c Hv Hc) as (c' & r & E & H).
    rewrite (bind_ret _ _ _ _ _ E). by exists c'.
  - rewrite (bind_ret _ _ _ _ _ (tlog_open_returns _ _ _ _ _ _ _ _ _)).
    eexists. split; [reflexivity|]. by apply open_ok.
  - destruct p as [p|]; [|by exists c]. destruct (Hv p eq_refl) as [v Hp].
    eexists. split; [cbn; unfold update; by rewrite Hp|].
    eapply logs_ok_update; [done..| |done]. by destruct (lo_nodes _ Hc p v Hp).
  - destruct Hv. by apply exit_ok.
  - destruct Hv as [H1 H2]. destruct (vprintf_ok p maxlen line c H1 H2 Hc) as (c' & b & E & H).
    rewrite (bind_ret _ _ _ _ _ E). by exists c'.
  - destruct (vext_ok maxlen line c Hv Hc) as (c' & b & E & H). rewrite (bind_ret _ _ _ _ _ E). by exists c'.
  - apply rename_ok; [by apply Hv|done].
  - apply on_log_ok; [|by apply Hv|done]. intros v. by apply node_ok_file; cbn; eauto.
  - apply on_log_ok; [|by apply Hv|done]. intros v. destruct Hv. apply node_ok_file; cbn; eauto.
  - apply on_log_ok; [|done..]. intros v. by apply node_ok_file; cbn; eauto.
  - apply on_log_ok; [|done..]. intros v. by apply node_ok_file; cbn; eauto.
  - c_steps. apply on_log_ok; [|by apply live_root|done]. intros v. by apply node_ok_file; cbn; eauto.
  - c_steps. pose proof (live_root c Hc) as Hl. destruct (root c) as [p|]; [|done]. by apply rename_ok; [apply Hl|].
  - c_steps. apply on_log_ok; [|by apply live_root|done]. intros v. by apply node_ok_file; cbn; eauto.
  - destruct (reg_output_ok p user c Hv Hc) as (c' & r & E & H). rewrite (bind_ret _ _ _ _ _ E). by exists c'.
  - destruct Hv as [Hf ->]. eexists. split; [reflexivity|].
    destruct Hc as [? ? ?]. by split.
  - assert (logs_ok (set_log_output callback c)) as H by (by destruct Hc).
    destruct (set_private_ok (root c) data _ (live_root _ H) H) as (c' & E & H').
    exists c'. split; [|done]. unfold tlog_reg_log_output_func.
    rewrite (bind_ret _ _ _ c' 0); [done|]. c_steps. by rewrite (bind_ret _ _ _ _ _ E).
  - by apply set_private_ok.
  - eexists. split; [reflexivity|]. by destruct Hc.
  - eexists. split; [reflexivity|]. by destruct Hc.
  - eexists. split; [reflexivity|]. by destruct Hc.
  - apply each_log_ok; [done| |done]. intros v. by apply (node_ok_file (with_opts (set_multi_log true))); cbn; eauto.
  - unfold tlog_fork_child.
    edestruct each_log_ok as (c1 & E & H1); [| |exact Hc|rewrite (bind_ret _ _ _ _ _ E)].
    + done.
    + intros v []. split; cbn; [done..|lia|lia|lia].
    + destruct created; [by exists c1|]. apply each_log_ok; [done| |done]. by intros v [].
Qed.


End Theorems.


End LogTypes.
