(* ===== verification/LogLock.v ===== *)
(** * tlog.c: the lock of a log file between processes

    [_tlog_log_lock] and [_tlog_log_unlock] keep the processes that write one log from
    archiving it at the same time. The steps of several processes interleave here; each
    system call is one step. *)

From stdpp Require Import base gmap.
From S2P Require Import Prelude.

Module LogLock.

Definition pid := nat.
Definition ino := nat.

(** Where a process is. *)
Inductive at_lock :=
  | Outside                 (* before [open], or after a lock that failed or was given back *)
  | Opened (i : ino)        (* between [open] and [lockf] *)
  | Locked (i : ino)        (* [_tlog_log_lock] returned 0 *)
  | Refused (i : ino)       (* before the [close] of [errout] *)
  | Unlinked (i : ino).     (* between [unlink] and [close] of [_tlog_log_unlock] *)

#[export] Instance at_lock_eq_dec : EqDecision at_lock.
Proof. solve_decision. Defined.

(** The file with the name of the lock, which process has locked which file, and the
    processes. A lock lasts until the file is closed, whether it has its name or not. *)
Record locks := mk_locks {
  lock_file : option ino;
  holder : gmap ino pid;
  fresh : ino;
  procs : gmap pid at_lock
}.

Definition place_of (s : locks) (p : pid) : at_lock := default Outside (procs s !! p).

Definition move (p : pid) (a : at_lock) (s : locks) : locks :=
  mk_locks (lock_file s) (holder s) (fresh s) (<[p := a]> (procs s)).

(** [open(lock_file, O_RDWR | O_CREAT)] *)
Definition open_lock (p : pid) (s : locks) : locks :=
  match lock_file s with
  | Some i => move p (Opened i) s
  | None => mk_locks (Some (fresh s)) (holder s) (S (fresh s)) (<[p := Opened (fresh s)]> (procs s))
  end.

(** [lockf(fd, F_TLOCK, 0)] *)
Definition try_lock (p : pid) (i : ino) (s : locks) : locks :=
  match holder s !! i with
  | Some q => if decide (q = p) then move p (Locked i) s else move p (Refused i) s
  | None => mk_locks (lock_file s) (<[i := p]> (holder s)) (fresh s) (<[p := Locked i]> (procs s))
  end.

(** [unlink(lock_file)] *)
Definition unlink_lock (p : pid) (i : ino) (s : locks) : locks :=
  mk_locks None (holder s) (fresh s) (<[p := Unlinked i]> (procs s)).

(** [close(fd)] gives back the locks the process has on the file. *)
Definition close_lock (p : pid) (i : ino) (s : locks) : locks :=
  mk_locks (lock_file s) (if decide (holder s !! i = Some p) then delete i (holder s) else holder s)
    (fresh s) (<[p := Outside]> (procs s)).

(** The next call of a process. *)
Definition turn (p : pid) (s : locks) : locks :=
  match place_of s p with
  | Outside => open_lock p s
  | Opened i => try_lock p i s
  | Refused i => close_lock p i s
  | Locked i => unlink_lock p i s
  | Unlinked i => close_lock p i s
  end.

Definition start : locks := mk_locks None ∅ 0 ∅.

Definition turns (l : list pid) (s : locks) : locks := foldl (fun s p => turn p s) s l.

(** [p] may archive the log. *)
Definition in_section (s : locks) (p : pid) : Prop := exists i, place_of s p = Locked i.

(** A turn of [p] does not take the name away from a process between [open] and
    [lockf]. *)
Definition opening (a : at_lock) : bool := match a with Opened _ => true | _ => false end.

Definition undisturbed (p : pid) (s : locks) : Prop :=
  match place_of s p with
  | Locked _ => map_Forall (fun _ a => opening a = false) (procs s)
  | _ => True
  end.

#[export] Instance undisturbed_dec p s : Decision (undisturbed p s).
Proof. unfold undisturbed. destruct (place_of s p); apply _. Defined.

Inductive reached : locks -> Prop :=
  | ReachedStart : reached start
  | ReachedTurn p s : reached s -> undisturbed p s -> reached (turn p s).

Fixpoint all_undisturbed (l : list pid) (s : locks) : bool :=
  match l with
  | [] => true
  | p :: l => bool_decide (undisturbed p s) && all_undisturbed l (turn p s)
  end.

Lemma reached_turns l : all_undisturbed l start = true -> reached (turns l start).
Proof.
  assert (forall s, reached s -> all_undisturbed l s = true -> reached (turns l s)) as H; [|by apply H; constructor].
  induction l as [|p l IH]; intros s Hs; [done|].
  intros [Hu%bool_decide_eq_true Hl]%andb_prop. by apply IH; [constructor|].
Qed.

(** ** Mutual exclusion *)

Record lock_ok (s : locks) : Prop := {
  lk_opened p i : place_of s p = Opened i -> lock_file s = Some i;
  lk_locked p i : place_of s p = Locked i -> lock_file s = Some i /\ holder s !! i = Some p
}.

Lemma place_insert p a s q f h n :
  place_of (mk_locks f h n (<[p := a]> (procs s))) q = if decide (q = p) then a else place_of s q.
Proof.
  unfold place_of. cbn. destruct (decide (q = p)) as [->|].
  - by rewrite lookup_insert_eq.
  - by rewrite lookup_insert_ne.
Qed.

(** A turn that leaves the name: what is to be shown of the other processes is known. *)
Lemma lock_ok_kept p a h n s :
  lock_ok s ->
  (forall i, a = Opened i -> lock_file s = Some i) ->
  (forall i, a = Locked i -> lock_file s = Some i /\ h !! i = Some p) ->
  (forall q i, q <> p -> place_of s q = Locked i -> h !! i = Some q) ->
  lock_ok (mk_locks (lock_file s) h n (<[p := a]> (procs s))).
Proof.
  intros [Ho Hl] Ha Hk Hh. split; intros q i; rewrite place_insert; cbn; case_decide; subst; eauto.
  intros E. split; [by eapply Hl|eauto].
Qed.

(** A turn after which nobody is between [open] and [unlink] but perhaps [p]. *)
Lemma lock_ok_alone p a f h n s :
  (forall q i, q <> p -> place_of s q <> Opened i /\ place_of s q <> Locked i) ->
  (forall i, a = Opened i -> f = Some i) -> (forall i, a <> Locked i) ->
  lock_ok (mk_locks f h n (<[p := a]> (procs s))).
Proof.
  intros Hn Ha Hl. split; intros q i; rewrite place_insert; cbn; case_decide as Hq; subst.
  - apply Ha.
  - intros E. by destruct (Hn q i Hq) as [[] ?].
  - intros E. by destruct (Hl i).
  - intros E. by destruct (Hn q i Hq) as [? []].
Qed.

Lemma lock_ok_close p i a s :
  lock_ok s -> place_of s p = a -> (forall j, a <> Locked j) -> lock_ok (close_lock p i s).
Proof.
  intros Hs Ep Ha. unfold close_lock. apply lock_ok_kept; [done..|].
  intros q j Hq E. pose proof (lk_locked _ Hs q j E) as [_ Hh]. case_decide as Hd; [|done].
  rewrite lookup_delete_ne; [done|]. intros ->. congruence.
Qed.

Lemma lock_ok_turn p s : lock_ok s -> undisturbed p s -> lock_ok (turn p s).
Proof.
  intros Hs Hu. unfold turn. unfold undisturbed in Hu. destruct (place_of s p) as [|i|i|i|i] eqn:Ep.
  - unfold open_lock, move. destruct (lock_file s) as [i|] eqn:Ef.
    + rewrite <- Ef. apply lock_ok_kept; [done|by intros ? [= <-]|done|].
      intros q j _ E. by apply (lk_locked _ Hs).
    + apply lock_ok_alone; [|by intros ? [= <-]|done]. intros q i _. split; intros E.
      * apply (lk_opened _ Hs) in E. congruence.
      * apply (lk_locked _ Hs) in E as [E _]. congruence.
  - pose proof (lk_opened _ Hs p i Ep) as Ef. unfold try_lock, move.
    destruct (holder s !! i) as [q|] eqn:Eh; [case_decide as Hq; [subst q|]|].
    + apply lock_ok_kept; [done|done|by intros ? [= <-]|]. intros q j _ E. by apply (lk_locked _ Hs).
    + apply lock_ok_kept; [done..|]. intros q' j _ E. by apply (lk_locked _ Hs).
    + apply lock_ok_kept; [done|done|intros ? [= <-]; by rewrite lookup_insert_eq|].
      intros q j Hq E. apply (lk_locked _ Hs) in E as [E Eq].
      rewrite lookup_insert_ne; [done|]. intros ->. congruence.
  - pose proof (lk_locked _ Hs p i Ep) as [Ef Eh]. unfold unlink_lock.
    apply lock_ok_alone; [|done..]. intros q j Hq. split.
    { unfold place_of. destruct (procs s !! q) as [a|] eqn:Eq; [|done].
      intros E. cbn in E. subst a. by specialize (Hu q _ Eq). }
    intros E. apply (lk_locked _ Hs) in E as [E1 E2]. congruence.
  - by eapply lock_ok_close.
  - by eapply lock_ok_close.
Qed.

Lemma lock_ok_reached s : reached s -> lock_ok s.
Proof.
  induction 1 as [|p s H IH Hu]; [|by apply lock_ok_turn].
  split; intros p i; unfold place_of; cbn; by rewrite lookup_empty.
Qed.

(** C14. The lock file keeps processes apart as long as no process is between [open] and
    [lockf] when another one removes the file's name: of any number of processes that
    take and give back the lock of one log, in any order, at most one is in the section
    the lock protects. *)
Theorem log_lock_excludes s p q :
  reached s -> in_section s p -> in_section s q -> p = q.
Proof.
  intros H%lock_ok_reached [i Hi] [j Hj].
  apply (lk_locked _ H) in Hi as [Ei Hi]. apply (lk_locked _ H) in Hj as [Ej Hj]. congruence.
Qed.

(** Two processes one after the other. *)
Lemma log_lock_excludes_witness :
  let s := turns [1; 1; 1; 1; 2; 2; 1; 1] start in
  in_section s 2 /\ (in_section s 1 -> 1 = 2).
Proof.
  intros s. assert (in_section s 2) as H2 by (by exists 1). split; [done|]. intros H1.
  apply (log_lock_excludes s 1 2); [|done..]. by apply reached_turns.
Defined.

(** ** The race *)

(** What holds in every state, disturbed or not. *)
Record numbered (s : locks) : Prop := {
  nb_file i : lock_file s = Some i -> i < fresh s;
  nb_opened p i : place_of s p = Opened i -> i < fresh s;
  nb_holder i p : holder s !! i = Some p -> i < fresh s;
  nb_locked p i : place_of s p = Locked i -> holder s !! i = Some p
}.

(** A turn that makes no file. *)
Lemma numbered_kept p a f h s :
  numbered s -> (forall i, f = Some i -> lock_file s = Some i) ->
  (forall i, a = Opened i -> lock_file s = Some i) ->
  (forall i q, h !! i = Some q -> i < fresh s) ->
  (forall i, a = Locked i -> h !! i = Some p) ->
  (forall q i, q <> p -> place_of s q = Locked i -> h !! i = Some q) ->
  numbered (mk_locks f h (fresh s) (<[p := a]> (procs s))).
Proof.
  intros [Hf Ho Hh Hl] Hf' Ha Hh' Hk Hq. split; cbn; [eauto| |done|];
    intros q i; rewrite place_insert; case_decide; subst; eauto.
Qed.

Lemma numbered_close p i s :
  numbered s -> (forall j, place_of s p <> Locked j) -> numbered (close_lock p i s).
Proof.
  intros Hs Hp. pose proof Hs as [Hf Ho Hh Hl]. unfold close_lock. apply numbered_kept; [done..| | |].
  - intros j q. case_decide; [intros [_ E]%lookup_delete_Some|intros E]; by apply (Hh j q).
  - done.
  - intros q j Hq E%Hl. case_decide; [|done]. rewrite lookup_delete_ne; [done|]. intros ->. congruence.
Qed.

Lemma numbered_turn p s : numbered s -> numbered (turn p s).
Proof.
  intros Hs. pose proof Hs as [Hf Ho Hh Hl]. unfold turn. destruct (place_of s p) as [|i|i|i|i] eqn:Ep.
  - unfold open_lock, move. destruct (lock_file s) as [i|] eqn:Ef.
    + rewrite <- Ef. apply numbered_kept; [done|done|by intros ? [= <-]|done..|]. intros q j _. apply Hl.
    + split; cbn.
      * intros i [= <-]. apply Nat.lt_succ_diag_r.
      * intros q i. rewrite place_insert. case_decide; [intros [= <-]; apply Nat.lt_succ_diag_r|].
        intros E. by apply Nat.lt_lt_succ_r, (Ho q).
      * intros i q E. by apply Nat.lt_lt_succ_r, (Hh i q).
      * intros q i. rewrite place_insert. case_decide; [done|]. apply Hl.
  - unfold try_lock, move. destruct (holder s !! i) as [q|] eqn:Eh; [case_decide as Hq; [subst q|]|].
    + apply numbered_kept; [done..|by intros ? [= <-]|]. intros q j _. apply Hl.
    + apply numbered_kept; [done..|]. intros q' j _. apply Hl.
    + apply numbered_kept; [done|done|done| |intros ? [= <-]; by rewrite lookup_insert_eq|].
      * intros j q [[<- _]|[_ E]]%lookup_insert_Some; [by apply (Ho p)|by apply (Hh j q)].
      * intros q j Hq E%Hl. rewrite lookup_insert_ne; [done|]. intros ->. congruence.
  - unfold unlink_lock. apply numbered_kept; [done..|]. intros q j _. apply Hl.
  - apply numbered_close; [done|]. by rewrite Ep.
  - apply numbered_close; [done|]. by rewrite Ep.
Qed.

Lemma numbered_turns l : numbered (turns l start).
Proof.
  induction l as [|p l IH] using rev_ind; [|unfold turns in *; rewrite foldl_app; by apply numbered_turn].
  split; intros p i; unfold place_of; cbn; by rewrite ?lookup_empty.
Qed.

(** C15. Otherwise it does not, whatever the processes have done before: wherever one
    process has opened the lock file and not yet locked it while another one holds the lock, the
    holder may give it back, the first one then locks the file, which has lost its name,
    and any process that comes after that (the former holder too) makes a new file and
    locks that: both are in the section at once. The reason is that [_tlog_log_unlock]
    unlinks the file before it closes it. *)
Theorem log_lock_race l p q r i :
  let s := turns l start in
  place_of s p = Opened i -> place_of s q = Locked i -> p <> r ->
  place_of s r = Outside \/ r = q ->
  let s' := turns [q; q; p; r; r] s in
  in_section s' p /\ in_section s' r.
Proof.
  intros s Hp Hq Hpr Hr s'. pose proof (numbered_turns l : numbered s) as [_ Ho Hh Hl].
  assert (p <> q) as Hpq by (intros ->; congruence).
  pose proof (Hl q i Hq) as Hi. pose proof (Ho p i Hp) as Hlt.
  assert (holder s !! fresh s = None) as Hnew.
  { destruct (holder s !! fresh s) as [x|] eqn:E; [|done]. apply Hh in E. by apply Nat.lt_irrefl in E. }
  set (s1 := unlink_lock q i s).
  assert (turn q s = s1) as E1 by (unfold turn; by rewrite Hq).
  set (s2 := close_lock q i s1).
  assert (turn q s1 = s2) as E2.
  { unfold turn, s1, unlink_lock. by rewrite place_insert, decide_True. }
  set (s3 := try_lock p i s2).
  assert (place_of s2 p = Opened i) as Hp2.
  { unfold s2, close_lock, s1, unlink_lock. by rewrite !place_insert, !decide_False. }
  assert (turn p s2 = s3) as E3 by (unfold turn; by rewrite Hp2).
  assert (holder s2 = delete i (holder s)) as Eh2.
  { unfold s2, close_lock. cbn. by rewrite decide_True. }
  assert (s3 = mk_locks None (<[i := p]> (delete i (holder s))) (fresh s) (<[p := Locked i]> (procs s2))) as E3'.
  { unfold s3, try_lock. by rewrite Eh2, lookup_delete_eq. }
  assert (place_of s3 r = Outside) as Hr3.
  { rewrite E3'. rewrite place_insert, decide_False by done.
    unfold s2, close_lock, s1, unlink_lock. rewrite !place_insert.
    destruct Hr as [Hr| ->]; [|by rewrite decide_True]. repeat case_decide; done. }
  set (s4 := open_lock r s3).
  assert (turn r s3 = s4) as E4 by (unfold turn; by rewrite Hr3).
  assert (s4 = mk_locks (Some (fresh s)) (holder s3) (S (fresh s)) (<[r := Opened (fresh s)]> (procs s3))) as E4'
    by (unfold s4, open_lock; by rewrite E3').
  assert (turn r s4 = try_lock r (fresh s) s4) as E5.
  { unfold turn. by rewrite E4', place_insert, decide_True. }
  assert (s' = try_lock r (fresh s) s4) as -> by (unfold s', turns; cbn; by rewrite E1, E2, E3, E4).
  assert (holder s4 !! fresh s = None) as Hn4.
  { rewrite E4', E3'. cbn. rewrite lookup_insert_ne, lookup_delete_ne; [done|..];
      intros ->; by apply Nat.lt_irrefl in Hlt. }
  unfold try_lock. rewrite Hn4. split.
  - exists i. rewrite place_insert, decide_False by done. rewrite E4', place_insert, decide_False by done.
    by rewrite E3', place_insert, decide_True.
  - exists (fresh s). by rewrite place_insert, decide_True.
Qed.

(** Two processes, of which the first one locks, gives back and locks again. *)
Lemma log_lock_race_witness :
  let s := turns [1; 1; 2] start in
  place_of s 2 = Opened 0 /\ place_of s 1 = Locked 0
  /\ in_section (turns [1; 1; 2; 1; 1] s) 2 /\ in_section (turns [1; 1; 2; 1; 1] s) 1.
Proof.
  intros s. split_and!; [done|done|..]; by apply (log_lock_race [1; 1; 2] 2 1 1 0); [..|right].
Defined.

End LogLock.
