(* ===== verification/LogSpawn.v ===== *)
(** * tlog.c: the gzip command and the descriptors of its process

    [_tlog_get_gzip_cmd_path] looks for gzip in PATH; the process made to run it closes
    the descriptors it got from the program, by the names in /proc/self/fd or, when they
    cannot be read, by their numbers. *)

From Stdlib Require Import ZArith Lia.
From Stdlib Require Import Strings.Byte.
From stdpp Require Import base gmap sets list strings pretty.
From S2P Require Import Prelude Filesys LogFile.

Module LogSpawn.

Import Filesys LogFile.
Local Open Scope Z_scope.

(** ** The command *)

(** The tokens [strtok_r] gives: what lies between colons and is not empty. *)
Fixpoint tokens (s cur : path) : list path :=
  match s with
  | [] => if bool_decide (cur = []) then [] else [cur]
  | b :: s =>
      if bool_decide (b = x3a)
      then (if bool_decide (cur = []) then [] else [cur]) ++ tokens s []
      else tokens s (cur ++ [b])
  end.

Definition gzip_in (dir : path) : path := copied PATH_MAX (dir ++ bytes_of "/gzip").

Fixpoint first_gzip (executable : path -> bool) (dirs : list path) : path :=
  match dirs with
  | [] => []
  | d :: dirs => if executable (gzip_in d) then gzip_in d else first_gzip executable dirs
  end.

(** [_tlog_get_gzip_cmd_path]; the result is what becomes of [tlog.gzip_cmd], empty
    before. [env_path] is PATH, and [strdup] whether there was memory for a copy. *)
Definition get_gzip_cmd_path (executable : path -> bool) (env_path : option path) (strdup : bool) : path :=
  let env_path := default (bytes_of "/bin:/usr/bin:/usr/local/bin") env_path in
  if strdup then first_gzip executable (tokens env_path []) else [].

(** ** The descriptors *)

Definition digit_value (b : byte) : option Z :=
  let n := Z.of_N (Byte.to_N b) in
  if bool_decide (48 <= n <= 57) then Some (n - 48) else None.

(** The loop of [_tlog_str_to_int]; [int] overflow is undefined. *)
Fixpoint str_to_int_from (str : list byte) (num : Z) : outcome Z :=
  match str with
  | [] => Ret num
  | b :: str =>
      match digit_value b with
      | None => Ret (-1)
      | Some d => if bool_decide (num * 10 + d < 2 ^ 31) then str_to_int_from str (num * 10 + d) else Crash
      end
  end.

(** [_tlog_str_to_int] *)
Definition str_to_int (str : list byte) : outcome Z := str_to_int_from str 0.

Definition close_fd (fd : Z) (fds : gset Z) : gset Z := fds ∖ {[fd]}.

(** The entries of one [getdents64] call. *)
Fixpoint close_entries (dir_fd : Z) (names : list path) (fds : gset Z) : outcome (gset Z) :=
  match names with
  | [] => Ret fds
  | n :: names =>
      fd ← str_to_int n;
      if bool_decide (fd < 0) || bool_decide (fd = dir_fd) || bool_decide (0 <= fd <= 2)
      then close_entries dir_fd names fds
      else close_entries dir_fd names (close_fd fd fds)
  end.

Fixpoint close_chunks (dir_fd : Z) (chunks : list (list path)) (fds : gset Z) : outcome (gset Z) :=
  match chunks with
  | [] => Ret fds
  | names :: chunks =>
      fds ← close_entries dir_fd names fds;
      close_chunks dir_fd chunks fds
  end.

(** A 64-bit value assigned to an [int]. *)
Definition to_int (n : Z) : Z := (n + 2 ^ 31) mod 2 ^ 32 - 2 ^ 31.

(** [_tlog_close_all_fd_by_res]; [lim] is the soft limit of open files. *)
Definition close_all_fd_by_res (lim : Z) (fds : gset Z) : gset Z :=
  let maxfd := to_int lim in
  let maxfd := if bool_decide (maxfd > 4096) then 4096 else maxfd in
  foldl (fun fds fd => close_fd fd fds) fds (seqZ 3 (maxfd - 3)).

(** [_tlog_close_all_fd] on Linux: [dir_fd] is what [open] of /proc/self/fd gave, [chunks]
    what the calls of [getdents64] gave, and [failed] whether the last one failed. *)
Definition close_all_fd (dir_fd : Z) (chunks : list (list path)) (failed : bool) (lim : Z)
    (fds : gset Z) : outcome (gset Z) :=
  if bool_decide (dir_fd < 0) then Ret (close_all_fd_by_res lim fds)
  else
    fds ← close_chunks dir_fd chunks (fds ∪ {[dir_fd]});
    let fds := close_fd dir_fd fds in
    if failed then Ret (close_all_fd_by_res lim (if bool_decide (dir_fd > 0) then close_fd dir_fd fds else fds))
    else Ret fds.

(** ** PATH *)

(** PATH for a list of directories. *)
Fixpoint join_path (dirs : list path) : path :=
  match dirs with
  | [] => []
  | [d] => d
  | d :: dirs => d ++ x3a :: join_path dirs
  end.

Definition nonempty (d : path) : Prop := d <> [].

Lemma tokens_app d s cur : x3a ∉ d -> tokens (d ++ s) cur = tokens s (cur ++ d).
Proof.
  revert cur. induction d as [|b d IH]; intros cur; [by rewrite app_nil_r|].
  intros [Hb Hd]%not_elem_of_cons. cbn [app tokens]. rewrite bool_decide_eq_false_2 by congruence.
  rewrite IH by done. by rewrite <- app_assoc.
Qed.

Lemma tokens_join dirs : Forall (fun d => x3a ∉ d) dirs -> tokens (join_path dirs) [] = filter nonempty dirs.
Proof.
  induction 1 as [|d dirs Hd _ IH]; [done|]. rewrite filter_cons. unfold nonempty at 1.
  destruct dirs as [|d' dirs].
  - cbn [join_path]. rewrite <- (app_nil_r d) at 1. rewrite tokens_app by done. cbn.
    case_bool_decide; case_decide; done.
  - change (join_path (d :: d' :: dirs)) with (d ++ x3a :: join_path (d' :: dirs)).
    rewrite tokens_app by done. cbn [app tokens]. rewrite bool_decide_eq_true_2, IH by done.
    case_bool_decide; case_decide; done.
Qed.

(** [_tlog_get_gzip_cmd_path] finds the gzip of the first directory of PATH that has one
    and nothing when there is none; empty elements of PATH are passed over. *)
Theorem gzip_cmd_is_first executable dirs :
  Forall (fun d => x3a ∉ d) dirs ->
  let cmd := get_gzip_cmd_path executable (Some (join_path dirs)) true in
  (exists a d b, dirs = a ++ d :: b /\ d <> [] /\ cmd = gzip_in d /\ executable cmd = true
     /\ Forall (fun x => x = [] \/ executable (gzip_in x) = false) a)
  \/ cmd = [] /\ Forall (fun x => x = [] \/ executable (gzip_in x) = false) dirs.
Proof.
  intros Hd. unfold get_gzip_cmd_path. cbn [default from_option id]. rewrite tokens_join by done. clear Hd. cbv zeta.
  induction dirs as [|d dirs IH]; [by right|]. rewrite filter_cons.
  destruct (decide (nonempty d)) as [Hne|Hnil].
  - cbn [first_gzip]. destruct (executable (gzip_in d)) eqn:E.
    + left. exists [], d, dirs. split_and!; [done..|constructor].
    + destruct IH as [(a & x & b & -> & Hx & H1 & H2 & H3)|[H1 H2]].
      * left. exists (d :: a), x, b. split_and!; auto.
      * right. auto.
  - assert (d = []) as -> by (destruct d; [done|by destruct Hnil]).
    destruct IH as [(a & x & b & -> & Hx & H1 & H2 & H3)|[H1 H2]].
    + left. exists ([] :: a), x, b. split_and!; auto.
    + right. auto.
Qed.

(** ** Numbers *)

Lemma digit_value_char (d : N) :
  (d < 10)%N -> exists b, Ascii.byte_of_ascii (pretty_N_char d) = b /\ digit_value b = Some (Z.of_N d).
Proof.
  intros H. eexists. split; [reflexivity|].
  assert (d = 0 \/ d = 1 \/ d = 2 \/ d = 3 \/ d = 4 \/ d = 5 \/ d = 6 \/ d = 7 \/ d = 8 \/ d = 9)%N as Hd by lia.
  repeat destruct Hd as [->|Hd]; try done. by subst.
Qed.

Lemma str_to_int_digit (d : N) s num :
  (d < 10)%N -> num * 10 + Z.of_N d < 2 ^ 31 ->
  str_to_int_from (bytes_of (String (pretty_N_char d) s)) num
  = str_to_int_from (bytes_of s) (num * 10 + Z.of_N d).
Proof.
  intros Hd Hn. destruct (digit_value_char d Hd) as (b & Eb & Ev).
  change (bytes_of (String (pretty_N_char d) s)) with (Ascii.byte_of_ascii (pretty_N_char d) :: bytes_of s).
  rewrite Eb. cbn [str_to_int_from]. by rewrite Ev, bool_decide_eq_true_2.
Qed.

Lemma str_to_int_pretty_go (x : N) s :
  Z.of_N x < 2 ^ 31 ->
  str_to_int_from (bytes_of (pretty_N_go x s)) 0 = str_to_int_from (bytes_of s) (Z.of_N x).
Proof.
  revert s. induction (N.lt_wf_0 x) as [x _ IH]. intros s Hx.
  destruct (decide (x = 0)%N) as [->|Hx0]; [by rewrite pretty_N_go_0|].
  rewrite pretty_N_go_step by lia. pose proof (N.mod_lt x 10 ltac:(done)).
  pose proof (N.div_mod' x 10).
  assert (x `div` 10 < x)%N as Hlt by (apply N.div_lt; lia).
  rewrite IH by lia. rewrite str_to_int_digit by lia. f_equal. lia.
Qed.

(** [_tlog_str_to_int] reads back the names of the descriptors. *)
Lemma str_to_int_pretty fd : 0 <= fd < 2 ^ 31 -> str_to_int (bytes_of (pretty fd)) = Ret fd.
Proof.
  intros H. unfold str_to_int. destruct fd as [|n|n]; [done| |lia].
  change (pretty (Z.pos n)) with (pretty_N_go (N.pos n) "").
  rewrite str_to_int_pretty_go by lia. done.
Qed.

(** ** What stays open *)

Section Closing.
Context (dir_fd : Z).

(** A name in /proc/self/fd. *)
Definition fd_name (n : path) : Prop :=
  n = dot \/ n = dotdot \/ exists fd, 0 <= fd < 2 ^ 31 /\ n = bytes_of (pretty fd).

Definition kept (names : list path) (fd : Z) : Prop :=
  fd = dir_fd \/ fd <= 2 \/ bytes_of (pretty fd) ∉ names.

(** What [_tlog_str_to_int] makes of a name. *)
Lemma fd_name_value n :
  fd_name n -> exists x, str_to_int n = Ret x
    /\ forall fd, 0 <= fd < 2 ^ 31 -> (bytes_of (pretty fd) = n <-> fd = x).
Proof.
  assert (forall m fd, str_to_int m = Ret (-1) -> 0 <= fd < 2 ^ 31 -> bytes_of (pretty fd) = m <-> fd = -1) as Hno.
  { intros m fd Em Hfd. split; [|lia]. intros E. rewrite <- E, str_to_int_pretty in Em by done. by injection Em. }
  intros [->|[->|(x & Hx & ->)]]; [exists (-1); split; [done|]; intros fd; by apply Hno..|].
  exists x. split; [by apply str_to_int_pretty|]. intros fd Hfd. split; [|by intros ->].
  intros E. apply (f_equal str_to_int) in E. rewrite !str_to_int_pretty in E by done. by injection E.
Qed.

Lemma close_entries_closes names fds :
  Forall fd_name names -> (forall fd, fd ∈ fds -> 0 <= fd < 2 ^ 31) ->
  exists fds', close_entries dir_fd names fds = Ret fds'
    /\ forall fd, fd ∈ fds' <-> fd ∈ fds /\ kept names fd.
Proof.
  intros Hn. revert fds. induction Hn as [|n names Hn _ IH]; intros fds Hf; cbn [close_entries].
  - exists fds. split; [done|]. intros fd. unfold kept. set_solver.
  - destruct (fd_name_value n Hn) as (x & E & Hx). rewrite E. cbn [mbind outcome_bind].
    assert (forall fd, fd ∈ fds ->
      kept (n :: names) fd <-> (fd = dir_fd \/ fd <= 2 \/ fd <> x) /\ kept names fd) as Hk.
    { intros fd Hfd. pose proof (Hx fd (Hf fd Hfd)). unfold kept. rewrite not_elem_of_cons. naive_solver. }
    destruct (bool_decide (x < 0) || bool_decide (x = dir_fd) || bool_decide (0 <= x <= 2)) eqn:Eb.
    + destruct (IH fds Hf) as (fds' & E' & H'). exists fds'. split; [done|].
      assert (x <= 2 \/ x = dir_fd) as Hs.
      { apply orb_true_iff in Eb as [Eb|Eb]; [apply orb_true_iff in Eb as [Eb|Eb]|];
          apply bool_decide_eq_true in Eb; lia. }
      intros fd. rewrite H'. split; intros [Hfd Hr]; (split; [done|]); apply Hk in Hr || apply Hk; try done; [|by destruct Hr].
      split; [lia|done].
    + destruct (IH (close_fd x fds)) as (fds' & E' & H');
        [intros fd Hfd; unfold close_fd in Hfd; apply Hf; set_solver|]. exists fds'. split; [done|].
      apply orb_false_elim in Eb as [[Eb1 Eb2]%orb_false_elim Eb3].
      apply bool_decide_eq_false in Eb1, Eb2, Eb3.
      intros fd. rewrite H'. unfold close_fd. rewrite elem_of_difference, elem_of_singleton.
      split; intros [Hfd Hr].
      * destruct Hfd as [Hfd Hne]. split; [done|]. apply Hk; [done|]. split; [lia|done].
      * pose proof Hr as [Hs Hr']%Hk; [|done]. repeat split; [done|lia|done].
Qed.

Lemma close_chunks_closes chunks fds :
  Forall fd_name (concat chunks) -> (forall fd, fd ∈ fds -> 0 <= fd < 2 ^ 31) ->
  exists fds', close_chunks dir_fd chunks fds = Ret fds'
    /\ forall fd, fd ∈ fds' <-> fd ∈ fds /\ kept (concat chunks) fd.
Proof.
  revert fds. induction chunks as [|names chunks IH]; intros fds; cbn [close_chunks concat].
  - intros _ _. exists fds. split; [done|]. intros fd. unfold kept. set_solver.
  - intros [Hn Hc]%Forall_app Hf.
    destruct (close_entries_closes names fds Hn Hf) as (fds1 & E1 & H1). rewrite E1. cbn [mbind outcome_bind].
    destruct (IH fds1 Hc) as (fds2 & E2 & H2); [intros fd [Hfd _]%H1; by apply Hf|].
    exists fds2. split; [done|]. intros fd. rewrite H2, H1. unfold kept. rewrite not_elem_of_app. tauto.
Qed.

End Closing.

(** What is left when the descriptors are closed by number. *)
Lemma by_res_closes lim fds fd :
  fd ∈ close_all_fd_by_res lim fds
  <-> fd ∈ fds /\ ~ 3 <= fd < (if bool_decide (to_int lim > 4096) then 4096 else to_int lim).
Proof.
  unfold close_all_fd_by_res. set (m := if bool_decide _ then _ else _).
  assert (forall l, fd ∈ foldl (fun fds fd => close_fd fd fds) fds l <-> fd ∈ fds /\ fd ∉ l) as H.
  { intros l. revert fds. induction l as [|x l IH]; intros fds; cbn; [set_solver|].
    rewrite IH. unfold close_fd. set_solver. }
  rewrite H, elem_of_seqZ. intuition lia.
Qed.

(** The descriptors closed by name, and those closed by number. *)
Definition by_name (dir_fd : Z) (chunks : list (list path)) (fd : Z) : Prop :=
  0 <= dir_fd /\ (fd = dir_fd \/ bytes_of (pretty fd) ∈ concat chunks).
Definition by_number (dir_fd : Z) (failed : bool) (lim fd : Z) : Prop :=
  (dir_fd < 0 \/ failed = true) /\ fd < (if bool_decide (to_int lim > 4096) then 4096 else to_int lim).

(** C35. What the process that is to become gzip keeps open, on every branch of
    [_tlog_close_all_fd]: the standard descriptors, and of the others those that were neither
    among the names read from /proc/self/fd before [getdents64] failed or came to the end,
    nor, where the directory could not be opened or read to its end, below the limit of
    open files and 4096. So where the directory is read to its end and names every
    descriptor, only the standard ones are left. *)
Theorem close_all_fd_closes dir_fd chunks failed lim fds :
  dir_fd < 0 \/ 2 < dir_fd < 2 ^ 31 -> (forall fd, fd ∈ fds -> 0 <= fd < 2 ^ 31) ->
  Forall fd_name (concat chunks) ->
  exists fds', close_all_fd dir_fd chunks failed lim fds = Ret fds'
    /\ (forall fd, fd ∈ fds' <-> fd ∈ fds
          /\ (fd <= 2 \/ (~ by_name dir_fd chunks fd /\ ~ by_number dir_fd failed lim fd)))
    /\ (0 <= dir_fd -> failed = false -> (forall fd, fd ∈ fds -> bytes_of (pretty fd) ∈ concat chunks) ->
         forall fd, fd ∈ fds' <-> fd ∈ fds /\ fd <= 2).
Proof.
  intros Hd Hf Hn. unfold close_all_fd.
  assert (exists fds', (if bool_decide (dir_fd < 0) then Ret (close_all_fd_by_res lim fds)
      else fds ← close_chunks dir_fd chunks (fds ∪ {[dir_fd]});
           let fds := close_fd dir_fd fds in
           if failed then Ret (close_all_fd_by_res lim (if bool_decide (dir_fd > 0) then close_fd dir_fd fds else fds))
           else Ret fds) = Ret fds'
    /\ (forall fd, fd ∈ fds' <-> fd ∈ fds
          /\ (fd <= 2 \/ (~ by_name dir_fd chunks fd /\ ~ by_number dir_fd failed lim fd))))
    as (fds' & E & H).
  { case_bool_decide as Hneg.
    - eexists. split; [reflexivity|]. intros fd. rewrite by_res_closes. unfold by_name, by_number.
      split; intros [Hfd Hr]; (split; [done|]); destruct (decide (fd <= 2)); intuition lia.
    - destruct (close_chunks_closes dir_fd chunks (fds ∪ {[dir_fd]}) Hn) as (fds1 & E & H1).
      { intros fd [Hfd| ->%elem_of_singleton]%elem_of_union; [by apply Hf|lia]. }
      rewrite E. cbn [mbind outcome_bind].
      assert (forall fd, fd ∈ close_fd dir_fd fds1 <-> fd ∈ fds /\ (fd <= 2 \/ ~ by_name dir_fd chunks fd)) as H2.
      { intros fd. unfold close_fd, by_name.
        rewrite elem_of_difference, H1, elem_of_union, elem_of_singleton. unfold kept.
        assert (0 <= dir_fd) as Hpos by lia. assert (fd <= 2 -> fd <> dir_fd) as Hstd by lia. tauto. }
      destruct failed; (eexists; split; [reflexivity|]); intros fd; unfold by_number.
      + rewrite by_res_closes, bool_decide_eq_true_2 by lia.
        assert (fd ∈ close_fd dir_fd (close_fd dir_fd fds1) <-> fd ∈ close_fd dir_fd fds1) as ->
          by (unfold close_fd; set_solver).
        rewrite H2. set (m := if bool_decide _ then _ else _) in *. destruct (decide (fd <= 2)); intuition (congruence || lia).
      + rewrite H2. set (m := if bool_decide _ then _ else _) in *. assert (~ ((dir_fd < 0 \/ false = true) /\ fd < m)) by (intros [[?|?] _]; [lia|done]). tauto. }
  exists fds'. split_and!; [exact E|exact H|]. intros Hpos -> Hall fd. rewrite H. unfold by_name, by_number.
  split; [|tauto]. intros [Hfd [Hs|[Hno _]]]; [done|]. destruct Hno. split; [done|]. right. by apply Hall.
Qed.

(** When /proc/self/fd cannot be opened the descriptors are closed by number, but only
    those below 4096, and none at all when the limit is RLIM_INFINITY, which the
    assignment to an [int] turns into -1: gzip then inherits every descriptor. *)
Theorem close_all_fd_unlimited chunks failed fds :
  close_all_fd (-1) chunks failed (2 ^ 64 - 1) fds = Ret fds
  /\ (forall lim fd, 4096 <= lim < 2 ^ 31 -> exists fds', close_all_fd (-1) chunks failed lim fds = Ret fds'
      /\ (fd ∈ fds' <-> fd ∈ fds /\ (fd < 3 \/ 4096 <= fd))).
Proof.
  split.
  - done.
  - intros lim fd Hl. eexists. split; [reflexivity|]. rewrite by_res_closes.
    assert (to_int lim = lim) as ->.
    { unfold to_int. rewrite Z.mod_small; lia. }
    case_bool_decide; intuition lia.
Qed.

(** A directory in two pieces; 5 is the directory itself. *)
Definition demo_chunks : list (list path) :=
  [[dot; dotdot; bytes_of "0"; bytes_of "1"; bytes_of "2"]; [bytes_of "5"; bytes_of "1027"; bytes_of "40"]].

Lemma close_all_fd_closes_witness :
  exists fds', close_all_fd 5 demo_chunks false 1024 {[0; 2; 40; 1027]} = Ret fds'
    /\ (2 ∈ fds') /\ (1027 ∉ fds').
Proof.
  destruct (close_all_fd_closes 5 demo_chunks false 1024 {[0; 2; 40; 1027]}) as (fds' & E & _ & H).
  - lia.
  - intros fd Hfd. assert (fd = 0 \/ fd = 2 \/ fd = 40 \/ fd = 1027) by set_solver. lia.
  - cbn. repeat apply Forall_cons_2; [by left|by right; left|right; right..|done].
    all: first [by exists 0|by exists 1|by exists 2|by exists 5|by exists 1027|by exists 40].
  - assert (forall fd, fd ∈ fds' <-> fd ∈ ({[0; 2; 40; 1027]} : gset Z) /\ fd <= 2) as H'.
    { apply H; [done..|]. intros fd Hfd. assert (fd = 0 \/ fd = 2 \/ fd = 40 \/ fd = 1027) as Hc by set_solver.
      destruct Hc as [->|[->|[->| ->]]]; cbn; set_solver. }
    exists fds'. split_and!; [done|apply H'; set_solver|]. rewrite H'. lia.
Defined.

End LogSpawn.
