(* ===== verification/Posix.v ===== *)
(** * The file operations the sources use: [read], [write], [lseek]

    Descriptors index a table of open files. A transfer may be cut short or
    fail: [f_limits] lists what the next transfers are limited to, [-1] being an
    error; an exhausted list stands for full transfers. *)

From Stdlib Require Import ZArith Lia.
From Stdlib Require Import Strings.Byte.
From stdpp Require Import base gmap list.
From S2P Require Import Prelude.

Module Posix.

Local Open Scope Z_scope.

Record file := mk_file {
  f_data : list byte;
  f_pos : Z;
  f_limits : list Z
}.

Abbreviation files := (gmap Z file).

(** The number of bytes the next transfer of [n] moves, or [-1]. *)
Definition allowance (f : file) (n : Z) : Z :=
  match f_limits f with
  | [] => n
  | l :: _ => if bool_decide (l < 0) then -1 else Z.min n l
  end.

(** [read(fd, buf, n)]: the result and the bytes put into [buf]. *)
Definition read (fs : files) (fd n : Z) : files * Z * list byte :=
  match fs !! fd with
  | None => (fs, -1, [])
  | Some f =>
      let a := allowance f n in
      if bool_decide (a < 0) then
        (<[fd := mk_file (f_data f) (f_pos f) (tail (f_limits f))]> fs, -1, [])
      else
        let bs := slice (Z.to_nat (f_pos f)) (Z.to_nat a) (f_data f) in
        let k := Z.of_nat (length bs) in
        (<[fd := mk_file (f_data f) (f_pos f + k) (tail (f_limits f))]> fs, k, bs)
  end.

(** The contents after writing [bs] at [pos]; a gap is filled with zeros. *)
Definition write_at (pos : nat) (bs data : list byte) : list byte :=
  overwrite pos bs (data ++ replicate (pos - length data) x00).

(** [write(fd, bs, length bs)] *)
Definition write (fs : files) (fd : Z) (bs : list byte) : files * Z :=
  match fs !! fd with
  | None => (fs, -1)
  | Some f =>
      let a := allowance f (Z.of_nat (length bs)) in
      if bool_decide (a < 0) then
        (<[fd := mk_file (f_data f) (f_pos f) (tail (f_limits f))]> fs, -1)
      else
        (<[fd := mk_file (write_at (Z.to_nat (f_pos f)) (take (Z.to_nat a) bs) (f_data f))
                   (f_pos f + a) (tail (f_limits f))]> fs, a)
  end.

(** [lseek(fd, off, SEEK_SET)] *)
Definition lseek_set (fs : files) (fd off : Z) : files :=
  if bool_decide (off < 0) then fs
  else alter (fun f => mk_file (f_data f) off (f_limits f)) fd fs.

Lemma lseek_set_lookup fs fd off f :
  0 <= off -> fs !! fd = Some f ->
  lseek_set fs fd off !! fd = Some (mk_file (f_data f) off (f_limits f)).
Proof.
  intros Ho Hf. unfold lseek_set. rewrite bool_decide_eq_false_2 by lia.
  by rewrite lookup_alter, decide_True, Hf.
Qed.

Lemma allowance_range f n : 0 <= n -> -1 <= allowance f n <= n.
Proof. intros Hn. unfold allowance. repeat case_match; try lia. case_bool_decide; lia. Qed.

(** A read delivers the bytes at the file position, never more than asked. *)
Lemma fs_read_spec fs fd n f fs' k bs :
  fs !! fd = Some f -> 0 <= f_pos f -> 0 <= n -> read fs fd n = (fs', k, bs) ->
  (k = -1 /\ bs = []
     /\ fs' !! fd = Some (mk_file (f_data f) (f_pos f) (tail (f_limits f))))
  \/ (0 <= k <= n /\ bs = slice (Z.to_nat (f_pos f)) (Z.to_nat k) (f_data f)
      /\ Z.of_nat (length bs) = k
      /\ fs' !! fd = Some (mk_file (f_data f) (f_pos f + k) (tail (f_limits f)))).
Proof.
  intros Hf Hp Hn. unfold read. rewrite Hf. pose proof (allowance_range f n Hn) as Ha.
  case_bool_decide as Hneg; intros E; injection E as <- <- <-; [left|right].
  - by rewrite lookup_insert_eq.
  - rewrite Nat2Z.id, lookup_insert_eq.
    assert (length (slice (Z.to_nat (f_pos f)) (Z.to_nat (allowance f n)) (f_data f))
            <= Z.to_nat (allowance f n))%nat.
    { unfold slice. rewrite length_take. lia. }
    split_and!; [lia|lia| |done|done]. unfold slice.
    set (l := drop _ _). set (a := Z.to_nat _). rewrite length_take.
    destruct (decide (a <= length l)%nat).
    + by rewrite Nat.min_l by lia.
    + rewrite Nat.min_r, firstn_all by lia. by rewrite take_ge by lia.
Qed.

Lemma length_write_at pos bs data :
  length (write_at pos bs data) = Nat.max (pos + length bs) (length data).
Proof.
  unfold write_at, overwrite.
  rewrite !length_app, length_take, length_drop, length_app, length_replicate. lia.
Qed.

(** A write that starts inside the file extends the prefix written so far. *)
Lemma take_write_at pos bs data :
  (pos <= length data)%nat ->
  take (pos + length bs) (write_at pos bs data) = take pos data ++ bs.
Proof.
  intros H. unfold write_at, overwrite. rewrite app_assoc.
  replace (pos - length data)%nat with 0%nat by lia. simpl. rewrite app_nil_r.
  apply take_app_length'. rewrite length_app, length_take. lia.
Qed.

Lemma write_spec fs fd bs f fs' k :
  fs !! fd = Some f -> write fs fd bs = (fs', k) ->
  (k = -1 /\ fs' !! fd = Some (mk_file (f_data f) (f_pos f) (tail (f_limits f))))
  \/ (0 <= k <= Z.of_nat (length bs)
      /\ fs' !! fd = Some (mk_file
           (write_at (Z.to_nat (f_pos f)) (take (Z.to_nat k) bs) (f_data f))
           (f_pos f + k) (tail (f_limits f)))).
Proof.
  intros Hf. unfold write. rewrite Hf.
  pose proof (allowance_range f (Z.of_nat (length bs))) as Ha.
  case_bool_decide as Hneg; intros E; injection E as <- <-; [left|right];
    rewrite lookup_insert_eq; split_and!; done || lia.
Qed.

End Posix.
