(* ===== verification/S3Api.v ===== *)
(** * The interface to libs3

    libs3 is not part of the sources. Its request functions are parameters; a
    request is a finite tree of the callbacks it makes ([s3_call]), chosen by
    the library, in which the next callback may depend on the answers so far.
    The sources' handlers are run over that tree by [run_call]. *)

From Stdlib Require Import ZArith Lia.
From Stdlib Require Import Strings.Byte.
From stdpp Require Import base list strings pretty.
From S2P Require Import Prelude.

Module S3Api.

Local Open Scope Z_scope.

(** ** Status codes *)

Class S3Statuses := {
  S3StatusOK : Z;
  S3StatusAbortedByCallback : Z;
  S3StatusErrorInternalError : Z;
  S3StatusErrorRequestTimeout : Z;
  S3StatusErrorInvalidRange : Z;
  S3_status_is_retryable : Z -> bool
}.

(** What the sources rely on: success is the enumeration's first value, is
    final, and differs from the error codes the sources name; internal errors
    and timeouts are documented as transient, the other two as not. *)
Class S3StatusLaws (ST : S3Statuses) := {
  status_ok_zero : S3StatusOK = 0;
  status_ok_final : S3_status_is_retryable S3StatusOK = false;
  status_internal_retryable : S3_status_is_retryable S3StatusErrorInternalError = true;
  status_timeout_retryable : S3_status_is_retryable S3StatusErrorRequestTimeout = true;
  status_aborted_final : S3_status_is_retryable S3StatusAbortedByCallback = false;
  status_aborted_not_range : S3StatusAbortedByCallback <> S3StatusErrorInvalidRange;
  status_aborted_not_ok : S3StatusAbortedByCallback <> S3StatusOK;
  status_range_not_ok : S3StatusErrorInvalidRange <> S3StatusOK
}.

(** ** Requests as callback trees *)

(** The part of [S3ResponseProperties] the sources use. *)
Record response_properties := mk_properties {
  p_contentLength : Z;
  p_eTag : option string
}.

(** The callbacks a request makes. *)
Inductive event :=
  | EvProperties (p : response_properties)
  | EvComplete (status : Z)
  | EvPutData (bufferSize : Z)
  | EvGetData (bytes : list byte)
  | EvInitResponse (upload_id : string).

(** What each callback returns; a data request also fills the buffer. *)
Definition answer (e : event) : Type :=
  match e with
  | EvProperties _ | EvGetData _ | EvInitResponse _ => Z
  | EvComplete _ => unit
  | EvPutData _ => (Z * list byte)%type
  end.

Inductive s3_call (R : Type) :=
  | Returns (r : R)
  | Calls (e : event) (k : answer e -> s3_call R).
Arguments Returns {R} r.
Arguments Calls {R} e k.

(** ** Handlers *)

(** The callbacks of a request over the client's state [St]. A null callback
    pointer that libs3 would call is undefined behaviour. *)
Record handlers (St : Type) := mk_handlers {
  on_properties : response_properties -> St -> outcome (St * Z);
  on_complete : Z -> St -> outcome (St * unit);
  on_put_data : Z -> St -> outcome (St * (Z * list byte));
  on_get_data : list byte -> St -> outcome (St * Z);
  on_init_response : string -> St -> outcome (St * Z)
}.
Arguments on_properties {St}.
Arguments on_complete {St}.
Arguments on_put_data {St}.
Arguments on_get_data {St}.
Arguments on_init_response {St}.

Section Run.
Context {St R : Type} (h : handlers St).

Definition handle (e : event) (s : St) : outcome (St * answer e) :=
  match e return outcome (St * answer e) with
  | EvProperties p => on_properties h p s
  | EvComplete st => on_complete h st s
  | EvPutData n => on_put_data h n s
  | EvGetData bs => on_get_data h bs s
  | EvInitResponse id => on_init_response h id s
  end.

Fixpoint run_call (c : s3_call R) (s : St) : outcome (St * R) :=
  match c with
  | Returns r => Ret (s, r)
  | Calls e k => a ← handle e s; run_call (k a.2) a.1
  end.

(** The run with its trace: the callbacks with the answers they were given. *)
Definition exchange : Type := { e : event & answer e }.

Fixpoint run_traced (c : s3_call R) (s : St) : outcome (St * R * list exchange) :=
  match c with
  | Returns r => Ret (s, r, [])
  | Calls e k =>
      a ← handle e s;
      r ← run_traced (k a.2) a.1;
      Ret (r.1, existT e a.2 :: r.2)
  end.

Lemma run_call_traced c s :
  run_call c s = (r ← run_traced c s; Ret r.1).
Proof.
  revert s. induction c as [r|e k IH]; intros s; cbn; [done|].
  destruct (handle e s) as [[s1 a]| |]; cbn; [|done|done].
  rewrite IH. by destruct (run_traced (k a) s1).
Qed.
End Run.

(** The status of the last complete callback, if any. *)
Fixpoint completed (tr : list exchange) : option Z :=
  match tr with
  | [] => None
  | existT (EvComplete st) _ :: tr =>
      match completed tr with None => Some st | Some st' => Some st' end
  | _ :: tr => completed tr
  end.

(** ** The requests, and what libs3 documents about them *)

Section Protocol.
Context {ST : S3Statuses} {W : Type}.

(** A request ends with its complete callback. *)
Definition ends (st : Z) (P : W -> Prop) (c : s3_call W) : Prop :=
  exists k w, c = Calls (EvComplete st) k /\ k tt = Returns w /\ P w.

(** Uploads: the library asks for data until it stops with success, having
    sent exactly [want] bytes, or with an error; an empty answer is the end of
    the data ([eof]). [got] is what it was given so far; [P got p w] holds of
    the world after success, [Q w] after an error. *)
Inductive upload (want : Z) (props : response_properties -> Prop)
    (P : list byte -> response_properties -> W -> Prop) (Q : W -> Prop) :
    bool -> list byte -> s3_call W -> Prop :=
  | up_ask got n k :
      0 < n <= INT_MAX ->
      (forall b bs, Z.of_nat (length (b :: bs)) <= n ->
         upload want props P Q false (got ++ b :: bs)
           (k (Z.of_nat (length (b :: bs)), b :: bs))) ->
      upload want props P Q true got (k (0, [])) ->
      upload want props P Q false got (Calls (EvPutData n) k)
  | up_done eof got p k :
      props p -> Z.of_nat (length got) = want ->
      ends S3StatusOK (P got p) (k S3StatusOK) ->
      upload want props P Q eof got (Calls (EvProperties p) k)
  | up_late_error eof got p k st :
      props p -> st <> S3StatusOK -> ends st Q (k S3StatusOK) ->
      upload want props P Q eof got (Calls (EvProperties p) k)
  | up_error eof got st c :
      st <> S3StatusOK -> ends st Q c -> upload want props P Q eof got c.

(** Requests without a body: any number of property and, if [ids], upload-id
    callbacks, then the complete callback, with a status and a world related
    by [P]. *)
Inductive bodyless (P : Z -> W -> Prop) : bool -> s3_call W -> Prop :=
  | bl_properties ids p k :
      bodyless P ids (k S3StatusOK) -> bodyless P ids (Calls (EvProperties p) k)
  | bl_upload_id ids id k :
      ids = true -> bodyless P ids (k S3StatusOK) -> bodyless P ids (Calls (EvInitResponse id) k)
  | bl_end ids st c : ends st (P st) c -> bodyless P ids c.

(** Downloads: after the properties the library delivers [rest] in non-empty
    pieces; an answer other than OK aborts the request with that status. *)
Inductive download (Q : W -> Prop) : list byte -> s3_call W -> Prop :=
  | down_piece bs rest k :
      bs <> [] -> download Q rest (k S3StatusOK) ->
      (forall a, a <> S3StatusOK -> ends a Q (k a)) ->
      download Q (bs ++ rest) (Calls (EvGetData bs) k)
  | down_done c : ends S3StatusOK Q c -> download Q [] c
  | down_error rest st c :
      st <> S3StatusOK -> st <> S3StatusErrorInvalidRange -> ends st Q c ->
      download Q rest c.

(** A ranged download of an object: InvalidRange exactly when nothing of the
    object lies in the range, else the properties announce the bytes of the
    range, and those bytes follow. *)
Inductive ranged_download (obj : list byte) (first count : Z) (Q : W -> Prop) :
    s3_call W -> Prop :=
  | rd_range c :
      Z.of_nat (length obj) <= first -> ends S3StatusErrorInvalidRange Q c ->
      ranged_download obj first count Q c
  | rd_data p k bs :
      first < Z.of_nat (length obj) -> bs = slice (Z.to_nat first) (Z.to_nat count) obj ->
      p_contentLength p = Z.of_nat (length bs) -> p_eTag p <> Some EmptyString ->
      download Q bs (k S3StatusOK) ->
      ranged_download obj first count Q (Calls (EvProperties p) k)
  | rd_error st c :
      st <> S3StatusOK -> st <> S3StatusErrorInvalidRange -> ends st Q c ->
      ranged_download obj first count Q c.
End Protocol.

(** The library's requests, as functions of the world. *)
Class LibS3 (W : Type) := {
  S3_get_object : string -> Z -> Z -> W -> s3_call W;
  S3_put_object : string -> Z -> W -> s3_call W;
  S3_delete_object : string -> W -> s3_call W;
  S3_initiate_multipart : string -> W -> s3_call W;
  S3_upload_part : string -> Z -> string -> Z -> W -> s3_call W;
  S3_complete_multipart_upload : string -> string -> Z -> W -> s3_call W;
  (** The bucket's contents, as a later request would see them. *)
  object : W -> string -> option (list byte);
  (** The parts of an upload in progress, with their eTags. *)
  part : W -> string -> Z -> option (string * list byte)
}.

(** Documented behaviour of single-object requests, while nobody else writes
    to the bucket. *)
Class LibS3Objects (W : Type) (ST : S3Statuses) (L : LibS3 W) := {
  get_object_downloads key obj first count w :
    object w key = Some obj ->
    ranged_download obj first count (fun w' => object w' = object w)
      (S3_get_object key first count w);
  get_object_missing key first count w :
    object w key = None ->
    exists st, st <> S3StatusOK /\ st <> S3StatusErrorInvalidRange
      /\ ends st (fun w' => object w' = object w) (S3_get_object key first count w);
  put_object_uploads key len w :
    upload len (fun _ => True)
      (fun got _ w' => object w' key = Some got
         /\ forall key', key' <> key -> object w' key' = object w key')
      (fun w' => forall key', key' <> key -> object w' key' = object w key')
      false [] (S3_put_object key len w);
  delete_object_deletes key w :
    bodyless (fun st w' => (st = S3StatusOK -> object w' key = None)
        /\ forall key', key' <> key -> object w' key' = object w key')
      false (S3_delete_object key w)
}.

(** The document that lists the parts of an upload, from part [i] on. *)
Definition part_element (i : Z) (etag : string) : string :=
  ("<Part><PartNumber>" ++ pretty i ++ "</PartNumber><ETag>" ++ etag ++ "</ETag></Part>")%string.

Fixpoint part_elements (i : Z) (etags : list string) : list (list byte) :=
  match etags with
  | [] => []
  | e :: etags => String.list_byte_of_string (part_element i e) :: part_elements (i + 1) etags
  end.

Definition commit_document (etags : list string) : list byte :=
  String.list_byte_of_string "<CompleteMultipartUpload>" ++ concat (part_elements 1 etags)
    ++ String.list_byte_of_string "</CompleteMultipartUpload>".

(** An eTag is a quoted digest, with a part count for large objects. *)
Definition etag_ok (e : string) : Prop := Z.of_nat (String.length e) <= 128.

(** Documented behaviour of multipart uploads: a part replaces what was sent
    under its number; committing the list of the parts numbered from 1, with
    their eTags, makes the object their concatenation. *)
Class LibS3Multipart (W : Type) (ST : S3Statuses) (L : LibS3 W) := {
  initiate_starts key w :
    bodyless (fun _ w' => object w' = object w) true (S3_initiate_multipart key w);
  upload_part_uploads key i id len w :
    upload len (fun p => exists e, p_eTag p = Some e /\ etag_ok e)
      (fun got p w' => part w' id i = (e ← p_eTag p; Some (e, got))
         /\ (forall i', i' <> i -> part w' id i' = part w id i') /\ object w' = object w)
      (fun w' => (forall i', i' <> i -> part w' id i' = part w id i')
         /\ object w' = object w)
      false [] (S3_upload_part key i id len w);
  complete_commits key id len ps w :
    (forall i p, ps !! i = Some p -> part w id (Z.of_nat i + 1) = Some p) ->
    upload len (fun _ => True)
      (fun got _ w' =>
         (got = commit_document ps.*1 -> object w' key = Some (concat ps.*2))
         /\ forall key', key' <> key -> object w' key' = object w key')
      (fun w' => forall key', key' <> key -> object w' key' = object w key')
      false [] (S3_complete_multipart_upload key id len w)
}.

End S3Api.
