(* ===== verification/Callbacks.v ===== *)
(** * s3_callback.c: the callbacks handed to libs3

    Each callback maps its client data (and, where it does I/O, the open files)
    and the library's arguments to the new data and the value returned. The
    handler tables of hsm_s3_utils.h collect them. *)

From Stdlib Require Import ZArith Lia.
From Stdlib Require Import Strings.Byte.
From stdpp Require Import base gmap list strings.
From S2P Require Import Prelude Growbuffer Posix S3Api.
Import Growbuffer Posix S3Api.

Module Callbacks.

Local Open Scope Z_scope.
Local Open Scope estuary_scope.

(** ** Client data (s3_callback.h, hsm_s3_utils.h) *)

(** [buffer] is the memory the pointer refers to; the field [gb], which no code
    reads but for a NULL test, is left out. *)
Record put_object_callback_data := mk_put_data {
  buffer_offset : Z;
  put_status : Z;
  buffer : list byte;
  contentLength : Z;
  originalContentLength : Z;
  totalContentLength : Z;
  totalOriginalContentLength : Z;
  noStatus : Z;
  put_fd : Z;
  put_file_offset : Z
}.

Record get_object_callback_data := mk_get_data {
  totalLength : Z;
  get_contentLength : Z;
  get_status : Z;
  md5 : list byte;
  get_fd : Z;
  file_offset : Z
}.

(** [MD5_ASCII] is the unparenthesised [32 + 1]. *)
Definition MD5_ASCII : Z := 32 + 1.

Record UploadManager := mk_manager {
  upload_id : option string;
  etags : list (option string);
  next_etags_pos : Z;
  m_heap : heap;
  m_gb : ptr;
  remaining : Z
}.

Record MultipartPartData := mk_part_data {
  put_object_data : put_object_callback_data;
  seq : Z;
  manager : UploadManager
}.

Definition set_put_status (st : Z) (d : put_object_callback_data) : put_object_callback_data :=
  mk_put_data (buffer_offset d) st (buffer d) (contentLength d) (originalContentLength d)
    (totalContentLength d) (totalOriginalContentLength d) (noStatus d) (put_fd d)
    (put_file_offset d).

Definition set_manager (m : UploadManager) (p : MultipartPartData) : MultipartPartData :=
  mk_part_data (put_object_data p) (seq p) m.

Definition set_put_object_data (d : put_object_callback_data) (p : MultipartPartData)
    : MultipartPartData :=
  mk_part_data d (seq p) (manager p).

Section Callbacks.
Context {ST : S3Statuses}.

(** ** Single-request uploads *)

(** Copies the next [size] bytes of the buffer to the library. *)
Definition put_objectdata_callback (bufferSize : Z) (d : put_object_callback_data)
    : outcome (put_object_callback_data * (Z * list byte)) :=
  if bool_decide (contentLength d = 0) then Ret (d, (0, []))
  else
    let size := if bool_decide (contentLength d > u64 bufferSize) then bufferSize
                else i32 (contentLength d) in
    if bool_decide (0 <= size /\ buffer_offset d + size <= Z.of_nat (length (buffer d))) then
      let out := slice (Z.to_nat (buffer_offset d)) (Z.to_nat size) (buffer d) in
      Ret (mk_put_data (buffer_offset d +u size) (put_status d) (buffer d)
             (contentLength d -u size) (originalContentLength d) (totalContentLength d)
             (totalOriginalContentLength d) (noStatus d) (put_fd d) (put_file_offset d),
           (size, out))
    else Crash.

Definition s3_put_response_complete_callback (status : Z) (d : put_object_callback_data)
    : put_object_callback_data := set_put_status status d.

(** Prints the properties in a debug build only. *)
Definition s3_response_properties_callback {St : Type} (p : response_properties) (s : St)
    : St * Z := (s, S3StatusOK).

(** ** Downloads *)

Definition s3_get_response_complete_callback (status : Z) (d : get_object_callback_data)
    : get_object_callback_data :=
  mk_get_data (totalLength d) (get_contentLength d) status (md5 d) (get_fd d) (file_offset d).

(** [strncpy(dst, src, n)]: [n] bytes, zero-filled after the string. *)
Definition strncpy (src : list byte) (n : nat) : list byte :=
  take n src ++ replicate (n - length src) x00.

(** The eTag loses its first character (the quote); an empty eTag would be read
    past its terminator. *)
Definition s3_response_get_object_properties_callback (p : response_properties)
    (d : get_object_callback_data) : outcome (get_object_callback_data * Z) :=
  tag ← (match p_eTag p with
         | None => Ret (md5 d)
         | Some e =>
             match bytes_of e with
             | [] => Crash
             | _ :: e' =>
                 let n := Z.to_nat (MD5_ASCII - 1) in
                 Ret (strncpy e' n ++ drop n (md5 d))
             end
         end);
  Ret (mk_get_data (totalLength d) (p_contentLength p) (get_status d) tag (get_fd d)
         (file_offset d), S3StatusOK).

(** Writes the bytes to the file; a short write aborts the request. A call when
    no content was announced aborts the process. *)
Definition get_objectdata_callback (bytes : list byte) (fs : files)
    (d : get_object_callback_data) : outcome (files * get_object_callback_data * Z) :=
  if bool_decide (get_contentLength d = 0) then Crash
  else
    let '(fs, wrote) := write fs (get_fd d) bytes in
    if bool_decide (wrote < Z.of_nat (length bytes)) then
      Ret (fs, mk_get_data (totalLength d) (get_contentLength d) S3StatusAbortedByCallback
                 (md5 d) (get_fd d) (file_offset d), S3StatusAbortedByCallback)
    else
      Ret (fs, mk_get_data (totalLength d) (get_contentLength d) (get_status d) (md5 d)
                 (get_fd d) (file_offset d +u wrote), S3StatusOK).

(** ** Deletes *)

(** [del_object_callback_data] is its status. *)
Definition s3_del_response_complete_callback (status : Z) (d : Z) : Z := status.

(** ** Multipart uploads *)

(** An empty id means that the request failed. *)
Definition initial_multipart_response_callback (id : string) (m : UploadManager)
    : UploadManager * Z :=
  (if bool_decide (id = EmptyString) then m
   else mk_manager (Some id) (etags m) (next_etags_pos m) (m_heap m) (m_gb m) (remaining m),
   S3StatusOK).

(** Stores the part's eTag; the index must lie in the [etags] array. *)
Definition multipart_put_part_response_properies_callback (p : response_properties)
    (d : MultipartPartData) : outcome (MultipartPartData * Z) :=
  let m := manager d in
  match p_eTag p with
  | None => Crash
  | Some etag =>
      if bool_decide (1 <= seq d <= Z.of_nat (length (etags m))) then
        Ret (set_manager (mk_manager (upload_id m)
               (<[Z.to_nat (seq d - 1) := Some etag]> (etags m))
               (seq d) (m_heap m) (m_gb m) (remaining m)) d, S3StatusOK)
      else Crash
  end.

(** Reads the next bytes of the part from the file. A short read answers 0. *)
Definition multipart_put_objectdata_callback (bufferSize : Z) (fs : files)
    (d : put_object_callback_data)
    : outcome (files * put_object_callback_data * (Z * list byte)) :=
  if bool_decide (contentLength d = 0) then Ret (fs, d, (0, []))
  else
    let toRead := i32 (if bool_decide (contentLength d > u32 bufferSize) then u32 bufferSize
                       else contentLength d) in
    if bool_decide (put_fd d = 0) then Crash
    else
      let '(fs, ret, out) := read fs (put_fd d) toRead in
      if bool_decide (ret <> toRead) then Ret (fs, d, (0, []))
      else
        let d' := mk_put_data (buffer_offset d) (put_status d) (buffer d)
                    (contentLength d -u ret) (originalContentLength d)
                    (totalContentLength d -u ret) (totalOriginalContentLength d) (noStatus d)
                    (put_fd d) (put_file_offset d +u toRead) in
        if bool_decide (ret <> 0 /\ contentLength d' <> 0 /\ noStatus d' = 0
                        /\ totalOriginalContentLength d' = 0)
        then Crash (* the progress ratio divides by the original length *)
        else Ret (fs, d', (ret, out)).

(** Feeds the commit body from the queue. *)
Definition multipart_commit_response_callback (bufferSize : Z) (m : UploadManager)
    : outcome (UploadManager * (Z * list byte)) :=
  if bool_decide (remaining m = 0) then Ret (m, (0, []))
  else
    let toRead := if bool_decide (remaining m > bufferSize) then bufferSize else remaining m in
    r ← growbuffer_read (m_heap m) (m_gb m) toRead;
    let '(h, gb, ret, out) := r in
    Ret (mk_manager (upload_id m) (etags m) (next_etags_pos m) h gb (remaining m - ret),
         (ret, out)).

Definition multipart_put_response_complete_callback (status : Z) (d : MultipartPartData)
    : MultipartPartData := set_put_object_data (set_put_status status (put_object_data d)) d.

(** Only log messages: neither looks at the status beyond that. *)
Definition multipart_init_response_complete_callback (status : Z) (m : UploadManager)
    : UploadManager := m.
Definition multipart_commit_response_complete_callback (status : Z) (m : UploadManager)
    : UploadManager := m.

(** ** Handler tables *)

Definition pure {St A : Type} (r : St * A) : outcome (St * A) := Ret r.

(** [{ putResponseHandler, &put_objectdata_callback }] *)
Definition putObjectHandler : handlers put_object_callback_data :=
  mk_handlers _ (fun p s => pure (s3_response_properties_callback p s))
    (fun st s => Ret (s3_put_response_complete_callback st s, tt))
    put_objectdata_callback (fun _ _ => Crash) (fun _ _ => Crash).

(** [{ getResponseHandler, &get_objectdata_callback }] *)
Definition getObjectHandler : handlers (files * get_object_callback_data) :=
  mk_handlers _
    (fun p s => r ← s3_response_get_object_properties_callback p s.2;
                Ret ((s.1, r.1), r.2))
    (fun st s => Ret ((s.1, s3_get_response_complete_callback st s.2), tt))
    (fun _ _ => Crash)
    (fun bs s => r ← get_objectdata_callback bs s.1 s.2; Ret (r.1, r.2))
    (fun _ _ => Crash).

Definition deleteResponseHandler : handlers Z :=
  mk_handlers _ (fun p s => pure (s3_response_properties_callback p s))
    (fun st s => Ret (s3_del_response_complete_callback st s, tt))
    (fun _ _ => Crash) (fun _ _ => Crash) (fun _ _ => Crash).

Definition initMultipartHandler : handlers UploadManager :=
  mk_handlers _ (fun p s => pure (s3_response_properties_callback p s))
    (fun st s => Ret (multipart_init_response_complete_callback st s, tt))
    (fun _ _ => Crash) (fun _ _ => Crash)
    (fun id s => pure (initial_multipart_response_callback id s)).

Definition uploadMultipartHandler : handlers (files * MultipartPartData) :=
  mk_handlers _
    (fun p s => r ← multipart_put_part_response_properies_callback p s.2;
                Ret ((s.1, r.1), r.2))
    (fun st s => Ret ((s.1, multipart_put_response_complete_callback st s.2), tt))
    (fun n s => r ← multipart_put_objectdata_callback n s.1 (put_object_data s.2);
                Ret ((r.1.1, set_put_object_data r.1.2 s.2), r.2))
    (fun _ _ => Crash) (fun _ _ => Crash).

Definition commitMultipartHandler : handlers UploadManager :=
  mk_handlers _ (fun p s => pure (s3_response_properties_callback p s))
    (fun st s => Ret (multipart_commit_response_complete_callback st s, tt))
    multipart_commit_response_callback (fun _ _ => Crash) (fun _ _ => Crash).
End Callbacks.

(** ** The callbacks against the library's protocol *)

Section Ends.
Context {St W : Type} (h : handlers St) (f : Z -> St -> St).
Hypothesis complete_total : forall st s, on_complete h st s = Ret (f st s, tt).

Lemma run_end st (Q : W -> Prop) c s :
  ends st Q c -> exists w, run_call h c s = Ret (f st s, w) /\ Q w.
Proof. intros (k & w & -> & Hk & Hw). exists w. cbn. rewrite complete_total. cbn. by rewrite Hk. Qed.

Lemma run_traced_end st (Q : W -> Prop) c s :
  ends st Q c ->
  exists w tr, run_traced h c s = Ret (f st s, w, tr) /\ completed tr = Some st /\ Q w.
Proof.
  intros (k & w & -> & Hk & Hw). eexists w, _. cbn. rewrite complete_total. cbn.
  rewrite Hk. done.
Qed.
End Ends.

(** *** Uploads from a buffer *)

Section PutFeed.
Context {ST : S3Statuses} {W : Type}.

(** What has been sent and what is left make up the buffer. *)
Definition feed_ok (d : put_object_callback_data) : Prop :=
  0 <= buffer_offset d /\ 0 <= contentLength d
  /\ buffer_offset d + contentLength d = Z.of_nat (length (buffer d))
  /\ Z.of_nat (length (buffer d)) < two64.

(** One call: it delivers the next bytes, some if any are left. *)
Lemma put_objectdata_feeds n d :
  feed_ok d -> 0 < n <= INT_MAX ->
  exists d' k, put_objectdata_callback n d
      = Ret (d', (Z.of_nat k, slice (Z.to_nat (buffer_offset d)) k (buffer d)))
    /\ feed_ok d' /\ buffer d' = buffer d /\ put_status d' = put_status d
    /\ buffer_offset d' = buffer_offset d + Z.of_nat k
    /\ Z.of_nat k = Z.min n (contentLength d).
Proof.
  intros (Ho & Hc & Hb & Hw) Hn. unfold INT_MAX in *. unfold put_objectdata_callback.
  rewrite (u64_id n) by (unfold two64 in *; lia).
  set (size := if bool_decide (contentLength d > n) then n else i32 (contentLength d)).
  assert (size = Z.min n (contentLength d)) as Hsz.
  { unfold size. case_bool_decide; [lia|].
    rewrite i32_id by (unfold INT_MIN, INT_MAX; lia). lia. }
  case_bool_decide as Hz.
  - exists d, 0%nat. split_and!; done || lia.
  - cbv zeta. rewrite bool_decide_eq_true_2 by lia.
    eexists _, (Z.to_nat size). rewrite Z2Nat.id by lia.
    rewrite (u64_id (_ + _)), (u64_id (_ - _)) by lia.
    split_and!; [done| |done|done|done|done]. split_and!; cbn; lia.
Qed.

Lemma run_put_upload want props (P : list byte -> response_properties -> W -> Prop) Q eof got c d :
  upload want props P Q eof got c -> feed_ok d ->
  exists d' w' k, run_call putObjectHandler c d = Ret (d', w')
    /\ feed_ok d' /\ buffer d' = buffer d /\ buffer_offset d' = buffer_offset d + Z.of_nat k
    /\ ((put_status d' = S3StatusOK /\ Z.of_nat (length got + k) = want
          /\ exists p, P (got ++ slice (Z.to_nat (buffer_offset d)) k (buffer d)) p w')
        \/ (put_status d' <> S3StatusOK /\ Q w')).
Proof.
  assert (forall st (R : W -> Prop) c d, ends st R c -> exists w,
    run_call putObjectHandler c d = Ret (set_put_status st d, w) /\ R w) as Hend
    by (intros; by apply (run_end _ set_put_status)).
  intros Hc. revert d. induction Hc as [got n k Hn _ IH _ IHe|eof got p k Hp Hg He|
    eof got p k st Hp Hst He|eof got st c Hst He]; intros d Hd.
  - destruct (put_objectdata_feeds n d Hd Hn) as (d1 & m & E & Hd1 & Hb1 & Hs1 & Ho1 & Hm).
    assert (length (slice (Z.to_nat (buffer_offset d)) m (buffer d)) = m) as Hl.
    { apply length_slice. destruct Hd as (? & ? & ? & ?). lia. }
    cbn [run_call handle on_put_data putObjectHandler]. rewrite E.
    cbn [mbind outcome_bind fst snd].
    destruct (slice (Z.to_nat (buffer_offset d)) m (buffer d)) as [|b bs] eqn:Eb.
    + cbn in Hl. subst m. destruct (IHe d1 Hd1) as (d' & w' & k' & Er & Hd' & Hb' & Ho' & Hr).
      exists d', w', k'. change (Z.of_nat 0) with 0 in *. rewrite Z.add_0_r in Ho1.
      rewrite Er, <- Hb1, <- Ho1. done.
    + rewrite <- Hl. destruct (IH b bs) with (d := d1)
        as (d' & w' & k' & Er & Hd' & Hb' & Ho' & Hr); [rewrite Hl; lia|done|].
      exists d', w', (m + k')%nat. rewrite Er, Hb', Ho', Hb1, Ho1.
      split_and!; [done|done|done|lia|].
      destruct Hr as [(Hs & Hw & p & HP)|Hr]; [left|by right].
      split_and!; [done|rewrite <- Hw, length_app, Hl; lia|]. exists p.
      rewrite slice_split, Eb. rewrite <- app_assoc, Hb1, Ho1 in HP.
      replace (Z.to_nat (buffer_offset d) + m)%nat
        with (Z.to_nat (buffer_offset d + Z.of_nat m)) by (destruct Hd; lia).
      exact HP.
  - cbn [run_call handle on_properties putObjectHandler].
    unfold pure, s3_response_properties_callback. cbn [mbind outcome_bind fst snd].
    destruct (Hend _ _ _ d He) as (w & -> & HP). eexists _, _, 0%nat.
    split_and!; [done|done|done|cbn; lia|left]. split_and!; [done|lia|].
    exists p. unfold slice. by rewrite take_0, app_nil_r.
  - cbn [run_call handle on_properties putObjectHandler].
    unfold pure, s3_response_properties_callback. cbn [mbind outcome_bind fst snd].
    destruct (Hend _ _ _ d He) as (w & -> & HP). eexists _, _, 0%nat.
    split_and!; [done|done|done|cbn; lia|by right].
  - destruct (Hend _ _ _ d He) as (w & -> & HP). eexists _, _, 0%nat.
    split_and!; [done|done|done|cbn; lia|by right].
Qed.
End PutFeed.

(** *** Uploads of a part from a file *)

Section PartFeed.
Context {ST : S3Statuses} {W : Type}.

(** The file [fd] holds [bytes], and the part's data are in range. *)
Record part_ok (fd : Z) (bytes : list byte) (fs : files) (d : MultipartPartData) : Prop := {
  po_file : exists pos lim, fs !! fd = Some (mk_file bytes (Z.of_nat pos) lim);
  po_fd : put_fd (put_object_data d) = fd;
  po_fd_set : fd <> 0;
  po_left : 0 <= contentLength (put_object_data d) <= INT_MAX;
  po_total : totalOriginalContentLength (put_object_data d) <> 0;
  po_seq : 1 <= seq d <= Z.of_nat (length (etags (manager d)))
}.

(** What a request may change: the file position, the running counts, and the
    eTag and position of this part. *)
Definition store_etag (seq : Z) (e : string) (m : UploadManager) : UploadManager :=
  mk_manager (upload_id m) (<[Z.to_nat (seq - 1) := Some e]> (etags m)) seq
    (m_heap m) (m_gb m) (remaining m).

Definition same_others (fd : Z) (fs fs' : files) : Prop :=
  forall fd', fd' <> fd -> fs' !! fd' = fs !! fd'.

(** One call: the next bytes of the file in full, or the end of the data. *)
Lemma multipart_put_objectdata_feeds n fd bytes fs d pos lim :
  part_ok fd bytes fs d -> fs !! fd = Some (mk_file bytes (Z.of_nat pos) lim) ->
  0 < n <= INT_MAX ->
  exists fs' pd' k pos' lim',
    multipart_put_objectdata_callback n fs (put_object_data d)
      = Ret (fs', pd', (Z.of_nat k, slice pos k bytes))
    /\ part_ok fd bytes fs' (set_put_object_data pd' d) /\ same_others fd fs fs'
    /\ fs' !! fd = Some (mk_file bytes (Z.of_nat pos') lim')
    /\ length (slice pos k bytes) = k /\ Z.of_nat k <= n
    /\ (k <> 0%nat -> pos' = (pos + k)%nat)
    /\ contentLength pd' = contentLength (put_object_data d) - Z.of_nat k.
Proof.
  intros [_ Hfd Hfd0 Hl Ht Hs] Hf Hn. unfold multipart_put_objectdata_callback.
  set (pd := put_object_data d) in *. unfold INT_MAX in *.
  case_bool_decide as Hz.
  { exists fs, pd, 0%nat, pos, lim. unfold slice. rewrite take_0.
    split_and!; try done; [|lia|lia]. split; try done. by eexists _, _. }
  cbv zeta. rewrite (u32_id n) by lia.
  set (toRead := i32 _).
  assert (toRead = Z.min n (contentLength pd)) as Htr.
  { unfold toRead. case_bool_decide; rewrite i32_id; unfold INT_MIN, INT_MAX; lia. }
  rewrite bool_decide_eq_false_2 by congruence.
  destruct (read fs (put_fd pd) toRead) as [[fs' ret] out] eqn:Er. rewrite Hfd in Er.
  assert (same_others fd fs fs') as Ho.
  { intros fd' Hne. unfold read in Er. rewrite Hf in Er. cbn in Er.
    case_bool_decide; injection Er as <- _ _; by rewrite lookup_insert_ne. }
  destruct (fs_read_spec fs fd toRead _ fs' ret out Hf) as [(-> & -> & Hf')|(Hr & Hout & Hlen & Hf')];
    [cbn; lia|lia|done|..]; cbn in Hf'.
  - rewrite bool_decide_eq_true_2 by lia. eexists fs', pd, 0%nat, pos, _. unfold slice.
    rewrite take_0. split_and!; try done; [|lia|lia].
    split; try done. by eexists _, _.
  - cbn in Hout. rewrite Nat2Z.id in Hout.
    assert (fs' !! fd = Some (mk_file bytes (Z.of_nat (pos + Z.to_nat ret)) (tail lim))) as Hf2.
    { rewrite Hf'. do 2 f_equal. lia. }
    case_bool_decide as Hshort.
    + eexists fs', pd, 0%nat, _, _. unfold slice. rewrite take_0.
      split_and!; try done; [|lia|lia]. split; try done. by eexists _, _.
    + rewrite bool_decide_eq_false_2 by (cbn; naive_solver).
      eexists fs', _, (Z.to_nat ret), _, _. rewrite Z2Nat.id, <- Hout by lia.
      split_and!; [done| |done|exact Hf2|lia|lia|done|].
      * split; cbn; try done; [by eexists _, _|].
        unfold INT_MAX. rewrite u64_id; unfold two64; lia.
      * cbn. rewrite u64_id; unfold two64; lia.
Qed.

(** The two ways a part request ends. *)
Definition part_sent (want : Z) (P : list byte -> response_properties -> W -> Prop)
    (eof : bool) (got bytes : list byte) (pos : nat) (d d' : MultipartPartData) (w' : W)
    : Prop :=
  put_status (put_object_data d') = S3StatusOK
  /\ exists k p e, Z.of_nat (length got + k) = want
    /\ length (slice pos k bytes) = k /\ (eof = true -> k = 0%nat)
    /\ Z.of_nat k <= contentLength (put_object_data d)
    /\ p_eTag p = Some e /\ etag_ok e
    /\ manager d' = store_etag (seq d) e (manager d)
    /\ P (got ++ slice pos k bytes) p w'.

Definition part_failed (Q : W -> Prop) (d d' : MultipartPartData) (w' : W) : Prop :=
  put_status (put_object_data d') <> S3StatusOK /\ Q w'
  /\ (manager d' = manager d
      \/ exists e, etag_ok e /\ manager d' = store_etag (seq d) e (manager d)).

Lemma part_ok_complete fd bytes fs d st :
  part_ok fd bytes fs d -> part_ok fd bytes fs (multipart_put_response_complete_callback st d).
Proof. intros []. by split. Qed.

Lemma part_ok_properties fd bytes fs d p e :
  part_ok fd bytes fs d -> p_eTag p = Some e ->
  multipart_put_part_response_properies_callback p d
    = Ret (set_manager (store_etag (seq d) e (manager d)) d, S3StatusOK)
  /\ part_ok fd bytes fs (set_manager (store_etag (seq d) e (manager d)) d).
Proof.
  intros [] He. unfold multipart_put_part_response_properies_callback. rewrite He.
  rewrite bool_decide_eq_true_2 by done. split; [done|].
  split; cbn; try done. by rewrite length_insert.
Qed.

(** The end of an upload only sets the status. *)
Lemma run_part_end st (R : W -> Prop) c (fs : files) (d : MultipartPartData) :
  ends st R c -> exists w,
    run_call uploadMultipartHandler c (fs, d)
      = Ret ((fs, multipart_put_response_complete_callback st d), w) /\ R w.
Proof.
  intros He. by apply (run_end uploadMultipartHandler
    (fun st s => (s.1, multipart_put_response_complete_callback st s.2)) (fun _ _ => eq_refl)
    st R c (fs, d)).
Qed.

(** Bytes delivered before the rest of the part. *)
Lemma part_sent_more want P eof got bytes pos m d pd d' (w' : W) :
  length (slice pos m bytes) = m ->
  contentLength pd = contentLength (put_object_data d) - Z.of_nat m ->
  part_sent want P eof (got ++ slice pos m bytes) bytes (pos + m) (set_put_object_data pd d) d' w' ->
  part_sent want P false got bytes pos d d' w'.
Proof.
  intros Hl Hcl (Hst & k & p & e & Hw & Hlk & _ & Hle & Hp & Hok & Hm & HP).
  split; [done|]. exists (m + k)%nat, p, e.
  cbn [contentLength put_object_data set_put_object_data] in Hle. rewrite Hcl in Hle.
  rewrite <- app_assoc in HP. rewrite length_app, Hl in Hw. rewrite slice_split, length_app, Hl.
  split_and!; try done; lia.
Qed.

Lemma run_part_upload want P Q eof got c fs d fd bytes pos lim :
  upload want (fun p => exists e, p_eTag p = Some e /\ etag_ok e) P Q eof got c ->
  part_ok fd bytes fs d -> fs !! fd = Some (mk_file bytes (Z.of_nat pos) lim) ->
  exists fs' d' w', run_call uploadMultipartHandler c (fs, d) = Ret ((fs', d'), w')
    /\ part_ok fd bytes fs' d' /\ same_others fd fs fs' /\ seq d' = seq d
    /\ (part_sent want P eof got bytes pos d d' w' \/ part_failed Q d d' w').
Proof.
  intros Hc. revert fs d pos lim. induction Hc as [got n k Hn _ IH _ IHe|
    eof got p k (e & Hp & Hok) Hg He|eof got p k st (e & Hp & Hok) Hst He|eof got st c Hst He];
    intros fs d pos lim Hd Hf.
  - destruct (multipart_put_objectdata_feeds n fd bytes fs d pos lim Hd Hf Hn)
      as (fs1 & pd & m & pos1 & lim1 & E & Hd1 & Ho1 & Hf1 & Hl1 & Hmn & Hpos & Hcl).
    cbn [run_call handle on_put_data uploadMultipartHandler fst snd]. rewrite E.
    cbn [mbind outcome_bind fst snd].
    destruct (slice pos m bytes) as [|b bs] eqn:Eb.
    + cbn in Hl1. subst m. change (Z.of_nat 0) with 0 in *.
      destruct (IHe fs1 (set_put_object_data pd d) pos1 lim1 Hd1 Hf1)
        as (fs' & d' & w' & -> & Hd' & Ho' & Hs' & Hr).
      exists fs', d', w'. split_and!; [done|done|intros ? ?; by rewrite Ho', Ho1|done|].
      destruct Hr as [(Hst & k' & p & e & Hw & Hl & Hk & Hle & Hp & Hok & Hm & HP)|Hr];
        [left|by right].
      split; [done|]. rewrite (Hk eq_refl) in *. exists 0%nat, p, e.
      unfold slice in *. rewrite take_0 in *. cbn in *. rewrite Hcl in Hle.
      split_and!; try done; lia.
    + rewrite <- Hl1. destruct (IH b bs) with (fs := fs1) (d := set_put_object_data pd d)
        (pos := pos1) (lim := lim1) as (fs' & d' & w' & Er & Hd' & Ho' & Hs' & Hr);
        [rewrite Hl1; lia|done|exact Hf1|].
      exists fs', d', w'. split_and!; [exact Er|done|intros ? ?; by rewrite Ho', Ho1|done|].
      destruct Hr as [Hr|Hr]; [left|by right].
      rewrite <- Eb, (Hpos ltac:(rewrite <- Hl1; done)) in Hr.
      eapply part_sent_more; [by rewrite Eb|exact Hcl|exact Hr].
  - destruct (part_ok_properties fd bytes fs d p e Hd Hp) as [E Hd1].
    cbn [run_call handle on_properties uploadMultipartHandler fst snd]. rewrite E.
    cbn [mbind outcome_bind fst snd].
    destruct (run_part_end _ _ _ fs (set_manager (store_etag (seq d) e (manager d)) d) He)
      as (w & -> & HP).
    do 3 eexists. split_and!; [done|by apply part_ok_complete|done|done|left].
    split; [done|]. exists 0%nat, p, e. unfold slice. rewrite take_0, app_nil_r.
    destruct Hd. split_and!; try done; lia.
  - destruct (part_ok_properties fd bytes fs d p e Hd Hp) as [E Hd1].
    cbn [run_call handle on_properties uploadMultipartHandler fst snd]. rewrite E.
    cbn [mbind outcome_bind fst snd].
    destruct (run_part_end _ _ _ fs (set_manager (store_etag (seq d) e (manager d)) d) He)
      as (w & -> & HP).
    do 3 eexists. split_and!; [done|by apply part_ok_complete|done|done|right].
    split_and!; [done|done|right; by exists e].
  - destruct (run_part_end _ _ _ fs d He) as (w & -> & HP).
    do 3 eexists. split_and!; [done|by apply part_ok_complete|done|done|right].
    split_and!; [done|done|by left].
Qed.
End PartFeed.
(** *** The commit body from the queue *)

Section CommitFeed.
Context {ST : S3Statuses} {W : Type}.

(** The queue of [m] holds [q], and [remaining] counts it. *)
Definition queued (m : UploadManager) (q : list byte) (F : gmap positive growbuffer) : Prop :=
  stored (m_heap m) (m_gb m) q F /\ remaining m = Z.of_nat (length q)
  /\ Z.of_nat (length q) <= INT_MAX.

(** Taking bytes from the queue changes nothing else. *)
Definition same_upload (m m' : UploadManager) : Prop :=
  upload_id m' = upload_id m /\ etags m' = etags m /\ next_etags_pos m' = next_etags_pos m.

Lemma multipart_commit_feeds n m q F :
  queued m q F -> 0 < n <= INT_MAX ->
  exists m' k, multipart_commit_response_callback n m = Ret (m', (Z.of_nat k, take k q))
    /\ queued m' (drop k q) F /\ same_upload m m' /\ (k <= length q)%nat
    /\ Z.of_nat k <= n /\ (q <> [] -> k <> 0%nat).
Proof.
  intros (Hq & Hr & Hle) Hn. unfold multipart_commit_response_callback.
  case_bool_decide as Hz.
  { destruct q as [|b q]; [|cbn in Hr; lia].
    exists m, 0%nat. rewrite take_0, drop_0. split_and!; done || lia. }
  cbv zeta. set (toRead := if bool_decide (remaining m > n) then n else remaining m).
  assert (0 < toRead <= n) as Htr by (unfold toRead; case_bool_decide; lia).
  destruct (Growbuffer.read_spec (m_heap m) (m_gb m) q F toRead Hq)
    as (h' & gb' & k & -> & Hs & Hk & Hkq & Hpos); [lia|].
  cbn [mbind outcome_bind]. do 2 eexists. split_and!; try done; try lia.
  - split_and!; cbn; [done|rewrite length_drop; lia|rewrite length_drop; lia].
  - intros Hne. specialize (Hpos ltac:(lia) Hne). lia.
Qed.

Lemma run_commit_upload want props (P : list byte -> response_properties -> W -> Prop) Q
    eof got c m q F :
  upload want props P Q eof got c -> queued m q F ->
  exists m' w' tr k st, run_traced commitMultipartHandler c m = Ret (m', w', tr)
    /\ queued m' (drop k q) F /\ same_upload m m' /\ completed tr = Some st
    /\ (k <= length q)%nat
    /\ ((st = S3StatusOK /\ Z.of_nat (length got + k) = want
          /\ exists p, P (got ++ take k q) p w')
        \/ (st <> S3StatusOK /\ Q w')).
Proof.
  assert (forall st (R : W -> Prop) c m, ends st R c -> exists w tr,
    run_traced commitMultipartHandler c m = Ret (m, w, tr) /\ completed tr = Some st /\ R w)
    as Hend.
  { intros st R c0 m0 He. by apply (run_traced_end commitMultipartHandler (fun _ m => m)
      (fun _ _ => eq_refl) st R c0 m0). }
  intros Hc. revert m q. induction Hc as [got n k Hn _ IH _ IHe|eof got p k Hp Hg He|
    eof got p k st Hp Hst He|eof got st c Hst He]; intros m q Hq.
  - destruct (multipart_commit_feeds n m q F Hq Hn) as (m1 & j & E & Hq1 & Hm1 & Hj & Hjn & Hne).
    cbn [run_traced handle on_put_data commitMultipartHandler]. rewrite E.
    cbn [mbind outcome_bind fst snd].
    assert (length (take j q) = j) as Hl by (rewrite length_take; lia).
    destruct (take j q) as [|b bs] eqn:Eb.
    + cbn in Hl. subst j. change (Z.of_nat 0) with 0. rewrite drop_0 in Hq1.
      destruct (IHe m1 q Hq1) as (m' & w' & tr & k' & st & -> & Hq' & Hm' & Hst & Hk' & Hr).
      exists m', w'. eexists. exists k', st. split_and!; try done.
      destruct Hm1 as (? & ? & ?), Hm' as (? & ? & ?). split_and!; congruence.
    + rewrite <- Hl. destruct (IH b bs) with (m := m1) (q := drop j q)
        as (m' & w' & tr & k' & st & Er & Hq' & Hm' & Hst & Hk' & Hr); [rewrite Hl; lia|done|].
      rewrite Er. exists m', w'. eexists. exists (j + k')%nat, st.
      rewrite drop_drop in Hq'. rewrite length_drop in Hk'.
      split_and!; [done|done| |by cbn; rewrite Hst|lia|].
      * destruct Hm1 as (? & ? & ?), Hm' as (? & ? & ?). split_and!; congruence.
      * destruct Hr as [(Hs & Hw & p & HP)|Hr]; [left|by right].
        split_and!; [done|rewrite <- Hw, length_app, Hl; lia|]. exists p.
        rewrite <- take_take_drop, Eb. by rewrite <- app_assoc in HP.
  - cbn [run_traced handle on_properties commitMultipartHandler].
    unfold pure, s3_response_properties_callback. cbn [mbind outcome_bind fst snd].
    destruct (Hend _ _ _ m He) as (w & tr & -> & Hst & HP).
    eexists m, w, _, 0%nat, _. rewrite drop_0, take_0, app_nil_r.
    split_and!; [done|done|done|by cbn; rewrite Hst|lia|left]. split_and!; [done|lia|by exists p].
  - cbn [run_traced handle on_properties commitMultipartHandler].
    unfold pure, s3_response_properties_callback. cbn [mbind outcome_bind fst snd].
    destruct (Hend _ _ _ m He) as (w & tr & -> & Hst' & HP).
    eexists m, w, _, 0%nat, _. rewrite drop_0.
    split_and!; [done|done|done|by cbn; rewrite Hst'|lia|by right].
  - destruct (Hend _ _ _ m He) as (w & tr & -> & Hst' & HP).
    eexists m, w, _, 0%nat, _. rewrite drop_0.
    split_and!; [done|done|done|done|lia|by right].
Qed.

(** Requests without a body leave a manager that differs in its id only. *)
Lemma run_initiate (P : Z -> W -> Prop) c m :
  bodyless P true c ->
  exists m' w' st, run_call initMultipartHandler c m = Ret (m', w') /\ P st w'
    /\ etags m' = etags m /\ next_etags_pos m' = next_etags_pos m
    /\ m_heap m' = m_heap m /\ m_gb m' = m_gb m.
Proof.
  intros Hc. revert m. induction Hc as [ids p k _ IH|ids id k _ _ IH|ids st c He]; intros m.
  - destruct (IH m) as (m' & w' & st & E & H). exists m', w', st. by split.
  - cbn [run_call handle on_init_response initMultipartHandler].
    unfold pure, initial_multipart_response_callback. cbn [mbind outcome_bind fst snd].
    case_bool_decide; [by apply IH|].
    destruct (IH (mk_manager (Some id) (etags m) (next_etags_pos m) (m_heap m) (m_gb m)
      (remaining m))) as (m' & w' & st & E & H'). by exists m', w', st.
  - destruct (run_end initMultipartHandler (fun _ m => m) (fun _ _ => eq_refl) st _ c m He)
      as (w & E & Hw). by exists m, w, st.
Qed.

(** Requests whose only result is the status. *)
Lemma run_delete (P : Z -> W -> Prop) c d :
  bodyless P false c ->
  exists st w', run_call deleteResponseHandler c d = Ret (st, w') /\ P st w'.
Proof.
  intros Hc. revert d. remember false as ids eqn:Ei.
  induction Hc as [ids p k _ IH|ids id k E _ _|ids st c He]; intros d; [by apply IH|congruence|].
  destruct (run_end deleteResponseHandler (fun st _ => st) (fun _ _ => eq_refl) st _ c d He)
    as (w & E & Hw). by exists st, w.
Qed.
End CommitFeed.

End Callbacks.
