(* ===== verification/Copytool.v ===== *)
(** * The copytool's state, options and outside world

    The data of ct_common.h, the interfaces to Lustre ([Llapi]) and to the
    operating system ([Os]), and the monad in which the action handlers are
    written: it threads the outside world, the open files, the global
    [err_major], and a trace of the calls that leave the program. *)

From Stdlib Require Import ZArith Lia.
From Stdlib Require Import Strings.Byte.
From stdpp Require Import base gmap list strings.
From S2P Require Import Prelude Posix S3Api.
Import Posix S3Api.

Module Copytool.

Local Open Scope Z_scope.

(** ** Lustre's data, as far as the sources use it *)

Record lustre_fid := mk_fid { f_seq : Z; f_oid : Z; f_ver : Z }.

Record hsm_extent := mk_extent { ext_offset : Z; ext_length : Z }.

Record hsm_action_item := mk_hai {
  hai_len : Z;
  hai_action : Z;
  hai_fid : lustre_fid;
  hai_dfid : lustre_fid;
  hai_extent : hsm_extent;
  hai_cookie : Z
}.

(** [struct stat], as far as it is read: the type test and the size. *)
Record stat := mk_stat { st_isreg : bool; st_size : Z }.

(** Action codes and the flags of lustre_user.h. *)
Class LustreCodes := {
  HSMA_ARCHIVE : Z;
  HSMA_RESTORE : Z;
  HSMA_REMOVE : Z;
  HSMA_CANCEL : Z;
  HP_FLAG_RETRY : Z;
  LLAPI_MSG_INFO : Z
}.

(** ** Options and constants *)

(** [struct ct_options], the fields the handlers read. *)
Record ct_options := mk_options {
  o_daemonize : bool;
  o_dry_run : bool;
  o_abort_on_error : bool;
  o_verbose : Z;
  o_report_int : Z;
  o_mnt : string;
  o_mnt_fd : Z
}.

Definition MAX_OBJ_SIZE_LEVEL : Z := 256 * 1024 * 1024.
Definition CHUNK_SIZE : Z := 16 * 1024 * 1024.
Definition CHUNK_SIZE_MAX : Z := 5 * 1024 * 1024 * 1024.
Definition SLOW_IO_TIME : Z := 30.
Definition MAX_HSM_REQUESTS : Z := 100.
Definition RETRYCOUNT : Z := 5.
Definition PATH_MAX : Z := 4096.

(** ** The outside world *)

(** liblustreapi. A copy action is an opaque handle; [begin] may set it. *)
Class Llapi (W : Type) := {
  llapi_hsm_action_begin : hsm_action_item -> Z -> Z -> bool -> W -> W * (Z * option Z);
  llapi_hsm_action_end : Z -> hsm_extent -> Z -> Z -> W -> W * Z;
  llapi_hsm_action_progress : option Z -> hsm_extent -> Z -> Z -> W -> W * Z;
  llapi_hsm_action_get_fd : option Z -> W -> W * Z;
  llapi_hsm_action_get_dfid : option Z -> W -> W * (Z * lustre_fid);
  llapi_get_mdt_index_by_fid : Z -> lustre_fid -> W -> W * (Z * Z);
  llapi_fid2path : string -> lustre_fid -> W -> W * (Z * string)
}.

(** System calls other than file I/O: [fstat] ([None] with the errno on error),
    [fgetxattr] of the stripe (negative, with the errno, on error), the clock,
    and [malloc]. *)
Class Os (W : Type) := {
  fstat : Z -> W -> W * (Z + stat);
  fgetxattr_lov : Z -> W -> W * Z;
  time : W -> W * Z;
  malloc : Z -> W -> W * bool;
  (** The outcomes of the small allocations to come (true is success). *)
  small_mallocs : W -> W * list bool
}.

(** ** Traces of the calls that leave the program *)

Inductive act :=
  | ABegin (is_error : bool) (rc : Z)
  | AEnd (hp_flags err rc : Z)
  | AProgress (he : hsm_extent) (total rc : Z)
  | APut (key : string) (len : Z)
  | AGet (key : string) (first count : Z)
  | ADelete (key : string)
  | AInitiate (key : string)
  | AUploadPart (key : string) (seq : Z) (len : Z)
  | ACommit (key : string) (len : Z) (status : option Z)
  | AQuotaAlloc (size : Z) (ok : bool)
  | AQuotaFree (size : Z)
  | AClose (fd : Z).

Record pst (W : Type) := mk_pst {
  env : W;
  open_files : files;
  trace : list act;
  err_major : Z
}.
Arguments mk_pst {W}.
Arguments env {W}.
Arguments open_files {W}.
Arguments trace {W}.
Arguments err_major {W}.

(** ** The monad *)

Definition M (W A : Type) : Type := pst W -> outcome (pst W * A).

#[export] Instance M_ret W : MRet (M W) := fun A a s => Ret (s, a).
#[export] Instance M_bind W : MBind (M W) := fun A B f m s =>
  match m s with
  | Ret (s, a) => f a s
  | Crash => Crash
  | NoFuel => NoFuel
  end.

Section Monad.
Context {W : Type}.

Definition lift {A} (o : outcome A) : M W A := fun s =>
  match o with Ret a => Ret (s, a) | Crash => Crash | NoFuel => NoFuel end.

Definition crash {A} : M W A := fun _ => Crash.

(** A call to the outside world. *)
Definition ask {A} (f : W -> W * A) : M W A := fun s =>
  let '(w, a) := f (env s) in Ret (mk_pst w (open_files s) (trace s) (err_major s), a).

Definition emit (a : act) : M W unit := fun s =>
  Ret (mk_pst (env s) (open_files s) (trace s ++ [a]) (err_major s), tt).

(** [err_major++] *)
Definition incr_err_major : M W unit := fun s =>
  Ret (mk_pst (env s) (open_files s) (trace s) (i32 (err_major s + 1)), tt).

Definition file_read (fd n : Z) : M W (Z * list byte) := fun s =>
  let '(fs, k, bs) := read (open_files s) fd n in
  Ret (mk_pst (env s) fs (trace s) (err_major s), (k, bs)).

Definition file_seek (fd off : Z) : M W unit := fun s =>
  Ret (mk_pst (env s) (lseek_set (open_files s) fd off) (trace s) (err_major s), tt).

(** [close(fd)] *)
Definition file_close (fd : Z) : M W unit := fun s =>
  Ret (mk_pst (env s) (delete fd (open_files s)) (trace s ++ [AClose fd]) (err_major s), tt).

(** A libs3 request whose handlers work on client data [D] alone, or on the
    open files too. *)
Definition request {D} (h : handlers D) (c : W -> s3_call W) (d : D) : M W D := fun s =>
  r ← run_call h (c (env s)) d;
  Ret (mk_pst r.2 (open_files s) (trace s) (err_major s), r.1).

Definition request_io {D} (h : handlers (files * D)) (c : W -> s3_call W) (d : D) : M W D :=
  fun s =>
    r ← run_call h (c (env s)) (open_files s, d);
    Ret (mk_pst r.2 r.1.1 (trace s) (err_major s), r.1.2).

(** A request that records its completion status in the trace. *)
Definition request_status {D} (h : handlers D) (c : W -> s3_call W) (f : option Z -> act)
    (d : D) : M W D := fun s =>
  r ← run_traced h (c (env s)) d;
  Ret (mk_pst r.1.2 (open_files s) (trace s ++ [f (completed r.2)]) (err_major s), r.1.1).

(** Equations of the monad's runs. *)
Lemma M_bind_Ret {A B} (m : M W A) (f : A -> M W B) s s' a :
  m s = Ret (s', a) -> (m ≫= f) s = f a s'.
Proof. intros H. unfold mbind, M_bind. by rewrite H. Qed.

Lemma M_bind_inv {A B} (m : M W A) (f : A -> M W B) s s' b :
  (m ≫= f) s = Ret (s', b) -> exists s1 a, m s = Ret (s1, a) /\ f a s1 = Ret (s', b).
Proof.
  unfold mbind, M_bind. destruct (m s) as [[s1 a]| |]; [|done|done]. eauto.
Qed.
End Monad.

(** ** Retrying (ct_common.c) *)

(** [should_retry]: the new count and the answer; the random sleep is left out. *)
Definition should_retry (retry_count : Z) : Z * bool :=
  (retry_count - 1, bool_decide (retry_count <> 0)).

Definition ct_is_retryable (err : Z) : bool := bool_decide (err = - ETIMEDOUT).

Section Retry.
Context {W A : Type} (body : A -> M W A) (again : A -> bool).

(** [do body while (again && should_retry(&retry_count))], and the equivalent
    [while (true)] with breaks. *)
Fixpoint retrying (fuel : nat) (retry_count : Z) (a : A) : M W A :=
  match fuel with
  | O => fun _ => NoFuel
  | S fuel =>
      a ← body a;
      if again a then
        let '(retry_count, yes) := should_retry retry_count in
        if (yes : bool) then retrying fuel retry_count a else mret a
      else mret a
  end.

Definition with_retries (a : A) : M W A := retrying 6 RETRYCOUNT a.

(** What one pass from [I] establishes, [J], the loop establishes, if a pass
    that will be repeated re-establishes [I]; the fuel is enough. *)
Lemma retrying_rule (I J : pst W -> A -> Prop) fuel r a s :
  (forall s a, I s a -> exists s' a', body a s = Ret (s', a') /\ J s' a'
     /\ (again a' = true -> I s' a')) ->
  0 <= r < Z.of_nat fuel -> I s a ->
  exists s' a', retrying fuel r a s = Ret (s', a') /\ J s' a'.
Proof.
  intros Hb. revert r a s. induction fuel as [|fuel IH]; intros r a s Hr HI; [lia|].
  cbn [retrying]. destruct (Hb s a HI) as (s' & a' & E & HJ & Hag).
  erewrite M_bind_Ret by exact E. destruct (again a') eqn:Ea; [|by eauto].
  unfold should_retry. case_bool_decide; [|by eauto].
  apply IH; [lia|by apply Hag].
Qed.

Lemma with_retries_rule (I J : pst W -> A -> Prop) a s :
  (forall s a, I s a -> exists s' a', body a s = Ret (s', a') /\ J s' a'
     /\ (again a' = true -> I s' a')) ->
  I s a -> exists s' a', with_retries a s = Ret (s', a') /\ J s' a'.
Proof. intros Hb. apply retrying_rule; [done|]. unfold RETRYCOUNT. lia. Qed.
End Retry.

Section Resend.
Context {W A : Type} (call : A -> M W A) (failed : A -> bool).

(** The [msg_resend] loops: the call is repeated while it fails and [retrys],
    which starts at [max_retry], has not become negative. A call sees what the
    previous one left behind. *)
Fixpoint resend (fuel : nat) (retrys : Z) (prev : A) : M W A :=
  a ← call prev;
  if failed a && bool_decide (0 <= retrys) then
    match fuel with
    | O => fun _ => NoFuel
    | S fuel => resend fuel (retrys - 1) a
    end
  else mret a.

Definition max_retry : Z := 5.

Definition msg_resend (prev : A) : M W A := resend 6 max_retry prev.
End Resend.

Section Coordinator.
Context {W : Type} `{Llapi W}.

Definition llapi_hsm_action_progress_ex (hcp : option Z) (he : hsm_extent) (total hp_flags : Z)
    : M W Z :=
  msg_resend
    (fun _ =>
       rc ← ask (llapi_hsm_action_progress hcp he total hp_flags);
       _ ← emit (AProgress he total rc); mret rc)
    (fun rc => bool_decide (rc <> 0)) 0.

(** The result and the new value of [*phcp], which a call may or may not set. *)
Definition llapi_hsm_action_begin_ex (hcp : option Z) (hai : hsm_action_item)
    (restore_mdt_index restore_open_flags : Z) (is_error : bool) : M W (Z * option Z) :=
  msg_resend
    (fun prev =>
       r ← ask (llapi_hsm_action_begin hai restore_mdt_index restore_open_flags is_error);
       _ ← emit (ABegin is_error r.1);
       mret (r.1, match r.2 with Some h => Some h | None => prev.2 end))
    (fun r => bool_decide (r.1 <> 0)) (0, hcp).

Definition ct_begin_restore (hai : hsm_action_item) (mdt_index open_flags : Z)
    : M W (Z * option Z) :=
  llapi_hsm_action_begin_ex None hai mdt_index open_flags false.

Definition ct_begin (hai : hsm_action_item) : M W (Z * option Z) :=
  ct_begin_restore hai (-1) 0.

(** [msg_resend] of [ct_action_done]: a cancelled action is not resent. *)
Definition end_action (hcp : Z) (he : hsm_extent) (hp_flags err : Z) : M W Z :=
  msg_resend
    (fun _ =>
       rc ← ask (llapi_hsm_action_end hcp he hp_flags err);
       _ ← emit (AEnd hp_flags err rc); mret rc)
    (fun rc => bool_decide (rc <> - ECANCELED) && bool_decide (rc <> 0)) 0.

(** [phcp] is [*phcp], [None] standing for a null [phcp] or [*phcp]: then the
    action is begun as an error first. *)
Definition ct_action_done (phcp : option Z) (hai : hsm_action_item) (hp_flags ct_rc : Z)
    : M W Z :=
  match phcp with
  | Some hcp => end_action hcp (hai_extent hai) hp_flags (Z.abs ct_rc)
  | None =>
      r ← llapi_hsm_action_begin_ex None hai (-1) 0 true;
      if bool_decide (r.1 < 0) then mret r.1
      else
        match r.2 with
        | None => crash
        | Some hcp => end_action hcp (hai_extent hai) hp_flags (Z.abs ct_rc)
        end
  end.
End Coordinator.

(** ** Runs that leave the bucket alone

    Calls to Lustre and to the operating system do not touch the S3 server. *)

Section Isolation.
Context {W : Type} {L : LibS3 W} {LL : Llapi W} {OS : Os W}.

Definition apart {A} (f : W -> W * A) : Prop :=
  forall w, object (f w).1 = object w /\ part (f w).1 = part w.

Class Isolated := {
  begin_apart hai i fl e : apart (llapi_hsm_action_begin hai i fl e);
  end_apart hcp he fl err : apart (llapi_hsm_action_end hcp he fl err);
  progress_apart hcp he total fl : apart (llapi_hsm_action_progress hcp he total fl);
  get_fd_apart hcp : apart (llapi_hsm_action_get_fd hcp);
  get_dfid_apart hcp : apart (llapi_hsm_action_get_dfid hcp);
  mdt_index_apart fd fid : apart (llapi_get_mdt_index_by_fid fd fid);
  fid2path_apart mnt fid : apart (llapi_fid2path mnt fid);
  fstat_apart fd : apart (fstat fd);
  fgetxattr_apart fd : apart (fgetxattr_lov fd);
  time_apart : apart time;
  malloc_apart n : apart (malloc n);
  small_mallocs_apart : apart small_mallocs
}.

(** The calls made from [s] to [s'] are [P] acts. *)
Definition logs (P : act -> Prop) (s s' : pst W) : Prop :=
  exists l, trace s' = trace s ++ l /\ Forall P l.

#[export] Instance logs_refl P : Reflexive (logs P).
Proof. intros s. exists []. by rewrite app_nil_r. Qed.

#[export] Instance logs_trans P : Transitive (logs P).
Proof.
  intros s1 s2 s3 (l1 & E1 & H1) (l2 & E2 & H2). exists (l1 ++ l2).
  rewrite E2, E1, app_assoc. split; [done|by apply Forall_app].
Qed.

Lemma logs_weaken P Q s s' : (forall a, P a -> Q a) -> logs P s s' -> logs Q s s'.
Proof. intros H (l & E & Hl). exists l. split; [done|by eapply Forall_impl]. Qed.

(** From [s] to [s'] nothing happened but calls recorded as [P] acts. *)
Record only (P : act -> Prop) (s s' : pst W) : Prop := {
  only_trace : logs P s s';
  only_files : open_files s' = open_files s;
  only_err : err_major s' = err_major s;
  only_object : object (env s') = object (env s);
  only_part : part (env s') = part (env s)
}.

#[export] Instance only_refl P : Reflexive (only P).
Proof. by intros s. Qed.

#[export] Instance only_trans P : Transitive (only P).
Proof.
  intros s1 s2 s3 [] []. split; try congruence. by etrans.
Qed.

Lemma only_weaken P Q s s' : (forall a, P a -> Q a) -> only P s s' -> only Q s s'.
Proof. intros H []. split; try done. by eapply logs_weaken. Qed.

(** From [s] to [s'] only [P] acts happened, and of the bucket and the open
    files only the object [key] and the file [fd] may have changed. *)
Record within (P : act -> Prop) (key : string) (fd : Z) (s s' : pst W) : Prop := {
  within_trace : logs P s s';
  within_files : forall fd', fd' <> fd -> open_files s' !! fd' = open_files s !! fd';
  within_err : err_major s' = err_major s;
  within_object : forall key', key' <> key -> object (env s') key' = object (env s) key'
}.

#[export] Instance within_refl P key fd : Reflexive (within P key fd).
Proof. by intros s. Qed.

#[export] Instance within_trans P key fd : Transitive (within P key fd).
Proof.
  intros s1 s2 s3 [T1 F1 E1 O1] [T2 F2 E2 O2]. split; [by etrans| |congruence|].
  - intros fd' H. by rewrite F2, F1.
  - intros key' H. by rewrite O2, O1.
Qed.

Lemma within_weaken P Q key fd s s' :
  (forall a, P a -> Q a) -> within P key fd s s' -> within Q key fd s s'.
Proof. intros H []. split; try done. by eapply logs_weaken. Qed.

Lemma only_within P key fd s s' : only P s s' -> within P key fd s s'.
Proof. intros []. split; try done; congruence. Qed.

(** A computation that returns and does nothing but [P] acts. *)
Definition does {A} (P : act -> Prop) (m : M W A) : Prop :=
  forall s, exists s' a, m s = Ret (s', a) /\ only P s s'.

Lemma does_ret {A} P (a : A) : does P (mret a : M W A).
Proof. intros s. exists s, a. by split. Qed.

Lemma does_ask {A} P (f : W -> W * A) : apart f -> does P (ask f).
Proof.
  intros Hf s. unfold ask. specialize (Hf (env s)). destruct (f (env s)) as [w a].
  eexists _, a. split; [done|]. destruct Hf. split; try done.
  exists []. by rewrite app_nil_r.
Qed.

Lemma ask_only {A} P (f : W -> W * A) s s' a :
  apart f -> ask f s = Ret (s', a) -> only P s s' /\ a = (f (env s)).2.
Proof.
  intros Hf. unfold ask. specialize (Hf (env s)). destruct (f (env s)). intros [= <- <-].
  destruct Hf. split; [|done]. split; try done. exists []. by rewrite app_nil_r.
Qed.

Lemma does_emit P a : P a -> does P (emit a : M W unit).
Proof.
  intros Ha s. eexists _, tt. split; [done|]. split; try done. exists [a].
  split; [done|by constructor].
Qed.

Lemma does_bind {A B} P (m : M W A) (f : A -> M W B) :
  does P m -> (forall a, does P (f a)) -> does P (m ≫= f).
Proof.
  intros Hm Hf s. destruct (Hm s) as (s1 & a & E & H1). erewrite M_bind_Ret by exact E.
  destruct (Hf a s1) as (s' & b & E' & H2). exists s', b. split; [done|by etrans].
Qed.

Lemma does_weaken {A} P Q (m : M W A) : (forall a, P a -> Q a) -> does P m -> does Q m.
Proof.
  intros H Hm s. destruct (Hm s) as (s' & a & E & Ho). exists s', a.
  split; [done|by eapply only_weaken].
Qed.

(** A resent call returns; if its last result is a failure, all of the
    attempts failed. *)
Lemma does_resend {A} P (call : A -> M W A) failed fuel r a :
  (forall a, does P (call a)) -> -1 <= r < Z.of_nat fuel -> does P (resend call failed fuel r a).
Proof.
  intros Hc. revert r a. induction fuel as [|fuel IH]; intros r a Hr; cbn [resend];
    (apply does_bind; [apply Hc|]); intros b; destruct (failed b); cbn [andb];
    try case_bool_decide; try apply does_ret; [lia|apply IH; lia].
Qed.

Definition is_report (a : act) : Prop := match a with AProgress _ _ _ => True | _ => False end.

Lemma does_progress `{!Isolated} hcp he total fl :
  does is_report (llapi_hsm_action_progress_ex hcp he total fl).
Proof.
  apply does_resend; [|unfold max_retry; lia]. intros _. apply does_bind.
  - apply does_ask, progress_apart.
  - intros rc. apply does_bind; [by apply does_emit|intros; apply does_ret].
Qed.

(** What holds of every result of a call holds of the result of its resending. *)
Lemma resend_result {A} (Q : A -> Prop) (call : A -> M W A) failed fuel : forall r a s s' b,
  (forall a s s' b, call a s = Ret (s', b) -> Q b) ->
  resend call failed fuel r a s = Ret (s', b) -> Q b.
Proof.
  induction fuel as [|fuel IH]; intros r a s s' b Hq E; cbn [resend] in E;
    apply M_bind_inv in E as (s1 & b1 & E1 & E2); destruct (_ && _); try done;
    first [by eapply IH|injection E2 as <- <-; by eapply Hq].
Qed.

(** [llapi_hsm_action_begin] gives a handle unless it fails with a negative errno. *)
Definition begin_gives : Prop := forall hai i fl e w,
  0 <= (llapi_hsm_action_begin hai i fl e w).2.1 -> (llapi_hsm_action_begin hai i fl e w).2.2 <> None.

Definition any_act (a : act) : Prop := True.

Lemma does_begin `{!Isolated} hcp hai i fl e : does any_act (llapi_hsm_action_begin_ex hcp hai i fl e).
Proof.
  apply does_resend; [|unfold max_retry; lia]. intros a. apply does_bind.
  - apply does_ask, begin_apart.
  - intros r. apply does_bind; [by apply does_emit|intros; apply does_ret].
Qed.

Lemma begin_handle hcp hai i fl e s s' r :
  begin_gives -> llapi_hsm_action_begin_ex hcp hai i fl e s = Ret (s', r) -> 0 <= r.1 -> r.2 <> None.
Proof.
  intros Hb. apply (resend_result (fun r => 0 <= r.1 -> r.2 <> None)).
  clear s s' r. intros a s s' b E. apply M_bind_inv in E as (s1 & x & E1 & E).
  apply M_bind_inv in E as (s2 & [] & _ & [= _ <-]).
  unfold ask in E1. specialize (Hb hai i fl e (env s)).
  destruct (llapi_hsm_action_begin hai i fl e (env s)) as [w y]. injection E1 as _ <-.
  cbn in *. intros Hr. specialize (Hb Hr). by destruct y.2.
Qed.

(** The report of an action's end returns. *)
Lemma does_action_done `{!Isolated} phcp hai fl rc :
  begin_gives -> does any_act (ct_action_done phcp hai fl rc).
Proof.
  intros Hb.
  assert (forall h, does any_act (end_action h (hai_extent hai) fl (Z.abs rc))) as He.
  { intros h. apply does_resend; [|unfold max_retry; lia]. intros a. apply does_bind.
    - apply does_ask, end_apart.
    - intros r. apply does_bind; [by apply does_emit|intros; apply does_ret]. }
  unfold ct_action_done. destruct phcp; [apply He|]. intros s.
  destruct (does_begin None hai (-1) 0 true s) as (s1 & r & E1 & H1).
  erewrite M_bind_Ret by exact E1. case_bool_decide; [exists s1, r.1; by split|].
  destruct r.2 as [h|] eqn:Er; [|exfalso; apply (begin_handle _ _ _ _ _ _ _ _ Hb E1); [lia|done]].
  destruct (He h s1) as (s2 & x & E2 & H2). exists s2, x. split; [done|by etrans].
Qed.

(** *** The quota account of a trace *)

Fixpoint quota_held (l : list act) : Z :=
  match l with
  | [] => 0
  | AQuotaAlloc n true :: l => n + quota_held l
  | AQuotaFree n :: l => - n + quota_held l
  | _ :: l => quota_held l
  end.

Lemma quota_held_app l1 l2 : quota_held (l1 ++ l2) = quota_held l1 + quota_held l2.
Proof. induction l1 as [|a l1 IH]; cbn; [done|]. repeat case_match; lia. Qed.

Definition not_quota (a : act) : Prop :=
  match a with AQuotaAlloc _ _ | AQuotaFree _ => False | _ => True end.

Lemma quota_held_logs P s s' :
  (forall a, P a -> not_quota a) -> logs P s s' -> quota_held (trace s') = quota_held (trace s).
Proof.
  intros HP (l & -> & Hl). rewrite quota_held_app.
  assert (quota_held l = 0) as ->; [|lia].
  induction Hl as [|a l Ha Hl IH]; [done|]. apply HP in Ha. by destruct a.
Qed.

(** *** Runs that leave bucket and files alone, whether or not they return *)

Definition keeps {A} (m : M W A) : Prop :=
  forall s s' a, m s = Ret (s', a) ->
    open_files s' = open_files s /\ object (env s') = object (env s).

Lemma keeps_ret {A} (a : A) : keeps (mret a : M W A).
Proof. by intros s s' b [= -> ->]. Qed.

Lemma keeps_bind {A B} (m : M W A) (f : A -> M W B) :
  keeps m -> (forall a, keeps (f a)) -> keeps (m ≫= f).
Proof.
  intros Hm Hf s s' b E. apply M_bind_inv in E as (s1 & a & E1 & E2).
  apply Hm in E1 as [F1 O1]. apply Hf in E2 as [F2 O2]. split; congruence.
Qed.

Lemma keeps_ask {A} (f : W -> W * A) : apart f -> keeps (ask f).
Proof.
  intros Hf s s' a. unfold ask. specialize (Hf (env s)). destruct (f (env s)).
  intros [= <- <-]. by destruct Hf.
Qed.

Lemma keeps_emit a : keeps (emit a : M W unit).
Proof. by intros s s' [] [= <-]. Qed.

Lemma keeps_resend {A} (call : A -> M W A) failed fuel r a :
  (forall a, keeps (call a)) -> keeps (resend call failed fuel r a).
Proof.
  intros Hc. revert r a. induction fuel as [|fuel IH]; intros r a; cbn [resend];
    (apply keeps_bind; [apply Hc|]); intros b; destruct (_ && _);
    [by intros ? ? ?|apply keeps_ret|apply IH|apply keeps_ret].
Qed.

Lemma keeps_begin `{!Isolated} hcp hai i fl e : keeps (llapi_hsm_action_begin_ex hcp hai i fl e).
Proof.
  apply keeps_resend. intros a. apply keeps_bind; [apply keeps_ask, begin_apart|].
  intros r. apply keeps_bind; [apply keeps_emit|]. intros _. apply keeps_ret.
Qed.

Lemma keeps_action_done `{!Isolated} phcp hai fl rc : keeps (ct_action_done phcp hai fl rc).
Proof.
  assert (forall h, keeps (end_action h (hai_extent hai) fl (Z.abs rc))) as He.
  { intros h. apply keeps_resend. intros a. apply keeps_bind; [apply keeps_ask, end_apart|].
    intros r. apply keeps_bind; [apply keeps_emit|]. intros _. apply keeps_ret. }
  unfold ct_action_done. destruct phcp; [apply He|]. apply keeps_bind; [apply keeps_begin|].
  intros r. case_bool_decide; [apply keeps_ret|]. destruct r.2; [apply He|by intros ? ? ?].
Qed.
End Isolation.

Arguments Isolated W {L LL OS}.

(** ** What a computation records, whatever the world answers

    Unlike [does] this says nothing about termination, and needs nothing of
    libs3 or Lustre. *)

Section Emits.
Context {W : Type}.
Implicit Types (P : act -> Prop).

Definition emits {A} P (m : M W A) : Prop :=
  forall s s' a, m s = Ret (s', a) -> logs P s s' /\ err_major s' = err_major s.

Lemma emits_weaken {A} P Q (m : M W A) : (forall a, P a -> Q a) -> emits P m -> emits Q m.
Proof. intros H Hm s s' a E. destruct (Hm s s' a E). split; [by eapply logs_weaken|done]. Qed.

Lemma emits_ret {A} P (a : A) : emits P (mret a : M W A).
Proof. intros s s' b [= -> ->]. by split. Qed.

Lemma emits_bind {A B} P (m : M W A) (f : A -> M W B) :
  emits P m -> (forall a, emits P (f a)) -> emits P (m ≫= f).
Proof.
  intros Hm Hf s s' b E. apply M_bind_inv in E as (s1 & a & E1 & E2).
  apply Hm in E1 as [H1 R1]. apply Hf in E2 as [H2 R2]. split; [by etrans|congruence].
Qed.

Lemma emits_ask {A} P (f : W -> W * A) : emits P (ask f).
Proof.
  intros s s' a. unfold ask. destruct (f (env s)). intros [= <- <-].
  split; [|done]. exists []. by rewrite app_nil_r.
Qed.

Lemma emits_emit P a : P a -> emits P (emit a : M W unit).
Proof. intros Ha s s' [] [= <-]. split; [|done]. exists [a]. split; [done|by constructor]. Qed.

Lemma emits_lift {A} P (o : outcome A) : emits P (lift o : M W A).
Proof. intros s s' a. unfold lift. destruct o; intros [=]; subst. by split. Qed.

Lemma emits_crash {A} P : emits P (crash : M W A).
Proof. by intros s s' a. Qed.

Lemma emits_file_read P fd n : emits P (file_read fd n : M W _).
Proof.
  intros s s' a. unfold file_read. destruct (read _ _ _) as [[fs k] bs]. intros [= <- <-].
  split; [|done]. exists []. by rewrite app_nil_r.
Qed.

Lemma emits_file_seek P fd off : emits P (file_seek fd off : M W _).
Proof. intros s s' a [= <- <-]. split; [|done]. exists []. by rewrite app_nil_r. Qed.

Lemma emits_file_close P fd : P (AClose fd) -> emits P (file_close fd : M W _).
Proof.
  intros H s s' a [= <- <-]. split; [|done]. exists [AClose fd]. split; [done|by constructor].
Qed.

Lemma emits_request {D} P (h : handlers D) c d : emits P (request h c d : M W D).
Proof.
  intros s s' a E. unfold request in E. apply bind_Ret_inv in E as (r & _ & [= <- <-]).
  split; [|done]. exists []. by rewrite app_nil_r.
Qed.

Lemma emits_request_io {D} P (h : handlers (files * D)) c d :
  emits P (request_io h c d : M W D).
Proof.
  intros s s' a E. unfold request_io in E. apply bind_Ret_inv in E as (r & _ & [= <- <-]).
  split; [|done]. exists []. by rewrite app_nil_r.
Qed.

Lemma emits_request_status {D} P (h : handlers D) c f d :
  (forall st, P (f st)) -> emits P (request_status h c f d : M W D).
Proof.
  intros Hf s s' a E. unfold request_status in E. apply bind_Ret_inv in E as (r & _ & [= <- <-]).
  split; [|done]. eexists [_]. split; [done|by constructor].
Qed.

Lemma emits_resend {A} P (call : A -> M W A) failed fuel r a :
  (forall a, emits P (call a)) -> emits P (resend call failed fuel r a).
Proof.
  intros Hc. revert r a. induction fuel as [|fuel IH]; intros r a; cbn [resend];
    (apply emits_bind; [apply Hc|]); intros b; destruct (_ && _);
    [by intros ? ? ?|apply emits_ret|apply IH|apply emits_ret].
Qed.

Lemma emits_retrying {A} P (body : A -> M W A) again fuel r a :
  (forall a, emits P (body a)) -> emits P (retrying body again fuel r a).
Proof.
  intros Hb. revert r a. induction fuel as [|fuel IH]; intros r a; cbn [retrying];
    [by intros ? ? ?|]. apply emits_bind; [apply Hb|]. intros b.
  destruct (again b); [|apply emits_ret]. destruct (should_retry r) as [r' [|]];
    [apply IH|apply emits_ret].
Qed.
End Emits.

Create HintDb emits.
#[export] Hint Resolve emits_ret emits_ask emits_lift emits_crash emits_file_read emits_file_seek
  emits_request emits_request_io : emits.

(** Follows the structure of a computation; what remains is whether each act it
    records is allowed. *)
Ltac emits :=
  repeat first
    [ progress intros
    | solve [eauto 2 with emits nocore]
    | apply emits_bind
    | apply emits_emit
    | apply emits_request_status
    | apply emits_resend
    | apply emits_retrying
    | case_match ].

(** ** Resent calls *)

Section Attempts.
Context {W : Type}.

(** The record of a resent call: at most seven attempts, all failed but the
    last, whose result [rc] is the call's; only a failed result means seven. *)
Definition attempts (f : Z -> act) (failed : Z -> bool) (tail : list act) (rc : Z) : Prop :=
  exists rcs, tail = (f <$> rcs) ++ [f rc] /\ Forall (fun r => failed r = true) rcs
    /\ (length rcs <= 6)%nat /\ (failed rc = true -> length rcs = 6%nat).

Lemma resend_attempts {A} (f : Z -> act) (failed : Z -> bool) (res : A -> Z)
    (call : A -> M W A) fuel : forall r a s s' b,
  (forall a s s' b, call a s = Ret (s', b) ->
     trace s' = trace s ++ [f (res b)] /\ err_major s' = err_major s) ->
  -1 <= r -> resend call (fun a => failed (res a)) fuel r a s = Ret (s', b) ->
  exists rcs, trace s' = trace s ++ (f <$> rcs) ++ [f (res b)]
    /\ Forall (fun r => failed r = true) rcs /\ Z.of_nat (length rcs) <= r + 1
    /\ (failed (res b) = true -> Z.of_nat (length rcs) = r + 1)
    /\ err_major s' = err_major s.
Proof.
  induction fuel as [|fuel IH]; intros r a s s' b Hc Hr E; cbn [resend] in E;
    apply M_bind_inv in E as (s1 & c & E1 & E2);
    apply Hc in E1 as [Htr Herr]; destruct (failed (res c)) eqn:Ef; cbn [andb] in E2;
    try (case_bool_decide as Hr0); try done.
  1, 2, 4, 5: injection E2 as <- <-; exists []; split_and!;
    [done|done|cbn; lia|intros; cbn; (congruence || lia)|done].
  destruct (IH (r - 1) c s1 s' b Hc ltac:(lia) E2) as (rcs & Htr2 & Hall & Hlen & Hlast & Herr2).
  exists (res c :: rcs). split_and!; [|by constructor|cbn; lia| |congruence].
  - rewrite Htr2, Htr, <- app_assoc. done.
  - intros H. specialize (Hlast H). cbn. lia.
Qed.

Lemma msg_resend_attempts {A} (f : Z -> act) (failed : Z -> bool) (res : A -> Z)
    (call : A -> M W A) a s s' b :
  (forall a s s' b, call a s = Ret (s', b) ->
     trace s' = trace s ++ [f (res b)] /\ err_major s' = err_major s) ->
  msg_resend call (fun a => failed (res a)) a s = Ret (s', b) ->
  exists tail, trace s' = trace s ++ tail /\ attempts f failed tail (res b)
    /\ err_major s' = err_major s.
Proof.
  intros Hc E. destruct (resend_attempts f failed res call 6 5 a s s' b Hc ltac:(lia) E)
    as (rcs & Htr & Hall & Hlen & Hlast & Herr). unfold max_retry in *.
  eexists. split; [exact Htr|]. split; [|done]. exists rcs.
  split_and!; [done|done|lia|intros H; apply Hlast in H; lia].
Qed.
End Attempts.

Section Notification.
Context {W : Type} `{Llapi W}.

Definition nonzero (rc : Z) : bool := bool_decide (rc <> 0).
Definition end_failed (rc : Z) : bool := bool_decide (rc <> - ECANCELED) && bool_decide (rc <> 0).

(** The coordinator has been told [flags] and [err], or it could not be: the
    action had not begun and could not be begun as an error. *)
Definition notified (flags err : Z) (tail : list act) (rc : Z) : Prop :=
  attempts (AEnd flags err) end_failed tail rc
  \/ exists t rcb, attempts (ABegin true) nonzero t rcb
      /\ ((rcb < 0 /\ tail = t /\ rc = rcb)
          \/ (0 <= rcb /\ exists t', tail = t ++ t' /\ attempts (AEnd flags err) end_failed t' rc)).

Lemma end_action_attempts hcp he flags err s s' rc :
  end_action hcp he flags err s = Ret (s', rc) ->
  exists tail, trace s' = trace s ++ tail /\ attempts (AEnd flags err) end_failed tail rc
    /\ err_major s' = err_major s.
Proof.
  intros E. refine (msg_resend_attempts (AEnd flags err) end_failed id _ _ _ _ _ _ E).
  intros a s1 s2 b Ec. apply M_bind_inv in Ec as (s3 & r & Ea & Ec).
  unfold ask in Ea. destruct (llapi_hsm_action_end hcp he flags err (env s1)).
  injection Ea as <- <-. by injection Ec as <- <-.
Qed.

Lemma begin_attempts hcp hai i fl e s s' r :
  llapi_hsm_action_begin_ex hcp hai i fl e s = Ret (s', r) ->
  exists tail, trace s' = trace s ++ tail /\ attempts (ABegin e) nonzero tail r.1
    /\ err_major s' = err_major s.
Proof.
  intros E. refine (msg_resend_attempts (ABegin e) nonzero fst _ _ _ _ _ _ E).
  intros a s1 s2 b Ec. apply M_bind_inv in Ec as (s3 & x & Ea & Ec).
  unfold ask in Ea. destruct (llapi_hsm_action_begin hai i fl e (env s1)).
  injection Ea as <- <-. by injection Ec as <- <-.
Qed.

(** Whatever the handle, the action's end is reported. *)
Lemma ct_action_done_notifies phcp hai flags ct_rc s s' rc :
  ct_action_done phcp hai flags ct_rc s = Ret (s', rc) ->
  exists tail, trace s' = trace s ++ tail /\ notified flags (Z.abs ct_rc) tail rc
    /\ err_major s' = err_major s.
Proof.
  unfold ct_action_done. destruct phcp as [hcp|].
  - intros E. apply end_action_attempts in E as (tail & H1 & H2 & H3).
    exists tail. split_and!; [done|by left|done].
  - intros E. apply M_bind_inv in E as (s1 & b & E1 & E).
    apply begin_attempts in E1 as (t & Ht & Hb & Herr). case_bool_decide as Hneg.
    + injection E as <- <-. exists t. split_and!; [done|right|done].
      exists t, b.1. split; [done|by left].
    + destruct b.2 as [hcp|]; [|done].
      apply end_action_attempts in E as (t' & Ht' & Ha & Herr').
      exists (t ++ t'). rewrite Ht', Ht, <- app_assoc. split_and!; [done|right|congruence].
      exists t, b.1. split; [done|right]. split; [lia|by exists t'].
Qed.
End Notification.

End Copytool.
