(* ===== verification/Paths.v ===== *)
(** * Object names and paths

    [ct_target] and [fid_parent]'s path computation of lhsmtool_s3.c, and the
    path formats of ct_common.c, on strings without their terminator. *)

From Stdlib Require Import ZArith Lia.
From Stdlib Require Import Strings.String Strings.Ascii.
From stdpp Require Import base decidable numbers list strings.
From S2P Require Import Prelude Posix S3Api Copytool.
Import Copytool.

Module Paths.

Local Open Scope string_scope.

(** ** C strings *)

(** The string [k] characters into [s]; beyond the terminator is undefined. *)
Fixpoint str_from (k : nat) (s : string) : outcome string :=
  match k, s with
  | O, _ => Ret s
  | S k, String _ s => str_from k s
  | S _, EmptyString => Crash
  end.

(** [strstr]: the offset of the first occurrence of [needle]. *)
Definition strstr (haystack needle : string) : option nat := String.index 0 needle haystack.

(** What [snprintf(buf, sz, ..)] leaves in [buf] of the formatted string. *)
Definition snprintf (sz : nat) (s : string) : string := String.substring 0 (sz - 1) s.

(** ** Object names (lhsmtool_s3.c) *)

(** The name of a file's object: what follows the prefix and one more character,
    provided the path starts with the prefix. *)
Definition ct_target (path_prefix full_path : string) : outcome (option string) :=
  match strstr full_path path_prefix with
  | Some O =>
      r ← str_from (String.length path_prefix + 1) full_path;
      Ret (Some r)
  | _ => Ret None
  end.

(** [parent] with its last component removed, as [fid_parent] leaves it: the
    offset of the last slash, unless there is none or it comes first. *)
Fixpoint strrchr (c : ascii) (s : string) : option nat :=
  match s with
  | EmptyString => None
  | String a s =>
      match strrchr c s with
      | Some n => Some (S n)
      | None => if bool_decide (a = c) then Some O else None
      end
  end.

Definition slash : ascii := "/"%char.

Definition cut_last (parent : string) : Z * string :=
  match strrchr slash parent with
  | None => (- EINVAL, parent)%Z
  | Some O => (- EINVAL, parent)%Z
  | Some n => (0%Z, String.substring 0 n parent)
  end.

(** ** Path formats (ct_common.c) *)

Definition hex_digit (d : Z) : ascii :=
  ascii_of_nat (Z.to_nat (if bool_decide (d < 10)%Z then 48 + d else 87 + d)).

(** [%0wllx] of a value of at most [w] hexadecimal digits. *)
Fixpoint hex (w : nat) (n : Z) : string :=
  match w with
  | O => ""
  | S w => String (hex_digit (n / 16 ^ Z.of_nat w mod 16)) (hex w n)
  end.

(** "%016llx_%08x_%08x" *)
Definition archive_name (fid : lustre_fid) : string :=
  hex 16 (f_seq fid) ++ "_" ++ hex 8 (f_oid fid) ++ "_" ++ hex 8 (f_ver fid).

Definition ct_path_archive (sz : nat) (fid : lustre_fid) : Z * string :=
  (Z.of_nat (String.length (archive_name fid)), snprintf sz (archive_name fid)).

(** [fid_path] is the macro pair DFID_NOBRACE / PFID and [dot_lustre_name] the
    name, both of Lustre's headers. *)
Definition ct_path_lustre (dot_lustre_name : string) (fid_path : lustre_fid -> string)
    (sz : nat) (mnt : string) (fid : lustre_fid) : Z * string :=
  let path := mnt ++ "/" ++ dot_lustre_name ++ "/fid/" ++ fid_path fid in
  (Z.of_nat (String.length path), snprintf sz path).

(** ** Object names are faithful below the prefix *)

Lemma app_cons c (p s : string) : String c p ++ s = String c (p ++ s).
Proof. done. Qed.

Lemma app_empty_l (s : string) : "" ++ s = s.
Proof. done. Qed.

Lemma app_empty_r (p : string) : p ++ "" = p.
Proof. induction p as [|c p IH]; [done|]. by rewrite app_cons, IH. Qed.

Lemma prefix_app (p s : string) : String.prefix p (p ++ s) = true.
Proof.
  induction p as [|c p IH]; [by destruct s|]. rewrite app_cons. cbn.
  destruct (ascii_dec c c); [done|congruence].
Qed.

Lemma prefix_inv (p s : string) : String.prefix p s = true -> exists t, s = p ++ t.
Proof.
  revert s. induction p as [|c p IH]; intros [|d s] H; cbn in *; try done.
  - by exists "".
  - by exists (String d s).
  - destruct (ascii_dec c d) as [<-|]; [|done]. apply IH in H as [t ->].
    exists t. by rewrite app_cons.
Qed.

Lemma strstr_prefix (p s : string) : strstr s p = Some O <-> exists t, s = p ++ t.
Proof.
  unfold strstr. destruct s as [|c s].
  - destruct p as [|d p]; cbn; split; try done.
    + by exists "".
    + by intros [t Ht].
  - change (String.index 0 p (String c s)) with
      (if String.prefix p (String c s) then Some O
       else match String.index 0 p s with Some n => Some (S n) | None => None end).
    destruct (String.prefix p (String c s)) eqn:E; split; try done.
    + intros _. by apply prefix_inv.
    + by destruct (String.index 0 p s).
    + intros [t Ht]. rewrite Ht, prefix_app in E. done.
Qed.

Lemma str_from_app (p s : string) k : str_from (String.length p + k) (p ++ s) = str_from k s.
Proof. induction p as [|c p IH]; [done|]. rewrite app_cons. cbn. apply IH. Qed.

(** The three cases of [ct_target]. *)
Lemma ct_target_below p c name : ct_target p (p ++ String c name) = Ret (Some name).
Proof.
  unfold ct_target. rewrite (proj2 (strstr_prefix p _)) by by eexists.
  by rewrite str_from_app.
Qed.

Lemma ct_target_root p : ct_target p p = Crash.
Proof.
  unfold ct_target. rewrite (proj2 (strstr_prefix p p)).
  - rewrite <- (app_empty_r p) at 2. by rewrite str_from_app.
  - exists "". by rewrite app_empty_r.
Qed.

Lemma ct_target_outside p path :
  (forall t, path <> p ++ t) -> ct_target p path = Ret None.
Proof.
  intros H. unfold ct_target. destruct (strstr path p) as [[|n]|] eqn:E; [|done|done].
  apply strstr_prefix in E as [t Ht]. by destruct (H t).
Qed.

(** [ct_target] on every path: below the configured prefix (one separator
    character, whatever it is, then the rest) it answers the rest; on the prefix
    itself it points past the end of the string; it answers NULL exactly on the
    paths that do not start with the prefix. *)
Theorem ct_target_cases p path :
  (exists c name, path = p ++ String c name /\ ct_target p path = Ret (Some name))
  \/ (path = p /\ ct_target p path = Crash)
  \/ ((forall t, path <> p ++ t) /\ ct_target p path = Ret None).
Proof.
  destruct (decide (strstr path p = Some O)) as [E|E].
  - apply strstr_prefix in E as [[|c name] ->].
    + right. left. rewrite app_empty_r. split; [done|apply ct_target_root].
    + left. exists c, name. split; [done|apply ct_target_below].
  - right. right.
    assert (forall t, path <> p ++ t) as H.
    { intros t Ht. apply E, strstr_prefix. by exists t. }
    split; [done|]. by apply ct_target_outside.
Qed.

(** C38. Round trip of object names: the file [mnt/name] under the prefix [mnt] is
    stored under the key [name], and two files there with the same key are the
    same file. *)
Theorem ct_target_round_trip p name name' :
  ct_target p (p ++ String slash name) = Ret (Some name)
  /\ (ct_target p (p ++ String slash name) = ct_target p (p ++ String slash name') ->
      name = name').
Proof. rewrite !ct_target_below. split; [done|]. by intros [= ->]. Qed.

(** The prefix test stops at the end of the prefix, not at a path separator:
    the file [name] below the prefix and the file [name] of a sibling directory
    whose name continues the prefix by one character are different paths that
    share one object. *)
Theorem ct_target_collision p c name :
  c <> slash ->
  p ++ String c name <> p ++ String slash name
  /\ ct_target p (p ++ String c name) = ct_target p (p ++ String slash name).
Proof.
  intros Hc. rewrite !ct_target_below. split; [|done].
  intros E. assert (String c name = String slash name) as [= ->]; [|done].
  clear Hc. induction p as [|d p IH]; [done|]. rewrite !app_cons in E.
  injection E as E. auto.
Qed.

Lemma ct_target_collision_witness :
  "/mnt/fs" ++ String "2"%char "a" <> "/mnt/fs" ++ String slash "a"
  /\ ct_target "/mnt/fs" ("/mnt/fs" ++ String "2"%char "a")
     = ct_target "/mnt/fs" ("/mnt/fs" ++ String slash "a").
Proof. apply ct_target_collision. by vm_compute. Defined.

Lemma String_length_app (a b : string) :
  String.length (a ++ b) = String.length a + String.length b.
Proof. induction a as [|c a IH]; [done|]. rewrite app_cons. cbn. lia. Qed.

Lemma substring_all n s : String.length s <= n -> String.substring 0 n s = s.
Proof.
  revert n. induction s as [|c s IH]; intros [|n] H; cbn in *; try done; [lia|].
  by rewrite IH by lia.
Qed.

(** ** Archive names identify files *)

Definition hex_value (a : ascii) : Z :=
  let n := Z.of_nat (nat_of_ascii a) in
  if bool_decide (n < 58)%Z then n - 48 else n - 87.

(** Reading a hexadecimal numeral back. *)
Fixpoint unhex (acc : Z) (s : string) : Z :=
  match s with
  | EmptyString => acc
  | String a s => unhex (acc * 16 + hex_value a) s
  end.

Lemma hex_value_digit d : (0 <= d < 16)%Z -> hex_value (hex_digit d) = d.
Proof.
  intros Hd. assert (d = 0 \/ d = 1 \/ d = 2 \/ d = 3 \/ d = 4 \/ d = 5 \/ d = 6 \/ d = 7
    \/ d = 8 \/ d = 9 \/ d = 10 \/ d = 11 \/ d = 12 \/ d = 13 \/ d = 14 \/ d = 15)%Z by lia.
  naive_solver.
Qed.

Lemma length_hex w n : String.length (hex w n) = w.
Proof. induction w as [|w IH]; cbn; auto. Qed.

Lemma unhex_hex w n acc :
  (0 <= n)%Z -> unhex acc (hex w n) = (acc * 16 ^ Z.of_nat w + n mod 16 ^ Z.of_nat w)%Z.
Proof.
  intros Hn. revert acc. induction w as [|w IH]; intros acc; cbn [hex unhex].
  - rewrite Z.mod_1_r. lia.
  - rewrite hex_value_digit by (apply Z.mod_pos_bound; lia).
    rewrite IH, Nat2Z.inj_succ, Z.pow_succ_r by lia.
    assert (0 < 16 ^ Z.of_nat w)%Z as Hp by (apply Z.pow_pos_nonneg; lia).
    rewrite (Z.mul_comm 16 (16 ^ _)), Z.rem_mul_r by lia. lia.
Qed.

Lemma hex_inj w n m :
  (0 <= n < 16 ^ Z.of_nat w)%Z -> (0 <= m < 16 ^ Z.of_nat w)%Z -> hex w n = hex w m -> n = m.
Proof.
  intros Hn Hm E. apply (f_equal (unhex 0)) in E. rewrite !unhex_hex in E by lia.
  rewrite !Z.mod_small in E by lia. lia.
Qed.

Lemma app_inj_length (a b s t : string) :
  String.length a = String.length b -> a ++ s = b ++ t -> a = b /\ s = t.
Proof.
  revert b. induction a as [|c a IH]; intros [|d b] Hl E; try done.
  rewrite !app_cons in E. injection E as -> E. injection Hl as Hl.
  destruct (IH b Hl E) as [-> ->]. done.
Qed.

(** The ranges of the fields' C types: [__u64], [__u32], [__u32]. *)
Definition fid_ok (f : lustre_fid) : Prop :=
  (0 <= f_seq f < 2 ^ 64 /\ 0 <= f_oid f < 2 ^ 32 /\ 0 <= f_ver f < 2 ^ 32)%Z.

(** [ct_path_archive] identifies a file: different FIDs format to different
    names, each of 34 characters, so a buffer of 35 bytes never truncates one. *)
Theorem ct_path_archive_injective sz f g :
  fid_ok f -> fid_ok g -> 34 < sz ->
  (ct_path_archive sz f).2 = (ct_path_archive sz g).2 -> f = g.
Proof.
  intros Hf Hg Hsz. unfold ct_path_archive, snprintf. cbn [snd].
  assert (forall h, String.length (archive_name h) = 34) as Hl.
  { intros h. unfold archive_name. rewrite !String_length_app, !length_hex. done. }
  assert (forall s, String.length s = 34 -> String.substring 0 (sz - 1) s = s) as Hsub.
  { intros s Hs. apply substring_all. lia. }
  rewrite !Hsub by apply Hl. unfold archive_name. intros E.
  apply app_inj_length in E as [E1 E]; [|by rewrite !length_hex].
  apply app_inj_length in E as [_ E]; [|done].
  apply app_inj_length in E as [E2 E]; [|by rewrite !length_hex].
  apply app_inj_length in E as [_ E3]; [|done].
  destruct f as [s o v], g as [s' o' v']. destruct Hf as (Hs & Ho & Hv), Hg as (Hs' & Ho' & Hv').
  cbn [f_seq f_oid f_ver] in *.
  apply hex_inj in E1; [|change (16 ^ Z.of_nat 16)%Z with (2 ^ 64)%Z; done..].
  apply hex_inj in E2; [|change (16 ^ Z.of_nat 8)%Z with (2 ^ 32)%Z; done..].
  apply hex_inj in E3; [|change (16 ^ Z.of_nat 8)%Z with (2 ^ 32)%Z; done..].
  congruence.
Qed.

Lemma ct_path_archive_injective_witness :
  (ct_path_archive 35 (mk_fid 8589935617 1 0)).2 <> (ct_path_archive 35 (mk_fid 8589935617 16 0)).2.
Proof.
  refine (fun E => _).
  pose proof (ct_path_archive_injective 35 (mk_fid 8589935617 1 0) (mk_fid 8589935617 16 0)
    ltac:(split_and!; vm_compute; done) ltac:(split_and!; vm_compute; done) ltac:(lia) E) as C.
  discriminate C.
Defined.

Example archive_name_example :
  (ct_path_archive 100 (mk_fid 8589935617 10 255)).2 = "0000000200000401_0000000a_000000ff".
Proof. reflexivity. Qed.

End Paths.
