(* ===== verification/Restore.v ===== *)
(** * lhsmtool_s3.c: downloading an object into a file

    [get_s3_object] (the ranged version, which is the one compiled) and
    [ct_restore_data]. *)

From Stdlib Require Import ZArith Lia.
From Stdlib Require Import Strings.Byte.
From stdpp Require Import base gmap list strings.
From S2P Require Import Prelude Posix S3Api Callbacks Copytool Paths.
Import Posix S3Api Callbacks Copytool Paths.

Module Restore.

Local Open Scope Z_scope.
Local Open Scope estuary_scope.

Definition set_get_status (st : Z) (d : get_object_callback_data) : get_object_callback_data :=
  mk_get_data (totalLength d) (get_contentLength d) st (md5 d) (get_fd d) (file_offset d).

Definition add_totalLength (d : get_object_callback_data) : get_object_callback_data :=
  mk_get_data (totalLength d +u get_contentLength d) (get_contentLength d) (get_status d)
    (md5 d) (get_fd d) (file_offset d).

(** [memset(&data, 0, sizeof(data)); data.fd = dst_fd] *)
Definition new_get_data (fd : Z) : get_object_callback_data :=
  mk_get_data 0 0 0 (replicate 33 x00) fd 0.

Section Operations.
Context {ST : S3Statuses} {W : Type} `{L : LibS3 W} `{LL : Llapi W} `{OS : Os W}.

(** The loop asks for one chunk at a time; the object ends with a short chunk
    or with InvalidRange. Every request starts at the file position of its
    chunk, so that a retry overwrites what a failed attempt has written. *)
Fixpoint get_loop (fuel : nat) (objectName : string) (startByte retry_count : Z)
    (data : get_object_callback_data) : M W get_object_callback_data :=
  match fuel with
  | O => fun _ => NoFuel
  | S fuel =>
      let byteCount := CHUNK_SIZE in
      _ ← file_seek (get_fd data) startByte;
      _ ← emit (AGet objectName startByte byteCount);
      data ← request_io getObjectHandler (S3_get_object objectName startByte byteCount) data;
      if bool_decide (get_status data = S3StatusOK) then
        let data := add_totalLength data in
        if bool_decide (byteCount <> get_contentLength data) then mret data
        else get_loop fuel objectName (startByte +u byteCount) retry_count data
      else if bool_decide (get_status data = S3StatusErrorInvalidRange) then
        mret (set_get_status S3StatusOK data)
      else if S3_status_is_retryable (get_status data) then
        let '(retry_count, again) := should_retry retry_count in
        if (again : bool) then get_loop fuel objectName startByte retry_count data
        else mret data
      else mret data
  end.

Definition get_s3_object (fuel : nat) (objectName : string) (data : get_object_callback_data)
    : M W (Z * get_object_callback_data) :=
  data ← get_loop fuel objectName 0 RETRYCOUNT data;
  if bool_decide (get_status data <> S3StatusOK) then mret (- EIO, data)
  else mret (0, data).

Context (ct_opt : ct_options) (path_prefix : string).

(** [sprintf(full_path, "%s/%s", ct_opt.o_mnt, file_path)] into PATH_MAX bytes. *)
Definition sprintf_full_path (file_path : string) : outcome string :=
  let s := (o_mnt ct_opt ++ "/" ++ file_path)%string in
  if bool_decide (Z.of_nat (String.length s) < PATH_MAX) then Ret s else Crash.

(** The value a [__u64] [length] has when it is -1. *)
Definition whole_file : Z := two64 - 1.

(** The last part of [ct_restore_data]: a second progress report when the
    reporting period has passed. Its result becomes the function's. *)
Definition report_restored (hcp : option Z) (file_offset length last_report_time rc : Z)
    : M W Z :=
  now ← ask time;
  if bool_decide (last_report_time + o_report_int ct_opt <= now) then
    llapi_hsm_action_progress_ex hcp (mk_extent file_offset length) length 0
  else mret rc.

Definition ct_restore_data (fuel : nat) (hcp : option Z) (dst_fd : Z) (hai : hsm_action_item)
    (file_path : string) : M W Z :=
  let file_offset := ext_offset (hai_extent hai) in
  let length := ext_length (hai_extent hai) in
  st ← ask (fstat dst_fd);
  match st with
  | inl errno => mret (- errno)
  | inr dst_st =>
      if negb (st_isreg dst_st) then mret (- EINVAL)
      else
        _ ← llapi_hsm_action_progress_ex hcp (mk_extent file_offset 0) length 0;
        last_report_time ← ask time;
        full_path ← lift (sprintf_full_path file_path);
        object_name ← lift (ct_target path_prefix full_path);
        match object_name with
        | None => mret 0
        | Some object_name =>
            if bool_decide (length = whole_file /\ file_offset = 0) then
              r ← get_s3_object fuel object_name (new_get_data dst_fd);
              if bool_decide (r.1 < 0) then mret r.1
              else report_restored hcp file_offset (get_contentLength r.2) last_report_time r.1
            else crash
        end
  end.
End Operations.

(** ** Writing an object piece by piece

    The file always holds a prefix of the object. *)

Lemma write_at_prefix (p m : nat) (bs obj : list byte) :
  (p <= m <= length obj)%nat -> bs = slice p (length bs) obj ->
  write_at p bs (take m obj) = take (Nat.max m (p + length bs)) obj.
Proof.
  intros Hp Hbs. set (k := length bs) in *.
  assert (p + k <= length obj)%nat as Hpk.
  { assert (k = length (slice p k obj)) as E by (unfold k at 1; by rewrite Hbs at 1).
    unfold slice in E. rewrite length_take, length_drop in E. lia. }
  assert (take p obj ++ bs = take (p + k) obj) as Hpre.
  { rewrite Hbs. unfold slice. by rewrite take_take_drop. }
  unfold write_at, overwrite. fold k. rewrite length_take, Nat.min_l by lia.
  replace (p - m)%nat with 0%nat by lia. cbn [replicate]. rewrite app_nil_r.
  rewrite take_take, Nat.min_l, app_assoc, Hpre by lia.
  destruct (decide (m <= p + k)%nat) as [Hm|Hm].
  - rewrite drop_ge by (rewrite length_take; lia). by rewrite app_nil_r, Nat.max_r by lia.
  - rewrite Nat.max_l by lia. rewrite <- (take_drop (p + k) (take m obj)) at 2.
    by rewrite take_take, Nat.min_l by lia.
Qed.

Lemma CHUNK_SIZE_value : CHUNK_SIZE = 16777216.
Proof. reflexivity. Qed.

#[local] Opaque CHUNK_SIZE.

Section Correct.
Context {ST : S3Statuses} {LAWS : S3StatusLaws ST} {W : Type} {L : LibS3 W}
  {LO : LibS3Objects W ST L}.

(** The open files [fs] hold, under [fd], the first [m] bytes of [obj], with the
    file position at [p]; all other files are as in [fs0]. *)
Definition holds_prefix (fs0 fs : files) (fd : Z) (obj : list byte) (p m : nat) : Prop :=
  (p <= m <= length obj)%nat
  /\ (exists lim, fs !! fd = Some (mk_file (take m obj) (Z.of_nat p) lim))
  /\ forall fd', fd' <> fd -> fs !! fd' = fs0 !! fd'.

Lemma holds_prefix_seek fs0 fs fd obj p m q :
  holds_prefix fs0 fs fd obj p m -> (q <= m)%nat ->
  holds_prefix fs0 (lseek_set fs fd (Z.of_nat q)) fd obj q m.
Proof.
  intros (Hp & [lim Hf] & Hr) Hq. split_and!; [lia|lia| |].
  - exists lim. erewrite lseek_set_lookup by (done || lia). done.
  - intros fd' Hfd. unfold lseek_set. rewrite bool_decide_eq_false_2 by lia.
    rewrite lookup_alter_ne by done. by apply Hr.
Qed.

Lemma write_prefix fs0 fs fd obj p m bs fs' k :
  holds_prefix fs0 fs fd obj p m -> bs = slice p (length bs) obj ->
  write fs fd bs = (fs', k) ->
  (k < Z.of_nat (length bs) /\ exists p' m', (m <= m')%nat /\ holds_prefix fs0 fs' fd obj p' m')
  \/ (k = Z.of_nat (length bs) /\ exists m', (m <= m')%nat
      /\ holds_prefix fs0 fs' fd obj (p + length bs) m').
Proof.
  intros (Hp & [lim Hf] & Hr) Hbs Hw.
  assert (forall fd', fd' <> fd -> fs' !! fd' = fs0 !! fd') as Hr'.
  { intros fd' Hfd. unfold write in Hw. rewrite Hf in Hw. rewrite <- Hr by done.
    case_bool_decide; injection Hw as <- _; by rewrite lookup_insert_ne. }
  destruct (write_spec fs fd bs _ fs' k Hf Hw) as [(-> & Hf')|(Hk & Hf')]; cbn in Hf'.
  - left. split; [lia|]. exists p, m. split; [lia|].
    split_and!; [lia|lia|by eexists|done].
  - rewrite Nat2Z.id in Hf'. set (bs' := take (Z.to_nat k) bs) in *.
    assert (length bs' = Z.to_nat k) as Hl by (unfold bs'; rewrite length_take; lia).
    assert (bs' = slice p (length bs') obj) as Hbs'.
    { unfold bs'. rewrite Hbs at 1. rewrite slice_prefix by lia. by rewrite length_take,
        Nat.min_l by lia. }
    assert (p + length bs <= length obj)%nat as Hfit.
    { apply (f_equal length) in Hbs. unfold slice in Hbs.
      rewrite length_take, length_drop in Hbs. lia. }
    rewrite (write_at_prefix p m bs' obj Hp Hbs') in Hf'.
    assert (holds_prefix fs0 fs' fd obj (p + Z.to_nat k) (Nat.max m (p + length bs'))) as H'.
    { split_and!; [lia|lia|exists (tail lim)|done].
      rewrite Hf'. do 2 f_equal. lia. }
    destruct (decide (k = Z.of_nat (length bs))) as [->|Hk'].
    + right. split; [done|]. rewrite Nat2Z.id in H'. eexists. split; [|exact H']. lia.
    + left. split; [lia|]. eexists _, _. split; [|exact H']. lia.
Qed.

(** What a request leaves behind: the status [st], a longer prefix, and the
    other fields of the client data that the loop reads. *)
Definition got (fs0 : files) (fd : Z) (obj : list byte) (m : nat) (d : get_object_callback_data)
    (st : Z) (fs' : files) (d' : get_object_callback_data) : Prop :=
  get_status d' = st /\ get_fd d' = fd /\ get_contentLength d' = get_contentLength d
  /\ exists p' m', (m <= m')%nat /\ holds_prefix fs0 fs' fd obj p' m'.

Lemma get_end (Q : W -> Prop) st c fs d :
  ends st Q c ->
  exists w, run_call getObjectHandler c (fs, d) = Ret ((fs, set_get_status st d), w) /\ Q w.
Proof. intros (k & w & -> & Hk & Hw). exists w. cbn. by rewrite Hk. Qed.

Lemma run_download fs0 (Q : W -> Prop) rest c fs d fd obj p m :
  download Q rest c -> get_fd d = fd -> (rest <> [] -> get_contentLength d <> 0) ->
  rest = slice p (length rest) obj -> holds_prefix fs0 fs fd obj p m ->
  exists fs' d' w' st, run_call getObjectHandler c (fs, d) = Ret ((fs', d'), w') /\ Q w'
    /\ got fs0 fd obj m d st fs' d'
    /\ ((st = S3StatusOK /\ exists p' m', (p + length rest <= m')%nat
           /\ holds_prefix fs0 fs' fd obj p' m')
        \/ (st <> S3StatusOK /\ st <> S3StatusErrorInvalidRange)).
Proof.
  intros Hc. revert fs d p m. induction Hc as [bs rest k Hne Hk IH Habort|c Hend|rest st c H1 H2 Hend];
    intros fs d p m Hfd Hcl Hrest Hp.
  - cbn [run_call handle on_get_data getObjectHandler]. unfold get_objectdata_callback.
    cbn [fst snd]. rewrite bool_decide_eq_false_2 by (apply Hcl; by destruct bs).
    rewrite length_app in Hrest.
    assert (bs = slice p (length bs) obj /\ rest = slice (p + length bs) (length rest) obj)
      as [Hbs Hrest'].
    { apply app_inj_1; [|by rewrite <- slice_split].
      apply (f_equal length) in Hrest. unfold slice in *.
      rewrite length_app, length_take, length_drop in Hrest.
      rewrite length_take, length_drop. lia. }
    destruct (write fs (get_fd d) bs) as [fs1 wrote] eqn:Ew. rewrite Hfd in Ew.
    destruct (write_prefix fs0 fs fd obj p m bs fs1 wrote Hp Hbs Ew)
      as [(Hk' & p' & m' & Hm' & Hp')|(-> & m' & Hm' & Hp')].
    + rewrite bool_decide_eq_true_2 by done. cbn [mbind outcome_bind fst snd].
      destruct (get_end Q _ _ fs1 (mk_get_data (totalLength d) (get_contentLength d)
        S3StatusAbortedByCallback (md5 d) (get_fd d) (file_offset d))
        (Habort S3StatusAbortedByCallback status_aborted_not_ok)) as (w & -> & Hw).
      do 4 eexists. split_and!; [reflexivity|done| |right].
      * split_and!; [done|done|done|by eauto].
      * split; [apply status_aborted_not_ok|apply status_aborted_not_range].
    + rewrite bool_decide_eq_false_2 by lia. cbn [mbind outcome_bind fst snd].
      edestruct (IH fs1 (mk_get_data (totalLength d) (get_contentLength d) (get_status d)
        (md5 d) (get_fd d) (file_offset d +u Z.of_nat (length bs))) (p + length bs)%nat m')
        as (fs' & d' & w' & st & -> & HQ & Hgot & Hst); [done| |done|done|].
      * intros Hr. apply Hcl. by destruct bs.
      * do 4 eexists. split_and!; [reflexivity|done| |].
        -- destruct Hgot as (? & ? & ? & p'' & m'' & ? & ?).
           split_and!; [done|done|done|]. exists p'', m''. split; [lia|done].
        -- destruct Hst as [(-> & p'' & m'' & Hm'' & Hp'')|Hst]; [left|by right].
           split; [done|]. exists p'', m''. rewrite length_app. split; [lia|done].
  - destruct (get_end Q _ _ fs d Hend) as (w & -> & Hw). do 4 eexists.
    split_and!; [reflexivity|done| |left; split; [done|]].
    + split_and!; [done|done|done|by eauto].
    + exists p, m. split; [cbn; destruct Hp; lia|done].
  - destruct (get_end Q _ _ fs d Hend) as (w & -> & Hw). do 4 eexists.
    split_and!; [reflexivity|done| |by right].
    split_and!; [done|done|done|by eauto].
Qed.
Lemma holds_prefix_unique fs0 fs fd obj p m p' m' :
  holds_prefix fs0 fs fd obj p m -> holds_prefix fs0 fs fd obj p' m' -> m = m'.
Proof.
  intros (Hp & [lim Hf] & _) (Hp' & [lim' Hf'] & _). rewrite Hf in Hf'.
  injection Hf' as E _ _. apply (f_equal length) in E. rewrite !length_take in E. lia.
Qed.

Lemma properties_ok (p : response_properties) d :
  p_eTag p <> Some EmptyString ->
  exists d', s3_response_get_object_properties_callback p d = Ret (d', S3StatusOK)
    /\ get_contentLength d' = p_contentLength p /\ get_fd d' = get_fd d.
Proof.
  intros He. unfold s3_response_get_object_properties_callback.
  destruct (p_eTag p) as [[|c e]|]; [done|..]; cbn; eauto.
Qed.

(** The answer to a request for the range from [b] on, the file then holding the
    object up to [m']. *)
Definition got_cases (obj : list byte) (b m' : nat) (d' : get_object_callback_data) : Prop :=
  (get_status d' = S3StatusOK
   /\ exists n, get_contentLength d' = Z.of_nat n /\ (b + n <= m')%nat
      /\ (Z.of_nat n < CHUNK_SIZE -> m' = length obj) /\ Z.of_nat n <= CHUNK_SIZE)
  \/ (get_status d' = S3StatusErrorInvalidRange /\ m' = length obj)
  \/ (get_status d' <> S3StatusOK /\ get_status d' <> S3StatusErrorInvalidRange).

(** One ranged request from a file positioned at the range's start. *)
Lemma run_ranged fs0 key obj w fs d fd b m :
  object w key = Some obj -> get_fd d = fd -> holds_prefix fs0 fs fd obj b m ->
  exists fs' d' w', run_call getObjectHandler (S3_get_object key (Z.of_nat b) CHUNK_SIZE w) (fs, d)
      = Ret ((fs', d'), w')
    /\ object w' = object w /\ get_fd d' = fd
    /\ exists p' m', (m <= m')%nat /\ holds_prefix fs0 fs' fd obj p' m'
    /\ got_cases obj b m' d'.
Proof.
  intros Ho Hfd Hp. pose proof (get_object_downloads key obj (Z.of_nat b) CHUNK_SIZE w Ho) as Hr.
  pose proof CHUNK_SIZE_value as Hc.
  destruct Hr as [c Hlen Hend|p k bs Hlen Hbs Hcl Htag Hd|st c H1 H2 Hend].
  - destruct (get_end _ _ _ fs d Hend) as (w' & -> & Hw).
    do 3 eexists. split_and!; [reflexivity|done|done|]. exists b, m.
    split_and!; [done|done|]. right. left. split; [done|]. destruct Hp. lia.
  - cbn [run_call handle on_properties getObjectHandler fst snd].
    destruct (properties_ok p d Htag) as (d1 & -> & Hcl1 & Hfd1).
    cbn [mbind outcome_bind fst snd].
    assert (bs = slice b (length bs) obj /\ length bs = Nat.min (Z.to_nat CHUNK_SIZE) (length obj - b))
      as [Hbs' Hlbs].
    { assert (length bs = Nat.min (Z.to_nat CHUNK_SIZE) (length obj - b)) as E.
      { rewrite Hbs, Nat2Z.id. unfold slice. by rewrite length_take, length_drop. }
      split; [|done]. rewrite E, Hbs, Nat2Z.id. unfold slice.
      rewrite <- take_take. f_equal. rewrite take_ge; [done|]. rewrite length_drop. lia. }
    destruct (run_download fs0 _ bs (k S3StatusOK) fs d1 fd obj b m Hd)
      as (fs' & d' & w' & st & -> & Hw & (Hst & Hfd' & Hcl' & p' & m' & Hm' & Hp') & Hcases);
      [congruence| |done|done|].
    { intros Hne. rewrite Hcl1, Hcl. destruct bs; [by destruct (Hne eq_refl)|]. cbn [length]. lia. }
    do 3 eexists. split_and!; [reflexivity|done|done|].
    destruct Hcases as [(-> & p2 & m2 & Hm2 & Hp2)|[Hn1 Hn2]].
    + pose proof (holds_prefix_unique _ _ _ _ _ _ _ _ Hp' Hp2) as <-.
      exists p2, m'. split_and!; [done|done|]. left. split; [done|].
      exists (length bs). destruct Hp2 as (Hp2 & _ & _). split_and!; [congruence|lia|lia|lia].
    + exists p', m'. split_and!; [done|done|]. right. right. rewrite Hst. by split.
  - destruct (get_end _ _ _ fs d Hend) as (w' & -> & Hw).
    do 3 eexists. split_and!; [reflexivity|done|done|]. exists b, m.
    split_and!; [done|done|]. right. right. done.
Qed.

(** One round of the loop up to the answer: seek, request. *)
Lemma get_request fs0 key obj fd b m d s :
  object (env s) key = Some obj -> get_fd d = fd ->
  (exists p, holds_prefix fs0 (open_files s) fd obj p m) -> (b <= m)%nat ->
  exists s1 d' p' m',
    (forall A (k : get_object_callback_data -> M W A),
       (_ ← file_seek fd (Z.of_nat b); _ ← emit (AGet key (Z.of_nat b) CHUNK_SIZE);
        d ← request_io getObjectHandler (S3_get_object key (Z.of_nat b) CHUNK_SIZE) d; k d) s
       = k d' s1)
    /\ object (env s1) = object (env s) /\ err_major s1 = err_major s
    /\ holds_prefix fs0 (open_files s1) fd obj p' m' /\ (m <= m')%nat /\ get_fd d' = fd
    /\ got_cases obj b m' d'.
Proof.
  intros Ho Hfd [p Hp] Hb.
  destruct (run_ranged fs0 key obj (env s) (lseek_set (open_files s) fd (Z.of_nat b)) d fd b m)
    as (fs' & d' & w' & E & Ho' & Hfd' & p' & m' & Hm' & Hp' & Hcases);
    [done|done|by eapply holds_prefix_seek|].
  exists (mk_pst w' fs' (trace s ++ [AGet key (Z.of_nat b) CHUNK_SIZE]) (err_major s)), d', p', m'.
  split_and!; try done. intros A k.
  erewrite M_bind_Ret by reflexivity. erewrite M_bind_Ret by reflexivity.
  apply M_bind_Ret. unfold request_io. cbn in E |- *. by rewrite E.
Qed.

(** The loop, from a file that already holds the object up to [startByte]. *)
Lemma get_loop_correct fs0 key obj fd fuel : forall b m r d s,
  object (env s) key = Some obj -> Z.of_nat (length obj) + CHUNK_SIZE < two64 ->
  get_fd d = fd -> 0 <= r -> (exists p, holds_prefix fs0 (open_files s) fd obj p m) ->
  (b <= m)%nat -> (Z.of_nat (length obj) - Z.of_nat b) / CHUNK_SIZE + r < Z.of_nat fuel ->
  exists s' d', get_loop fuel key (Z.of_nat b) r d s = Ret (s', d')
    /\ object (env s') = object (env s) /\ err_major s' = err_major s
    /\ exists p' m', holds_prefix fs0 (open_files s') fd obj p' m'
    /\ (get_status d' = S3StatusOK -> m' = length obj).
Proof.
  pose proof CHUNK_SIZE_value as Hc. induction fuel as [|fuel IH];
    intros b m r d s Ho Hw Hfd Hr [p Hp] Hb Hf.
  { assert (0 <= (Z.of_nat (length obj) - Z.of_nat b) / CHUNK_SIZE); [|lia].
    apply Z.div_pos; [destruct Hp; lia|lia]. }
  cbn [get_loop]. rewrite Hfd.
  destruct (get_request fs0 key obj fd b m d s Ho Hfd (ex_intro _ p Hp) Hb)
    as (s1 & d' & p' & m' & Hreq & Ho' & He' & Hp' & Hm' & Hfd' & Hcases).
  rewrite Hreq. clear Hreq.
  destruct Hcases as [(Hst & n & Hcl & Hn & Hshort & Hle)|[(Hst & ->)|[Hn1 Hn2]]].
  - rewrite bool_decide_eq_true_2 by done. case_bool_decide as Hlast.
    + do 2 eexists. split_and!; [reflexivity|done|done|]. exists p', m'.
      split; [done|]. intros _. apply Hshort. cbn in Hlast. rewrite Hcl in Hlast. lia.
    + cbn in Hlast. rewrite Hcl in Hlast.
      assert (Z.of_nat n = CHUNK_SIZE) as En by lia.
      rewrite u64_id by (destruct Hp' as (Hp' & _); lia).
      replace (Z.of_nat b + CHUNK_SIZE) with (Z.of_nat (b + n)) by lia.
      destruct (IH (b + n)%nat m' r (add_totalLength d') s1)
        as (s' & d2 & E2 & Ho2 & He2 & Hres);
        [cbn; congruence|done|done|done|by exists p'|lia| |].
      { replace (Z.of_nat (length obj) - Z.of_nat (b + n))
          with (Z.of_nat (length obj) - Z.of_nat b + (-1) * CHUNK_SIZE) by lia.
        rewrite Z.div_add by lia. lia. }
      exists s', d2. split_and!; [done|congruence|congruence|done].
  - rewrite bool_decide_eq_false_2 by (rewrite Hst; apply status_range_not_ok).
    rewrite bool_decide_eq_true_2 by done.
    do 2 eexists. split_and!; [reflexivity|done|done|]. by exists p', (length obj).
  - rewrite bool_decide_eq_false_2, bool_decide_eq_false_2 by done.
    destruct (S3_status_is_retryable (get_status d')).
    + unfold should_retry. destruct (bool_decide (r <> 0)) eqn:Er.
      * apply bool_decide_eq_true in Er.
        destruct (IH b m' (r - 1) d' s1) as (s' & d2 & E2 & Ho2 & He2 & Hres);
          [cbn; congruence|done|done|lia|by exists p'|lia|lia|].
        exists s', d2. split_and!; [done|congruence|congruence|done].
      * do 2 eexists. split_and!; [reflexivity|done|done|]. exists p', m'. by split.
    + do 2 eexists. split_and!; [reflexivity|done|done|]. exists p', m'. by split.
Qed.

Lemma get_s3_object_spec key obj fd f fuel s :
  object (env s) key = Some obj -> Z.of_nat (length obj) + CHUNK_SIZE < two64 ->
  open_files s !! fd = Some f -> f_data f = [] -> f_pos f = 0 ->
  Z.of_nat (length obj) / CHUNK_SIZE + RETRYCOUNT < Z.of_nat fuel ->
  exists s' rc d f', get_s3_object fuel key (new_get_data fd) s = Ret (s', (rc, d))
    /\ object (env s') = object (env s) /\ err_major s' = err_major s
    /\ open_files s' !! fd = Some f'
    /\ (rc = 0 /\ f_data f' = obj \/ rc = - EIO)
    /\ (forall fd', fd' <> fd -> open_files s' !! fd' = open_files s !! fd').
Proof.
  intros Ho Hw Hf Hd Hpos Hfuel.
  destruct (get_loop_correct (open_files s) key obj fd fuel 0 0 RETRYCOUNT (new_get_data fd) s)
    as (s' & d' & E & Ho' & He' & p' & m' & (Hp' & [lim Hf'] & Hr') & Hok);
    [done|done|done|done| |lia| |].
  - exists 0%nat. split_and!; [lia|lia| |done]. exists (f_limits f).
    destruct f as [data pos lim]. cbn in *. by subst.
  - rewrite Z.sub_0_r. done.
  - unfold get_s3_object. erewrite M_bind_Ret by exact E.
    case_bool_decide as Hst; do 4 eexists; split_and!; try done; [by right|].
    left. split; [done|]. cbn. rewrite Hok by exact Hst. apply firstn_all.
Qed.

(** A restore is complete or reported as failed: for an object of the bucket,
    from an empty destination file, [get_s3_object] ends after at most one
    request per chunk, one at the end and five retries; whatever errors,
    retries, short or failed writes happen on the way, a result of 0 means that
    the file's contents are exactly the object, any other result is [-EIO]; no
    other open file and no object of the bucket is changed. *)
Theorem get_s3_object_restores key obj fd f fuel s :
  object (env s) key = Some obj -> Z.of_nat (length obj) + CHUNK_SIZE < two64 ->
  open_files s !! fd = Some f -> f_data f = [] -> f_pos f = 0 ->
  Z.of_nat (length obj) / CHUNK_SIZE + RETRYCOUNT < Z.of_nat fuel ->
  exists s' rc d f', get_s3_object fuel key (new_get_data fd) s = Ret (s', (rc, d))
    /\ object (env s') = object (env s) /\ err_major s' = err_major s
    /\ open_files s' !! fd = Some f'
    /\ (rc = 0 /\ f_data f' = obj \/ rc = - EIO)
    /\ (forall fd', fd' <> fd -> open_files s' !! fd' = open_files s !! fd').
Proof. apply get_s3_object_spec. Qed.

(** An object that is not there is asked for again at most [RETRYCOUNT] times. *)
Lemma get_loop_missing key fd fuel : forall r d s,
  object (env s) key = None -> get_fd d = fd -> 0 <= r < Z.of_nat fuel ->
  exists s' d', get_loop fuel key 0 r d s = Ret (s', d')
    /\ object (env s') = object (env s) /\ get_status d' <> S3StatusOK
    /\ (forall fd', fd' <> fd -> open_files s' !! fd' = open_files s !! fd').
Proof.
  induction fuel as [|fuel IH]; intros r d s Ho Hfd Hr; [lia|]. cbn [get_loop]. rewrite Hfd.
  destruct (get_object_missing key 0 CHUNK_SIZE (env s) Ho) as (st & H1 & H2 & Hend).
  destruct (get_end _ _ _ (lseek_set (open_files s) fd 0) d Hend) as (w & E & Hw).
  set (s1 := mk_pst w (lseek_set (open_files s) fd 0) (trace s ++ [AGet key 0 CHUNK_SIZE]) (err_major s)).
  assert (forall A (k : get_object_callback_data -> M W A),
    (_ ← file_seek fd 0; _ ← emit (AGet key 0 CHUNK_SIZE);
     d ← request_io getObjectHandler (S3_get_object key 0 CHUNK_SIZE) d; k d) s = k (set_get_status st d) s1) as ->.
  { intros A k. erewrite M_bind_Ret by reflexivity. erewrite M_bind_Ret by reflexivity.
    apply M_bind_Ret. unfold request_io. cbn in E |- *. by rewrite E. }
  assert (forall fd', fd' <> fd -> open_files s1 !! fd' = open_files s !! fd') as Hothers.
  { intros fd' Hne. cbn. unfold lseek_set. case_bool_decide; [done|by rewrite lookup_alter_ne]. }
  cbn [get_status set_get_status].
  rewrite (bool_decide_eq_false_2 (st = S3StatusOK)), (bool_decide_eq_false_2 (st = _)) by done.
  assert (exists s' d', Ret (s1, set_get_status st d) = Ret (s', d') /\ object (env s') = object (env s)
    /\ get_status d' <> S3StatusOK /\ (forall fd', fd' <> fd -> open_files s' !! fd' = open_files s !! fd')) as Hstop
    by (exists s1, (set_get_status st d); by split_and!).
  destruct (S3_status_is_retryable st); [|exact Hstop]. unfold should_retry.
  destruct (bool_decide (r <> 0)) eqn:Er; [|exact Hstop]. apply bool_decide_eq_true in Er.
  destruct (IH (r - 1) (set_get_status st d) s1) as (s' & d' & E' & Ho' & Hst & Hf);
    [cbn; by rewrite Hw|done|lia|].
  exists s', d'. split_and!; [exact E'|cbn in Ho'; congruence|done|].
  intros fd' Hne. rewrite Hf by done. by apply Hothers.
Qed.

Context {LL : Llapi W} {OS : Os W} {ISO : Isolated W}.
Context (ct_opt : ct_options) (path_prefix : string).

(** The part of [ct_restore_data] before the download. *)
Lemma restore_data_start fuel hcp fd hai path full name s :
  (forall w, exists st, (fstat fd w).2 = inr st /\ st_isreg st = true) ->
  sprintf_full_path ct_opt path = Ret full -> ct_target path_prefix full = Ret name ->
  exists s1 last, only is_report s s1
    /\ ct_restore_data ct_opt path_prefix fuel hcp fd hai path s
       = match name with
         | None => Ret (s1, 0)
         | Some key =>
             if bool_decide (ext_length (hai_extent hai) = whole_file /\ ext_offset (hai_extent hai) = 0)
             then (r ← get_s3_object fuel key (new_get_data fd);
                   if bool_decide (r.1 < 0) then mret r.1
                   else report_restored ct_opt hcp (ext_offset (hai_extent hai))
                          (get_contentLength r.2) last r.1) s1
             else Crash
         end.
Proof.
  intros Hst Hfull Ht. unfold ct_restore_data.
  destruct (does_ask is_report _ (fstat_apart fd) s) as (s1 & r & E1 & O1).
  destruct (ask_only is_report _ _ _ _ (fstat_apart fd) E1) as [_ ->].
  erewrite M_bind_Ret by exact E1. destruct (Hst (env s)) as (st & -> & ->). cbn [negb].
  destruct (does_progress hcp (mk_extent (ext_offset (hai_extent hai)) 0)
    (ext_length (hai_extent hai)) 0 s1) as (s2 & r2 & E2 & O2).
  erewrite M_bind_Ret by exact E2.
  destruct (does_ask is_report _ time_apart s2) as (s3 & last & E3 & O3).
  erewrite M_bind_Ret by exact E3.
  assert (lift (sprintf_full_path ct_opt path) s3 = Ret (s3, full)) as E4
    by (unfold lift; by rewrite Hfull).
  erewrite M_bind_Ret by exact E4.
  assert (lift (ct_target path_prefix full) s3 = Ret (s3, name)) as E5
    by (unfold lift; by rewrite Ht).
  erewrite M_bind_Ret by exact E5.
  exists s3, last. split; [by do 2 (etrans; [eassumption|])|].
  destruct name; [|done]. case_bool_decide; done.
Qed.

(** The whole of [ct_restore_data] on a file below the prefix. *)
Lemma ct_restore_data_runs fuel hcp fd hai path full key obj f s :
  (forall w, exists st, (fstat fd w).2 = inr st /\ st_isreg st = true) ->
  sprintf_full_path ct_opt path = Ret full -> ct_target path_prefix full = Ret (Some key) ->
  ext_length (hai_extent hai) = whole_file -> ext_offset (hai_extent hai) = 0 ->
  object (env s) key = Some obj -> Z.of_nat (length obj) + CHUNK_SIZE < two64 ->
  open_files s !! fd = Some f -> f_data f = [] -> f_pos f = 0 ->
  Z.of_nat (length obj) / CHUNK_SIZE + RETRYCOUNT < Z.of_nat fuel ->
  exists s' rc f', ct_restore_data ct_opt path_prefix fuel hcp fd hai path s = Ret (s', rc)
    /\ object (env s') = object (env s) /\ open_files s' !! fd = Some f'
    /\ (0 <= rc -> f_data f' = obj)
    /\ (forall fd', fd' <> fd -> open_files s' !! fd' = open_files s !! fd').
Proof.
  intros Hst Hfull Ht Hlen Hoff Hobj Hw Hf Hd Hpos Hfuel.
  destruct (restore_data_start fuel hcp fd hai path full (Some key) s Hst Hfull Ht)
    as (s1 & last & [_ F1 _ O1 _] & ->).
  rewrite bool_decide_eq_true_2 by done.
  destruct (get_s3_object_spec key obj fd f fuel s1) as (s2 & rc & d & f' & E2 & O2 & _ & Hf' & Hrc & Hr);
    [by rewrite O1|done|by rewrite F1|done|done|done|].
  erewrite M_bind_Ret by exact E2. cbn [fst snd].
  case_bool_decide as Hneg.
  - exists s2, rc, f'. split_and!; [done|congruence|done|lia|].
    intros fd' Hne. rewrite Hr by done. by rewrite F1.
  - destruct Hrc as [[-> Hdata]| ->]; [|unfold EIO in Hneg; lia].
    assert (exists s3 rc, report_restored ct_opt hcp (ext_offset (hai_extent hai))
      (get_contentLength d) last 0 s2 = Ret (s3, rc) /\ only is_report s2 s3)
      as (s3 & rc & E3 & [_ F3 _ O3 _]).
    { unfold report_restored.
      destruct (does_ask is_report _ time_apart s2) as (s4 & now & E4 & O4).
      erewrite M_bind_Ret by exact E4. case_bool_decide; [|by eexists _, _].
      destruct (does_progress hcp (mk_extent (ext_offset (hai_extent hai)) (get_contentLength d))
        (get_contentLength d) 0 s4) as (s5 & rc & E5 & O5).
      exists s5, rc. split; [done|by etrans]. }
    exists s3, rc, f'. split_and!; [done|congruence|by rewrite F3|done|].
    intros fd' Hne. rewrite F3, Hr by done. by rewrite F1.
Qed.

(** What a restore of a file needs in order to return: its path fits, and if it lies below
    the prefix, the whole file is asked for, the object, if there is one, is not too
    large, and the file to be filled is open and empty. *)
Definition restorable (fuel : nat) (fd : Z) (hai : hsm_action_item) (path : string) (s : pst W) : Prop :=
  exists full target, sprintf_full_path ct_opt path = Ret full /\ ct_target path_prefix full = Ret target
    /\ forall key, target = Some key ->
      ext_length (hai_extent hai) = whole_file /\ ext_offset (hai_extent hai) = 0
      /\ Z.of_nat (length (default [] (object (env s) key))) + CHUNK_SIZE < two64
      /\ Z.of_nat (length (default [] (object (env s) key))) / CHUNK_SIZE + RETRYCOUNT < Z.of_nat fuel
      /\ exists lim, open_files s !! fd = Some (mk_file [] 0 lim).

Lemma restorable_only P fuel fd hai path s s' :
  only P s s' -> restorable fuel fd hai path s -> restorable fuel fd hai path s'.
Proof.
  intros O (full & target & Hf & Ht & H). exists full, target. split_and!; [done|done|].
  rewrite (only_object _ _ _ O). by rewrite (only_files _ _ _ O).
Qed.

Lemma ct_restore_data_returns fuel hcp fd hai path s :
  (forall w, exists st, (fstat fd w).2 = inr st /\ st_isreg st = true) ->
  restorable fuel fd hai path s ->
  exists s' rc, ct_restore_data ct_opt path_prefix fuel hcp fd hai path s = Ret (s', rc).
Proof.
  intros Hst (full & [key|] & Hfull & Ht & H).
  - destruct (H key eq_refl) as (Hlen & Hoff & Hw & Hfuel & lim & Hf).
    destruct (object (env s) key) as [obj|] eqn:Ho; cbn [default] in *.
    + destruct (ct_restore_data_runs fuel hcp fd hai path full key obj (mk_file [] 0 lim) s)
        as (s' & rc & f' & E & _); try done. by exists s', rc.
    + destruct (restore_data_start fuel hcp fd hai path full (Some key) s Hst Hfull Ht)
        as (s1 & last & [_ F1 _ O1 _] & ->). rewrite bool_decide_eq_true_2 by done.
      destruct (get_loop_missing key fd fuel RETRYCOUNT (new_get_data fd) s1) as (s2 & d & E & _ & Hd & _);
        [by rewrite O1|done|cbn [length] in Hfuel; rewrite Zdiv_0_l in Hfuel; unfold RETRYCOUNT in *; lia|].
      unfold get_s3_object. erewrite M_bind_Ret; [|erewrite M_bind_Ret by exact E; by rewrite bool_decide_eq_true_2].
      by eexists _, _.
  - destruct (restore_data_start fuel hcp fd hai path full None s Hst Hfull Ht) as (s1 & last & _ & ->). by exists s1, 0.
Qed.

(** C3. A restore that does not report failure has restored: for a whole-file
    request on a regular, empty destination file whose path is below the
    prefix, and an object that exists, [ct_restore_data] always returns, leaves
    the bucket and all other open files alone, and when it returns 0 or more
    the file's contents are exactly the object's. *)
Theorem ct_restore_data_restores fuel hcp fd hai path full key obj f s :
  (forall w, exists st, (fstat fd w).2 = inr st /\ st_isreg st = true) ->
  sprintf_full_path ct_opt path = Ret full -> ct_target path_prefix full = Ret (Some key) ->
  ext_length (hai_extent hai) = whole_file -> ext_offset (hai_extent hai) = 0 ->
  object (env s) key = Some obj -> Z.of_nat (length obj) + CHUNK_SIZE < two64 ->
  open_files s !! fd = Some f -> f_data f = [] -> f_pos f = 0 ->
  Z.of_nat (length obj) / CHUNK_SIZE + RETRYCOUNT < Z.of_nat fuel ->
  exists s' rc f', ct_restore_data ct_opt path_prefix fuel hcp fd hai path s = Ret (s', rc)
    /\ object (env s') = object (env s) /\ open_files s' !! fd = Some f'
    /\ (0 <= rc -> f_data f' = obj)
    /\ (forall fd', fd' <> fd -> open_files s' !! fd' = open_files s !! fd').
Proof. apply ct_restore_data_runs. Qed.

(** A path outside the prefix is reported as restored: [ct_restore_data]
    returns 0 after nothing but a progress report, with the destination file as
    it was. *)
Theorem ct_restore_data_no_target fuel hcp fd hai path full s :
  (forall w, exists st, (fstat fd w).2 = inr st /\ st_isreg st = true) ->
  sprintf_full_path ct_opt path = Ret full -> ct_target path_prefix full = Ret None ->
  exists s', ct_restore_data ct_opt path_prefix fuel hcp fd hai path s = Ret (s', 0)
    /\ only is_report s s'.
Proof.
  intros Hst Hfull Ht.
  destruct (restore_data_start fuel hcp fd hai path full None s Hst Hfull Ht)
    as (s1 & last & O1 & ->). by exists s1.
Qed.

End Correct.

End Restore.
