(* ===== verification/Chunking.v ===== *)
(** * lhsmtool_s3.c: the part size of a multipart upload

    [ct_get_chunksize] doubles the part size until the object fits in 10000
    parts, the limit of the S3 protocol. *)

From Stdlib Require Import ZArith Lia.
From stdpp Require Import base decidable numbers.
From S2P Require Import Prelude Posix S3Api Copytool.
Import Copytool.

Module Chunking.

Local Open Scope Z_scope.
Local Open Scope estuary_scope.

(** [(s3_obj_size + chunk_size - 1) / chunk_size] in [size_t]. *)
Definition seq_count (s3_obj_size chunk_size : Z) : Z :=
  (s3_obj_size +u chunk_size -u 1) / chunk_size.

(** The body of the loop: the next part size. *)
Definition next_chunk (chunk_size : Z) : Z :=
  let doubled := if bool_decide (chunk_size < CHUNK_SIZE_MAX) then chunk_size *u 2
                 else chunk_size in
  if bool_decide (doubled > CHUNK_SIZE_MAX) then CHUNK_SIZE_MAX else doubled.

Fixpoint chunk_loop (fuel : nat) (s3_obj_size chunk_size total_seq : Z) : outcome (Z * Z) :=
  if bool_decide (total_seq > 10000) then
    match fuel with
    | O => NoFuel
    | S fuel =>
        let chunk_size := next_chunk chunk_size in
        chunk_loop fuel s3_obj_size chunk_size (seq_count s3_obj_size chunk_size)
    end
  else Ret (chunk_size, total_seq).

(** The part size doubles at most nine times before it reaches its maximum. *)
Definition ct_get_chunksize (s3_obj_size : Z) : outcome (Z * Z) :=
  chunk_loop 9 s3_obj_size CHUNK_SIZE (seq_count s3_obj_size CHUNK_SIZE).

(** ** The loop *)

(** [chunk] cuts [size] bytes into [total] parts, the last one not empty. *)
Definition cuts (size chunk total : Z) : Prop :=
  0 < chunk /\ size <= total * chunk /\ (total - 1) * chunk < size \/ (size = 0 /\ total = 0).

Lemma seq_count_exact size chunk :
  0 <= size -> 0 < chunk -> size + chunk < two64 ->
  seq_count size chunk = (size + chunk - 1) / chunk.
Proof. intros. unfold seq_count. rewrite (u64_id (size + chunk)), u64_id by lia. done. Qed.

Lemma seq_count_cuts size chunk :
  0 <= size -> 0 < chunk -> size + chunk < two64 -> cuts size chunk (seq_count size chunk).
Proof.
  intros Hs Hc Hw. rewrite seq_count_exact by done. unfold cuts.
  destruct (decide (size = 0)) as [->|Hs0].
  - right. split; [done|]. apply Z.div_small. lia.
  - left. pose proof (Z.div_mod (size + chunk - 1) chunk).
    pose proof (Z.mod_pos_bound (size + chunk - 1) chunk). nia.
Qed.

Lemma seq_count_small size chunk :
  0 <= size -> 0 < chunk -> size + chunk < two64 ->
  seq_count size chunk <= 10000 <-> size <= 10000 * chunk.
Proof.
  intros Hs Hc Hw. rewrite seq_count_exact by done.
  pose proof (Z.div_mod (size + chunk - 1) chunk).
  pose proof (Z.mod_pos_bound (size + chunk - 1) chunk). nia.
Qed.

Lemma next_chunk_double chunk :
  0 < chunk -> 2 * chunk <= CHUNK_SIZE_MAX -> next_chunk chunk = 2 * chunk.
Proof.
  intros Hc H. unfold next_chunk, CHUNK_SIZE_MAX in *.
  assert (two64 = 18446744073709551616) as Ht by done.
  rewrite u64_id by lia. repeat case_bool_decide; lia.
Qed.

Lemma next_chunk_cap chunk :
  0 < chunk <= CHUNK_SIZE_MAX -> CHUNK_SIZE_MAX <= 2 * chunk ->
  next_chunk chunk = CHUNK_SIZE_MAX.
Proof.
  intros Hc H. unfold next_chunk.
  assert (two64 = 18446744073709551616) as Ht by done.
  assert (CHUNK_SIZE_MAX = 5368709120) as Hm by done.
  rewrite u64_id by lia. repeat case_bool_decide; lia.
Qed.

(** Enough doublings reach a part size of which 10000 hold the object. *)
Lemma chunk_loop_spec k fuel size chunk :
  0 <= size -> size + CHUNK_SIZE_MAX < two64 ->
  0 < chunk <= CHUNK_SIZE_MAX -> size <= 10000 * Z.min CHUNK_SIZE_MAX (chunk * 2 ^ Z.of_nat k) ->
  (k <= fuel)%nat ->
  exists c, chunk_loop fuel size chunk (seq_count size chunk) = Ret (c, seq_count size c)
    /\ chunk <= c <= CHUNK_SIZE_MAX /\ seq_count size c <= 10000
    /\ (c = chunk \/ 10000 * c < 2 * size).
Proof.
  intros Hs Hw. revert fuel chunk. induction k as [|k IH]; intros fuel chunk Hc Hfit Hf.
  - assert (seq_count size chunk <= 10000) as Hsmall.
    { apply seq_count_small; [done|lia|lia|]. cbn in Hfit. lia. }
    exists chunk. destruct fuel; cbn; rewrite bool_decide_eq_false_2 by lia;
      split_and!; done || lia.
  - destruct (decide (seq_count size chunk <= 10000)) as [Hsmall|Hbig].
    { exists chunk. destruct fuel; cbn; rewrite bool_decide_eq_false_2 by lia;
        split_and!; done || lia. }
    destruct fuel as [|fuel]; [lia|]. cbn [chunk_loop].
    rewrite bool_decide_eq_true_2 by lia.
    rewrite seq_count_small in Hbig by lia.
    rewrite Nat2Z.inj_succ, Z.pow_succ_r in Hfit by lia.
    destruct (decide (2 * chunk <= CHUNK_SIZE_MAX)) as [Hd|Hd].
    + rewrite next_chunk_double by lia.
      destruct (IH fuel (2 * chunk)) as (c & -> & Hr & Hn & Hmin); [lia| |lia|].
      { replace (2 * chunk * 2 ^ Z.of_nat k) with (chunk * (2 * 2 ^ Z.of_nat k)) by lia. done. }
      exists c. split_and!; [done|lia|lia|done|lia].
    + rewrite next_chunk_cap by lia.
      assert (seq_count size CHUNK_SIZE_MAX <= 10000) as Hm by (apply seq_count_small; lia).
      exists CHUNK_SIZE_MAX. split_and!; [|lia|lia|done|right; lia].
      destruct fuel; cbn; by rewrite bool_decide_eq_false_2 by lia.
Qed.

Lemma chunksize_spec size :
  0 <= size <= 10000 * CHUNK_SIZE_MAX ->
  exists chunk total, ct_get_chunksize size = Ret (chunk, total)
    /\ CHUNK_SIZE <= chunk <= CHUNK_SIZE_MAX /\ total <= 10000 /\ cuts size chunk total
    /\ (chunk = CHUNK_SIZE \/ 10000 * chunk < 2 * size)
    /\ (size <= 5 * 1024 * 1024 * 1024 * 1024 -> chunk <= INT_MAX).
Proof.
  intros Hs. assert (two64 = 18446744073709551616) as Ht by done.
  assert (CHUNK_SIZE_MAX = 5368709120) as Hm by done.
  assert (CHUNK_SIZE = 16777216) as Hc by done.
  destruct (chunk_loop_spec 9 9 size CHUNK_SIZE) as (c & E & Hr & Hn & Hmin);
    [lia|lia|lia| |lia|].
  { change (2 ^ Z.of_nat 9) with 512. lia. }
  exists c, (seq_count size c). split_and!; [done|lia|lia|done| |done|].
  - apply seq_count_cuts; lia.
  - unfold INT_MAX. lia.
Qed.

(** C21. [ct_get_chunksize] terminates for every size that 10000 parts of the
    maximal part size can hold, with at most 10000 parts that cover the object
    exactly (only the last one can be short, and none is empty); the part size
    stays between 16 MiB and 5 GiB and is no more than twice what is needed; for
    objects up to the 5 TiB that [ct_archive] accepts, a part's length fits the
    [int] it is stored in. *)
Theorem ct_get_chunksize_covers size :
  0 <= size <= 10000 * CHUNK_SIZE_MAX ->
  exists chunk total, ct_get_chunksize size = Ret (chunk, total)
    /\ CHUNK_SIZE <= chunk <= CHUNK_SIZE_MAX /\ total <= 10000 /\ cuts size chunk total
    /\ (chunk = CHUNK_SIZE \/ 10000 * chunk < 2 * size)
    /\ (size <= 5 * 1024 * 1024 * 1024 * 1024 -> chunk <= INT_MAX).
Proof. apply chunksize_spec. Qed.

(** The loop never ends on an object that 10000 parts of the maximal size
    cannot hold: whatever the fuel, it is still running. ([ct_archive] rejects
    such sizes before.) *)
Theorem ct_get_chunksize_diverges size fuel chunk :
  10000 * CHUNK_SIZE_MAX < size -> size + CHUNK_SIZE_MAX < two64 ->
  0 < chunk <= CHUNK_SIZE_MAX ->
  chunk_loop fuel size chunk (seq_count size chunk) = NoFuel.
Proof.
  intros Hs Hw. revert chunk. induction fuel as [|fuel IH]; intros chunk Hc; cbn [chunk_loop];
    (assert (~ seq_count size chunk <= 10000) as Hbig by (rewrite seq_count_small; lia));
    rewrite bool_decide_eq_true_2 by lia; [done|].
  apply IH. destruct (decide (2 * chunk <= CHUNK_SIZE_MAX)).
  - rewrite next_chunk_double; lia.
  - rewrite next_chunk_cap; lia.
Qed.

Lemma ct_get_chunksize_covers_witness :
  exists chunk total, ct_get_chunksize (5 * 1024 * 1024 * 1024 * 1024) = Ret (chunk, total)
    /\ CHUNK_SIZE <= chunk <= CHUNK_SIZE_MAX /\ total <= 10000
    /\ cuts (5 * 1024 * 1024 * 1024 * 1024) chunk total
    /\ (chunk = CHUNK_SIZE \/ 10000 * chunk < 2 * (5 * 1024 * 1024 * 1024 * 1024))
    /\ (5 * 1024 * 1024 * 1024 * 1024 <= 5 * 1024 * 1024 * 1024 * 1024 -> chunk <= INT_MAX).
Proof. apply ct_get_chunksize_covers. vm_compute. split; discriminate. Defined.

Lemma ct_get_chunksize_diverges_witness :
  chunk_loop 100 (50 * 1024 * 1024 * 1024 * 1024) CHUNK_SIZE
    (seq_count (50 * 1024 * 1024 * 1024 * 1024) CHUNK_SIZE) = NoFuel.
Proof. apply ct_get_chunksize_diverges; vm_compute; done. Defined.

(** A 5 TiB object is cut into 5120 parts of 1 GiB. *)
Example five_tib :
  ct_get_chunksize (5 * 1024 * 1024 * 1024 * 1024) = Ret (1073741824, 5120).
Proof. reflexivity. Qed.

End Chunking.
