(* ===== verification/Archive.v ===== *)
(** * lhsmtool_s3.c: uploading a file as an object

    [ct_archive_check], [ct_save_stripe] (ct_common.c), [ct_archive_data] for
    files below [MAX_OBJ_SIZE_LEVEL], sent in one request from a buffer counted
    by the memory quota, and [ct_archive_data_big] for the others, sent in
    parts read straight from the file and committed by a list of the parts'
    eTags. The quota itself is the subject of MemQuota.v; here its calls are
    recorded in the trace. *)

From Stdlib Require Import ZArith Lia.
From Stdlib Require Import Strings.Byte.
From stdpp Require Import base gmap list strings pretty.
From S2P Require Import Prelude Growbuffer Posix S3Api Callbacks Copytool Paths Chunking.
Import Growbuffer Posix S3Api Callbacks Copytool Chunking.

Module Archive.

Local Open Scope Z_scope.
Local Open Scope estuary_scope.

Definition FIVE_TB : Z := 5 * 1024 * 1024 * 1024 * 1024.

Section Operations.
Context {ST : S3Statuses} {W : Type} `{L : LibS3 W} `{LL : Llapi W} `{OS : Os W}.
Context (ct_opt : ct_options).

(** The file's [stat] when it can be archived. *)
Definition ct_archive_check (hai : hsm_action_item) (src_fd : Z) : M W (option stat) :=
  st ← ask (fstat src_fd);
  mret match st with
       | inl _ => None
       | inr st =>
           if negb (st_isreg st) then None
           else if bool_decide (ext_offset (hai_extent hai) > u64 (st_size st)) then None
           else Some st
       end.

(** Only the result is used: the stripe parameters are read nowhere. *)
Definition ct_save_stripe (src_fd : Z) : M W Z :=
  xattr_size ← ask (fgetxattr_lov src_fd);
  mret (if bool_decide (xattr_size < 0) then xattr_size else 0).

(** "Don't read beyond a given extent" *)
Definition extent_length (hai : hsm_action_item) (src_st : stat) : Z :=
  let rest := st_size src_st -u ext_offset (hai_extent hai) in
  if bool_decide (ext_length (hai_extent hai) > rest) then rest
  else ext_length (hai_extent hai).

(** ** One request *)

Definition quota_mem_alloc (size : Z) : M W bool :=
  ok ← ask (malloc size); _ ← emit (AQuotaAlloc size ok); mret ok.

Definition quota_mem_free (size : Z) : M W unit := emit (AQuotaFree size).

(** The data is set up once: a repeated request continues where the last one
    stopped taking bytes. *)
Definition put_request (object_name : string) (length : Z) (data : put_object_callback_data)
    : M W put_object_callback_data :=
  _ ← emit (APut object_name length);
  request putObjectHandler (S3_put_object object_name length) data.

Definition put_again (data : put_object_callback_data) : bool :=
  bool_decide (put_status data <> S3StatusOK) && S3_status_is_retryable (put_status data).

Definition put_data_of (length : Z) (dbuf : list byte) : put_object_callback_data :=
  mk_put_data 0 0 dbuf length 0 0 0 0 0 0.

(** From the read into [dbuf], which has [st_size] bytes, to the label [out]. *)
Definition send_file (object_name : string) (src_fd length buffer_size : Z) : M W Z :=
  r ← file_read src_fd length;
  let '(rc_read, dbuf) := r in
  if bool_decide (buffer_size < rc_read) then crash
  else if bool_decide (rc_read <> s64 length) then mret (- EIO)
  else
    data ← with_retries (put_request object_name length) put_again (put_data_of length dbuf);
    mret (if bool_decide (put_status data <> S3StatusOK) then - EIO else 0).

Definition ct_archive_data (hcp : option Z) (object_name : string) (src_fd : Z)
    (src_st : stat) (hai : hsm_action_item) : M W Z :=
  stripe ← ct_save_stripe src_fd;
  if bool_decide (stripe <> 0) then mret (-1)
  else
    let length := extent_length hai src_st in
    _ ← ask time;
    _ ← llapi_hsm_action_progress_ex hcp (mk_extent 0 0) length 0;
    dbuf ← quota_mem_alloc (u64 (st_size src_st));
    if negb dbuf then mret (- ENOMEM)
    else
      rc ← send_file object_name src_fd length (u64 (st_size src_st));
      _ ← quota_mem_free (u64 (st_size src_st));
      mret rc.

(** ** Multipart *)

Definition initiate_request (object_name : string) (m : UploadManager) : M W UploadManager :=
  _ ← emit (AInitiate object_name);
  request initMultipartHandler (S3_initiate_multipart object_name) m.

Definition initiate_again (m : UploadManager) : bool :=
  S3_status_is_retryable
    match upload_id m with None => S3StatusErrorInternalError | Some _ => 0 end.

(** The report sent with a finished part; its time is kept on success only. *)
Definition report_part (hcp : option Z) (offset part_length length t_end last_report_time : Z)
    : M W Z :=
  if bool_decide (t_end - last_report_time >= o_report_int ct_opt) then
    rc_report ← llapi_hsm_action_progress_ex hcp (mk_extent offset part_length) length 0;
    if bool_decide (rc_report < 0) then mret last_report_time else ask time
  else mret last_report_time.

(** The request for a part and what follows it. A part counts as sent when its
    properties callback has set [next_etags_pos]. *)
Definition part_send (hcp : option Z) (object_name id : string)
    (seq s3_chunk_size partContentLength length last_report_time : Z)
    (part_data : MultipartPartData) : M W (Z * MultipartPartData) :=
  part_data ← request_io uploadMultipartHandler
                (S3_upload_part object_name seq id partContentLength) part_data;
  t_end ← ask time;
  if bool_decide (next_etags_pos (manager part_data) <> seq) then
    mret (last_report_time,
          set_put_object_data
            (set_put_status S3StatusErrorRequestTimeout (put_object_data part_data)) part_data)
  else
    last_report_time ← report_part hcp ((seq - 1) *u s3_chunk_size) (u64 partContentLength)
                         length t_end last_report_time;
    mret (last_report_time, part_data).

(** One attempt to send a part, on the report time and the part's data. *)
Definition part_request (hcp : option Z) (object_name id : string)
    (seq s3_chunk_size partContentLength length : Z) (a : Z * MultipartPartData)
    : M W (Z * MultipartPartData) :=
  let '(last_report_time, part_data) := a in
  _ ← ask time;
  _ ← file_seek (put_fd (put_object_data part_data)) (s64 ((seq - 1) *u s3_chunk_size));
  _ ← emit (AUploadPart object_name seq partContentLength);
  part_send hcp object_name id seq s3_chunk_size partContentLength length last_report_time
    (set_put_object_data (set_put_status 0 (put_object_data part_data)) part_data).

Definition part_again (a : Z * MultipartPartData) : bool :=
  S3_status_is_retryable (put_status (put_object_data a.2)).

(** The part's data at the top of the loop: [data] with the four lengths. *)
Definition part_start (data : put_object_callback_data)
    (seq partContentLength todoContentLength totalContentLength : Z) (m : UploadManager)
    : MultipartPartData :=
  mk_part_data
    (mk_put_data (buffer_offset data) (put_status data) (buffer data)
       (u64 partContentLength) (u64 partContentLength) todoContentLength totalContentLength
       (noStatus data) (put_fd data) (put_file_offset data))
    seq m.

(** The loop over the parts, [n] of them from [seq] on; false is [goto clean]. *)
Fixpoint upload_parts (n : nat) (hcp : option Z) (object_name id : string)
    (data : put_object_callback_data) (seq s3_chunk_size length totalContentLength
     contentLength todoContentLength last_report_time : Z) (m : UploadManager)
    : M W (bool * UploadManager) :=
  match n with
  | O => mret (true, m)
  | S n =>
      let partContentLength :=
        i32 (if bool_decide (contentLength > s3_chunk_size) then s3_chunk_size
             else contentLength) in
      a ← with_retries
            (part_request hcp object_name id seq s3_chunk_size partContentLength length)
            part_again
            (last_report_time,
             part_start data seq partContentLength todoContentLength totalContentLength m);
      let '(last_report_time, part_data) := a in
      if bool_decide (put_status (put_object_data part_data) <> S3StatusOK) then
        mret (false, manager part_data)
      else if bool_decide (m_gb (manager part_data) <> None) then crash
      else
        upload_parts n hcp object_name id data (seq + 1) s3_chunk_size length
          totalContentLength (contentLength -u partContentLength)
          (todoContentLength -u partContentLength) last_report_time (manager part_data)
  end.

(** [growbuffer_append(&manager.gb, s, n)], adding the result to [size]. *)
Definition append_commit (s : list byte) (n : Z) (q : heap * ptr * Z)
    : outcome (heap * ptr * Z) :=
  let '(h, gb, size) := q in
  r ← growbuffer_append h gb s n;
  let '(h, gb, added) := r in
  Ret (h, gb, i32 (size + added)).

(** [char buf[256]] after [snprintf]: at most 255 bytes and the terminator. *)
Definition snprintf_buf (s : list byte) : list byte := take 255 s ++ [x00].

(** The [Part] elements for the eTags from index [i] on. *)
Fixpoint commit_parts (i : Z) (etags : list (option string)) (q : heap * ptr * Z)
    : outcome (heap * ptr * Z) :=
  match etags with
  | [] => Ret q
  | etag :: etags =>
      e ← defined etag;
      let s := bytes_of (part_element (i + 1) e) in
      q ← append_commit (snprintf_buf s) (Z.of_nat (length s)) q;
      commit_parts (i + 1) etags q
  end.

Definition commit_body (m : UploadManager) : outcome UploadManager :=
  let head := bytes_of "<CompleteMultipartUpload>" in
  let foot := bytes_of "</CompleteMultipartUpload>" in
  q ← append_commit head (Z.of_nat (length head)) (m_heap m, m_gb m, 0);
  q ← commit_parts 0 (etags m) q;
  q ← append_commit foot (Z.of_nat (length foot)) q;
  let '(h, gb, size) := q in
  Ret (mk_manager (upload_id m) (etags m) (next_etags_pos m) h gb size).

Definition commit_request (object_name id : string) (m : UploadManager) : M W UploadManager :=
  request_status commitMultipartHandler
    (S3_complete_multipart_upload object_name id (remaining m))
    (ACommit object_name (remaining m)) m.

(** The loop's condition takes the number of unsent bytes for a status. *)
Definition commit_again (m : UploadManager) : bool := S3_status_is_retryable (remaining m).

(** The label [clean]: the queue is destroyed; the strings and arrays, which
    the model has as values, are freed too. *)
Definition clean (m : UploadManager) (rc : Z) : M W Z :=
  _ ← lift (growbuffer_destroy (m_heap m) (m_gb m)); mret rc.

(** From the successful initiation on. *)
Definition upload_and_commit (hcp : option Z) (object_name id : string)
    (data : put_object_callback_data) (s3_chunk_size total_seq length totalContentLength
     last_report_time : Z) (m : UploadManager) : M W Z :=
  let pos := next_etags_pos m in
  r ← upload_parts (Z.to_nat (total_seq - pos)) hcp object_name id data (pos + 1)
        s3_chunk_size length totalContentLength totalContentLength
        (totalContentLength -u s3_chunk_size *u pos) last_report_time m;
  let '(uploaded, m) := r in
  if negb uploaded then clean m (- EIO)
  else
    m ← lift (commit_body m);
    m ← with_retries (commit_request object_name id) commit_again m;
    clean m (if bool_decide (remaining m <> 0) then - EIO else 0).

Definition put_data_for (fd : Z) : put_object_callback_data :=
  mk_put_data 0 0 [] 0 0 0 0 0 fd 0.

(** From the initiation of the upload on. *)
Definition start_and_upload (hcp : option Z) (object_name : string)
    (src_fd s3_chunk_size total_seq length totalContentLength last_report_time : Z)
    (m : UploadManager) : M W Z :=
  m ← with_retries (initiate_request object_name) initiate_again m;
  match upload_id m with
  | None => clean m (- EIO)
  | Some id =>
      if bool_decide (m_gb m <> None) then crash
      else
        upload_and_commit hcp object_name id (put_data_for src_fd) s3_chunk_size total_seq
          length totalContentLength last_report_time m
  end.

(** [calloc] of [total_seq] pointers; writing through a null array is a crash. *)
Definition calloc_etags (ok : bool) (total_seq : Z) : list (option string) :=
  if ok then replicate (Z.to_nat total_seq) None else [].

Definition ct_archive_data_big (hcp : option Z) (object_name : string) (src_fd : Z)
    (src_st : stat) (hai : hsm_action_item) : M W Z :=
  stripe ← ct_save_stripe src_fd;
  if bool_decide (stripe <> 0) then mret (-1)
  else
    let length := extent_length hai src_st in
    last_report_time ← ask time;
    _ ← llapi_hsm_action_progress_ex hcp (mk_extent (ext_offset (hai_extent hai)) 0) length 0;
    let totalContentLength := u64 (st_size src_st) in
    c ← lift (ct_get_chunksize totalContentLength);
    let '(s3_chunk_size, total_seq) := c in
    etags_ok ← ask (malloc (total_seq *u 8));
    mallocs ← ask small_mallocs;
    let m := mk_manager None (calloc_etags etags_ok total_seq) 0 (mk_heap ∅ mallocs) None 0 in
    start_and_upload hcp object_name src_fd s3_chunk_size total_seq length totalContentLength
      last_report_time m.
End Operations.

(** ** One request: what is stored *)

Section Single.
Context {ST : S3Statuses} {LAWS : S3StatusLaws ST} {W : Type} {L : LibS3 W}
  {LO : LibS3Objects W ST L} {LL : Llapi W} {OS : Os W} {ISO : Isolated W}.

Definition is_put (key : string) (len : Z) (a : act) : Prop := a = APut key len.

(** One request: the object is stored only if the request sent the whole buffer,
    from its first byte. *)
Lemma put_request_spec key len fd d s :
  feed_ok d -> len = Z.of_nat (length (buffer d)) ->
  exists s' d', put_request key len d s = Ret (s', d')
    /\ feed_ok d' /\ buffer d' = buffer d /\ buffer_offset d <= buffer_offset d'
    /\ within (is_put key len) key fd s s' /\ open_files s' = open_files s
    /\ (put_status d' = S3StatusOK ->
        object (env s') key = Some (buffer d) /\ buffer_offset d = 0).
Proof.
  intros Hd Hlen.
  destruct (run_put_upload len _ _ _ false [] _ d (put_object_uploads key len (env s)) Hd)
    as (d' & w' & k & E & Hd' & Hb' & Ho' & Hr).
  eexists _, d'. unfold put_request. erewrite M_bind_Ret by reflexivity.
  unfold request. cbn [env]. rewrite E. cbn [mbind outcome_bind fst snd].
  assert (forall key', key' <> key -> object w' key' = object (env s) key') as Hothers.
  { destruct Hr as [(_ & _ & p & _ & H)|[_ H]]; exact H. }
  split_and!; [reflexivity|done|done|lia| |done|].
  - split; cbn; try done. exists [APut key len]. split; [done|by constructor].
  - intros Hst. destruct Hr as [(_ & Hk & p & Hobj & _)|[Hn _]]; [|done].
    destruct Hd as (H1 & H2 & H3 & H4), Hd' as (_ & H2' & H3' & _). rewrite Hb' in H3'.
    cbn [length app Nat.add] in *.
    assert (buffer_offset d = 0) as Hz by lia.
    split; [|done]. cbn. rewrite Hobj, Hz. unfold slice.
    rewrite drop_0. f_equal. apply take_ge. lia.
Qed.

Lemma put_loop_spec key len fd buf s :
  len = Z.of_nat (length buf) -> len < two64 ->
  exists s' d, with_retries (put_request key len) put_again (put_data_of len buf) s = Ret (s', d)
    /\ within (is_put key len) key fd s s' /\ open_files s' = open_files s
    /\ (put_status d = S3StatusOK -> object (env s') key = Some buf).
Proof.
  intros Hlen Hw.
  set (I := fun (s1 : pst W) d => feed_ok d /\ buffer d = buf
    /\ within (is_put key len) key fd s s1 /\ open_files s1 = open_files s).
  apply (with_retries_rule (put_request key len) put_again I
    (fun s1 d => within (is_put key len) key fd s s1 /\ open_files s1 = open_files s
      /\ (put_status d = S3StatusOK -> object (env s1) key = Some buf))).
  - intros s1 d (Hd & Hb & Hin & Hf).
    destruct (put_request_spec key len fd d s1 Hd) as (s2 & d2 & E & Hd2 & Hb2 & _ & Hin2 & Hf2 & Hok);
      [by rewrite Hb|].
    exists s2, d2. split; [done|]. split.
    + split_and!; [by etrans|congruence|]. intros Hst. rewrite <- Hb. by apply Hok.
    + intros _. split_and!; [done|congruence|by etrans|congruence].
  - split_and!; try done. split_and!; cbn; lia.
Qed.

(** A request that starts behind the buffer's first byte never succeeds, and
    neither do the ones after it. *)
Lemma put_loop_stuck key len d s fuel r :
  feed_ok d -> len = Z.of_nat (length (buffer d)) -> 0 < buffer_offset d ->
  0 <= r < Z.of_nat fuel ->
  exists s' d', retrying (put_request key len) put_again fuel r d s = Ret (s', d')
    /\ put_status d' <> S3StatusOK.
Proof.
  intros Hd Hlen Ho Hr.
  apply (retrying_rule (put_request key len) put_again
    (fun _ d => feed_ok d /\ len = Z.of_nat (length (buffer d)) /\ 0 < buffer_offset d)
    (fun _ d => put_status d <> S3StatusOK)); [|done|by split_and!].
  intros s1 d1 (Hd1 & Hl1 & Ho1).
  destruct (put_request_spec key len 0 d1 s1 Hd1 Hl1)
    as (s2 & d2 & E & Hd2 & Hb2 & Hle & _ & _ & Hok).
  exists s2, d2. split; [done|]. split.
  - intros Hst. apply Hok in Hst. lia.
  - intros _. split_and!; [done|congruence|lia].
Qed.

(** C34. A put that failed after taking data cannot be saved by its retries: the
    buffer position and the length left are not reset, so once a failed request
    has consumed a byte the whole loop ends without success, whatever the server
    would answer. *)
Theorem put_retry_never_succeeds key buf s s1 d1 :
  Z.of_nat (length buf) < two64 ->
  put_request key (Z.of_nat (length buf)) (put_data_of (Z.of_nat (length buf)) buf) s
    = Ret (s1, d1) ->
  put_again d1 = true -> 0 < buffer_offset d1 ->
  exists s' d', with_retries (put_request key (Z.of_nat (length buf))) put_again
      (put_data_of (Z.of_nat (length buf)) buf) s = Ret (s', d')
    /\ put_status d' <> S3StatusOK.
Proof.
  intros Hlen E Hag Ho. unfold with_retries. cbn [retrying].
  erewrite M_bind_Ret by exact E. rewrite Hag.
  destruct (put_request_spec key (Z.of_nat (length buf)) 0
    (put_data_of (Z.of_nat (length buf)) buf) s) as (s2 & d2 & E2 & Hd & Hb & _).
  { split_and!; cbn; lia. }
  { done. }
  rewrite E in E2. injection E2 as <- <-. cbn in Hb.
  apply (put_loop_stuck key (Z.of_nat (length buf)) d1 s1 5 4); [done|by rewrite Hb|done|lia].
Qed.

Lemma read_others fs fd n fs' k bs fd' :
  read fs fd n = (fs', k, bs) -> fd' <> fd -> fs' !! fd' = fs !! fd'.
Proof.
  unfold read. intros E Hne. destruct (fs !! fd); [|by injection E as <- _ _].
  case_bool_decide; injection E as <- _ _; by rewrite lookup_insert_ne.
Qed.

(** The bytes an archive is to store: the next [len] of the source file. *)
Definition next_bytes (f : file) (len : Z) : list byte :=
  slice (Z.to_nat (f_pos f)) (Z.to_nat len) (f_data f).

Lemma send_file_spec key fd len size f s :
  open_files s !! fd = Some f -> 0 <= f_pos f -> 0 <= len <= size -> size < 2 ^ 63 ->
  exists s' rc, send_file key fd len size s = Ret (s', rc)
    /\ within (is_put key len) key fd s s' /\ (rc = 0 \/ rc = - EIO)
    /\ (rc = 0 -> Z.of_nat (length (next_bytes f len)) = len
                  /\ object (env s') key = Some (next_bytes f len)).
Proof.
  intros Hf Hp Hlen Hsz. unfold send_file.
  destruct (read (open_files s) fd len) as [[fs' k] bs] eqn:Er.
  set (s1 := mk_pst (env s) fs' (trace s) (err_major s)).
  assert (file_read fd len s = Ret (s1, (k, bs))) as E1 by (unfold file_read; by rewrite Er).
  erewrite M_bind_Ret by exact E1. rewrite (s64_id len) by lia.
  assert (within (is_put key len) key fd s s1) as H1.
  { split; cbn; [by exists []; rewrite app_nil_r| |done|done]. intros fd' Hne. by eapply read_others. }
  assert (k <= len /\ (k = len -> bs = next_bytes f len /\ Z.of_nat (length bs) = len))
    as [Hk Hbs].
  { destruct (Posix.fs_read_spec _ fd len f fs' k bs Hf Hp) as [(-> & -> & _)|(Hk & Hbs & Hl & _)];
      [lia|done|lia|]. split; [lia|]. intros ->. done. }
  rewrite bool_decide_eq_false_2 by lia. case_bool_decide as Hshort.
  - exists s1, (- EIO). split_and!; [done|done|by right|done].
  - destruct Hbs as [Hbs Hl]; [lia|].
    destruct (put_loop_spec key len fd bs s1) as (s2 & d & E2 & H2 & _ & Hok); [lia| |].
    { unfold two64. lia. }
    erewrite M_bind_Ret by exact E2. eexists s2, _. split_and!; [reflexivity|by etrans| |].
    + case_bool_decide; [by right|by left].
    + case_bool_decide as Hst; [done|]. intros _. rewrite <- Hbs. split; [done|].
      by apply Hok.
Qed.

Definition archive_act (key : string) (len size : Z) (a : act) : Prop :=
  is_report a \/ is_put key len a \/ (exists ok, a = AQuotaAlloc size ok) \/ a = AQuotaFree size.

Lemma extent_length_bound hai st :
  0 <= ext_offset (hai_extent hai) <= st_size st -> st_size st < 2 ^ 63 ->
  0 <= ext_length (hai_extent hai) ->
  extent_length hai st
    = Z.min (ext_length (hai_extent hai)) (st_size st - ext_offset (hai_extent hai)).
Proof.
  intros Ho Hs Hl. unfold extent_length. rewrite u64_id by (unfold two64; lia).
  case_bool_decide; lia.
Qed.

Lemma does_save_stripe P fd : does P (ct_save_stripe fd).
Proof. apply does_bind; [apply does_ask, fgetxattr_apart|]. intros x. apply does_ret. Qed.

Lemma does_quota_alloc P size :
  (forall ok, P (AQuotaAlloc size ok)) ->
  forall s, exists s' ok, quota_mem_alloc size s = Ret (s', ok) /\ only P s s'
    /\ quota_held (trace s') = quota_held (trace s) + if (ok : bool) then size else 0.
Proof.
  intros HP s. destruct (does_ask P _ (malloc_apart size) s) as (s1 & ok & E & H).
  eexists _, ok. unfold quota_mem_alloc. erewrite M_bind_Ret by exact E.
  split_and!; [reflexivity| |].
  - etrans; [exact H|]. split; cbn; try done. exists [AQuotaAlloc size ok].
    split; [done|by constructor].
  - unfold ask in E. destruct (malloc size (env s)). injection E as <- _. cbn.
    rewrite quota_held_app. destruct ok; cbn; lia.
Qed.

Lemma archive_data_spec hcp key fd st hai f s :
  open_files s !! fd = Some f -> 0 <= f_pos f ->
  0 <= ext_offset (hai_extent hai) <= st_size st -> st_size st < 2 ^ 63 ->
  0 <= ext_length (hai_extent hai) ->
  exists s' rc, ct_archive_data hcp key fd st hai s = Ret (s', rc)
    /\ within (archive_act key (extent_length hai st) (st_size st)) key fd s s'
    /\ quota_held (trace s') = quota_held (trace s)
    /\ (rc = 0 \/ rc = -1 \/ rc = - ENOMEM \/ rc = - EIO)
    /\ (rc = 0 -> Z.of_nat (length (next_bytes f (extent_length hai st))) = extent_length hai st
                  /\ object (env s') key = Some (next_bytes f (extent_length hai st))).
Proof.
  intros Hf Hp Ho Hs Hl. pose proof (extent_length_bound hai st Ho Hs Hl) as Hlen.
  unfold ct_archive_data. rewrite (u64_id (st_size st)) by (unfold two64; lia).
  set (len := extent_length hai st) in *. set (size := st_size st) in *.
  destruct (does_save_stripe is_report fd s) as (s1 & x & E1 & H1).
  erewrite M_bind_Ret by exact E1.
  assert (forall s0, only is_report s s0 -> within (archive_act key len size) key fd s s0
    /\ quota_held (trace s0) = quota_held (trace s)) as Hrep.
  { intros s0 H0. split.
    - eapply within_weaken, only_within, H0. by left.
    - eapply quota_held_logs, H0. by intros []. }
  case_bool_decide as Hx.
  { exists s1, (-1). split; [done|]. split_and!; try apply Hrep; auto. done. }
  destruct (does_ask is_report _ time_apart s1) as (s2 & t & E2 & H2).
  erewrite M_bind_Ret by exact E2.
  destruct (does_progress hcp (mk_extent 0 0) len 0 s2) as (s3 & r & E3 & H3).
  erewrite M_bind_Ret by exact E3.
  destruct (Hrep s3) as [Hin3 Hq3]; [by do 2 (etrans; [eassumption|])|].
  destruct (does_quota_alloc (archive_act key len size) size) with (s := s3)
    as (s4 & ok & E4 & H4 & Hq4); [right; right; left; by eexists|].
  erewrite M_bind_Ret by exact E4.
  assert (open_files s4 !! fd = Some f) as Hf4.
  { rewrite (only_files _ _ _ H4), (only_files _ _ _ H3), (only_files _ _ _ H2),
      (only_files _ _ _ H1). exact Hf. }
  destruct ok; cbn [negb].
  - destruct (send_file_spec key fd len size f s4 Hf4 Hp) as (s5 & rc & E5 & H5 & Hrc & Hok);
      [lia|done|].
    erewrite M_bind_Ret by exact E5.
    eexists _, rc. split; [reflexivity|]. split_and!; [| |naive_solver|exact Hok].
    + etrans; [exact Hin3|]. etrans; [by apply only_within|].
      etrans; [eapply within_weaken, H5; by right; left|].
      split; cbn; try done. exists [AQuotaFree size]. split; [done|].
      constructor; [|done]. by right; right; right.
    + cbn. rewrite quota_held_app.
      rewrite (quota_held_logs (is_put key len) s4 s5), Hq4, Hq3;
        [cbn; lia|by intros ? ->|apply H5].
  - eexists s4, _. split; [reflexivity|]. split_and!; [|lia|naive_solver|done].
    etrans; [exact Hin3|by apply only_within].
Qed.

(** C5. Archiving in one request stores the file or says that it failed: the
    handler always returns; it returns 0 only if the object's contents are the
    next [len] bytes of the source file, [len] being the extent cut to the
    file, all of which could be read; no other object, no other open file and
    not [err_major] is touched; and what was taken from the memory quota has
    been given back on every path, the failing ones included. *)
Theorem ct_archive_data_stores hcp key fd st hai f s :
  open_files s !! fd = Some f -> 0 <= f_pos f ->
  0 <= ext_offset (hai_extent hai) <= st_size st -> st_size st < 2 ^ 63 ->
  0 <= ext_length (hai_extent hai) ->
  exists s' rc, ct_archive_data hcp key fd st hai s = Ret (s', rc)
    /\ within (archive_act key (extent_length hai st) (st_size st)) key fd s s'
    /\ quota_held (trace s') = quota_held (trace s)
    /\ (rc = 0 \/ rc = -1 \/ rc = - ENOMEM \/ rc = - EIO)
    /\ (rc = 0 -> Z.of_nat (length (next_bytes f (extent_length hai st))) = extent_length hai st
                  /\ object (env s') key = Some (next_bytes f (extent_length hai st))).
Proof. apply archive_data_spec. Qed.
End Single.

(** ** Multipart: the commit body *)

Lemma length_bytes_of s : length (bytes_of s) = String.length s.
Proof.
  unfold bytes_of, String.list_byte_of_string. rewrite length_map.
  induction s as [|c s IH]; [done|]. cbn. by rewrite IH.
Qed.

Lemma part_numbers_short :
  forallb (fun i => Nat.leb (String.length (pretty i)) 5) (seqZ 0 10001) = true.
Proof. vm_cast_no_check (eq_refl true). Qed.

(** [%d] of a part number has at most five digits. *)
Lemma pretty_part_number i :
  0 <= i <= 10000 -> (String.length (pretty i) <= 5)%nat.
Proof.
  intros Hi. pose proof part_numbers_short as H.
  rewrite forallb_forall in H. apply Nat.leb_le, H, list_elem_of_In, elem_of_seqZ. lia.
Qed.

Lemma part_element_fits i e :
  0 <= i <= 10000 -> etag_ok e -> (length (bytes_of (part_element i e)) <= 192)%nat.
Proof.
  intros Hi He. rewrite length_bytes_of. unfold part_element.
  rewrite !Paths.String_length_app. pose proof (pretty_part_number i Hi).
  unfold etag_ok in He. cbn [String.length]. lia.
Qed.

Section CommitBody.
Implicit Types (q : list byte) (F : gmap positive growbuffer).

(** The growbuffer holds [q] and [size] counts it. *)
Definition building (st : heap * ptr * Z) q F : Prop :=
  writable st.1.1 st.1.2 q F /\ (false ∉ mallocs st.1.1) /\ st.2 = Z.of_nat (length q).

Lemma append_commit_spec src s st q F :
  building st q F -> take (length s) src = s ->
  Z.of_nat (length q + length s) <= INT_MAX ->
  exists st', append_commit src (Z.of_nat (length s)) st = Ret st' /\ building st' (q ++ s) F.
Proof.
  intros (Hw & Hm & Hs) Hsrc Hmax. destruct st as [[h gb] size]. cbn in *. subst size.
  assert (length s <= length src)%nat as Hl.
  { rewrite <- Hsrc at 1. rewrite length_take. lia. }
  destruct (append_spec h gb q F src (Z.of_nat (length s)) Hw)
    as (h' & gb' & r & k & -> & Hw' & Hr & Hm'); [lia|]. cbn [mbind outcome_bind].
  destruct Hr as [[-> ->]|(_ & _ & Hin)]; [|done]. rewrite Nat2Z.id, Hsrc in Hw'.
  eexists. split; [done|]. split_and!; cbn; [done|naive_solver|].
  unfold INT_MAX in *. rewrite i32_id by (unfold INT_MIN, INT_MAX; lia).
  rewrite length_app. lia.
Qed.

Lemma snprintf_buf_fits s : (length s <= 255)%nat -> take (length s) (snprintf_buf s) = s.
Proof.
  intros H. unfold snprintf_buf. rewrite (take_ge s) by lia. apply take_app_length.
Qed.

Lemma commit_parts_spec es : forall i st q F,
  building st q F -> Forall etag_ok es -> 0 <= i -> i + Z.of_nat (length es) <= 10000 ->
  Z.of_nat (length q + 192 * length es) <= INT_MAX ->
  exists st', commit_parts i (Some <$> es) st = Ret st'
    /\ building st' (q ++ concat (part_elements (i + 1) es)) F
    /\ (length (concat (part_elements (i + 1) es)) <= 192 * length es)%nat.
Proof.
  induction es as [|e es IH]; intros i st q F Hb Hes Hi Hlen Hmax.
  - exists st. cbn. by rewrite app_nil_r.
  - apply Forall_cons in Hes as [He Hes]. cbn [length] in *.
    pose proof (part_element_fits (i + 1) e ltac:(lia) He) as Hfit.
    cbn [commit_parts fmap list_fmap]. cbn [defined mbind outcome_bind].
    destruct (append_commit_spec (snprintf_buf (bytes_of (part_element (i + 1) e)))
      (bytes_of (part_element (i + 1) e)) st q F Hb) as (st1 & -> & Hb1);
      [apply snprintf_buf_fits; lia|lia|].
    cbn [mbind outcome_bind].
    destruct (IH (i + 1) st1 _ F Hb1 Hes) as (st2 & -> & Hb2 & Hl2);
      [lia|lia|rewrite length_app; lia|].
    exists st2. cbn [part_elements concat]. rewrite app_assoc. split_and!; [done|done|].
    rewrite length_app. fold (bytes_of (part_element (i + 1) e)). lia.
Qed.

(** The body lists the parts in order; [remaining] is its length. *)
Lemma commit_body_spec m es F :
  writable (m_heap m) (m_gb m) [] F -> false ∉ mallocs (m_heap m) ->
  etags m = Some <$> es -> Forall etag_ok es -> Z.of_nat (length es) <= 10000 ->
  exists m', commit_body m = Ret m' /\ queued m' (commit_document es) F /\ same_upload m m'.
Proof.
  intros Hw Hm Het Hes Hlen. unfold commit_body. rewrite Het.
  destruct (append_commit_spec (bytes_of "<CompleteMultipartUpload>")
    (bytes_of "<CompleteMultipartUpload>") (m_heap m, m_gb m, 0) [] F) as (st1 & -> & Hb1);
    [by split_and!|done|done|]. cbn [mbind outcome_bind].
  destruct (commit_parts_spec es 0 st1 _ F Hb1 Hes) as (st2 & -> & Hb2 & Hl2);
    [lia|lia|unfold INT_MAX; cbn [length bytes_of]; rewrite app_nil_l, length_bytes_of; cbn; lia|].
  cbn [mbind outcome_bind].
  destruct (append_commit_spec (bytes_of "</CompleteMultipartUpload>")
    (bytes_of "</CompleteMultipartUpload>") st2 _ F Hb2) as ([[h gb] size] & -> & Hb3);
    [done|unfold INT_MAX; rewrite !length_app, !length_bytes_of; cbn [length String.length]; lia|].
  cbn [mbind outcome_bind].
  destruct Hb3 as (Hw3 & Hm3 & Hs3). cbn [fst snd] in *. eexists. split; [done|].
  assert ((([] ++ bytes_of "<CompleteMultipartUpload>") ++ concat (part_elements (0 + 1) es))
    ++ bytes_of "</CompleteMultipartUpload>" = commit_document es) as E
    by by rewrite app_nil_l, <- app_assoc.
  rewrite E in Hw3, Hs3. split; [|done]. split_and!; [by apply writable_stored|exact Hs3|].
  rewrite <- E. unfold INT_MAX.
  rewrite !length_app, !length_bytes_of; cbn [length String.length]. lia.
Qed.
End CommitBody.

(** ** Multipart: one part *)

Section Multipart.
Context {ST : S3Statuses} {LAWS : S3StatusLaws ST} {W : Type} {L : LibS3 W}
  {LM : LibS3Multipart W ST L} {LL : Llapi W} {OS : Os W} {ISO : Isolated W}.
Context (ct_opt : ct_options) (hcp : option Z) (key id : string) (fd : Z) (bytes : list byte).

(** The acts before the commit. *)
Definition uploading (a : act) : Prop :=
  match a with AQuotaAlloc _ _ | AQuotaFree _ | ACommit _ _ _ => False | _ => True end.

#[local] Instance uploading_dec a : Decision (uploading a).
Proof. destruct a; apply _. Defined.

Lemma uploading_not_quota a : uploading a -> not_quota a.
Proof. by destruct a. Qed.

(** What uploading parts may do: everything but touching an object. *)
Definition parts_only (i : Z -> Prop) (s s' : pst W) : Prop :=
  within uploading key fd s s' /\ object (env s') = object (env s)
  /\ forall j, ~ i j -> part (env s') id j = part (env s) id j.

Lemma parts_only_refl i s : parts_only i s s.
Proof. by split. Qed.

Lemma parts_only_trans (i : Z -> Prop) s1 s2 s3 :
  parts_only i s1 s2 -> parts_only i s2 s3 -> parts_only i s1 s3.
Proof.
  intros (H1 & O1 & P1) (H2 & O2 & P2). split_and!; [by etrans|congruence|].
  intros j Hj. by rewrite P2, P1.
Qed.

Lemma parts_only_weaken (i i' : Z -> Prop) s s' :
  (forall j, i j -> i' j) -> parts_only i s s' -> parts_only i' s s'.
Proof. intros H (H1 & O1 & P1). split_and!; [done|done|auto]. Qed.

Lemma only_parts i s s' : only uploading s s' -> parts_only i s s'.
Proof.
  intros H. split_and!; [by apply only_within|apply H|]. intros j _.
  by rewrite (only_part _ _ _ H).
Qed.

(** The manager with this part's eTag, or as it was. *)
Definition tagged (i : Z) (m m' : UploadManager) : Prop :=
  m' = m \/ exists e, etag_ok e /\ m' = store_etag i e m.

Lemma tagged_store i e m m' :
  tagged i m m' -> store_etag i e m' = store_etag i e m.
Proof.
  intros [->|(e' & _ & ->)]; [done|]. unfold store_etag. cbn. by rewrite list_insert_insert_eq.
Qed.

Lemma tagged_trans i m1 m2 m3 : tagged i m1 m2 -> tagged i m2 m3 -> tagged i m1 m3.
Proof.
  intros H1 [->|(e & He & ->)]; [done|]. right. exists e. split; [done|].
  by apply tagged_store.
Qed.

Lemma timeout_not_ok : S3StatusErrorRequestTimeout <> S3StatusOK.
Proof. intros E. pose proof status_timeout_retryable. pose proof status_ok_final. congruence. Qed.

(** Attempts at part [i], which starts at [off] and has [len] bytes, on the
    manager [m0]: before one, and after one. *)
Section Part.
Context (i off len : Z) (m0 : UploadManager) (s0 : pst W).

Definition part_pending (s : pst W) (a : Z * MultipartPartData) : Prop :=
  part_ok fd bytes (open_files s) a.2 /\ seq a.2 = i /\ tagged i m0 (manager a.2)
  /\ parts_only (eq i) s0 s.

Definition part_stored (s : pst W) (m : UploadManager) : Prop :=
  exists e, etag_ok e /\ m = store_etag i e m0
    /\ part (env s) id i = Some (e, slice (Z.to_nat off) (Z.to_nat len) bytes)
    /\ Z.of_nat (length (slice (Z.to_nat off) (Z.to_nat len) bytes)) = len.

Definition part_attempted (s : pst W) (a : Z * MultipartPartData) : Prop :=
  part_pending s a
  /\ (put_status (put_object_data a.2) = S3StatusOK -> part_stored s (manager a.2)).

Lemma part_ok_seek fs d o :
  part_ok fd bytes fs d -> 0 <= o ->
  part_ok fd bytes (lseek_set fs fd o)
    (set_put_object_data (set_put_status 0 (put_object_data d)) d)
  /\ same_others fd fs (lseek_set fs fd o)
  /\ exists lim, lseek_set fs fd o !! fd = Some (mk_file bytes o lim).
Proof.
  intros [(pos & lim & Hf) ? ? ? ? ?] Ho.
  assert (lseek_set fs fd o !! fd = Some (mk_file bytes o lim)) as Hf'
    by (by erewrite lseek_set_lookup by done).
  split_and!; [| |by eexists].
  - split; try done. exists (Z.to_nat o), lim. by rewrite Z2Nat.id.
  - intros fd' Hne. unfold lseek_set. rewrite bool_decide_eq_false_2 by lia.
    by rewrite lookup_alter_ne.
Qed.

Lemma does_report_part offset n total t last :
  does uploading (report_part ct_opt hcp offset n total t last).
Proof.
  unfold report_part. case_bool_decide; [|apply does_ret]. apply does_bind.
  - eapply does_weaken; [|apply does_progress]. by intros [].
  - intros r. case_bool_decide; [apply does_ret|apply does_ask, time_apart].
Qed.

Lemma part_pending_only s s' a :
  only uploading s s' -> part_pending s a -> part_pending s' a.
Proof.
  intros Ho (H1 & H2 & H3 & H4). split_and!; [|done|done|].
  - by rewrite (only_files _ _ _ Ho).
  - eapply parts_only_trans; [done|by apply only_parts].
Qed.

Lemma part_attempted_only s s' a last :
  only uploading s s' -> part_attempted s a -> part_attempted s' (last, a.2).
Proof.
  intros Ho (H1 & H2). split; [by apply (part_pending_only s s' (last, a.2))|].
  intros Hst. destruct (H2 Hst) as (e & He & Hm & Hp & Hl). exists e.
  rewrite (only_part _ _ _ Ho). by split_and!.
Qed.

Lemma part_pending_reset s a :
  part_pending s a ->
  part_pending s (a.1, set_put_object_data
    (set_put_status S3StatusErrorRequestTimeout (put_object_data a.2)) a.2).
Proof. intros ([] & H2 & H3 & H4). by split_and!. Qed.

(** The state in which the request is made. *)
Lemma part_before chunk last d s :
  0 <= off -> off < 2 ^ 63 -> off = (i - 1) * chunk -> part_pending s (last, d) ->
  exists s1, part_pending s1 (last, set_put_object_data (set_put_status 0 (put_object_data d)) d)
    /\ (exists lim, open_files s1 !! fd = Some (mk_file bytes (Z.of_nat (Z.to_nat off)) lim))
    /\ forall total, part_request ct_opt hcp key id i chunk len total (last, d) s
         = part_send ct_opt hcp key id i chunk len total last
             (set_put_object_data (set_put_status 0 (put_object_data d)) d) s1.
Proof.
  intros Ho1 Ho2 Hoff Hp. destruct (does_ask uploading _ time_apart s) as (s1 & t & E1 & H1).
  destruct (part_pending_only s s1 _ H1 Hp) as (Hok & Hseq & Hm & Hpo).
  destruct (part_ok_seek _ _ off Hok Ho1) as (Hok' & Hoth & lim & Hf).
  exists (mk_pst (env s1) (lseek_set (open_files s1) fd off)
            (trace s1 ++ [AUploadPart key i len]) (err_major s1)).
  split; [|split; [exists lim; rewrite Z2Nat.id by done; exact Hf|]].
  - split_and!; [exact Hok'|done|done|]. eapply parts_only_trans; [exact Hpo|].
    split_and!; [|done|done]. split; [|exact Hoth|done|done].
    exists [AUploadPart key i len]. split; [done|by constructor].
  - intros total. unfold part_request. erewrite M_bind_Ret by exact E1.
    rewrite <- Hoff, (u64_id off), (s64_id off) by (unfold two64; lia).
    cbn in Hok. by rewrite (po_fd _ _ _ _ Hok).
Qed.

(** A request for the part changes no other part and no object. *)
Lemma parts_only_request s1 w' fs' :
  parts_only (eq i) s0 s1 -> same_others fd (open_files s1) fs' ->
  object w' = object (env s1) -> (forall j, j <> i -> part w' id j = part (env s1) id j) ->
  parts_only (eq i) s0 (mk_pst w' fs' (trace s1) (err_major s1)).
Proof.
  intros Hpo Hoth Hobj Hothers. eapply parts_only_trans; [exact Hpo|]. split_and!; [|done|].
  - split; [by exists []; rewrite app_nil_r|done|done|]. cbn. by rewrite Hobj.
  - intros j Hj. by apply Hothers.
Qed.

(** One attempt. *)
Lemma part_request_spec chunk total a s :
  0 <= off -> off < 2 ^ 63 -> off = (i - 1) * chunk -> part_pending s a ->
  exists s' a', part_request ct_opt hcp key id i chunk len total a s = Ret (s', a')
    /\ part_attempted s' a'.
Proof.
  intros Ho1 Ho2 Hoff Hp. destruct a as [last d].
  destruct (part_before chunk last d s Ho1 Ho2 Hoff Hp) as (s1 & Hp1 & (lim & Hf) & Erun).
  rewrite Erun. clear Erun. unfold part_send.
  set (d1 := set_put_object_data _ d) in *. destruct Hp1 as (Hok1 & Hseq1 & Hm1 & Hpo1).
  cbn [fst snd] in *.
  destruct (run_part_upload len _ _ false [] _ (open_files s1) d1 fd bytes _ lim
    (upload_part_uploads key i id len (env s1)) Hok1 Hf)
    as (fs' & d' & w' & E & Hok' & Hoth & Hseq' & Hr).
  set (s2 := mk_pst w' fs' (trace s1) (err_major s1)).
  assert (request_io uploadMultipartHandler (S3_upload_part key i id len) d1 s1 = Ret (s2, d'))
    as E2 by (unfold request_io; by rewrite E).
  erewrite M_bind_Ret by exact E2.
  (* the world after the request, whatever its end *)
  assert (parts_only (eq i) s0 s2 /\ tagged i m0 (manager d')
    /\ (put_status (put_object_data d') = S3StatusOK -> part_stored s2 (manager d')
         /\ next_etags_pos (manager d') = i)) as (Hpo2 & Hm2 & Hst).
  { unfold part_sent, part_failed in Hr. rewrite Hseq1 in Hr.
    destruct Hr as [(Hst & k & p & e & Hk & Hl & _ & _ & Htag & He & Hm & Hpart & Hothers & Hobj)|
      (Hst & (Hothers & Hobj) & Hm)]; cbn in Hst.
    - split_and!.
      + by apply parts_only_request.
      + eapply tagged_trans; [exact Hm1|]. right. by exists e.
      + intros _. split; [|by rewrite Hm]. exists e. cbn in Hk. subst len.
        rewrite Nat2Z.id. split_and!; [done|rewrite Hm; by apply tagged_store| |by rewrite Hl].
        cbn. by rewrite Hpart, Htag.
    - split_and!; [| |done].
      + by apply parts_only_request.
      + eapply tagged_trans; [exact Hm1|]. destruct Hm as [->|Hm]; [by left|by right]. }
  assert (part_pending s2 (last, d')) as Hp2.
  { split_and!; [done|cbn; congruence|done|done]. }
  destruct (does_ask uploading _ time_apart s2) as (s3 & t & E3 & H3).
  erewrite M_bind_Ret by exact E3.
  case_bool_decide as Hpos.
  - eexists _, _. split; [reflexivity|]. split.
    + apply (part_pending_reset s3 (last, d')). by eapply part_pending_only.
    + cbn. intros Ht. by destruct timeout_not_ok.
  - destruct (does_report_part ((i - 1) *u chunk) (u64 len) total t last s3)
      as (s4 & last' & E4 & H4).
    erewrite M_bind_Ret by exact E4. eexists _, _. split; [reflexivity|].
    apply (part_attempted_only s2 s4 (last, d') last'); [by etrans|].
    split; [done|]. intros Ho. by apply Hst.
Qed.

(** All attempts at one part. *)
Lemma part_attempts_spec chunk total a s :
  0 <= off -> off < 2 ^ 63 -> off = (i - 1) * chunk -> part_pending s a ->
  exists s' a', with_retries (part_request ct_opt hcp key id i chunk len total) part_again a s
      = Ret (s', a') /\ part_attempted s' a'.
Proof.
  intros Ho1 Ho2 Hoff Hp.
  apply (with_retries_rule (part_request ct_opt hcp key id i chunk len total) part_again
    part_pending part_attempted); [|done].
  intros s1 a1 Hp1. destruct (part_request_spec chunk total a1 s1 Ho1 Ho2 Hoff Hp1)
    as (s2 & a2 & E & Ha). exists s2, a2. split_and!; [done|done|]. intros _. apply Ha.
Qed.
End Part.

(** *** All parts *)

Section Parts.
Context (T chunk total : Z).
Hypothesis chunk_range : 0 < chunk <= INT_MAX.
Hypothesis T_range : 0 < T < 2 ^ 63.
Hypothesis cut : (total - 1) * chunk < T <= total * chunk.
Hypothesis fd_set : fd <> 0.

(** The object to store, and its [j]th piece. *)
Definition whole : list byte := take (Z.to_nat T) bytes.
Definition piece (j : nat) : list byte :=
  slice (j * Z.to_nat chunk) (Z.to_nat chunk) whole.

Definition part_done (m : UploadManager) (s : pst W) (j : nat) : Prop :=
  exists e, etags m !! j = Some (Some e) /\ etag_ok e
    /\ part (env s) id (Z.of_nat j + 1) = Some (e, piece j).

(** The first [k] parts are stored, from a file long enough for them. *)
Definition parts_done (k : Z) (m : UploadManager) (s : pst W) : Prop :=
  (forall j, Z.of_nat j < k -> part_done m s j) /\ Z.min (k * chunk) T <= Z.of_nat (length bytes).

Lemma piece_eq k len :
  0 <= k -> len = Z.min chunk (T - k * chunk) -> 0 <= len ->
  slice (Z.to_nat (k * chunk)) (Z.to_nat len) bytes = piece (Z.to_nat k).
Proof.
  intros Hk Hlen Hl. unfold piece, whole, slice.
  rewrite skipn_firstn_comm, take_take, <- Z2Nat.inj_mul by lia.
  f_equal. lia.
Qed.

Lemma part_done_store m s m' s' k e :
  0 <= k -> etag_ok e -> m' = store_etag (k + 1) e m -> Z.of_nat (length (etags m)) = total ->
  k < total -> part (env s') id (k + 1) = Some (e, piece (Z.to_nat k)) ->
  (forall j, k + 1 <> j -> part (env s') id j = part (env s) id j) ->
  (forall j, Z.of_nat j < k -> part_done m s j) ->
  forall j, Z.of_nat j < k + 1 -> part_done m' s' j.
Proof.
  intros Hk He -> Hlen Hkt Hp Hoth Hdone j Hj. unfold part_done, store_etag. cbn.
  replace (Z.to_nat (k + 1 - 1)) with (Z.to_nat k) by lia.
  destruct (decide (j = Z.to_nat k)) as [->|Hne].
  - exists e. rewrite list_lookup_insert_eq by lia. split_and!; [done|done|].
    by rewrite Z2Nat.id.
  - destruct (Hdone j) as (e' & H1 & H2 & H3); [lia|]. exists e'.
    rewrite list_lookup_insert_ne by done. rewrite Hoth by lia. by split_and!.
Qed.

Lemma upload_parts_spec n : forall k m todo ext last s,
  k + Z.of_nat n = total -> 0 <= k -> Z.of_nat (length (etags m)) = total -> m_gb m = None ->
  (exists pos lim, open_files s !! fd = Some (mk_file bytes (Z.of_nat pos) lim)) ->
  parts_done k m s ->
  exists s' b m',
    upload_parts ct_opt n hcp key id (put_data_for fd) (k + 1) chunk ext T
      (Z.max 0 (T - k * chunk)) todo last m s = Ret (s', (b, m'))
    /\ parts_only (fun _ => True) s s' /\ m_heap m' = m_heap m /\ m_gb m' = None
    /\ Z.of_nat (length (etags m')) = total /\ (b = true -> parts_done total m' s').
Proof.
  induction n as [|n IH]; intros k m todo ext last s Hkn Hk Hlen Hgb Hf Hdone.
  { exists s, true, m. split_and!; [done|apply parts_only_refl|done|done|done|].
    intros _. replace total with k by lia. done. }
  cbn [upload_parts].
  rewrite (Z.max_r 0) by (assert (k * chunk <= (total - 1) * chunk)
    by (apply Z.mul_le_mono_nonneg_r; lia); lia).
  assert (k * chunk <= (total - 1) * chunk) as Hkc by (apply Z.mul_le_mono_nonneg_r; lia).
  set (len := i32 (if bool_decide (T - k * chunk > chunk) then chunk else T - k * chunk)).
  assert (len = Z.min chunk (T - k * chunk)) as Hl.
  { unfold len. unfold INT_MAX in *.
    case_bool_decide; rewrite i32_id; unfold INT_MIN, INT_MAX; lia. }
  assert (0 < len <= INT_MAX) as Hlr by lia.
  rewrite (u64_id (T - k * chunk - len)) by (unfold two64; lia).
  set (pd0 := part_start (put_data_for fd) (k + 1) len todo T m).
  destruct (part_attempts_spec (k + 1) (k * chunk) len m s chunk ext (last, pd0) s)
    as (s1 & [last1 pd1] & E1 & (Hok1 & Hseq1 & Hm1 & Hpo1) & Hst1); [lia|lia|lia| |].
  { split_and!; [|done|by left|apply parts_only_refl]. destruct Hf as (pos & lim & Hf).
    split; cbn; try done; [by exists pos, lim| |lia|lia].
    rewrite u64_id by (unfold two64, INT_MAX in *; lia). lia. }
  erewrite M_bind_Ret by exact E1. cbn [fst snd] in *.
  assert (m_heap (manager pd1) = m_heap m /\ m_gb (manager pd1) = None
    /\ length (etags (manager pd1)) = length (etags m)) as (Hh1 & Hgb1 & Hlen1).
  { destruct Hm1 as [->|(e & _ & ->)]; [done|]. cbn. by rewrite length_insert. }
  assert (parts_only (fun _ => True) s s1) as Hpo1' by (by eapply parts_only_weaken, Hpo1).
  case_bool_decide as Hst.
  { exists s1, false, (manager pd1). split_and!; try done. by rewrite Hlen1. }
  rewrite bool_decide_eq_false_2 by (rewrite Hgb1; by intros []).
  destruct Hst1 as (e & He & Hm & Hpart & Hplen); [done|].
  rewrite (piece_eq k len Hk Hl) in Hpart by lia.
  assert (k * chunk + len <= Z.of_nat (length bytes)) as Hfit.
  { unfold slice in Hplen. rewrite length_take, length_drop in Hplen. lia. }
  replace (T - k * chunk - len) with (Z.max 0 (T - (k + 1) * chunk)) by lia.
  destruct (IH (k + 1) (manager pd1) (todo -u len) ext last1 s1)
    as (s2 & b & m2 & -> & Hpo2 & Hh2 & Hgb2 & Hlen2 & Hd2);
    [lia|lia|by rewrite Hlen1|done| | |].
  - destruct Hok1 as [(pos & lim & Hf1) _ _ _ _ _]. by exists pos, lim.
  - destruct Hdone as [Hdone _]. split; [|lia].
    apply (part_done_store m s (manager pd1) s1 k e); try done; [lia|].
    intros j Hj. by apply Hpo1.
  - exists s2, b, m2. split_and!; [done|by eapply parts_only_trans|congruence|done|done|done].
Qed.
End Parts.

(** *** The commit *)

Section Commit.
Context (s0 : pst W) (m0 : UploadManager) (ps : list (string * list byte))
  (F : gmap positive growbuffer).
Hypothesis stored_parts : forall i p, ps !! i = Some p -> part (env s0) id (Z.of_nat i + 1) = Some p.

(** Before an attempt: as long as none was made the queue holds the document. *)
Definition commit_pending (s : pst W) (m : UploadManager) : Prop :=
  exists l q, trace s = trace s0 ++ l /\ within not_quota key fd s0 s /\ queued m q F
    /\ (Forall uploading l -> q = commit_document ps.*1 /\ part (env s) = part (env s0)).

(** After one: the result of the last attempt is on record, and if it was the
    only one and successful, the object is there. *)
Definition commit_tried (s : pst W) (m : UploadManager) : Prop :=
  exists l n st q, trace s = trace s0 ++ l ++ [ACommit key n (Some st)]
    /\ within not_quota key fd s0 s /\ queued m q F
    /\ (st = S3StatusOK -> Forall uploading l -> object (env s) key = Some (concat ps.*2)).

Lemma commit_request_spec s m :
  commit_pending s m ->
  exists s' m', commit_request key id m s = Ret (s', m') /\ commit_tried s' m'
    /\ (commit_again m' = true -> commit_pending s' m').
Proof.
  intros (l & q & Htr & Hin & Hq & Hdoc).
  set (ps' := if decide (Forall uploading l) then ps else []).
  assert (forall i p, ps' !! i = Some p -> part (env s) id (Z.of_nat i + 1) = Some p) as Hps.
  { intros i p. unfold ps'. destruct (decide (Forall uploading l)) as [Hl|]; [|done].
    destruct (Hdoc Hl) as [_ ->]. apply stored_parts. }
  destruct (run_commit_upload _ _ _ _ false [] _ m q F
    (complete_commits key id (remaining m) ps' (env s) Hps) Hq)
    as (m' & w' & tr & k & st & E & Hq' & Hm' & Hst & Hk & Hr).
  set (s1 := mk_pst w' (open_files s) (trace s ++ [ACommit key (remaining m) (Some st)])
    (err_major s)).
  assert (commit_request key id m s = Ret (s1, m')) as E1.
  { unfold commit_request, request_status. rewrite E. cbn. by rewrite Hst. }
  assert (within not_quota key fd s0 s1) as Hin1.
  { etrans; [exact Hin|]. split; [|done|done|].
    - exists [ACommit key (remaining m) (Some st)]. split; [done|by constructor].
    - destruct Hr as [(_ & _ & p & _ & H)|[_ H]]; exact H. }
  assert (trace s1 = trace s0 ++ l ++ [ACommit key (remaining m) (Some st)]) as Htr1
    by (cbn; by rewrite Htr, <- app_assoc).
  exists s1, m'. split_and!; [exact E1| |].
  - exists l, (remaining m), st, (drop k q). split_and!; [done|done|done|].
    intros -> Hl. destruct (Hdoc Hl) as [-> _].
    destruct Hr as [(_ & Hlen & p & Hobj & _)|[? _]]; [|done].
    cbn [length Nat.add app] in *. unfold ps' in Hobj.
    rewrite decide_True in Hobj by done. apply Hobj. apply take_ge.
    destruct Hq as (_ & Hrem & _). lia.
  - intros Hag. exists (l ++ [ACommit key (remaining m) (Some st)]), (drop k q).
    split_and!; [done|done|done|]. intros Hl. by apply Forall_app in Hl as [_ [[]]%Forall_cons].
Qed.

Lemma commit_loop_spec s m :
  commit_pending s m ->
  exists s' m', with_retries (commit_request key id) commit_again m s = Ret (s', m')
    /\ commit_tried s' m'.
Proof.
  intros Hp. apply (with_retries_rule (commit_request key id) commit_again commit_pending
    commit_tried); [|done].
  intros s1 m1 H1. destruct (commit_request_spec s1 m1 H1) as (s2 & m2 & E & H2 & H3).
  by exists s2, m2.
Qed.
End Commit.

(** *** From the initiation to the end *)

Lemma clean_spec (m : UploadManager) q F rc (s : pst W) :
  stored (m_heap m) (m_gb m) q F -> clean m rc s = Ret (s, rc).
Proof.
  intros H. unfold clean. erewrite M_bind_Ret; [done|]. unfold lift.
  by rewrite (destroy_spec _ _ _ _ H).
Qed.

Section Whole.
Context (T chunk total : Z).
Hypothesis chunk_range : 0 < chunk <= INT_MAX.
Hypothesis T_range : 0 < T < 2 ^ 63.
Hypothesis cut : (total - 1) * chunk < T <= total * chunk.
Hypothesis total_max : total <= 10000.
Hypothesis fd_set : fd <> 0.

Lemma pieces_whole :
  concat (piece T chunk <$> List.seq 0 (Z.to_nat total)) = whole T.
Proof.
  unfold piece. rewrite (concat_slices (whole T)). apply take_ge.
  unfold whole. rewrite length_take. rewrite <- Z2Nat.inj_mul by lia. lia.
Qed.

Lemma parts_listed m s :
  Z.of_nat (length (etags m)) = total -> parts_done T chunk total m s ->
  exists es, etags m = Some <$> es /\ Forall etag_ok es
    /\ forall i p, zip es (piece T chunk <$> List.seq 0 (Z.to_nat total)) !! i = Some p ->
         part (env s) id (Z.of_nat i + 1) = Some p.
Proof.
  intros Hlen [Hdone _].
  destruct (all_set (etags m) (fun j e => etag_ok e
    /\ part (env s) id (Z.of_nat j + 1) = Some (e, piece T chunk j))) as (es & Hes & Hall).
  { intros j Hj. destruct (Hdone j) as (e & H1 & H2 & H3); [lia|]. by exists e. }
  exists es. split_and!; [done| |].
  - apply Forall_lookup. intros j e Hj. by apply (Hall j).
  - intros i [e b] Hi. apply lookup_zip_with_Some in Hi as (e' & b' & [= <- <-] & He & Hb).
    apply list_lookup_fmap_Some in Hb as (j & -> & Hj).
    apply lookup_seq in Hj as [-> _]. by apply Hall.
Qed.

Definition end_of_big (s s' : pst W) (rc : Z) : Prop :=
  within not_quota key fd s s'
  /\ (rc = 0 -> exists l n st, trace s' = trace s ++ l ++ [ACommit key n (Some st)]
        /\ T <= Z.of_nat (length bytes)
        /\ (st = S3StatusOK -> Forall uploading l -> object (env s') key = Some (whole T))).

Lemma upload_and_commit_spec m mallocs ext last s :
  etags m = replicate (Z.to_nat total) None -> next_etags_pos m = 0 -> m_gb m = None ->
  m_heap m = mk_heap ∅ mallocs -> (false ∉ mallocs) ->
  (exists pos lim, open_files s !! fd = Some (mk_file bytes (Z.of_nat pos) lim)) ->
  exists s' rc,
    upload_and_commit ct_opt hcp key id (put_data_for fd) chunk total ext T last m s
      = Ret (s', rc)
    /\ (rc = 0 \/ rc = - EIO) /\ end_of_big s s' rc.
Proof.
  intros Het Hpos Hgb Hh Hmal Hf. unfold upload_and_commit. cbv zeta.
  rewrite Hpos, Z.sub_0_r. change (0 + 1) with (0 + 1).
  assert (0 < total) as Ht by nia.
  destruct (upload_parts_spec T chunk total chunk_range T_range cut fd_set (Z.to_nat total) 0 m
    (T -u chunk *u 0) ext last s) as (s1 & b & m1 & E1 & Hpo1 & Hh1 & Hgb1 & Hlen1 & Hd1);
    [lia|lia|rewrite Het, length_replicate; lia|done|done|split; [lia|lia]|].
  rewrite Z.mul_0_l, Z.sub_0_r, Z.max_r in E1 by lia.
  erewrite M_bind_Ret by exact E1.
  assert (within not_quota key fd s s1) as Hin1.
  { eapply within_weaken; [|apply Hpo1]. apply uploading_not_quota. }
  assert (writable (m_heap m1) (m_gb m1) [] ∅) as Hw1
    by (rewrite Hgb1, Hh1, Hh; apply (writable_empty (mk_heap ∅ mallocs))).
  destruct b; cbn [negb].
  - destruct (Hd1 eq_refl) as [_ Hfit].
    destruct (parts_listed m1 s1 Hlen1 (Hd1 eq_refl)) as (es & Hes & Hok & Hps).
    destruct (commit_body_spec m1 es ∅ Hw1) as (m2 & E2 & Hq2 & Hm2);
      [by rewrite Hh1, Hh|done|done| |].
    { apply (f_equal length) in Hes. rewrite length_fmap in Hes. lia. }
    assert (lift (commit_body m1) s1 = Ret (s1, m2)) as E2' by (unfold lift; by rewrite E2).
    erewrite M_bind_Ret by exact E2'.
    set (ps := zip es (piece T chunk <$> List.seq 0 (Z.to_nat total))) in *.
    assert (length es = length (piece T chunk <$> List.seq 0 (Z.to_nat total))) as Hzip.
    { apply (f_equal length) in Hes. rewrite length_fmap in Hes. rewrite length_fmap, length_seq. lia. }
    destruct Hpo1 as (Hw & Ho & _). destruct (within_trace _ _ _ _ _ Hw) as (l1 & Hl1 & Hup).
    destruct (commit_loop_spec s1 ps ∅ Hps s1 m2) as (s2 & m3 & E3 & l & n & st & q & Htr & Hin2 & Hq3 & Hobj).
    { exists [], (commit_document ps.*1). rewrite app_nil_r.
      split_and!; [done|done| |by intros _]. unfold ps. rewrite fst_zip by lia. exact Hq2. }
    erewrite M_bind_Ret by exact E3. destruct Hq3 as (Hst3 & Hrem3 & _).
    rewrite (clean_spec m3 q ∅) by exact Hst3. eexists s2, _. split; [reflexivity|].
    split; [case_bool_decide; [by right|by left]|].
    split; [by etrans|]. intros _.
    exists (l1 ++ l), n, st. rewrite Htr, Hl1, <- !app_assoc.
    split_and!; [done|lia|]. intros Hs [_ Hl]%Forall_app.
    rewrite (Hobj Hs Hl). f_equal. unfold ps. rewrite snd_zip by lia. apply pieces_whole.
  - rewrite (clean_spec m1 [] ∅) by by apply writable_stored.
    eexists s1, _. split; [reflexivity|]. split; [by right|]. by split.
Qed.

(** The document, when all parts are sent. *)
Lemma document_built m mallocs ext last s s1 m1 :
  etags m = replicate (Z.to_nat total) None -> m_gb m = None ->
  m_heap m = mk_heap ∅ mallocs -> (false ∉ mallocs) ->
  (exists pos lim, open_files s !! fd = Some (mk_file bytes (Z.of_nat pos) lim)) ->
  upload_parts ct_opt (Z.to_nat total) hcp key id (put_data_for fd) 1 chunk ext T T (T -u chunk *u 0) last m s
    = Ret (s1, (true, m1)) ->
  exists m2 q, commit_body m1 = Ret m2 /\ queued m2 q ∅.
Proof.
  intros Het Hgb Hh Hmal Hf E1. assert (0 < total) as Ht by nia.
  destruct (upload_parts_spec T chunk total chunk_range T_range cut fd_set (Z.to_nat total) 0 m
    (T -u chunk *u 0) ext last s) as (s1' & b & m1' & E1' & _ & Hh1 & Hgb1 & Hlen1 & Hd1);
    [lia|lia|rewrite Het, length_replicate; lia|done|done|split; [lia|lia]|].
  rewrite Z.mul_0_l, Z.sub_0_r, Z.max_r in E1' by lia. change (0 + 1) with 1 in E1'. rewrite E1 in E1'. injection E1' as <- <- <-.
  destruct (parts_listed m1 s1 Hlen1 (Hd1 eq_refl)) as (es & Hes & Hok & _).
  destruct (commit_body_spec m1 es ∅) as (m2 & E2 & Hq2 & _).
  - rewrite Hgb1, Hh1, Hh. apply (writable_empty (mk_heap ∅ mallocs)).
  - by rewrite Hh1, Hh.
  - done.
  - done.
  - apply (f_equal length) in Hes. rewrite length_fmap in Hes. lia.
  - by eexists _, _.
Qed.

(** C37. A commit that the server refuses counts as done. When all parts of an upload are sent
    and the server has taken the whole list of them, then whatever it answers after that, and
    be it an error, the commit is not repeated and the upload ends with the result 0: the
    loop and the result look at the number of bytes left to send, and not at the status. *)
Theorem archive_big_commit_error_ignored m mallocs ext last s s1 m1 :
  etags m = replicate (Z.to_nat total) None -> next_etags_pos m = 0 -> m_gb m = None ->
  m_heap m = mk_heap ∅ mallocs -> (false ∉ mallocs) ->
  (exists pos lim, open_files s !! fd = Some (mk_file bytes (Z.of_nat pos) lim)) ->
  upload_parts ct_opt (Z.to_nat total) hcp key id (put_data_for fd) 1 chunk ext T T (T -u chunk *u 0) last m s
    = Ret (s1, (true, m1)) ->
  exists m2, commit_body m1 = Ret m2
    /\ exists s2 m3 status, commit_request key id m2 s1 = Ret (s2, m3)
      /\ trace s2 = trace s1 ++ [ACommit key (remaining m2) (Some status)]
      /\ (remaining m3 = 0 ->
          upload_and_commit ct_opt hcp key id (put_data_for fd) chunk total ext T last m s = Ret (s2, 0)).
Proof.
  intros Het Hpos Hgb Hh Hmal Hf E1.
  destruct (document_built m mallocs ext last s s1 m1 Het Hgb Hh Hmal Hf E1) as (m2 & q & E2 & Hq2).
  exists m2. split; [done|].
  destruct (run_commit_upload _ _ _ _ false [] _ m2 q ∅
    (complete_commits key id (remaining m2) [] (env s1) ltac:(done)) Hq2)
    as (m3 & w & tr & k & status & E & Hq3 & _ & Hst & _).
  set (s2 := mk_pst w (open_files s1) (trace s1 ++ [ACommit key (remaining m2) (Some status)]) (err_major s1)).
  assert (commit_request key id m2 s1 = Ret (s2, m3)) as E3
    by (unfold commit_request, request_status; rewrite E; cbn; by rewrite Hst).
  exists s2, m3, status. split_and!; [done|done|]. intros Hrem. unfold upload_and_commit. cbv zeta.
  rewrite Hpos, Z.sub_0_r. change (0 + 1) with 1. erewrite M_bind_Ret by exact E1. cbn [negb].
  assert (lift (commit_body m1) s1 = Ret (s1, m2)) as E2' by (unfold lift; by rewrite E2).
  erewrite M_bind_Ret by exact E2'.
  assert (with_retries (commit_request key id) commit_again m2 s1 = Ret (s2, m3)) as E4.
  { unfold with_retries, retrying. erewrite M_bind_Ret by exact E3. unfold commit_again.
    rewrite Hrem, <- status_ok_zero, status_ok_final. done. }
  erewrite M_bind_Ret by exact E4. rewrite (clean_spec m3 (drop k q) ∅) by apply Hq3.
  by rewrite bool_decide_eq_false_2 by lia.
Qed.
End Whole.

(** Initiating changes the upload id only. *)
Lemma initiate_spec (m : UploadManager) s :
  exists s' m', with_retries (initiate_request key) initiate_again m s = Ret (s', m')
    /\ within uploading key fd s s' /\ open_files s' = open_files s
    /\ etags m' = etags m /\ next_etags_pos m' = next_etags_pos m
    /\ m_heap m' = m_heap m /\ m_gb m' = m_gb m.
Proof.
  set (I := fun s1 m1 => within uploading key fd s s1 /\ open_files s1 = open_files s
    /\ etags m1 = etags m /\ next_etags_pos m1 = next_etags_pos m
    /\ m_heap m1 = m_heap m /\ m_gb m1 = m_gb m).
  apply (with_retries_rule (initiate_request key) initiate_again I I); [|by split_and!].
  intros s1 m1 (H1 & H2 & H3 & H4 & H5 & H6).
  destruct (run_initiate _ _ m1 (initiate_starts key (env s1)))
    as (m2 & w & st & E & Hw & Ha & Hb & Hc & Hd).
  eexists _, m2. split.
  - unfold initiate_request. erewrite M_bind_Ret by reflexivity. unfold request. cbn [env].
    rewrite E. reflexivity.
  - assert (forall A B : Prop, A -> A /\ (B -> A)) as Hboth by tauto. apply Hboth.
    split_and!; [|cbn; congruence|congruence..].
    etrans; [exact H1|]. split; cbn; [|done|done|intros; by rewrite Hw].
    exists [AInitiate key]. split; [done|by constructor].
Qed.

End Multipart.

Section BigFile.
Context {ST : S3Statuses} {LAWS : S3StatusLaws ST} {W : Type} {L : LibS3 W}
  {LM : LibS3Multipart W ST L} {LL : Llapi W} {OS : Os W} {ISO : Isolated W}.

Lemma ask_result {A} (f : W -> W * A) (s s' : pst W) a (P : A -> Prop) :
  ask f s = Ret (s', a) -> P (f (env s)).2 -> P a.
Proof. unfold ask. destruct (f (env s)). by intros [= _ <-]. Qed.

(** Initiation and upload, from a manager as it is first set up. *)
Lemma start_and_upload_spec ct_opt hcp key fd T chunk total ext last mallocs f s :
  let m0 := mk_manager None (replicate (Z.to_nat total) None) 0 (mk_heap ∅ mallocs) None 0 in
  false ∉ mallocs -> 0 < chunk <= INT_MAX -> 0 < T < 2 ^ 63 ->
  (total - 1) * chunk < T <= total * chunk -> total <= 10000 ->
  open_files s !! fd = Some f -> 0 <= f_pos f -> fd <> 0 ->
  exists s' rc, start_and_upload ct_opt hcp key fd chunk total ext T last m0 s = Ret (s', rc)
    /\ within not_quota key fd s s' /\ (rc = 0 \/ rc = - EIO)
    /\ (rc = 0 -> exists l n status,
          trace s' = trace s ++ l ++ [ACommit key n (Some status)]
          /\ T <= Z.of_nat (length (f_data f))
          /\ (status = S3StatusOK -> Forall uploading l ->
              object (env s') key = Some (take (Z.to_nat T) (f_data f)))).
Proof.
  intros m0 Hms Hci HT Hcut Htot Hf Hp Hfd. unfold start_and_upload.
  destruct (initiate_spec key fd m0 s) as (s6 & m & E7 & H7 & Hf7 & Het & Hpos & Hh & Hgb).
  erewrite M_bind_Ret by exact E7.
  assert (within not_quota key fd s s6) as H16
    by (eapply within_weaken, H7; apply uploading_not_quota).
  assert (exists l1, trace s6 = trace s ++ l1 /\ Forall uploading l1) as (l1 & Hl1 & Hup1)
    by (apply H7).
  destruct (upload_id m) as [id|].
  - rewrite bool_decide_eq_false_2 by (rewrite Hgb; by intros []).
    destruct (upload_and_commit_spec ct_opt hcp key id fd (f_data f) T chunk total)
      with (m := m) (mallocs := mallocs) (ext := ext) (last := last) (s := s6)
      as (s7 & rc & E8 & Hrc & Hin & Hend); try done.
    { rewrite Hf7. exists (Z.to_nat (f_pos f)), (f_limits f).
      rewrite Z2Nat.id by done. by destruct f. }
    exists s7, rc. split_and!; [exact E8|by etrans|done|].
    intros Hz. destruct (Hend Hz) as (l & n & status & Htr & Hfit & Hobj).
    exists (l1 ++ l), n, status. rewrite Htr, Hl1, <- !app_assoc.
    split_and!; [done|done|]. intros Hs [_ Hl]%Forall_app. by apply Hobj.
  - rewrite (clean_spec m [] ∅).
    + exists s6, (- EIO). split_and!; [done|done|auto|done].
    + rewrite Hgb, Hh. apply writable_stored, (writable_empty (mk_heap ∅ mallocs)).
Qed.

Lemma archive_data_big_spec ct_opt hcp key fd st hai f s :
  (forall n w, (malloc n w).2 = true) -> (forall w, false ∉ (small_mallocs w).2) ->
  open_files s !! fd = Some f -> 0 <= f_pos f -> fd <> 0 -> 0 < st_size st <= FIVE_TB ->
  exists s' rc, ct_archive_data_big ct_opt hcp key fd st hai s = Ret (s', rc)
    /\ within not_quota key fd s s' /\ (rc = 0 \/ rc = -1 \/ rc = - EIO)
    /\ (rc = 0 -> exists l n status,
          trace s' = trace s ++ l ++ [ACommit key n (Some status)]
          /\ st_size st <= Z.of_nat (length (f_data f))
          /\ (status = S3StatusOK -> Forall uploading l ->
              object (env s') key = Some (take (Z.to_nat (st_size st)) (f_data f)))).
Proof.
  intros Hmal Hsmall Hf Hp Hfd Hst. unfold ct_archive_data_big, FIVE_TB in *.
  assert (forall s1, only uploading s s1 -> within not_quota key fd s s1) as Hwith.
  { intros s1 H. eapply within_weaken, only_within, H. apply uploading_not_quota. }
  destruct (does_save_stripe uploading fd s) as (s1 & x & E1 & H1).
  erewrite M_bind_Ret by exact E1. case_bool_decide.
  { exists s1, (-1). split_and!; [done|by apply Hwith|auto|done]. }
  destruct (does_ask uploading _ time_apart s1) as (s2 & t & E2 & H2).
  erewrite M_bind_Ret by exact E2.
  destruct (does_weaken is_report uploading (llapi_hsm_action_progress_ex hcp
    (mk_extent (ext_offset (hai_extent hai)) 0) (extent_length hai st) 0)) with (s := s2)
    as (s3 & r & E3 & H3); [by intros []|apply does_progress|].
  erewrite M_bind_Ret by exact E3.
  rewrite (u64_id (st_size st)) by (unfold two64; lia).
  destruct (chunksize_spec (st_size st)) as (chunk & total & E4 & Hchunk & Htot & Hcut & _ & Hint);
    [unfold CHUNK_SIZE_MAX; lia|].
  assert (lift (ct_get_chunksize (st_size st)) s3 = Ret (s3, (chunk, total))) as E4'
    by (unfold lift; by rewrite E4).
  erewrite M_bind_Ret by exact E4'.
  destruct (does_ask uploading _ (malloc_apart (total *u 8)) s3) as (s4 & ok & E5 & H5).
  pose proof (ask_result _ _ _ _ (fun ok => ok = true) E5 (Hmal _ _)) as ->.
  erewrite M_bind_Ret by exact E5.
  destruct (does_ask uploading _ small_mallocs_apart s4) as (s5 & mallocs & E6 & H6).
  pose proof (ask_result _ _ _ _ (fun l => false ∉ l) E6 (Hsmall _)) as Hms.
  erewrite M_bind_Ret by exact E6. unfold calloc_etags.
  assert (only uploading s s5) as H15 by (do 5 (etrans; [eassumption|]); reflexivity).
  destruct (start_and_upload_spec ct_opt hcp key fd (st_size st) chunk total
    (extent_length hai st) t mallocs f s5)
    as (s6 & rc & E7 & H7 & Hrc & Hend);
    [done|split; [unfold CHUNK_SIZE in Hchunk; lia|apply Hint; lia]|lia|
     destruct Hcut as [(_ & ? & ?)|[? _]]; lia|done|by rewrite (only_files _ _ _ H15)|done|done|].
  exists s6, rc. split_and!; [exact E7|etrans; [by apply Hwith|exact H7]|naive_solver|].
  intros Hz. destruct (Hend Hz) as (l & n & status & Htr & Hfit & Hobj).
  destruct (only_trace _ _ _ H15) as (l1 & Hl1 & Hup1).
  exists (l1 ++ l), n, status. rewrite Htr, Hl1, <- !app_assoc.
  split_and!; [done|done|]. intros Hs [_ Hl]%Forall_app. by apply Hobj.
Qed.

(** C4. Archiving in parts stores the file: for a non-empty source file of at
    most 5 TiB, while no allocation fails, the handler always returns, whatever
    the server and the reads do; no other object, no other open file, not
    [err_major] and no memory quota is touched; when it returns 0, the file was
    at least [st_size] long, the last thing done was a commit request, and if
    that was the only one and the server answered it with success, then the
    object's contents are exactly the first [st_size] bytes of the file. *)
Theorem ct_archive_data_big_stores ct_opt hcp key fd st hai f s :
  (forall n w, (malloc n w).2 = true) -> (forall w, false ∉ (small_mallocs w).2) ->
  open_files s !! fd = Some f -> 0 <= f_pos f -> fd <> 0 -> 0 < st_size st <= FIVE_TB ->
  exists s' rc, ct_archive_data_big ct_opt hcp key fd st hai s = Ret (s', rc)
    /\ within not_quota key fd s s' /\ (rc = 0 \/ rc = -1 \/ rc = - EIO)
    /\ (rc = 0 -> exists l n status,
          trace s' = trace s ++ l ++ [ACommit key n (Some status)]
          /\ st_size st <= Z.of_nat (length (f_data f))
          /\ (status = S3StatusOK -> Forall uploading l ->
              object (env s') key = Some (take (Z.to_nat (st_size st)) (f_data f)))).
Proof. apply archive_data_big_spec. Qed.
End BigFile.

End Archive.
