(* ===== verification/Handlers.v ===== *)
(** * lhsmtool_s3.c and ct_common.c: the action handlers

    [fid_parent], [ct_archive], [ct_restore], [ct_remove], [ct_cancel] and
    [ct_process_item]. *)

From Stdlib Require Import ZArith Lia.
From Stdlib Require Import Strings.Byte.
From stdpp Require Import base gmap list strings.
From S2P Require Import Prelude Posix S3Api Callbacks Copytool Paths Restore Archive.
Import Posix S3Api Callbacks Copytool Paths Restore Archive.

Module Handlers.

Local Open Scope Z_scope.

Section Operations.
Context {ST : S3Statuses} {W : Type} `{L : LibS3 W} `{LL : Llapi W} `{OS : Os W}
  {LC : LustreCodes}.
Context (ct_opt : ct_options) (path_prefix : string).

(** The parent directory of a file, [None] with the error. *)
Definition fid_parent (mnt : string) (fid : lustre_fid) (parent_len : Z)
    : M W (Z + string) :=
  r ← ask (llapi_fid2path mnt fid);
  let '(rc, file) := r in
  if bool_decide (rc < 0) then mret (inl rc)
  else
    let path := (mnt ++ "/" ++ file)%string in
    if bool_decide (Z.of_nat (String.length path) >= parent_len) then mret (inl (- ENAMETOOLONG))
    else
      let '(rc, parent) := cut_last path in
      mret (if bool_decide (rc < 0) then inl rc else inr parent).

(** A path buffer that was never written has no value ([None]). *)
Definition path_of (file_path : option string) : M W string := lift (defined file_path).

Definition full_path_of (file_path : option string) : M W string :=
  p ← path_of file_path; lift (sprintf_full_path ct_opt p).

(** [ct_archive] between the two labels: the result and [src_fd]. The parent
    directory is computed and not used. *)
Definition archive_file (hcp : option Z) (hai : hsm_action_item)
    (file_path : option string) : M W (Z * Z) :=
  _ ← fid_parent (o_mnt ct_opt) (hai_fid hai) PATH_MAX;
  if o_dry_run ct_opt then mret (0, -1)
  else
    src_fd ← ask (llapi_hsm_action_get_fd hcp);
    if bool_decide (src_fd < 0) then mret (src_fd, src_fd)
    else
      st ← ct_archive_check hai src_fd;
      match st with
      | None => mret (-1, src_fd)
      | Some src_st =>
          if bool_decide (st_size src_st > FIVE_TB) then mret (- EIO, src_fd)
          else
            full_path ← full_path_of file_path;
            obj_name ← lift (ct_target path_prefix full_path);
            match obj_name with
            | None => mret (0, src_fd)
            | Some obj_name =>
                rc ← (if bool_decide (u64 (st_size src_st) >= MAX_OBJ_SIZE_LEVEL) then
                        ct_archive_data_big ct_opt hcp obj_name src_fd src_st hai
                      else ct_archive_data hcp obj_name src_fd src_st hai);
                mret (rc, src_fd)
            end
      end.

(** [if (!(fd < 0)) close(fd)] *)
Definition close_fd (fd : Z) : M W unit :=
  if bool_decide (fd < 0) then mret tt else file_close fd.

Definition ct_archive (hai : hsm_action_item) (file_path : option string)
    : M W Z :=
  b ← ct_begin hai;
  let '(rc, hcp) := b in
  r ← (if bool_decide (rc < 0) then mret (rc, -1) else archive_file hcp hai file_path);
  let '(rc, src_fd) := r in
  _ ← incr_err_major;
  let hp_flags := if bool_decide (rc <> 0) && ct_is_retryable rc then HP_FLAG_RETRY else 0 in
  _ ← close_fd src_fd;
  rc_done ← ct_action_done hcp hai hp_flags rc;
  mret (Z.lor rc rc_done).

(** [ct_restore] from the begun action on: the result, [dst_fd] and [hp_flags]. *)
Definition restore_file (fuel : nat) (hcp : option Z) (hai : hsm_action_item)
    (file_path : option string) : M W (Z * Z * Z) :=
  d ← ask (llapi_hsm_action_get_dfid hcp);
  if bool_decide (d.1 < 0) then mret (d.1, -1, 0)
  else if o_dry_run ct_opt then mret (0, -1, 0)
  else
    dst_fd ← ask (llapi_hsm_action_get_fd hcp);
    if bool_decide (dst_fd < 0) then mret (dst_fd, dst_fd, 0)
    else
      file_path ← path_of file_path;
      rc ← ct_restore_data ct_opt path_prefix fuel hcp dst_fd hai file_path;
      if bool_decide (rc < 0) then
        _ ← incr_err_major;
        mret (rc, dst_fd, if ct_is_retryable rc then HP_FLAG_RETRY else 0)
      else mret (rc, dst_fd, 0).

Definition ct_restore (fuel : nat) (hai : hsm_action_item) (file_path : option string)
    : M W Z :=
  m ← ask (llapi_get_mdt_index_by_fid (o_mnt_fd ct_opt) (hai_fid hai));
  let '(rc, mdt_index) := m in
  if bool_decide (rc < 0) then mret rc
  else
    b ← ct_begin_restore hai mdt_index 0;
    let '(rc, hcp) := b in
    r ← (if bool_decide (rc < 0) then mret (rc, -1, 0)
         else restore_file fuel hcp hai file_path);
    let '(rc, dst_fd, hp_flags) := r in
    _ ← close_fd dst_fd;
    rc_done ← ct_action_done hcp hai hp_flags rc;
    mret (Z.lor rc rc_done).

(** One delete request; the status left in the client's data is the result. *)
Definition delete_request (object_name : string) (status : Z) : M W Z :=
  _ ← emit (ADelete object_name);
  request deleteResponseHandler (S3_delete_object object_name) status.

Definition ct_remove (hai : hsm_action_item) (file_path : option string) : M W Z :=
  b ← ct_begin hai;
  let '(rc, hcp) := b in
  rc ← (if bool_decide (rc < 0) then mret rc
        else if o_dry_run ct_opt then mret 0
        else
          object_name ← path_of file_path;
          status ← with_retries (delete_request object_name) S3_status_is_retryable 0;
          mret (if bool_decide (status <> S3StatusOK) then - EIO else rc));
  rc_done ← ct_action_done hcp hai 0 rc;
  mret (Z.lor rc rc_done).

Definition ct_cancel (hai : hsm_action_item) : M W Z := mret 0.

(** The switch of [ct_process_item]. *)
Definition dispatch (fuel : nat) (hai : hsm_action_item) (file_path : option string)
    : M W Z :=
  if bool_decide (hai_action hai = HSMA_ARCHIVE) then ct_archive hai file_path
  else if bool_decide (hai_action hai = HSMA_RESTORE) then ct_restore fuel hai file_path
  else if bool_decide (hai_action hai = HSMA_REMOVE) then ct_remove hai file_path
  else if bool_decide (hai_action hai = HSMA_CANCEL) then ct_cancel hai
  else _ ← ct_action_done None hai 0 (- EINVAL); mret (- EINVAL).

Definition ct_process_item (fuel : nat) (hai : hsm_action_item) : M W Z :=
  if bool_decide (hai_action hai <> HSMA_ARCHIVE) && bool_decide (hai_action hai <> HSMA_RESTORE)
  then _ ← ct_action_done None hai 0 (- EINVAL); mret 0
  else if bool_decide (o_verbose ct_opt >= LLAPI_MSG_INFO) || o_dry_run ct_opt then
    r ← ask (llapi_fid2path (o_mnt ct_opt) (hai_fid hai));
    let '(rc, file_path) := r in
    if bool_decide (rc < 0) then mret rc
    else dispatch fuel hai (Some file_path)
  else dispatch fuel hai None.
End Operations.

(** ** Every action is reported to the coordinator *)

Section Reports.
Context {ST : S3Statuses} {W : Type} {L : LibS3 W} {LL : Llapi W} {OS : Os W}
  {LC : LustreCodes}.
Context (ct_opt : ct_options) (path_prefix : string).

(** Not part of a report that an action has ended. *)
Definition not_end (a : act) : Prop :=
  match a with AEnd _ _ _ | ABegin true _ => False | _ => True end.

Lemma emits_progress hcp he total fl :
  emits not_end (llapi_hsm_action_progress_ex hcp he total fl : M W Z).
Proof. unfold llapi_hsm_action_progress_ex, msg_resend. by emits. Qed.

Lemma emits_begin hcp hai i fl :
  emits not_end (llapi_hsm_action_begin_ex hcp hai i fl false : M W _).
Proof. unfold llapi_hsm_action_begin_ex, msg_resend. by emits. Qed.

#[local] Hint Resolve emits_progress emits_begin : emits.

Lemma emits_archive_data hcp key fd st hai :
  emits not_end (ct_archive_data hcp key fd st hai : M W Z).
Proof.
  unfold ct_archive_data, ct_save_stripe, quota_mem_alloc, quota_mem_free, send_file,
    with_retries, put_request. by emits.
Qed.

Lemma emits_upload_parts n hcp key id data : forall seq chunk len total cl todo last m,
  emits not_end
    (upload_parts ct_opt n hcp key id data seq chunk len total cl todo last m : M W _).
Proof.
  induction n as [|n IH]; intros; cbn [upload_parts]; [apply emits_ret|].
  unfold with_retries, part_request, part_send, report_part. by emits.
Qed.

#[local] Hint Resolve emits_archive_data emits_upload_parts : emits.

Lemma emits_archive_data_big hcp key fd st hai :
  emits not_end (ct_archive_data_big ct_opt hcp key fd st hai : M W Z).
Proof.
  unfold ct_archive_data_big, start_and_upload, ct_save_stripe, with_retries, initiate_request,
    upload_and_commit, with_retries, commit_request, clean. by emits.
Qed.

#[local] Hint Resolve emits_archive_data_big : emits.

Lemma emits_archive_file hcp hai path :
  emits not_end (archive_file ct_opt path_prefix hcp hai path : M W _).
Proof.
  unfold archive_file, fid_parent, ct_archive_check, full_path_of, path_of. by emits.
Qed.

Lemma emits_get_loop fuel key : forall start r d,
  emits not_end (get_loop fuel key start r d : M W _).
Proof.
  induction fuel as [|fuel IH]; intros; cbn [get_loop]; [by intros ? ? ?|]. by emits.
Qed.

#[local] Hint Resolve emits_get_loop : emits.

Lemma emits_restore_data fuel hcp fd hai path :
  emits not_end (ct_restore_data ct_opt path_prefix fuel hcp fd hai path : M W Z).
Proof. unfold ct_restore_data, get_s3_object, report_restored. by emits. Qed.

Lemma emits_close_fd fd : emits not_end (close_fd fd : M W unit).
Proof. unfold close_fd. case_bool_decide; [apply emits_ret|by apply emits_file_close]. Qed.

(** What a run that reported its end has recorded: the handler's own calls [l],
    then one report, with the error [ct_rc]; the result says whether both the
    action and the report went well. *)
Definition reported (flags ct_rc rc : Z) (s s' : pst W) : Prop :=
  exists l tail rc_done, trace s' = trace s ++ l ++ tail /\ Forall not_end l
    /\ notified flags (Z.abs ct_rc) tail rc_done /\ rc = Z.lor ct_rc rc_done.

Lemma reported_after flags ct_rc hcp hai s s1 s' rc_done :
  logs not_end s s1 -> ct_action_done hcp hai flags ct_rc s1 = Ret (s', rc_done) ->
  reported flags ct_rc (Z.lor ct_rc rc_done) s s' /\ err_major s' = err_major s1.
Proof.
  intros (l & Hl & Hne) E. apply ct_action_done_notifies in E as (tail & Ht & Hn & Herr).
  split; [|done]. exists l, tail, rc_done. rewrite Ht, Hl, <- app_assoc. by split_and!.
Qed.

Lemma archive_reports hai path s s' rc :
  ct_archive ct_opt path_prefix hai path s = Ret (s', rc) ->
  exists ct_rc,
    reported (if bool_decide (ct_rc = - ETIMEDOUT) then HP_FLAG_RETRY else 0) ct_rc rc s s'
    /\ err_major s' = i32 (err_major s + 1).
Proof.
  unfold ct_archive. intros E. apply M_bind_inv in E as (s1 & [rc1 hcp] & E1 & E).
  apply M_bind_inv in E as (s2 & [rc2 fd] & E2 & E).
  apply M_bind_inv in E as (s3 & [] & E3 & E). apply M_bind_inv in E as (s4 & [] & E4 & E).
  apply M_bind_inv in E as (s5 & rc_done & E5 & [= <- <-]).
  apply emits_begin in E1 as [L1 R1].
  assert (logs not_end s1 s2 /\ err_major s2 = err_major s1) as [L2 R2].
  { destruct (bool_decide (rc1 < 0)); [by apply (emits_ret not_end) in E2|].
    by apply emits_archive_file in E2. }
  injection E3 as <-. apply emits_close_fd in E4 as [L4 R4]. cbn in R4.
  assert (logs not_end s s4) as Hlogs by (etrans; [exact L1|]; etrans; [exact L2|exact L4]).
  exists rc2. destruct (reported_after _ _ _ _ _ _ _ _ Hlogs E5) as [Hr Herr]. split; [|congruence].
  unfold ct_is_retryable, ETIMEDOUT in *. case_bool_decide; cbn [andb] in Hr; [done|].
  by assert (rc2 = 0) as -> by lia.
Qed.

(** C31. Every archive action is reported, once: whatever libs3, Lustre and the
    file do, a run of [ct_archive] that returns has ended with exactly one
    completed report (or the seven failed attempts at it), carrying the
    action's own result and the retry flag exactly for [-ETIMEDOUT]; no report
    was made before; the result is 0 only if the action and its report both
    succeeded; and [err_major] has grown by one, also after a success. *)
Theorem ct_archive_reports hai path s s' rc :
  ct_archive ct_opt path_prefix hai path s = Ret (s', rc) ->
  exists ct_rc,
    reported (if bool_decide (ct_rc = - ETIMEDOUT) then HP_FLAG_RETRY else 0) ct_rc rc s s'
    /\ err_major s' = i32 (err_major s + 1).
Proof. apply archive_reports. Qed.

Lemma restore_file_reports fuel hcp hai path s s' rc fd flags :
  restore_file ct_opt path_prefix fuel hcp hai path s = Ret (s', (rc, fd, flags)) ->
  logs not_end s s'
  /\ (flags = 0 \/ (rc = - ETIMEDOUT /\ flags = HP_FLAG_RETRY))
  /\ (err_major s' = err_major s \/ (rc < 0 /\ err_major s' = i32 (err_major s + 1))).
Proof.
  assert (forall s1 r f, logs not_end s s1 -> err_major s1 = err_major s ->
    Ret (s1, (r, f, 0)) = Ret (s', (rc, fd, flags)) ->
    logs not_end s s' /\ (flags = 0 \/ (rc = - ETIMEDOUT /\ flags = HP_FLAG_RETRY))
    /\ (err_major s' = err_major s \/ (rc < 0 /\ err_major s' = i32 (err_major s + 1)))) as Hret.
  { intros s1 r f Hl He [= <- _ _ <-]. split_and!; [done|by left|by left]. }
  unfold restore_file. intros E. apply M_bind_inv in E as (s1 & [r d] & E1 & E).
  apply (emits_ask not_end) in E1 as [L1 R1]. cbn [fst] in E.
  case_bool_decide; [by eapply Hret; [..|exact E]; congruence|]. destruct (o_dry_run ct_opt); [by eapply Hret; [..|exact E]; congruence|].
  apply M_bind_inv in E as (s2 & dst & E2 & E). apply (emits_ask not_end) in E2 as [L2 R2].
  assert (logs not_end s s2) as L12 by by etrans.
  case_bool_decide; [by eapply Hret; [..|exact E]; congruence|].
  apply M_bind_inv in E as (s3 & p & E3 & E). apply (emits_lift not_end) in E3 as [L3 R3].
  apply M_bind_inv in E as (s4 & rc4 & E4 & E). apply emits_restore_data in E4 as [L4 R4].
  assert (logs not_end s s4) as L14 by (etrans; [exact L12|by etrans]).
  case_bool_decide; [|by eapply Hret; [..|exact E]; congruence].
  injection E as <- <- _ <-. split_and!; [exact L14| |].
  - unfold ct_is_retryable. case_bool_decide; [by right|by left].
  - right. split; [done|]. cbn. congruence.
Qed.

Lemma restore_reports fuel hai path s s' rc :
  ct_restore ct_opt path_prefix fuel hai path s = Ret (s', rc) ->
  (trace s' = trace s /\ rc < 0)
  \/ exists flags ct_rc, reported flags ct_rc rc s s'
      /\ (flags = 0 \/ (ct_rc = - ETIMEDOUT /\ flags = HP_FLAG_RETRY))
      /\ (err_major s' = err_major s \/ (ct_rc < 0 /\ err_major s' = i32 (err_major s + 1))).
Proof.
  unfold ct_restore. intros E. apply M_bind_inv in E as (s0 & [rc0 mdt] & E0 & E).
  pose proof E0 as Hask. apply (emits_ask (fun _ => False)) in E0 as [(l0 & L0 & H0) R0].
  assert (l0 = []) as -> by (by destruct H0). rewrite app_nil_r in L0.
  case_bool_decide; [left; by injection E as <- <-|right].
  apply M_bind_inv in E as (s1 & [rc1 hcp] & E1 & E).
  apply M_bind_inv in E as (s2 & [[rc2 fd] flags] & E2 & E).
  apply M_bind_inv in E as (s4 & [] & E4 & E).
  apply M_bind_inv in E as (s5 & rc_done & E5 & [= <- <-]).
  apply emits_begin in E1 as [L1 R1]. apply emits_close_fd in E4 as [L4 R4].
  assert (logs not_end s1 s2
    /\ (flags = 0 \/ (rc2 = - ETIMEDOUT /\ flags = HP_FLAG_RETRY))
    /\ (err_major s2 = err_major s1 \/ (rc2 < 0 /\ err_major s2 = i32 (err_major s1 + 1))))
    as (L2 & Hfl & R2).
  { destruct (bool_decide (rc1 < 0)); [|by apply restore_file_reports in E2].
    injection E2 as <- <- <- <-. split_and!; [|by left|by left].
    exists []. by rewrite app_nil_r. }
  assert (logs not_end s s4) as Hlogs.
  { etrans; [|etrans; [exact L1|etrans; [exact L2|exact L4]]]. exists []. by rewrite app_nil_r. }
  exists flags, rc2. destruct (reported_after _ _ _ _ _ _ _ _ Hlogs E5) as [Hr Herr].
  split_and!; [done|done|]. rewrite Herr, R4, <- R0, <- R1. done.
Qed.

(** What is reported of an item, and returned for it. *)
Definition item_reported (hai : hsm_action_item) (s s' : pst W) (rc : Z) : Prop :=
  (hai_action hai <> HSMA_ARCHIVE /\ hai_action hai <> HSMA_RESTORE /\ rc = 0
     /\ exists tail rc_done, trace s' = trace s ++ tail /\ notified 0 EINVAL tail rc_done)
  \/ (trace s' = trace s /\ rc < 0)
  \/ exists flags ct_rc, reported flags ct_rc rc s s'.

Lemma process_item_reports fuel hai s s' rc :
  ct_process_item ct_opt path_prefix fuel hai s = Ret (s', rc) -> item_reported hai s s' rc.
Proof.
  assert (forall p s1, trace s1 = trace s -> hai_action hai = HSMA_ARCHIVE \/ hai_action hai = HSMA_RESTORE ->
    dispatch ct_opt path_prefix fuel hai p s1 = Ret (s', rc) ->
    (trace s' = trace s /\ rc < 0) \/ exists flags ct_rc, reported flags ct_rc rc s s') as Hdisp.
  { intros p s1 Ht Hact E. unfold dispatch in E. unfold reported. rewrite <- Ht.
    case_bool_decide.
    - apply archive_reports in E as (ct_rc & Hr & _). right. by eexists _, ct_rc.
    - rewrite bool_decide_eq_true_2 in E by naive_solver.
      apply restore_reports in E as [?|(fl & ct_rc & Hr & _)]; [by left|right].
      by exists fl, ct_rc. }
  unfold ct_process_item, item_reported. intros E.
  case_bool_decide as Ha; cbn [andb] in E; [case_bool_decide as Hb|].
  - apply M_bind_inv in E as (s1 & r & E1 & [= <- <-]).
    apply ct_action_done_notifies in E1 as (tail & Ht & Hn & _).
    left. split_and!; [done|done|done|by exists tail, r].
  - right. destruct (bool_decide _ || o_dry_run ct_opt).
    + apply M_bind_inv in E as (s1 & [r p] & E1 & E).
      apply (emits_ask (fun _ => False)) in E1 as [(l0 & L0 & H0) _].
      assert (l0 = []) as -> by (by destruct H0). rewrite app_nil_r in L0.
      case_bool_decide; [injection E as <- <-; by left|]. eapply Hdisp, E; [done|].
      by right.
    + eapply Hdisp, E; [done|]. by right.
  - right. destruct (bool_decide _ || o_dry_run ct_opt).
    + apply M_bind_inv in E as (s1 & [r p] & E1 & E).
      apply (emits_ask (fun _ => False)) in E1 as [(l0 & L0 & H0) _].
      assert (l0 = []) as -> by (by destruct H0). rewrite app_nil_r in L0.
      case_bool_decide; [injection E as <- <-; by left|]. eapply Hdisp, E; [done|].
      by left.
    + eapply Hdisp, E; [done|]. by left.
Qed.

(** *** Below the INFO level *)

Definition no_transfer (a : act) : Prop :=
  match a with
  | APut _ _ | AGet _ _ _ | ADelete _ | AInitiate _ | AUploadPart _ _ _ | ACommit _ _ _ => False
  | _ => True
  end.

Lemma emits_no_path {A} P (f : string -> M W A) : emits P (full_path_of ct_opt None ≫= f).
Proof. by intros s s' a. Qed.

Lemma emits_no_path' {A} P (f : string -> M W A) : emits P (path_of None ≫= f).
Proof. by intros s s' a. Qed.

Lemma quiet_begin hcp hai i fl e :
  emits no_transfer (llapi_hsm_action_begin_ex hcp hai i fl e : M W _).
Proof. unfold llapi_hsm_action_begin_ex, msg_resend. by emits. Qed.

#[local] Hint Resolve quiet_begin emits_no_path emits_no_path' : emits.

Lemma quiet_done hcp hai fl rc : emits no_transfer (ct_action_done hcp hai fl rc : M W _).
Proof. unfold ct_action_done, end_action, msg_resend. by emits. Qed.

#[local] Hint Resolve quiet_done : emits.

Lemma quiet_archive_file hcp hai :
  o_dry_run ct_opt = false ->
  emits no_transfer (archive_file ct_opt path_prefix hcp hai None : M W _).
Proof. intros Hd. unfold archive_file, fid_parent, ct_archive_check. rewrite Hd. by emits. Qed.

Lemma quiet_restore_file fuel hcp hai :
  o_dry_run ct_opt = false ->
  emits no_transfer (restore_file ct_opt path_prefix fuel hcp hai None : M W _).
Proof. intros Hd. unfold restore_file. rewrite Hd. by emits. Qed.

Lemma quiet_close fd : emits no_transfer (close_fd fd : M W unit).
Proof. unfold close_fd. case_bool_decide; [apply emits_ret|by apply emits_file_close]. Qed.

Lemma quiet_dispatch fuel hai s s' rc :
  o_dry_run ct_opt = false ->
  dispatch ct_opt path_prefix fuel hai None s = Ret (s', rc) -> logs no_transfer s s'.
Proof.
  intros Hd. unfold dispatch, ct_archive, ct_restore, ct_remove, ct_begin, ct_begin_restore.
  case_bool_decide; [|case_bool_decide; [|case_bool_decide; [|case_bool_decide]]]; intros E.
  - apply M_bind_inv in E as (s1 & [rc1 hcp] & E1 & E).
    apply M_bind_inv in E as (s2 & [rc2 fd] & E2 & E).
    apply M_bind_inv in E as (s3 & [] & [= <-] & E).
    apply M_bind_inv in E as (s4 & [] & E4 & E).
    apply M_bind_inv in E as (s5 & rc_done & E5 & [= <- _]).
    apply quiet_begin in E1 as [L1 _]. apply quiet_close in E4 as [L4 _].
    apply quiet_done in E5 as [L5 _].
    assert (logs no_transfer s1 s2) as L2.
    { destruct (bool_decide (rc1 < 0)); [by apply (emits_ret no_transfer) in E2 as []|].
      by apply quiet_archive_file in E2 as []. }
    etrans; [exact L1|]. etrans; [exact L2|]. by etrans; [exact L4|].
  - eapply (emits_bind no_transfer); [apply emits_ask| |exact E]. intros [rc1 mdt].
    case_bool_decide; [apply emits_ret|]. pose proof quiet_close. pose proof quiet_restore_file.
    emits; eauto.
  - eapply (emits_bind no_transfer); [apply quiet_begin| |exact E]. by emits.
  - by apply (emits_ret no_transfer) in E as [].
  - eapply (emits_bind no_transfer); [apply quiet_done| |exact E]. intros. apply emits_ret.
Qed.

(** C33. With a verbosity below INFO the copytool transfers nothing: outside dry
    runs, the path of the file is then never looked up, and a run of
    [ct_process_item] either makes no S3 request at all or reads the
    uninitialised path buffer (and the run is undefined). *)
Theorem ct_process_item_quiet fuel hai s s' rc :
  o_verbose ct_opt < LLAPI_MSG_INFO -> o_dry_run ct_opt = false ->
  ct_process_item ct_opt path_prefix fuel hai s = Ret (s', rc) -> logs no_transfer s s'.
Proof.
  intros Hv Hd. unfold ct_process_item.
  rewrite (bool_decide_eq_false_2 (o_verbose ct_opt >= _)), Hd by lia. cbn [orb].
  destruct (_ && _); [|intros E; by eapply quiet_dispatch].
  intros E. eapply (emits_bind no_transfer); [apply quiet_done| |exact E].
  intros. apply emits_ret.
Qed.
End Reports.

(** ** A successful archive *)

Section Success.
Context {ST : S3Statuses} {LAWS : S3StatusLaws ST} {W : Type} {L : LibS3 W}
  {LO : LibS3Objects W ST L} {LM : LibS3Multipart W ST L} {LL : Llapi W} {OS : Os W}
  {LC : LustreCodes} {ISO : Isolated W}.
Context (ct_opt : ct_options) (path_prefix : string) (fd : Z) (st : stat).

(** The action's file has descriptor [fd] and status [st]; if it is large, no allocation fails. *)
Hypothesis fd_given : forall hcp w, (llapi_hsm_action_get_fd hcp w).2 = fd.
Hypothesis stat_given : forall w, (fstat fd w).2 = inr st.
Hypothesis malloc_ok : MAX_OBJ_SIZE_LEVEL <= st_size st -> forall n w, (malloc n w).2 = true.
Hypothesis small_malloc_ok : MAX_OBJ_SIZE_LEVEL <= st_size st -> forall w, false ∉ (small_mallocs w).2.

(** The file's bytes are where they belong. *)
Definition archived (key : string) (hai : hsm_action_item) (data : list byte) (s s' : pst W)
    : Prop :=
  (st_size st < MAX_OBJ_SIZE_LEVEL
   /\ object (env s') key = Some (take (Z.to_nat (extent_length hai st)) data))
  \/ (MAX_OBJ_SIZE_LEVEL <= st_size st
      /\ exists l n status tail, trace s' = trace s ++ l ++ [ACommit key n (Some status)] ++ tail
        /\ (status = S3StatusOK -> Forall uploading l ->
            object (env s') key = Some (take (Z.to_nat (st_size st)) data))).

Lemma archived_after key hai data s s1 s2 s3 :
  logs uploading s s1 -> (exists l, trace s3 = trace s2 ++ l) ->
  object (env s3) = object (env s2) -> archived key hai data s1 s2 -> archived key hai data s s3.
Proof.
  intros (l0 & Hl0 & Hup) (l3 & Hl3) Ho [[Hs H]|(Hs & l & n & stt & tail & Ht & H)]; [left|right].
  - by rewrite Ho.
  - split; [done|]. exists (l0 ++ l), n, stt, (tail ++ l3). rewrite Hl3, Ht, Hl0, Ho.
    rewrite <- !app_assoc. split; [done|]. intros Hok [_ Hl]%Forall_app. by apply H.
Qed.

(** The choice of the upload and its success. *)
Lemma store_success hcp key hai f s s' rc :
  (if bool_decide (u64 (st_size st) >= MAX_OBJ_SIZE_LEVEL) then
     ct_archive_data_big ct_opt hcp key fd st hai
   else ct_archive_data hcp key fd st hai) s = Ret (s', rc) -> rc = 0 ->
  open_files s !! fd = Some f -> f_pos f = 0 -> 0 < fd -> 0 <= st_size st <= FIVE_TB ->
  0 <= ext_offset (hai_extent hai) <= st_size st -> 0 <= ext_length (hai_extent hai) ->
  archived key hai (f_data f) s s'.
Proof.
  intros E -> Hf Hpos Hfd Hsz Ho Hl. unfold FIVE_TB in Hsz.
  rewrite u64_id in E by (unfold two64; lia). unfold archived, MAX_OBJ_SIZE_LEVEL in *.
  case_bool_decide as Hbig.
  - destruct (archive_data_big_spec ct_opt hcp key fd st hai f s (malloc_ok ltac:(unfold MAX_OBJ_SIZE_LEVEL in *; lia)) (small_malloc_ok ltac:(unfold MAX_OBJ_SIZE_LEVEL in *; lia)) Hf)
      as (s2 & rc & E2 & _ & _ & Hok); [lia|lia|unfold FIVE_TB; lia|].
    rewrite E in E2. injection E2 as <- <-. right. split; [lia|].
    destruct (Hok eq_refl) as (l & n & status & Ht & _ & Hobj). exists l, n, status, [].
    rewrite app_nil_r. by split.
  - destruct (archive_data_spec hcp key fd st hai f s Hf) as (s2 & rc & E2 & _ & _ & _ & Hok);
      [lia|lia|lia|done|].
    rewrite E in E2. injection E2 as <- <-. left. split; [lia|].
    destruct (Hok eq_refl) as [_ Hobj]. unfold next_bytes in Hobj. by rewrite Hpos in Hobj.
Qed.

(** The upload returns. *)
Lemma store_returns hcp key hai f s :
  open_files s !! fd = Some f -> 0 <= f_pos f -> 0 < fd -> 0 <= st_size st <= FIVE_TB ->
  0 <= ext_offset (hai_extent hai) <= u64 (st_size st) -> 0 <= ext_length (hai_extent hai) ->
  exists s' rc,
    (if bool_decide (u64 (st_size st) >= MAX_OBJ_SIZE_LEVEL) then
       ct_archive_data_big ct_opt hcp key fd st hai
     else ct_archive_data hcp key fd st hai) s = Ret (s', rc).
Proof.
  intros Hf Hp Hfd Hsz Ho Hl. unfold FIVE_TB in Hsz. rewrite u64_id in * by (unfold two64; lia).
  unfold MAX_OBJ_SIZE_LEVEL. case_bool_decide.
  - destruct (archive_data_big_spec ct_opt hcp key fd st hai f s (malloc_ok ltac:(unfold MAX_OBJ_SIZE_LEVEL in *; lia)) (small_malloc_ok ltac:(unfold MAX_OBJ_SIZE_LEVEL in *; lia)) Hf)
      as (s2 & rc & E2 & _); [lia|lia|unfold FIVE_TB; lia|]. by eexists _, _.
  - destruct (archive_data_spec hcp key fd st hai f s Hf) as (s2 & rc & E2 & _);
      [lia|lia|lia|lia|]. by eexists _, _.
Qed.

(** What the check lets through. *)
Lemma archive_check hai s s' ost :
  ct_archive_check hai fd s = Ret (s', ost) ->
  only uploading s s'
  /\ (ost = None \/ (ost = Some st /\ ext_offset (hai_extent hai) <= u64 (st_size st))).
Proof.
  unfold ct_archive_check. intros E. apply M_bind_inv in E as (s1 & r & E & E').
  apply (ask_only uploading) in E as [O Hr]; [|apply fstat_apart].
  rewrite stat_given in Hr. subst r. injection E' as <- <-. split; [done|].
  destruct (negb _); [by left|]. case_bool_decide; [by left|right; split; [done|lia]].
Qed.

Lemma archive_file_success hcp hai path f s s' fd' :
  archive_file ct_opt path_prefix hcp hai (Some path) s = Ret (s', (0, fd')) ->
  o_dry_run ct_opt = false -> open_files s !! fd = Some f -> f_pos f = 0 -> 0 < fd ->
  0 <= st_size st -> 0 <= ext_offset (hai_extent hai) -> 0 <= ext_length (hai_extent hai) ->
  exists full, sprintf_full_path ct_opt path = Ret full
    /\ ((ct_target path_prefix full = Ret None /\ object (env s') = object (env s))
        \/ exists key, ct_target path_prefix full = Ret (Some key)
           /\ archived key hai (f_data f) s s').
Proof.
  intros E Hd Hf Hpos Hfd Hsz Ho Hl. unfold archive_file in E. rewrite Hd in E.
  apply M_bind_inv in E as (s1 & p & E1 & E). unfold fid_parent in E1.
  apply M_bind_inv in E1 as (s0 & [prc file] & E0 & E1).
  apply (ask_only uploading) in E0 as [O0 _]; [|apply fid2path_apart].
  assert (s1 = s0) as ->.
  { repeat case_match; by injection E1. }
  clear E1. apply M_bind_inv in E as (s2 & fd2 & E2 & E).
  apply (ask_only uploading) in E2 as [O2 Hfd2]; [|apply get_fd_apart].
  rewrite fd_given in Hfd2. subst fd2. rewrite bool_decide_eq_false_2 in E by lia.
  apply M_bind_inv in E as (s4 & ost & E3 & E). apply archive_check in E3 as [O3 Host].
  assert (only uploading s s4) as Oall by (do 2 (etrans; [eassumption|]); done).
  destruct Host as [->|[-> Hoff]]; [discriminate|].
  case_bool_decide as Htb; [discriminate|].
  apply M_bind_inv in E as (s5 & full & E5 & E).
  unfold full_path_of in E5. apply M_bind_inv in E5 as (s6 & q & [= <- <-] & E5).
  unfold lift in E5.
  destruct (sprintf_full_path ct_opt path) as [full'| |] eqn:Efull; try discriminate.
  injection E5 as <- ->. exists full. split; [done|].
  apply M_bind_inv in E as (s6 & oname & E6 & E). unfold lift in E6.
  destruct (ct_target path_prefix full) as [name| |]; try discriminate.
  injection E6 as <- ->. destruct oname as [key|].
  - right. exists key. split; [done|]. apply M_bind_inv in E as (s7 & rc & E7 & [= <- -> _]).
    unfold FIVE_TB in Htb. rewrite u64_id in Hoff by (unfold two64; lia).
    eapply (archived_after key hai _ s s4 s7 s7); [apply Oall|by exists []; rewrite app_nil_r|done|].
    eapply store_success; [exact E7|done| |done|done|unfold FIVE_TB; lia|lia|done].
    by rewrite (only_files _ _ _ Oall).
  - left. injection E as <- _. split; [done|]. apply Oall.
Qed.

(** What an archive needs in order to return, when it is no dry run: its path fits, and the
    file is open at its start. *)
Definition archivable (hai : hsm_action_item) (path : string) (s : pst W) : Prop :=
  (exists full target, sprintf_full_path ct_opt path = Ret full /\ ct_target path_prefix full = Ret target)
  /\ (exists f, open_files s !! fd = Some f /\ 0 <= f_pos f)
  /\ 0 < fd /\ 0 <= st_size st /\ 0 <= ext_offset (hai_extent hai) /\ 0 <= ext_length (hai_extent hai).

Lemma archivable_only P hai path s s' : only P s s' -> archivable hai path s -> archivable hai path s'.
Proof.
  intros O (H1 & (f & Hf & Hp) & H2). split_and!; [done| |apply H2..]. exists f. by rewrite (only_files _ _ _ O).
Qed.

(** The handler's middle part returns. *)
Lemma archive_file_returns hcp hai path s :
  (o_dry_run ct_opt = false -> archivable hai path s) ->
  exists s' r, archive_file ct_opt path_prefix hcp hai (Some path) s = Ret (s', r).
Proof.
  intros Harc. unfold archive_file.
  assert (does any_act (fid_parent (W := W) (o_mnt ct_opt) (hai_fid hai) PATH_MAX)) as Hparent.
  { apply does_bind; [apply does_ask, fid2path_apart|]. intros [rc file].
    cbv zeta. repeat case_match; apply does_ret. }
  destruct (Hparent s) as (s1 & x & E1 & O1). erewrite M_bind_Ret by exact E1.
  destruct (o_dry_run ct_opt); [by eexists _, _|].
  destruct (Harc eq_refl) as ((full & target & Hfull & Htarget) & (f & Hf & Hpos) & Hfd & Hsz & Ho & Hl).
  destruct (does_ask any_act _ (get_fd_apart hcp) s1) as (s2 & fd' & E2 & O2).
  erewrite M_bind_Ret by exact E2.
  pose proof (ask_only any_act _ _ _ _ (get_fd_apart hcp) E2) as [_ ->]. rewrite fd_given.
  rewrite bool_decide_eq_false_2 by lia.
  assert (does any_act (ct_archive_check (W := W) hai fd)) as Hcheck
    by (apply does_bind; [apply does_ask, fstat_apart|intros; apply does_ret]).
  destruct (Hcheck s2) as (s3 & ost & E3 & O3). erewrite M_bind_Ret by exact E3.
  apply archive_check in E3 as [_ Host].
  destruct Host as [->|[-> Hoff]]; [by eexists _, _|]. case_bool_decide; [by eexists _, _|].
  assert (full_path_of ct_opt (Some path) s3 = Ret (s3, full)) as Epath
    by (unfold full_path_of, path_of; erewrite M_bind_Ret by reflexivity; unfold lift; by rewrite Hfull).
  erewrite M_bind_Ret by exact Epath.
  assert (lift (ct_target path_prefix full) s3 = Ret (s3, target)) as Etarget
    by (unfold lift; by rewrite Htarget).
  erewrite M_bind_Ret by exact Etarget.
  destruct target as [key|]; [|by eexists _, _].
  assert (open_files s3 !! fd = Some f) as Hf3
    by (by rewrite (only_files _ _ _ O3), (only_files _ _ _ O2), (only_files _ _ _ O1)).
  destruct (store_returns hcp key hai f s3 Hf3) as (s4 & rc & E4); [lia..|].
  erewrite M_bind_Ret by exact E4. by eexists _, _.
Qed.

(** A run that returns 0 has stored the file. *)
Lemma archive_success hai path f s s' :
  ct_archive ct_opt path_prefix hai (Some path) s = Ret (s', 0) ->
  o_dry_run ct_opt = false -> open_files s !! fd = Some f -> f_pos f = 0 -> 0 < fd ->
  0 <= st_size st -> 0 <= ext_offset (hai_extent hai) -> 0 <= ext_length (hai_extent hai) ->
  exists full, sprintf_full_path ct_opt path = Ret full
    /\ ((ct_target path_prefix full = Ret None /\ object (env s') = object (env s))
        \/ exists key, ct_target path_prefix full = Ret (Some key)
           /\ archived key hai (f_data f) s s').
Proof.
  unfold ct_archive. intros E Hd Hf Hpos Hfd Hsz Ho Hl.
  apply M_bind_inv in E as (s1 & [rc1 hcp] & E1 & E).
  apply M_bind_inv in E as (s2 & [rc2 fd2] & E2 & E).
  apply M_bind_inv in E as (s3 & [] & [= <-] & E).
  apply M_bind_inv in E as (s4 & [] & E4 & E).
  apply M_bind_inv in E as (s5 & rc_done & E5 & [= <- Hrc]).
  apply Z.lor_eq_0_iff in Hrc as [-> ->].
  pose proof (keeps_begin _ _ _ _ _ _ _ _ E1) as [F1 O1].
  pose proof (keeps_action_done _ _ _ _ _ _ _ E5) as [_ O5].
  apply ct_action_done_notifies in E5 as (t5 & T5 & _ & _).
  assert (object (env s4) = object (env s2) /\ exists l, trace s4 = trace s2 ++ l) as [O4 [t4 T4]].
  { unfold close_fd in E4. case_bool_decide; injection E4 as <-; cbn; split; try done.
    - exists []. by rewrite app_nil_r.
    - by eexists. }
  apply begin_attempts in E1 as (t1 & T1 & (rcs & -> & _) & _).
  assert (logs uploading s s1) as L1.
  { eexists. split; [exact T1|]. apply Forall_app. split; [by apply Forall_fmap, Forall_true|].
    by constructor. }
  destruct (bool_decide (rc1 < 0)) eqn:Eneg.
  { injection E2 as _ ->. apply bool_decide_eq_true in Eneg. lia. }
  destruct (archive_file_success hcp hai path f s1 s2 fd2 E2) as (full & Efull & Hcase);
    try done; [by rewrite F1|].
  exists full. split; [done|]. destruct Hcase as [[Ht Hobj]|(key & Ht & Har)]; [left|right].
  - split; [done|]. congruence.
  - exists key. split; [done|]. eapply (archived_after key hai _ s s1 s2); [done| |congruence|done].
    exists (t4 ++ t5). by rewrite T5, T4, app_assoc.
Qed.

(** The whole handler returns. *)
Lemma archive_returns hai path s :
  begin_gives -> (o_dry_run ct_opt = false -> archivable hai path s) ->
  exists s' rc, ct_archive ct_opt path_prefix hai (Some path) s = Ret (s', rc).
Proof.
  intros Hb Harc. unfold ct_archive.
  destruct (does_begin None hai (-1) 0 false s) as (s1 & [rc hcp] & E1 & O1).
  erewrite M_bind_Ret by exact E1.
  assert (exists s2 r, (if bool_decide (rc < 0) then mret (rc, -1)
    else archive_file ct_opt path_prefix hcp hai (Some path)) s1 = Ret (s2, r))
    as (s2 & [rc2 fd2] & E2).
  { case_bool_decide; [by eexists _, _|].
    apply archive_file_returns. intros Hd. by eapply archivable_only, Harc. }
  erewrite M_bind_Ret by exact E2. cbv beta iota zeta. erewrite M_bind_Ret by reflexivity.
  assert (exists s3, close_fd fd2 (mk_pst (env s2) (open_files s2) (trace s2)
    (i32 (err_major s2 + 1))) = Ret (s3, tt)) as [s3 E3]
    by (unfold close_fd; destruct (bool_decide (fd2 < 0)); eexists; reflexivity).
  erewrite M_bind_Ret by exact E3.
  destruct (does_action_done hcp hai (if bool_decide (rc2 <> 0) && ct_is_retryable rc2
    then HP_FLAG_RETRY else 0) rc2 Hb s3) as (s4 & rc4 & E4 & _).
  erewrite M_bind_Ret by exact E4. by eexists _, _.
Qed.

End Success.

End Handlers.
