(* ===== verification/RequestControl.v ===== *)
(** * ct_common.c: worker threads, the request semaphore and shutdown

    [ct_run]'s message loop, [ct_request_ctl], [ct_process_item_async],
    [ct_thread] and the signal [handler], as one step relation over the main
    thread, the workers and the shared [hsm_req_sem] and [stop_it]. Each step is
    one access to shared state. What a worker does between its start and its
    [sem_post] is the subject of Handlers.v. *)

From Stdlib Require Import ZArith Lia.
From stdpp Require Import base gmap list relations.
From S2P Require Import Prelude.

Module RequestControl.

Local Open Scope Z_scope.

(** ** State *)

(** Where the main thread is. [os] are the offsets, in the message, of the
    items still to come, [size] is the message's size. *)
Inductive main_pc :=
  | Receiving                           (* before [llapi_hsm_copytool_recv] *)
  | Looking (size : Z) (os : list Z)    (* at the head of the item loop *)
  | Controlling (size : Z) (os : list Z) (* entering [ct_request_ctl] *)
  | Waiting (size : Z) (os : list Z)    (* before [sem_timedwait] *)
  | Acquired (size : Z) (os : list Z)   (* [sem_timedwait] returned 0 *)
  | TimedOut (size : Z) (os : list Z)   (* it failed *)
  | Counting (size : Z) (os : list Z)   (* stopping: before [sem_getvalue] *)
  | Spawning (token : bool) (size : Z) (os : list Z) (* before [ct_process_item_async] *)
  | Spawned (size : Z) (os : list Z)    (* at [if (o_abort_on_error && err_major)] *)
  | Ended                               (* after the item loop *)
  | Leaving.                            (* after the message loop *)

(** A worker thread: whether its item took a permit of the semaphore, and
    whether the thread is interrupted by the signal handler. *)
Record worker := mk_worker { has_permit : bool; in_handler : bool }.

Inductive exit_kind := ByHandler | ByReturn.

Record config := mk_config {
  sem : Z;
  stop_it : bool;
  err_major : Z;
  main : main_pc;
  main_in_handler : bool;
  workers : gmap nat worker;
  exited : option exit_kind
}.

Definition initial (max_requests : Z) : config :=
  mk_config max_requests false 0 Receiving false ∅ None.

Definition goto (pc : main_pc) (c : config) : config :=
  mk_config (sem c) (stop_it c) (err_major c) pc (main_in_handler c) (workers c) (exited c).

(** [sem_post], and a successful wait *)
Definition sem_post (c : config) : config :=
  mk_config (sem c + 1) (stop_it c) (err_major c) (main c) (main_in_handler c) (workers c)
    (exited c).
Definition sem_take (c : config) : config :=
  mk_config (sem c - 1) (stop_it c) (err_major c) (main c) (main_in_handler c) (workers c)
    (exited c).

Definition add_errors (n : Z) (c : config) : config :=
  mk_config (sem c) (stop_it c) (err_major c + n) (main c) (main_in_handler c) (workers c)
    (exited c).

Definition with_workers (ws : gmap nat worker) (c : config) : config :=
  mk_config (sem c) (stop_it c) (err_major c) (main c) (main_in_handler c) ws (exited c).

Definition exit_process (k : exit_kind) (c : config) : config :=
  mk_config (sem c) (stop_it c) (err_major c) (main c) (main_in_handler c) (workers c) (Some k).

(** The signal handler starts: [stop_it = true]. *)
Definition interrupt_main (c : config) : config :=
  mk_config (sem c) true (err_major c) (main c) true (workers c) (exited c).
Definition interrupt_worker (i : nat) (w : worker) (c : config) : config :=
  mk_config (sem c) true (err_major c) (main c) (main_in_handler c)
    (<[i := mk_worker (has_permit w) true]> (workers c)) (exited c).

Section Steps.
(** Whether a signal may be delivered to a worker thread. *)
Context (max_requests : Z) (abort_on_error : bool) (worker_signals : bool).

Definition aborting (c : config) : bool :=
  abort_on_error && bool_decide (err_major c <> 0).

(** *** The main thread's own steps, one per place in the code *)

(** Whether [sem_timedwait] timed out, whether the thread could be created,
    and what was received, are not the code's to choose. *)
Inductive received :=
  | Shutdown
  | Unusable                        (* an error, or a foreign file system *)
  | Message (size : Z) (os : list Z).

Record choice := mk_choice {
  ch_received : received;
  ch_timeout : bool;
  ch_create_fails : bool;
  ch_thread : nat
}.

Definition main_step (ch : choice) (c : config) : option config :=
  match main c with
  | Receiving =>
      match ch_received ch with
      | Shutdown => Some (goto Leaving c)
      | Unusable =>
          Some (goto (if abort_on_error then Leaving else Receiving) (add_errors 1 c))
      | Message size os => Some (goto (Looking size os) c)
      end
  | Looking size [] => Some (goto Ended c)
  | Looking size (o :: os) =>
      if bool_decide (o > size) then Some (goto Ended (add_errors 1 c))
      else Some (goto (Controlling size os) c)
  | Controlling size os =>
      Some (goto (if stop_it c then Spawning false size os else Waiting size os) c)
  | Waiting size os =>
      if ch_timeout ch then Some (goto (TimedOut size os) c)
      else if bool_decide (0 < sem c) then Some (goto (Acquired size os) (sem_take c))
      else None
  | Acquired size os =>
      if stop_it c then Some (goto (Counting size os) (sem_post c))
      else Some (goto (Spawning true size os) c)
  | TimedOut size os =>
      Some (goto (if stop_it c then Counting size os else Waiting size os) c)
  | Counting size os =>
      Some (goto (if bool_decide (sem c < max_requests) then Waiting size os
                  else Spawning false size os) c)
  | Spawning token size os =>
      if ch_create_fails ch then Some (goto (Spawned size os) (sem_post c))
      else
        match workers c !! ch_thread ch with
        | Some _ => None
        | None =>
            Some (goto (Spawned size os)
                    (with_workers (<[ch_thread ch := mk_worker token false]> (workers c)) c))
        end
  | Spawned size os => Some (goto (if aborting c then Ended else Looking size os) c)
  | Ended =>
      Some (goto (if stop_it c then Leaving else if aborting c then Leaving else Receiving) c)
  | Leaving => Some (exit_process ByReturn c)
  end.

(** *** All threads *)

Inductive step (c : config) : config -> Prop :=
  | st_main ch c' :
      exited c = None -> main_in_handler c = false -> main_step ch c = Some c' -> step c c'
  | st_done i w n :
      exited c = None -> workers c !! i = Some w -> in_handler w = false -> 0 <= n <= 1 ->
      step c (sem_post (add_errors n (with_workers (delete i (workers c)) c)))
  | st_signal_main :
      exited c = None -> step c (interrupt_main c)
  | st_signal_worker i w :
      worker_signals = true -> exited c = None -> workers c !! i = Some w ->
      step c (interrupt_worker i w c)
  | st_handler_exits :
      exited c = None ->
      main_in_handler c = true \/ (exists i w, workers c !! i = Some w /\ in_handler w = true) ->
      max_requests <= sem c ->
      step c (exit_process ByHandler c).

Definition reachable (c : config) : Prop := rtc step (initial max_requests) c.
End Steps.

(** ** Accounting of the permits *)

(** Permits held by the main thread itself: [sem_timedwait] has succeeded, and the thread
    for the item is not there yet. *)
Definition permits_in_hand (pc : main_pc) : Z :=
  match pc with Acquired _ _ | Spawning true _ _ => 1 | _ => 0 end.

(** Items received that no thread works on yet. *)
Definition unstarted (pc : main_pc) : nat :=
  match pc with
  | Looking _ os | Spawned _ os => length os
  | Controlling _ os | Waiting _ os | Acquired _ os | TimedOut _ os | Counting _ os
  | Spawning _ _ os => S (length os)
  | Receiving | Ended | Leaving => 0
  end.

(** Every permit is in the semaphore, with a worker or in the main thread's hand. *)
Record balanced (max_requests : Z) (c : config) : Prop := {
  bl_sum : sem c + Z.of_nat (size (workers c)) + permits_in_hand (main c) = max_requests;
  bl_sem : 0 <= sem c;
  bl_spawning : forall size os, main c <> Spawning false size os;
  bl_counting : forall size os, main c <> Counting size os
}.

Section Safety.
Context (max_requests : Z) (abort_on_error : bool).

Lemma main_step_balanced ch c c' :
  stop_it c = false -> balanced max_requests c ->
  main_step max_requests abort_on_error ch c = Some c' ->
  balanced max_requests c' /\ stop_it c' = false /\ main_in_handler c' = main_in_handler c.
Proof.
  intros Hstop [Hsum Hsem Hsp Hcnt] E. unfold main_step in E.
  destruct (main c) as [|sz [|o os]|sz os|sz os|sz os|sz os|sz os|tok sz os|sz os| |] eqn:Epc;
    cbn [permits_in_hand] in Hsum; rewrite ?Hstop in E; try (by destruct (Hcnt sz os)).
  all: repeat (case_match || case_bool_decide); try discriminate; injection E as <-;
    (split; [|done]); split; cbn [goto sem_take sem_post add_errors exit_process with_workers
      main sem workers permits_in_hand]; rewrite ?Epc; cbn [permits_in_hand]; try lia; try done.
  all: destruct tok; [|by destruct (Hsp sz os)]; try lia.
  all: rewrite map_size_insert_None by done; lia.
Qed.

Lemma main_step_workers ch c c' :
  main_step max_requests abort_on_error ch c = Some c' ->
  workers c' = workers c
  \/ exists tok, workers c' = <[ch_thread ch := mk_worker tok false]> (workers c).
Proof.
  unfold main_step. intros E. repeat case_match; simplify_eq; cbn; eauto.
Qed.

(** With signals delivered to the main thread only: until one arrives the
    permits are balanced, and then the main thread stands still. *)
Definition main_signals_inv (c : config) : Prop :=
  balanced max_requests c /\ main_in_handler c = stop_it c
  /\ (forall i w, workers c !! i = Some w -> in_handler w = false).

Lemma main_signals_step c c' :
  main_signals_inv c -> step max_requests abort_on_error false c c' -> main_signals_inv c'.
Proof.
  intros (Hb & Hh & Hw) Hs.
  destruct Hs as [ch c' Hex Hmh Hm|i w n Hex Hi Hnh Hn|Hex|i w Hf|Hex Hhand Hle].
  - assert (stop_it c = false) as Hstop by congruence.
    destruct (main_step_balanced ch c c' Hstop Hb Hm) as (Hb' & Hst' & Hmh').
    split_and!; [done|congruence|].
    intros j w Hj. destruct (main_step_workers ch c c' Hm) as [E|(tok & E)]; rewrite E in Hj; [by eapply Hw|].
    apply lookup_insert_Some in Hj as [[_ <-]|[_ Hj]]; [done|by eapply Hw].
  - destruct Hb as [Hsum Hsem Hsp Hcnt]. split_and!; [|done|].
    + split; cbn; try done; [|lia]. rewrite map_size_delete_Some by by eexists.
      assert (size (workers c) <> 0%nat); [|lia].
      intros E. apply map_size_empty_inv in E. by rewrite E in Hi.
    + intros j w'. cbn. intros [_ Hj]%lookup_delete_Some. by eapply Hw.
  - destruct Hb. by split_and!.
  - done.
  - destruct Hb. by split_and!.
Qed.

Lemma initial_main_signals : 0 <= max_requests -> main_signals_inv (initial max_requests).
Proof.
  intros Hm. split_and!; [|done|by intros i w]. split; cbn; try done. rewrite map_size_empty. lia.
Qed.

(** Before any signal the permits are balanced wherever signals may go. *)
Definition unsignalled_inv (c : config) : Prop :=
  stop_it c = false ->
  balanced max_requests c /\ main_in_handler c = false
  /\ (forall i w, workers c !! i = Some w -> in_handler w = false).

Lemma stop_monotone ws c c' :
  step max_requests abort_on_error ws c c' -> stop_it c' = false -> stop_it c = false.
Proof.
  intros Hs. destruct Hs as [ch c' Hex Hmh Hm|i w n Hex Hi Hnh Hn|Hex|i w Hf|Hex Hhand Hle];
    cbn; try done.
  unfold main_step in Hm. repeat case_match; simplify_eq; cbn in *; congruence.
Qed.

Lemma unsignalled_step ws c c' :
  unsignalled_inv c -> step max_requests abort_on_error ws c c' -> unsignalled_inv c'.
Proof.
  intros Hi Hs Hstop. pose proof (stop_monotone ws c c' Hs Hstop) as Hst.
  destruct (Hi Hst) as (Hb & Hh & Hw).
  assert (main_signals_inv c) as Hms by (split_and!; [done|congruence|done]).
  assert (step max_requests abort_on_error false c c') as Hs'.
  { destruct Hs as [ch c' Hex Hmh Hm|i w n Hex Hj Hnh Hn|Hex|i w Hf|Hex Hhand Hle].
    - by eapply st_main.
    - by eapply st_done.
    - done.
    - done.
    - by apply st_handler_exits. }
  destruct (main_signals_step c c' Hms Hs') as (Hb' & Hh' & Hw').
  split_and!; [done|congruence|done].
Qed.

(** C10. At most [max_requests] actions run at once: in every reachable state in
    which no signal has arrived, the semaphore's value, the running workers and
    the permit in the main thread's hand add up to [max_requests]; so there
    are never more workers than that, no permit is lost or made up by a failed
    thread creation, and when all workers are done the semaphore is full again. *)
Theorem requests_bounded ws c :
  0 <= max_requests -> reachable max_requests abort_on_error ws c -> stop_it c = false ->
  sem c + Z.of_nat (size (workers c)) + permits_in_hand (main c) = max_requests
  /\ 0 <= sem c /\ Z.of_nat (size (workers c)) <= max_requests.
Proof.
  intros Hm Hr Hst.
  assert (unsignalled_inv c) as Hi.
  { refine (rtc_invariant (step max_requests abort_on_error ws) unsignalled_inv
      (initial max_requests) c _ _ Hr); [|intros _].
    - intros a b. apply unsignalled_step.
    - destruct (initial_main_signals Hm) as (? & ? & ?). by split_and!. }
  destruct (Hi Hst) as ([Hsum Hsem _ _] & _). repeat split; try done.
  assert (0 <= permits_in_hand (main c)); [|lia]. destruct (main c) as [| | | | | | |[]| | |]; cbn; lia.
Qed.

Lemma handler_exit_full ws c c' :
  step max_requests abort_on_error ws c c' -> exited c' = Some ByHandler -> max_requests <= sem c'.
Proof.
  intros Hs. destruct Hs as [ch c' Hex Hmh Hm|i w n Hex Hi Hnh Hn|Hex|i w Hf Hex|Hex Hhand Hle];
    cbn; try congruence; try done.
  unfold main_step in Hm. intros He. repeat case_match; simplify_eq; cbn in He; congruence.
Qed.

(** C22. When signals are delivered to the main thread only, the handler interrupts no
    action that was begun: it ends the process only when no worker is running and the main
    thread holds no permit, so that no thread is about to be created. But it does not wait
    for the items that were received and have no permit yet: for every number of them there
    is a run in which the process ends with so many items received and never begun. *)
Theorem handler_exit_graceful :
  0 <= max_requests ->
  (forall c, reachable max_requests abort_on_error false c -> exited c = Some ByHandler ->
     workers c = ∅ /\ permits_in_hand (main c) = 0)
  /\ (forall n, exists c, reachable max_requests abort_on_error false c
        /\ exited c = Some ByHandler /\ unstarted (main c) = n).
Proof.
  intros Hm. split.
  - intros c Hr Hex.
    assert (main_signals_inv c /\ (exited c = Some ByHandler -> max_requests <= sem c))
      as [([Hsum Hsem _ _] & _ & _) Hfull].
    { refine (rtc_invariant (step max_requests abort_on_error false)
        (fun c => main_signals_inv c /\ (exited c = Some ByHandler -> max_requests <= sem c))
        (initial max_requests) c _ _ Hr).
      - intros a b [Ha _] Hs. split; [by eapply main_signals_step|by eapply handler_exit_full].
      - split; [by apply initial_main_signals|done]. }
    specialize (Hfull Hex).
    assert (0 <= permits_in_hand (main c)) by (destruct (main c) as [| | | | | | |[]| | |]; cbn; lia).
    split; [apply map_size_empty_inv|]; lia.
  - intros n. set (c1 := goto (Looking 0 (replicate n 0)) (initial max_requests)).
    exists (exit_process ByHandler (interrupt_main c1)). split_and!; [|done|apply length_replicate].
    eapply rtc_l; [by apply (st_main _ _ _ _ (mk_choice (Message 0 (replicate n 0)) false false 0) c1)|].
    eapply rtc_l; [by apply st_signal_main|]. apply rtc_once, st_handler_exits; [done|by left|done].
Qed.

(** The main thread was stopped with a permit in its hand. *)
Definition stranded (c : config) : Prop :=
  main_signals_inv c /\ stop_it c = true /\ permits_in_hand (main c) = 1 /\ exited c = None.

Lemma stranded_step c c' :
  stranded c -> step max_requests abort_on_error false c c' -> stranded c'.
Proof.
  intros (Hi & Hst & Hhand & Hex) Hs. pose proof (main_signals_step c c' Hi Hs) as Hi'.
  destruct Hi as ([Hsum Hsem _ _] & Hh & _).
  destruct Hs as [ch c' _ Hmh Hm|i w n _ Hi Hnh Hn|_|i w Hf|_ _ Hle]; try congruence;
    try (by split_and!). lia.
Qed.

(** C26. A signal can also hang the copytool: if it arrives while the main thread
    holds a permit - between [sem_timedwait] and the creation of the thread -
    the handler waits for that permit forever: no reachable state has exited,
    even when all workers are done. *)
Theorem handler_may_hang c c' :
  0 <= max_requests -> reachable max_requests abort_on_error false c ->
  exited c = None -> main_in_handler c = true -> permits_in_hand (main c) = 1 ->
  rtc (step max_requests abort_on_error false) c c' -> exited c' = None.
Proof.
  intros Hm Hr Hex Hmh Hhand Hs.
  assert (main_signals_inv c) as Hi.
  { refine (rtc_invariant (step max_requests abort_on_error false) main_signals_inv
      (initial max_requests) c _ _ Hr); [|by apply initial_main_signals].
    intros a b. apply main_signals_step. }
  assert (stranded c') as (_ & _ & _ & H); [|done].
  refine (rtc_invariant (step max_requests abort_on_error false) stranded c c' _ _ Hs).
  - intros a b. apply stranded_step.
  - split_and!; try done. destruct Hi as (_ & Hh & _). congruence.
Qed.
End Safety.

(** ** Runs *)

Section Runs.
Context (max_requests : Z) (abort_on_error worker_signals : bool).

(** The main thread alone, with the given choices, as long as it may run. *)
Fixpoint main_run (chs : list choice) (c : config) : option config :=
  match chs with
  | [] => Some c
  | ch :: chs =>
      match exited c, main_in_handler c with
      | None, false => c' ← main_step max_requests abort_on_error ch c; main_run chs c'
      | _, _ => None
      end
  end.

Lemma main_run_steps chs c c' :
  main_run chs c = Some c' -> rtc (step max_requests abort_on_error worker_signals) c c'.
Proof.
  revert c. induction chs as [|ch chs IH]; intros c E; cbn in E; [by injection E as ->|].
  destruct (exited c) eqn:Ex, (main_in_handler c) eqn:Eh; try done.
  destruct (main_step _ _ ch c) as [c1|] eqn:E1; [|done].
  eapply rtc_l; [by eapply st_main|]. by apply IH.
Qed.
End Runs.

Lemma reachable_run m a ws c c' :
  reachable m a ws c -> rtc (step m a ws) c c' -> reachable m a ws c'.
Proof. intros H1 H2. unfold reachable in *. by etrans. Qed.

Definition receive (r : received) : choice := mk_choice r false false 0.
Definition go : choice := receive Shutdown.
Definition create (i : nat) : choice := mk_choice Shutdown false false i.

(** With one permit: a message of [n] items, the first of which gets the permit
    and thread 0; [at_spawn] is just before the thread's creation. *)
Definition at_spawn (n : nat) : option config :=
  main_run 1 false [receive (Message 100 (replicate n 0)); go; go; go; go] (initial 1).

Definition one_running (n : nat) : option config :=
  c ← at_spawn n; main_run 1 false [create 0] c.

Lemma at_spawn_reachable ws n c : at_spawn n = Some c -> reachable 1 false ws c.
Proof. apply main_run_steps. Qed.

Lemma one_running_reachable ws n c : one_running n = Some c -> reachable 1 false ws c.
Proof.
  unfold one_running. destruct (at_spawn n) as [c1|] eqn:E; [|done]. intros Hr.
  eapply reachable_run; [by eapply at_spawn_reachable|by eapply main_run_steps].
Qed.

(** C27. A signal handled by a worker loses an action: in a reachable run with one
    permit and three items, the signal is delivered to the first item's thread,
    the main thread then starts the second item without a permit (two actions
    run at once), and when that one is done its [sem_post] makes the handler end
    the process, in the middle of the first action. *)
Theorem worker_signal_loses_action :
  exists c, reachable 1 false true c /\ exited c = Some ByHandler
    /\ workers c = {[ 0%nat := mk_worker true true ]}.
Proof.
  destruct (one_running 3) as [c1|] eqn:E1; [|by vm_compute in E1].
  pose proof (one_running_reachable true 3 c1 E1) as Hr.
  assert (exited c1 = None /\ workers c1 !! 0%nat = Some (mk_worker true false)) as [Hex Hw]
    by (vm_compute in E1; by injection E1 as <-).
  set (c2 := interrupt_worker 0 (mk_worker true false) c1).
  assert (reachable 1 false true c2) as Hr2 by (eapply rtc_r; [exact Hr|by apply st_signal_worker]).
  destruct (main_run 1 false [go; go; go; create 1] c2) as [c3|] eqn:E3;
    [|vm_compute in E1; injection E1 as <-; by vm_compute in E3].
  assert (reachable 1 false true c3) as Hr3
    by (eapply reachable_run; [exact Hr2|by eapply main_run_steps]).
  assert (exited c3 = None /\ workers c3 !! 1%nat = Some (mk_worker false false)
    /\ workers c3 = <[1%nat := mk_worker false false]> {[ 0%nat := mk_worker true true ]}
    /\ sem c3 = 0) as (Hex3 & Hw3 & Hws3 & Hsem3).
  { vm_compute in E1. injection E1 as <-. vm_compute in E3. by injection E3 as <-. }
  set (c4 := sem_post (add_errors 0 (with_workers (delete 1%nat (workers c3)) c3))).
  exists (exit_process ByHandler c4). split; [|split; [done|]].
  - eapply rtc_r; [eapply rtc_r; [exact Hr3|by eapply (st_done _ _ _ _ 1%nat _ 0)]|].
    apply st_handler_exits; [done| |cbn; lia].
    right. exists 0%nat, (mk_worker true true). cbn. by rewrite Hws3.
  - cbn. rewrite Hws3. apply delete_insert_id. by simplify_map_eq.
Qed.

(** Shutting down loses actions: after the coordinator's shutdown message
    the main thread leaves [ct_run] and the process ends at once, in a reachable
    run with the first item's thread still at work. *)
Theorem shutdown_loses_action :
  exists c, reachable 1 false false c /\ exited c = Some ByReturn
    /\ workers c = {[ 0%nat := mk_worker true false ]}.
Proof.
  destruct (one_running 1) as [c1|] eqn:E1; [|by vm_compute in E1].
  pose proof (one_running_reachable false 1 c1 E1) as Hr.
  destruct (main_run 1 false [go; go; go; receive Shutdown; go] c1) as [c2|] eqn:E2;
    [|vm_compute in E1; injection E1 as <-; by vm_compute in E2].
  exists c2. split.
  - eapply reachable_run; [exact Hr|by eapply main_run_steps].
  - vm_compute in E1. injection E1 as <-. vm_compute in E2. by injection E2 as <-.
Qed.

(** *** Witnesses *)

Lemma requests_bounded_witness :
  exists c, one_running 3 = Some c
    /\ sem c + Z.of_nat (size (workers c)) + permits_in_hand (main c) = 1
    /\ 0 <= sem c /\ Z.of_nat (size (workers c)) <= 1.
Proof.
  eexists. split; [vm_compute; reflexivity|].
  eapply (requests_bounded 1 false true);
    [done|apply (one_running_reachable true 3); vm_compute; reflexivity|reflexivity].
Defined.

Lemma handler_exit_graceful_witness :
  let c := exit_process ByHandler (interrupt_main (initial 1)) in
  reachable 1 false false c /\ workers c = ∅ /\ permits_in_hand (main c) = 0
  /\ exists c', reachable 1 false false c' /\ exited c' = Some ByHandler /\ unstarted (main c') = 2%nat.
Proof.
  assert (reachable 1 false false (exit_process ByHandler (interrupt_main (initial 1)))) as Hr.
  { eapply rtc_r; [eapply rtc_r; [apply rtc_refl|by apply st_signal_main]|].
    apply st_handler_exits; [done|by left|done]. }
  destruct (handler_exit_graceful 1 false) as [H1 H2]; [done|].
  destruct (H1 _ Hr eq_refl) as [Hw Hp]. split_and!; [exact Hr|exact Hw|exact Hp|apply H2].
Defined.

Lemma handler_may_hang_witness :
  exists c, at_spawn 1 = Some c /\ reachable 1 false false (interrupt_main c)
    /\ exited (interrupt_main c) = None.
Proof.
  eexists. split; [vm_compute; reflexivity|].
  match goal with |- reachable _ _ _ ?c /\ _ => assert (reachable 1 false false c) as Hr end.
  { eapply rtc_r; [apply (at_spawn_reachable false 1); vm_compute; reflexivity|].
    by apply st_signal_main. }
  split; [exact Hr|].
  eapply (handler_may_hang 1 false);
    [done|exact Hr|reflexivity|reflexivity|reflexivity|apply rtc_refl].
Defined.

End RequestControl.
