(* ===== verification/Startup.v ===== *)
(** * ct_common.c: how ct_run starts and ends, and the memory of a worker

    The frame of [ct_run] around its loop, which RequestControl.v models: what is
    registered and initialised, and what is given back; as a step relation, the signals
    that come before the loop, with the rounds of [handler]; and [ct_process_item_async]
    with [ct_thread], as far as their memory goes. *)

From Stdlib Require Import ZArith Lia.
From stdpp Require Import base gmap sets list relations.
From S2P Require Import Prelude.

Module Startup.

Local Open Scope Z_scope.

(** ** [ct_run] around its loop *)

(** What [ct_run] asks for, in order; [Serve] is the loop. *)
Inductive event :=
  | Daemonize
  | Register
  | Sigaction (signal : Z)
  | SemInit
  | Serve
  | SemDestroy
  | Unregister.

Definition SIGINT : Z := 2.
Definition SIGTERM : Z := 15.

(** The results of the calls. *)
Record results := mk_results {
  daemon_rc : Z;
  daemon_errno : Z;
  register_rc : Z;
  sigint_rc : Z;
  sigterm_rc : Z;
  sem_init_rc : Z;
  serve_rc : Z
}.

(** From the label [cleanup] on. *)
Definition cleanup (rc : Z) (done : list event) : list event * Z := (done ++ [Unregister], rc).

Definition ct_run (o_daemonize : bool) (r : results) : list event * Z :=
  let start := if o_daemonize then [Daemonize] else [] in
  if o_daemonize && bool_decide (daemon_rc r < 0) then (start, - daemon_errno r)
  else
    let t := start ++ [Register] in
    if bool_decide (register_rc r < 0) then (t, register_rc r)
    else
      let t := t ++ [Sigaction SIGINT] in
      if bool_decide (sigint_rc r <> 0) then cleanup (sigint_rc r) t
      else
        let t := t ++ [Sigaction SIGTERM] in
        if bool_decide (sigterm_rc r <> 0) then cleanup (sigterm_rc r) t
        else
          let t := t ++ [SemInit] in
          if bool_decide (sem_init_rc r <> 0) then cleanup (sem_init_rc r) t
          else cleanup (serve_rc r) (t ++ [Serve; SemDestroy]).

#[export] Instance event_eq_dec : EqDecision event.
Proof. solve_decision. Defined.

(** ** Signals before the loop *)

(** How the process has ended: by the handler, or by a signal nobody handles. *)
Inductive ending := ByHandler | Killed.

(** The process up to the loop: how many of its calls [ct_run] has made, the value of
    [hsm_req_sem], and which threads are in the handler. Besides the main thread there is
    the writer of the log. *)
Record process := mk_process {
  made : nat;
  hsm_req_sem : Z;
  stop_it : bool;
  main_in_handler : bool;
  writer_in_handler : bool;
  ended : option ending
}.

Section Signals.
(** [zeroed] is what [sem_getvalue] finds in a semaphore of zero bytes, as [hsm_req_sem] is
    before [sem_init]. *)
Context (o_daemonize : bool) (r : results) (max_requests zeroed : Z).

Definition calls : list event := (ct_run o_daemonize r).1.

Definition sigaction_rc (signal : Z) : Z :=
  if bool_decide (signal = SIGINT) then sigint_rc r else sigterm_rc r.

(** Whether [handler] runs for a signal after the calls [t]. *)
Definition handled (signal : Z) (t : list event) : Prop :=
  Sigaction signal ∈ t /\ sigaction_rc signal = 0.

Definition so_far (p : process) : list event := take (made p) calls.

Definition before_main : process := mk_process 0 zeroed false false false None.

(** The next call of the main thread; the loop is modelled in RequestControl.v. *)
Definition main_call (p : process) : option process :=
  match calls !! made p with
  | None | Some Serve => None
  | Some e =>
      Some (mk_process (S (made p))
        (if bool_decide (e = SemInit /\ sem_init_rc r = 0) then max_requests else hsm_req_sem p)
        (stop_it p) (main_in_handler p) (writer_in_handler p) (ended p))
  end.

(** [handler] is entered. *)
Definition main_interrupted (p : process) : process :=
  mk_process (made p) (hsm_req_sem p) true true (writer_in_handler p) (ended p).
Definition writer_interrupted (p : process) : process :=
  mk_process (made p) (hsm_req_sem p) true (main_in_handler p) true (ended p).

Definition finish (e : ending) (p : process) : process :=
  mk_process (made p) (hsm_req_sem p) (stop_it p) (main_in_handler p) (writer_in_handler p) (Some e).

(** A round of the loop of [handler]: it looks at the semaphore's value as it is now, and
    goes round again while that is less than [max_requests]. *)
Definition handler_round (p : process) : process :=
  if bool_decide (hsm_req_sem p < max_requests) then p else finish ByHandler p.

Inductive step (p : process) : process -> Prop :=
  | st_call p' :
      ended p = None -> main_in_handler p = false -> main_call p = Some p' -> step p p'
  | st_main_signal signal :
      ended p = None -> handled signal (so_far p) -> step p (main_interrupted p)
  | st_writer_signal signal :
      ended p = None -> handled signal (so_far p) -> step p (writer_interrupted p)
  | st_default signal :
      ended p = None -> signal = SIGINT \/ signal = SIGTERM -> ~ handled signal (so_far p) ->
      step p (finish Killed p)
  | st_round :
      ended p = None -> main_in_handler p = true \/ writer_in_handler p = true ->
      step p (handler_round p).

Definition reachable (p : process) : Prop := rtc step before_main p.

(** The main thread was interrupted before it came to [sem_init], with both signals
    handled already. *)
Record early (p : process) : Prop := {
  ea_running : ended p = None;
  ea_handler : main_in_handler p = true;
  ea_handled signal : signal = SIGINT \/ signal = SIGTERM -> handled signal (so_far p);
  ea_sem_init : SemInit ∉ so_far p
}.
End Signals.

(** ** The memory of a worker *)

Definition ENOMEM : Z := 12.

(** Blocks in use, and the blocks [data] and [data->hai] of a worker. *)
Definition heap := gset positive.

(** [ct_process_item_async]: [data] and [item] are what the two calls of [malloc] gave. *)
Definition ct_process_item_async (data item : option positive) (attr_rc create_rc : Z) (h : heap)
    : heap * option (positive * positive) * Z :=
  match data with
  | None => (h, None, - ENOMEM)
  | Some d =>
      let h := h ∪ {[d]} in
      match item with
      | None => (h ∖ {[d]}, None, - ENOMEM)
      | Some i =>
          let h := h ∪ {[i]} in
          if bool_decide (attr_rc <> 0) then (h ∖ {[i]} ∖ {[d]}, None, - attr_rc)
          else if bool_decide (create_rc <> 0) then (h, None, create_rc)
          else (h, Some (d, i), create_rc)
      end
  end.

(** The end of [ct_thread]. *)
Definition ct_thread_end (w : positive * positive) (h : heap) : heap := h ∖ {[w.2]} ∖ {[w.1]}.

(** ** Theorems *)

(** Membership in a list that is written out. *)
Ltac listed := rewrite ?elem_of_cons, ?elem_of_nil in *; intuition (congruence || lia).

(** [ct_run] gives back what it took: it unregisters the copytool, last and once, exactly
    when it was registered, and destroys the semaphore exactly when it was initialised;
    it serves only with both signals handled and the semaphore initialised, and then
    returns what the loop ended with. *)
Theorem ct_run_releases o_daemonize r :
  let '(t, rc) := ct_run o_daemonize r in
  (Unregister ∈ t <-> Register ∈ t /\ 0 <= register_rc r)
  /\ (Unregister ∈ t -> exists t', t = t' ++ [Unregister] /\ Unregister ∉ t')
  /\ (SemDestroy ∈ t <-> SemInit ∈ t /\ sem_init_rc r = 0)
  /\ (Serve ∈ t -> exists a, t = a ++ [Serve; SemDestroy; Unregister]
       /\ handled r SIGINT a /\ handled r SIGTERM a /\ SemInit ∈ a /\ rc = serve_rc r).
Proof.
  unfold ct_run, cleanup. destruct o_daemonize; cbn [andb app]; repeat case_bool_decide; cbn [app].
  all: split_and!; [listed|intros Hu|listed|intros Hs].
  all: try (exfalso; listed).
  all: match goal with
       | |- exists t', ?t = t' ++ [_] /\ _ => exists (removelast t); split; [done|cbn; listed]
       | |- exists a, ?t = _ /\ _ =>
           exists (take (length t - 3) t); unfold handled, sigaction_rc; cbn; split_and!;
             first [done | listed | case_bool_decide; first [done | lia]]
       end.
Qed.

(** *** An early signal *)

Section Early.
Context (o_daemonize : bool) (r : results) (max_requests zeroed : Z).

Notation step := (step o_daemonize r max_requests).
Notation reachable := (reachable o_daemonize r max_requests zeroed).
Notation so_far := (so_far o_daemonize r).

Lemma so_far_snoc p e :
  calls o_daemonize r !! made p = Some e ->
  take (S (made p)) (calls o_daemonize r) = so_far p ++ [e].
Proof. apply take_S_r. Qed.

(** The semaphore has its first value once it was initialised. *)
Lemma sem_value p :
  reachable p ->
  hsm_req_sem p = if bool_decide (SemInit ∈ so_far p /\ sem_init_rc r = 0) then max_requests else zeroed.
Proof.
  intros H. refine (rtc_invariant step (fun p => hsm_req_sem p
    = if bool_decide (SemInit ∈ so_far p /\ sem_init_rc r = 0) then max_requests else zeroed)
    (before_main zeroed) p _ _ H); [|by cbn; rewrite bool_decide_eq_false_2 by set_solver].
  clear. intros p p' Hp [p'' _ _ E|s _ _|s _ _|s _ _ _|_ _]; try done.
  - unfold main_call in E. destruct (calls o_daemonize r !! made p) as [e|] eqn:Ee; [|done].
    assert (so_far p'' = so_far p ++ [e] /\ hsm_req_sem p''
      = if bool_decide (e = SemInit /\ sem_init_rc r = 0) then max_requests else hsm_req_sem p) as [-> ->].
    { rewrite <- (so_far_snoc _ _ Ee). destruct e; simplify_eq; done. }
    assert (SemInit ∈ so_far p ++ [e] <-> SemInit ∈ so_far p \/ e = SemInit) as Hin
      by (rewrite elem_of_app, list_elem_of_singleton; naive_solver).
    rewrite Hp. repeat case_bool_decide; naive_solver.
  - unfold handler_round. by destruct (bool_decide (hsm_req_sem p < max_requests)).
Qed.

Lemma early_step p p' :
  zeroed < max_requests -> reachable p -> early o_daemonize r p -> step p p' ->
  early o_daemonize r p' /\ made p' = made p.
Proof.
  intros Hz Hr [He Hh Hs Hi] [p'' _ Hm _|s _ _|s _ _|s _ Hs' Hn|_ _]; try congruence.
  - split; [|done]. by split.
  - split; [|done]. by split.
  - destruct Hn. by apply Hs.
  - unfold handler_round. rewrite (sem_value p Hr), (bool_decide_eq_false_2 (_ /\ _)) by naive_solver.
    rewrite bool_decide_eq_true_2 by done. split; [|done]. by split.
Qed.

(** C36. A signal that the main thread takes after both handlers are installed and before
    [sem_init] hangs the copytool: such a moment there is in every start that gets so far,
    and from then on, whatever other signals come and whoever takes them, the handler goes
    round for ever, since the value it looks at is that of zeroed memory and the one
    thread that would initialise the semaphore is in the handler. After [sem_init] the same
    handler ends the process in its first round. *)
Theorem early_signal_hangs :
  zeroed < max_requests -> 0 <= daemon_rc r -> 0 <= register_rc r -> sigint_rc r = 0 -> sigterm_rc r = 0 ->
  (exists p, reachable p /\ early o_daemonize r p)
  /\ (forall p p', reachable p -> early o_daemonize r p -> rtc step p p' ->
       ended p' = None /\ SemInit ∉ so_far p' /\ step p' p')
  /\ (forall p, reachable p -> ended p = None -> main_in_handler p = true ->
       SemInit ∈ so_far p -> sem_init_rc r = 0 -> step p (finish ByHandler p)).
Proof.
  intros Hz Hd Hr Hi Ht. split_and!.
  - assert (exists t, calls o_daemonize r = (if o_daemonize then [Daemonize] else [])
      ++ [Register; Sigaction SIGINT; Sigaction SIGTERM] ++ SemInit :: t) as [t Et].
    { unfold calls, ct_run, cleanup. rewrite (bool_decide_eq_false_2 (daemon_rc r < 0)), andb_false_r by lia.
      rewrite (bool_decide_eq_false_2 (register_rc r < 0)), (bool_decide_eq_false_2 (sigint_rc r <> 0)),
        (bool_decide_eq_false_2 (sigterm_rc r <> 0)) by lia.
      destruct o_daemonize; repeat case_bool_decide; by eexists. }
    set (n := if o_daemonize then 4%nat else 3%nat).
    assert (take n (calls o_daemonize r)
      = (if o_daemonize then [Daemonize] else []) ++ [Register; Sigaction SIGINT; Sigaction SIGTERM]) as En.
    { rewrite Et. by destruct o_daemonize. }
    assert (forall k, (k <= n)%nat -> reachable (mk_process k zeroed false false false None)) as Hk.
    { induction k as [|k IH]; intros Hk; [apply rtc_refl|]. eapply rtc_r; [apply IH; lia|].
      apply st_call; [done..|]. unfold main_call. cbn. rewrite Et. subst n.
      destruct o_daemonize; do 4 (destruct k as [|k]; [done || lia|]); lia. }
    assert (forall s, s = SIGINT \/ s = SIGTERM -> handled r s (take n (calls o_daemonize r))) as Hs.
    { intros s Hs. rewrite En. unfold handled, sigaction_rc. split; [|by case_bool_decide].
      rewrite elem_of_app, !elem_of_cons. naive_solver. }
    exists (main_interrupted (mk_process n zeroed false false false None)). split.
    + eapply rtc_r; [by apply (Hk n)|]. apply (st_main_signal _ _ _ _ SIGINT); [done|]. apply Hs. by left.
    + split; [done|done|exact Hs|]. unfold Startup.so_far. cbn [made main_interrupted]. rewrite En.
      destruct o_daemonize; cbn; listed.
  - intros p p' Hp He Hs.
    assert (reachable p' /\ early o_daemonize r p') as [Hp' [H1 H2 H3 H4]].
    { refine (rtc_invariant step (fun p => reachable p /\ early o_daemonize r p) p p' _ _ Hs); [|done].
      intros a b [Ha Hea] Hab. split; [by eapply rtc_r|]. by eapply early_step. }
    split_and!; [done|done|].
    assert (handler_round max_requests p' = p') as E.
    { unfold handler_round. rewrite (sem_value p' Hp'), (bool_decide_eq_false_2 (_ /\ _)) by naive_solver.
      by rewrite bool_decide_eq_true_2. }
    rewrite <- E at 2. apply st_round; [done|by left].
  - intros p Hp He Hh Hin Hrc.
    assert (handler_round max_requests p = finish ByHandler p) as E.
    { unfold handler_round. rewrite (sem_value p Hp), (bool_decide_eq_true_2 (_ /\ _)) by done.
      rewrite bool_decide_eq_false_2; [done|lia]. }
    rewrite <- E. apply st_round; [done|by left].
Qed.
End Early.

(** The memory [ct_process_item_async] allocates is given back, by itself when memory or
    the thread's attributes are not to be had, and by the worker's end otherwise; but
    when the thread cannot be created both blocks are lost, with the copy of the item. *)
Theorem async_memory data item attr_rc create_rc h :
  (forall d, data = Some d -> d ∉ h) -> (forall i, item = Some i -> i ∉ h) ->
  let '(h', w, rc) := ct_process_item_async data item attr_rc create_rc h in
  match w with
  | Some w => rc = 0 /\ ct_thread_end w h' = h
  | None => rc <> 0
      /\ (h' = h \/ exists d i, data = Some d /\ item = Some i /\ attr_rc = 0 /\ create_rc = rc
          /\ h' = h ∪ {[d; i]})
  end.
Proof.
  intros Hd Hi. unfold ct_process_item_async, ct_thread_end, ENOMEM. destruct data as [d|]; [|by split; [|left]].
  specialize (Hd d eq_refl). destruct item as [i|]; [specialize (Hi i eq_refl)|split; [done|left; set_solver]].
  repeat case_bool_decide; cbn.
  - split; [lia|]. left. set_solver.
  - split; [done|]. right. exists d, i. split_and!; [done..|lia|done|set_solver].
  - split; [lia|]. set_solver.
Qed.

Lemma async_memory_witness :
  ct_process_item_async (Some 1%positive) (Some 2%positive) 0 11 ∅ = ({[1; 2]}%positive, None, 11)
  /\ exists d i, {[1; 2]}%positive = (∅ : heap) ∪ {[d; i]}.
Proof.
  pose proof (async_memory (Some 1%positive) (Some 2%positive) 0 11 ∅) as H.
  split; [by vm_compute|]. destruct H as [_ [H|(d & i & _ & _ & _ & _ & H)]]; [set_solver..| |].
  - exfalso. vm_compute in H. discriminate.
  - exists d, i. rewrite <- H. by vm_compute.
Defined.

Lemma early_signal_hangs_witness :
  let r := mk_results 0 0 0 0 0 0 0 in
  exists p, reachable false r 100 0 p /\ early false r p
    /\ (forall p', rtc (step false r 100) p p' -> ended p' = None /\ step false r 100 p' p').
Proof.
  intros r. destruct (early_signal_hangs false r 100 0) as ((p & Hp & He) & H & _); [done..|].
  exists p. split_and!; [exact Hp|exact He|]. intros p' Hs. by destruct (H p p' Hp He Hs) as (? & _ & ?).
Defined.

End Startup.
