(* ===== verification/Daemon.v ===== *)
(** * Options, configuration, start and end of the daemon

    [ct_opt_setup], [ct_parseopts] and [main] of lhsmtool_s3.c, [ct_setup] and
    [ct_cleanup] of ct_common.c. What getopt_long and libconfig deliver is given:
    the sequence of options, and the settings of the file by name. *)

From Stdlib Require Import ZArith Lia.
From Stdlib Require Import Strings.Byte Strings.Ascii.
From stdpp Require Import base gmap list strings.
From S2P Require Import Prelude Growbuffer Callbacks Copytool.
Import Growbuffer Callbacks Copytool.

Module Daemon.

Local Open Scope Z_scope.

(** ** Numbers on the command line *)

Definition LONG_MAX : Z := 9223372036854775807.

Definition digit_of (a : ascii) : option Z :=
  let n := Z.of_nat (nat_of_ascii a) - 48 in
  if bool_decide (0 <= n <= 9) then Some n else None.

Fixpoint digits (acc : Z) (s : string) : Z :=
  match s with
  | EmptyString => acc
  | String a s => match digit_of a with Some d => digits (acc * 10 + d) s | None => acc end
  end.

Definition is_space (a : ascii) : bool :=
  let n := Z.of_nat (nat_of_ascii a) in bool_decide (n = 32 \/ 9 <= n <= 13).

Fixpoint skip_space (s : string) : string :=
  match s with
  | String a s' => if is_space a then skip_space s' else s
  | EmptyString => s
  end.

(** [atol] is [strtol], which saturates; [atoi] converts it to [int]. *)
Definition atol (s : string) : Z :=
  let v := match skip_space s with
           | String a s' =>
               if bool_decide (a = "-"%char) then - digits 0 s'
               else if bool_decide (a = "+"%char) then digits 0 s'
               else digits 0 (String a s')
           | EmptyString => 0
           end in
  Z.max (- LONG_MAX - 1) (Z.min LONG_MAX v).

Definition atoi (s : string) : Z := i32 (atol s).

(** ** Options *)

(** The fields of [struct ct_options] the parser sets. *)
Record options := mk_opts {
  o_daemonize : bool;
  o_dry_run : bool;
  o_abort_on_error : bool;
  o_verbose : Z;
  o_archive_id : list Z; (* the first [o_archive_cnt] elements of the array *)
  o_report_int : Z;
  o_config : option string;
  o_mnt : option string;
  o_mnt_fd : Z
}.

Section Options.
(** Constants of Lustre's headers. *)
Context (LLAPI_MSG_INFO LL_HSM_ORIGIN_MAX_ARCHIVE : Z).

Definition REPORT_INTERVAL_DEFAULT : Z := 30.

(** [memset] and two assignments: the configuration file's name is cleared. *)
Definition ct_opt_setup : options :=
  mk_opts false false false LLAPI_MSG_INFO [] REPORT_INTERVAL_DEFAULT None None 0.

(** The static initialisation of [ct_opt] in ct_common.c. *)
Definition ct_opt_static : options :=
  mk_opts false false false LLAPI_MSG_INFO [] REPORT_INTERVAL_DEFAULT (Some "config.cfg") None 0.

(** What [getopt_long] returns, with [optarg]; the long options with a flag
    set it and return 0. *)
Inductive opt :=
  | OptArchive (arg : string)         (* 'A' *)
  | OptConfig (arg : string)          (* 'b', 'c' *)
  | OptHelp                           (* 'h' *)
  | OptQuiet                          (* 'q' *)
  | OptInterval (arg : string)        (* 'u' *)
  | OptVerbose                        (* 'v' *)
  | FlagAbortOnError
  | FlagDaemon
  | FlagDryRun
  | OptOther.                         (* 'p', 'r', '?' *)

Inductive parsed (A : Type) :=
  | Parsed (a : A)
  | Rejected (rc : Z)
  | Exits (status : Z).
Arguments Parsed {A} a.
Arguments Rejected {A} rc.
Arguments Exits {A} status.

Definition set_archive (n : Z) (o : options) : options :=
  mk_opts (o_daemonize o) (o_dry_run o) (o_abort_on_error o) (o_verbose o)
    (o_archive_id o ++ [n]) (o_report_int o) (o_config o) (o_mnt o) (o_mnt_fd o).
Definition set_config (c : string) (o : options) : options :=
  mk_opts (o_daemonize o) (o_dry_run o) (o_abort_on_error o) (o_verbose o)
    (o_archive_id o) (o_report_int o) (Some c) (o_mnt o) (o_mnt_fd o).
Definition set_verbose (v : Z) (o : options) : options :=
  mk_opts (o_daemonize o) (o_dry_run o) (o_abort_on_error o) v
    (o_archive_id o) (o_report_int o) (o_config o) (o_mnt o) (o_mnt_fd o).
Definition set_interval (n : Z) (o : options) : options :=
  mk_opts (o_daemonize o) (o_dry_run o) (o_abort_on_error o) (o_verbose o)
    (o_archive_id o) n (o_config o) (o_mnt o) (o_mnt_fd o).
Definition set_mnt (m : string) (o : options) : options :=
  mk_opts (o_daemonize o) (o_dry_run o) (o_abort_on_error o) (o_verbose o)
    (o_archive_id o) (o_report_int o) (o_config o) (Some m) (-1).

(** One pass of the option loop. The index into [o_archive_id] is not checked. *)
Definition parse_opt (x : opt) (o : options) : outcome (parsed options) :=
  match x with
  | OptArchive arg =>
      if bool_decide (atol arg <= 0 \/ atol arg > INT_MAX) then Ret (Rejected (- E2BIG))
      else if bool_decide (Z.of_nat (length (o_archive_id o)) < LL_HSM_ORIGIN_MAX_ARCHIVE) then
        Ret (Parsed (set_archive (atoi arg) o))
      else Crash
  | OptConfig arg => Ret (Parsed (set_config arg o))
  | OptHelp => Ret (Exits 0)
  | OptQuiet => Ret (Parsed (set_verbose (o_verbose o - 1) o))
  | OptInterval arg =>
      if bool_decide (atoi arg < 0) then Ret (Rejected (- EINVAL))
      else Ret (Parsed (set_interval (atoi arg) o))
  | OptVerbose => Ret (Parsed (set_verbose (o_verbose o + 1) o))
  | FlagAbortOnError =>
      Ret (Parsed (mk_opts (o_daemonize o) (o_dry_run o) true (o_verbose o) (o_archive_id o)
                     (o_report_int o) (o_config o) (o_mnt o) (o_mnt_fd o)))
  | FlagDaemon =>
      Ret (Parsed (mk_opts true (o_dry_run o) (o_abort_on_error o) (o_verbose o)
                     (o_archive_id o) (o_report_int o) (o_config o) (o_mnt o) (o_mnt_fd o)))
  | FlagDryRun =>
      Ret (Parsed (mk_opts (o_daemonize o) true (o_abort_on_error o) (o_verbose o)
                     (o_archive_id o) (o_report_int o) (o_config o) (o_mnt o) (o_mnt_fd o)))
  | OptOther => Ret (Rejected (- EINVAL))
  end.

Fixpoint parse_opts (xs : list opt) (o : options) : outcome (parsed options) :=
  match xs with
  | [] => Ret (Parsed o)
  | x :: xs =>
      r ← parse_opt x o;
      match r with
      | Parsed o => parse_opts xs o
      | Rejected rc => Ret (Rejected rc)
      | Exits st => Ret (Exits st)
      end
  end.

(** ** The configuration file *)

(** The settings libconfig found, by name and type. *)
Record config_file := mk_config_file {
  cfg_string : string -> option string;
  cfg_bool : string -> option bool;
  cfg_int : string -> option Z
}.

(** Sizes of the static buffers, from libs3.h. *)
Context (S3_MAX_KEY_SIZE S3_MAX_HOSTNAME_SIZE S3_MAX_BUCKET_NAME_SIZE : nat).

Record settings := mk_settings {
  access_key : list byte;
  secret_key : list byte;
  host : list byte;
  bucket_name : list byte;
  path_prefix : list byte;
  protocol_https : bool;
  max_requests : Z
}.

(** [strncpy(buf, s, sizeof(buf))] *)
Definition copy_string (cfg : config_file) (name : string) (size : nat) : option (list byte) :=
  s ← cfg_string cfg name; Some (strncpy (bytes_of s) size).

Definition read_max_requests (cfg : config_file) : option Z :=
  match cfg_int cfg "max_requests" with
  | Some n => if bool_decide (n > 0) then Some n else None
  | None => Some MAX_HSM_REQUESTS
  end.

(** The lookups in the source's order; the first one that fails decides. *)
Definition read_config (cfg : config_file) : option settings :=
  ak ← copy_string cfg "access_key" S3_MAX_KEY_SIZE;
  sk ← copy_string cfg "secret_key" S3_MAX_KEY_SIZE;
  h ← copy_string cfg "host" S3_MAX_HOSTNAME_SIZE;
  b ← copy_string cfg "bucket_name" S3_MAX_BUCKET_NAME_SIZE;
  p ← copy_string cfg "path_prefix" (Z.to_nat PATH_MAX);
  ssl ← cfg_bool cfg "ssl";
  n ← read_max_requests cfg;
  Some (mk_settings ak sk h b p ssl n).

(** [args] are the words after the options; [read_file] is libconfig, [None]
    for a file that cannot be read. *)
Definition ct_parseopts (xs : list opt) (args : list string)
    (read_file : option string -> option config_file) (o : options)
    : outcome (parsed (options * settings)) :=
  r ← parse_opts xs o;
  Ret match r with
      | Rejected rc => Rejected rc
      | Exits st => Exits st
      | Parsed o =>
          match args with
          | [mnt] =>
              let o := set_mnt mnt o in
              match (cfg ← read_file (o_config o); read_config cfg) with
              | Some st => Parsed (o, st)
              | None => Rejected (- EINVAL)
              end
          | _ => Rejected (- EINVAL)
          end
      end.
End Options.

Arguments Parsed {A} a.
Arguments Rejected {A} rc.
Arguments Exits {A} status.

(** ** Start and end of the process *)

(** The calls of [main] that matter: they acquire or release something. *)
Inductive call :=
  | TlogInit | TlogExit | TlogSetLevel (debug : bool) | OpenMount | CloseMount
  | S3Initialize | S3Deinitialize | QuotaInit | QuotaDestroy | Run.

(** What the calls out of the program answer: results of tlog_init,
    llapi_search_fsname, open of the mount point (a descriptor or [-errno]),
    S3_initialize, ct_run and close ([-errno]). *)
Record answers := mk_answers {
  an_tlog_init : Z;
  an_search_fsname : Z;
  an_open : Z;
  an_s3_initialize : Z;
  an_run : Z;
  an_close : Z
}.

(** Result, the calls made and the new [o_mnt_fd]. *)
Definition ct_setup (a : answers) (mnt_fd : Z) : Z * list call * Z :=
  if bool_decide (an_search_fsname a < 0) then (an_search_fsname a, [], mnt_fd)
  else if bool_decide (an_open a < 0) then (an_open a, [OpenMount], -1)
  else (an_search_fsname a, [OpenMount], an_open a).

Definition ct_cleanup (a : answers) (mnt_fd : Z) : Z * list call :=
  if bool_decide (mnt_fd >= 0) then
    (if bool_decide (an_close a < 0) then an_close a else 0, [CloseMount])
  else (0, []).

Definition ct_s3_cleanup (a : answers) (mnt_fd : Z) : Z * list call :=
  let '(rc, calls) := ct_cleanup a mnt_fd in
  (rc, calls ++ if bool_decide (rc = 0) then [S3Deinitialize] else []).

(** From the parsed options on: the result and the calls up to [error_exit]. *)
Definition serve (LLAPI_MSG_INFO : Z) (a : answers) (o : options) : Z * list call :=
  let level := TlogSetLevel (bool_decide (o_verbose o >= LLAPI_MSG_INFO)) in
  let '(rc, opened, mnt_fd) := ct_setup a (o_mnt_fd o) in
  let '(rc, started) :=
    if bool_decide (rc < 0) then (rc, [])
    else if bool_decide (an_s3_initialize a <> 0) then (an_s3_initialize a, [S3Initialize])
    else (an_run a, [S3Initialize; QuotaInit; Run]) in
  (rc, [level] ++ opened ++ started ++ (ct_s3_cleanup a mnt_fd).2).

(** [main]: the exit value and the calls; [parse] is the outcome of
    [ct_parseopts]. *)
Definition main (LLAPI_MSG_INFO : Z) (a : answers) (parse : parsed (options * settings))
    : Z * list call :=
  if bool_decide (an_tlog_init a <> 0) then (an_tlog_init a, [TlogInit])
  else
    match parse with
    | Exits st => (st, [TlogInit])
    | Rejected rc => (- rc, [TlogInit; TlogExit; QuotaDestroy])
    | Parsed (o, _) =>
        let '(rc, calls) := serve LLAPI_MSG_INFO a o in
        (- rc, [TlogInit] ++ calls ++ [TlogExit; QuotaDestroy])
    end.

(** ** What the parser accepts *)

Definition is_archive (x : opt) : bool := match x with OptArchive _ => true | _ => false end.

(** The options in force are sound: archive numbers in range and at most the
    array's size of them, a non-negative reporting period. *)
Record sound (max_archive : Z) (o : options) : Prop := {
  so_ids : Forall (fun n => 1 <= n <= INT_MAX) (o_archive_id o);
  so_count : Z.of_nat (length (o_archive_id o)) <= max_archive;
  so_period : 0 <= o_report_int o
}.

Lemma atoi_small s : 0 <= atol s <= INT_MAX -> atoi s = atol s.
Proof. intros H. unfold atoi. apply i32_id. unfold INT_MIN. lia. Qed.

(** How parsing can end: it is undefined only if there are more than [max] archive
    options, [n] of them. *)
Definition ends_well {A} (good : A -> Prop) (max : Z) (n : nat) (r : outcome (parsed A)) : Prop :=
  match r with
  | Ret (Parsed a) => good a
  | Ret (Rejected rc) => rc = - E2BIG \/ rc = - EINVAL
  | Ret (Exits st) => st = 0
  | Crash => max < Z.of_nat n
  | NoFuel => False
  end.

Lemma parse_opts_spec max xs : forall o,
  sound max o ->
  ends_well (sound max) max (length (o_archive_id o) + length (filter is_archive xs)) (parse_opts max xs o).
Proof.
  induction xs as [|x xs IH]; intros o Ho; cbn [parse_opts]; [done|].
  destruct Ho as [Hids Hcount Hper].
  destruct x; cbn [parse_opt mbind outcome_bind];
    rewrite ?filter_cons_True, ?filter_cons_False by (cbn; auto; done);
    try (refine (IH _ _); by split); try (cbn; by auto).
  - cbn [length]. case_bool_decide as Hr; cbn [mbind outcome_bind]; [by left|].
    case_bool_decide as Hroom; cbn [mbind outcome_bind]; [|cbn; lia].
    set (o' := set_archive (atoi arg) o).
    assert (length (o_archive_id o) + S (length (filter is_archive xs))
      = length (o_archive_id o') + length (filter is_archive xs))%nat as ->
      by (cbn; rewrite length_app; cbn; lia).
    apply IH. split; cbn; [|rewrite length_app; cbn; lia|done].
    apply Forall_app. split; [done|]. constructor; [|done].
    rewrite atoi_small by lia. lia.
  - case_bool_decide as Hr; cbn [mbind outcome_bind]; [by right|].
    apply (IH (set_interval (atoi arg) o)). split; cbn; done || lia.
Qed.

(** What [ct_parseopts] accepts. *)
Definition accepted (max : Z) (k h b : nat) (args : list string) (read_file : option string -> option config_file)
    (r : options * settings) : Prop :=
  let '(o, st) := r in
  sound max o /\ (exists mnt, args = [mnt] /\ o_mnt o = Some mnt) /\ o_mnt_fd o = -1
  /\ 0 < max_requests st
  /\ exists cfg, read_file (o_config o) = Some cfg /\ read_config k h b cfg = Some st.

(** C40. The command line cannot leave the options in a bad state: whatever the options are,
    [ct_parseopts] either accepts options in which every archive number is between 1 and
    INT_MAX, at most [LL_HSM_ORIGIN_MAX_ARCHIVE] of them, and the reporting period is not
    negative, with a mount point and a complete configuration, or rejects with [-E2BIG] or
    [-EINVAL], or was asked for help; only with more than [LL_HSM_ORIGIN_MAX_ARCHIVE]
    archive options can it be undefined, by writing behind the array. *)
Theorem ct_parseopts_sound info max k h b xs args read_file :
  0 <= max ->
  ends_well (accepted max k h b args read_file) max (length (filter is_archive xs))
    (ct_parseopts max k h b xs args read_file (ct_opt_static info)).
Proof.
  intros Hm. pose proof (parse_opts_spec max xs (ct_opt_static info) ltac:(by split)) as H.
  unfold ct_parseopts. destruct (parse_opts max xs (ct_opt_static info)) as [[o|rc|status]| |]; cbn in H |- *; try done.
  destruct args as [|mnt [|]]; [by right| |by right].
  destruct (read_file (o_config o)) as [cfg|] eqn:Ef; cbn; [|by right].
  destruct (read_config k h b cfg) as [st|] eqn:Er; cbn; [|by right].
  split_and!; [by destruct H|by exists mnt|done| |by exists cfg].
  unfold read_config, read_max_requests in Er.
  repeat (case_match || case_bool_decide || simplify_option_eq); try done; unfold MAX_HSM_REQUESTS; lia.
Qed.

(** The archive list is not bounded: one archive option more than the array
    has room for writes behind it. *)
Theorem too_many_archives info k h b args read_file :
  ct_parseopts 32 k h b (replicate 33 (OptArchive "1")) args read_file (ct_opt_static info) = Crash.
Proof. reflexivity. Qed.

(** ** Settings as C strings *)

(** The string in a buffer: up to the first terminator, if there is one. *)
Fixpoint c_string (buf : list byte) : option (list byte) :=
  match buf with
  | [] => None
  | x :: buf => if Byte.eqb x x00 then Some [] else s ← c_string buf; Some (x :: s)
  end.

Lemma c_string_app s rest :
  Forall (fun x => Byte.eqb x x00 = false) s -> c_string (s ++ x00 :: rest) = Some s.
Proof. induction 1 as [|x s Hx Hs IH]; cbn; [done|]. by rewrite Hx, IH. Qed.

Lemma c_string_none s : Forall (fun x => Byte.eqb x x00 = false) s -> c_string s = None.
Proof. induction 1 as [|x s Hx Hs IH]; cbn; [done|]. by rewrite Hx, IH. Qed.

(** A setting survives exactly if it is shorter than its buffer: the string
    then read from the buffer is the setting; one as long as the buffer or longer
    leaves no terminator, and using it reads past the buffer. *)
Theorem setting_copied s size :
  Forall (fun x => Byte.eqb x x00 = false) s ->
  c_string (strncpy s size) = if bool_decide (length s < size)%nat then Some s else None.
Proof.
  intros Hs. unfold strncpy. case_bool_decide as Hl.
  - rewrite take_ge by lia. destruct (size - length s)%nat as [|n] eqn:E; [lia|].
    by apply c_string_app.
  - replace (size - length s)%nat with 0%nat by lia. rewrite app_nil_r.
    apply c_string_none. by apply Forall_take.
Qed.

(** ** Resources of the process *)

#[export] Instance call_eq_dec : EqDecision call.
Proof. solve_decision. Defined.

Definition count (c : call) (calls : list call) : nat := length (filter (fun x => x = c) calls).

(** The mount point's descriptor is closed if and only if it was opened,
    whatever fails on the way, and the log is closed whenever it was opened,
    except after [--help]. *)
Theorem main_releases info a o st rc calls :
  o_mnt_fd o = -1 -> main info a (Parsed (o, st)) = (rc, calls) -> an_tlog_init a = 0 ->
  count CloseMount calls
    = (if bool_decide (0 <= an_search_fsname a /\ 0 <= an_open a) then 1%nat else 0%nat)
  /\ count TlogExit calls = 1%nat
  /\ (rc = 0 -> (0 <= an_search_fsname a /\ 0 <= an_open a /\ an_run a = 0)).
Proof.
  intros Hfd E Hinit. unfold main in E. rewrite Hinit in E. cbn in E.
  unfold serve, ct_s3_cleanup, ct_cleanup, ct_setup in E. rewrite Hfd in E.
  repeat case_bool_decide; cbn in E; repeat case_bool_decide; try lia; injection E as <- <-;
    cbn; split_and!; done || lia.
Qed.

(** ** Witnesses *)

Definition sample_config : config_file :=
  mk_config_file (fun _ => Some "x") (fun _ => Some true) (fun _ => None).

Lemma ct_parseopts_sound_witness :
  exists r, ct_parseopts 32 64 64 64 [OptArchive "7"; OptInterval "10"; OptQuiet] ["/mnt/fs"]
      (fun _ => Some sample_config) (ct_opt_static 5) = Ret (Parsed r)
    /\ accepted 32 64 64 64 ["/mnt/fs"] (fun _ => Some sample_config) r.
Proof.
  eexists. split; [vm_compute; reflexivity|].
  refine (ct_parseopts_sound 5 32 64 64 64 [OptArchive "7"; OptInterval "10"; OptQuiet]
    ["/mnt/fs"] (fun _ => Some sample_config) _). done.
Defined.

Lemma setting_copied_witness :
  c_string (strncpy (bytes_of "secret") 8) = Some (bytes_of "secret").
Proof.
  refine (setting_copied (bytes_of "secret") 8 _). repeat constructor.
Defined.

Definition plain_answers : answers := mk_answers 0 0 4 0 0 0.

Lemma main_releases_witness :
  exists rc calls st, main 5 plain_answers (Parsed (set_mnt "/mnt/fs" (ct_opt_static 5), st))
      = (rc, calls)
    /\ count CloseMount calls = 1%nat /\ count TlogExit calls = 1%nat
    /\ (rc = 0 -> (0 <= 0 /\ 0 <= 4 /\ 0 = 0)).
Proof.
  eexists _, _, (mk_settings [] [] [] [] [] true 1). split; [reflexivity|].
  apply (main_releases 5 plain_answers (set_mnt "/mnt/fs" (ct_opt_static 5))
    (mk_settings [] [] [] [] [] true 1)); reflexivity.
Defined.

End Daemon.
