(* ===== verification/Server.v ===== *)
(** * A small server and a small Lustre

    Concrete instances of the interfaces to libs3, Lustre and the operating
    system, which meet the documented behaviour the theorems assume; the
    witnesses run the handlers against them. Requests fail as a script in the
    world tells, and so do the calls to Lustre. *)

From Stdlib Require Import ZArith Lia.
From Stdlib Require Import Strings.Byte.
From stdpp Require Import base gmap list strings pretty.
From S2P Require Import Prelude Growbuffer Posix S3Api Copytool Paths Archive.
Import Growbuffer Posix S3Api Copytool.

Module Server.

Local Open Scope Z_scope.

(** ** Status codes *)

#[export] Instance statuses : S3Statuses := {
  S3StatusOK := 0;
  S3StatusErrorInternalError := 1;
  S3StatusErrorRequestTimeout := 2;
  S3StatusAbortedByCallback := 3;
  S3StatusErrorInvalidRange := 4;
  S3_status_is_retryable st := bool_decide (st = 1 \/ st = 2)
}.

#[export] Instance status_laws : S3StatusLaws statuses.
Proof. by split. Qed.

Definition NoSuchKey : Z := 5.
Definition IncompleteBody : Z := 6.

(** ** The world *)

(** A failure before the request's data, or after it. *)
Inductive fault :=
  | Early (status : Z)
  | Late (status : Z).

Record world := mk_world {
  objects : gmap string (list byte);
  parts : gmap (string * Z) (list byte);
  faults : list (option fault);
  lustre : list Z;
  clock : Z
}.

Definition pop_fault (w : world) : option fault * world :=
  match faults w with
  | [] => (None, w)
  | f :: fs => (f, mk_world (objects w) (parts w) fs (lustre w) (clock w))
  end.

Definition put_in (key : string) (bs : list byte) (w : world) : world :=
  mk_world (<[key := bs]> (objects w)) (parts w) (faults w) (lustre w) (clock w).

Definition remove (key : string) (w : world) : world :=
  mk_world (delete key (objects w)) (parts w) (faults w) (lustre w) (clock w).

Definition put_part (id : string) (i : Z) (bs : list byte) (w : world) : world :=
  mk_world (objects w) (<[(id, i) := bs]> (parts w)) (faults w) (lustre w) (clock w)
   .

(** An error status of the script that a request may end with. *)
Definition error_of (st : Z) : Z := if bool_decide (st = 0 \/ st = 4) then 1 else st.

Lemma error_of_not_ok st : error_of st <> S3StatusOK /\ error_of st <> S3StatusErrorInvalidRange.
Proof. unfold error_of. case_bool_decide as H; cbn; [done|]. tauto. Qed.

(** ** Requests *)

Definition complete (st : Z) (w : world) : s3_call world :=
  Calls (EvComplete st) (fun _ => Returns w).

Definition etag : string := "00000000".

(** An upload of [len] bytes, asked for at once. *)
Definition upload_call (len : Z) (f : option fault) (tag : option string)
    (store : list byte -> world) (w : world) : s3_call world :=
  match f with
  | Some (Early st) => complete (error_of st) w
  | _ =>
      let finish bs :=
        match f with
        | Some (Late st) => complete (error_of st) w
        | _ =>
            if bool_decide (Z.of_nat (length bs) = len) then
              Calls (EvProperties (mk_properties 0 tag)) (fun _ => complete S3StatusOK (store bs))
            else complete IncompleteBody w
        end in
      if bool_decide (len = 0) then finish []
      else Calls (EvPutData (Z.max 1 (Z.min len INT_MAX))) (fun a => finish a.2)
  end.

Definition get_object_call (key : string) (first count : Z) (w : world) : s3_call world :=
  let '(f, w) := pop_fault w in
  match f, objects w !! key with
  | Some (Early st | Late st), _ => complete (error_of st) w
  | None, None => complete NoSuchKey w
  | None, Some obj =>
      if bool_decide (Z.of_nat (length obj) <= first) then complete S3StatusErrorInvalidRange w
      else
        let bs := slice (Z.to_nat first) (Z.to_nat (Z.min count (Z.of_nat (length obj)))) obj in
        Calls (EvProperties (mk_properties (Z.of_nat (length bs)) (Some etag))) (fun _ =>
          match bs with
          | [] => complete S3StatusOK w
          | _ => Calls (EvGetData bs) (fun a => complete a w)
          end)
  end.


(** How many parts the document [got] lists: the number for which it is right. *)
Definition listed (got : list byte) : nat :=
  match list_find (fun n => commit_document (replicate n etag) = got)
          (seq 0 (S (length got))) with
  | Some (n, _) => n
  | None => 0
  end.

Definition committed (id : string) (got : list byte) (w : world) : list byte :=
  concat ((fun j => default [] (parts w !! (id, Z.of_nat j + 1))) <$> seq 0 (listed got)).

#[export] Instance server : LibS3 world := {
  S3_get_object := get_object_call;
  S3_put_object key len w :=
    let '(f, w) := pop_fault w in upload_call len f None (fun bs => put_in key bs w) w;
  S3_delete_object key w :=
    let '(f, w) := pop_fault w in
    match f with
    | None => Calls (EvProperties (mk_properties 0 None)) (fun _ =>
                complete S3StatusOK (remove key w))
    | Some (Early st | Late st) => complete (error_of st) w
    end;
  S3_initiate_multipart key w :=
    let '(f, w) := pop_fault w in
    match f with
    | None => Calls (EvInitResponse "upload") (fun _ => complete S3StatusOK w)
    | Some (Early st | Late st) => complete (error_of st) w
    end;
  S3_upload_part key i id len w :=
    let '(f, w) := pop_fault w in upload_call len f (Some etag) (fun bs => put_part id i bs w) w;
  S3_complete_multipart_upload key id len w :=
    let '(f, w) := pop_fault w in
    upload_call len f None (fun got => put_in key (committed id got w) w) w;
  object w key := objects w !! key;
  part w id i := bs ← parts w !! (id, i); Some (etag, bs)
}.

(** ** It behaves as documented *)

Lemma complete_ends st (P : world -> Prop) w : P w -> ends st P (complete st w).
Proof. intros H. by exists (fun _ => Returns w), w. Qed.

Lemma upload_call_ok len f tag store w props (P : list byte -> response_properties -> world -> Prop)
    (Q : world -> Prop) :
  props (mk_properties 0 tag) -> Q w -> (forall bs, P bs (mk_properties 0 tag) (store bs)) ->
  upload len props P Q false [] (upload_call len f tag store w).
Proof.
  intros Hp HQ HP. unfold upload_call.
  destruct f as [[st|st]|].
  - apply (up_error _ _ _ _ _ _ (error_of st)); [apply error_of_not_ok|by apply complete_ends].
  - assert (forall eof got, upload len props P Q eof got (complete (error_of st) w)) as H.
    { intros. apply (up_error _ _ _ _ _ _ (error_of st)); [apply error_of_not_ok|].
      by apply complete_ends. }
    case_bool_decide; [apply H|]. apply up_ask; [unfold INT_MAX; lia|intros; apply H|apply H].
  - assert (forall eof got, upload len props P Q eof got
      (if bool_decide (Z.of_nat (length got) = len) then
         Calls (EvProperties (mk_properties 0 tag)) (fun _ => complete S3StatusOK (store got))
       else complete IncompleteBody w)) as H.
    { intros eof got. case_bool_decide.
      - apply up_done; [done|done|by apply complete_ends].
      - apply (up_error _ _ _ _ _ _ IncompleteBody); [done|by apply complete_ends]. }
    case_bool_decide as Hz; [apply (H false [])|].
    apply up_ask; [unfold INT_MAX; lia|intros b bs _; apply (H false (b :: bs))|apply (H true [])].
Qed.

Lemma pop_fault_same w : objects (pop_fault w).2 = objects w /\ parts (pop_fault w).2 = parts w.
Proof. unfold pop_fault. by destruct (faults w). Qed.

Lemma download_one (Q : world -> Prop) bs k :
  bs <> [] -> (forall a, ends a Q (k a)) -> download Q bs (Calls (EvGetData bs) k).
Proof.
  intros Hne Hk. pose proof (down_piece Q bs [] k Hne) as H. rewrite app_nil_r in H.
  apply H; [by apply down_done|auto].
Qed.

#[export] Instance server_objects : LibS3Objects world statuses server.
Proof.
  split.
  - intros key obj first count w Ho. cbn in *. unfold get_object_call.
    pose proof (pop_fault_same w) as [Hobj _]. destruct (pop_fault w) as [f w1]. cbn in Hobj.
    assert (forall st, ranged_download obj first count (fun w' => objects w' = objects w)
      (complete (error_of st) w1)) as Hf.
    { intros st. destruct (error_of_not_ok st).
      apply (rd_error _ _ _ _ (error_of st)); [done|done|by apply complete_ends]. }
    assert ((fun w' => (fun key => objects w' !! key) = (fun key => objects w !! key)) w1) as Hsame
      by by rewrite Hobj.
    destruct f as [[st|st]|]; cbn.
    1, 2: destruct (error_of_not_ok st);
      apply (rd_error _ _ _ _ (error_of st)); [done|done|by apply complete_ends].
    rewrite Hobj, Ho. case_bool_decide as Hlen.
    + apply rd_range; [done|by apply complete_ends].
    + set (bs := slice _ _ obj).
      assert (bs = slice (Z.to_nat first) (Z.to_nat count) obj) as Hbs.
      { unfold bs, slice. destruct (decide (count <= Z.of_nat (length obj))).
        - by rewrite Z.min_l.
        - rewrite Z.min_r, Nat2Z.id by lia. rewrite !take_ge; [done|rewrite length_drop; lia..]. }
      apply (rd_data _ _ _ _ _ _ bs); [lia|done|done|done|].
      destruct bs as [|b bs'] eqn:E; [by apply down_done, complete_ends|].
      apply download_one; [done|]. intros a. by apply complete_ends.
  - intros key first count w Ho. cbn in *. unfold get_object_call.
    pose proof (pop_fault_same w) as [Hobj _]. destruct (pop_fault w) as [f w1]. cbn in Hobj.
    destruct f as [[st|st]|]; [destruct (error_of_not_ok st); exists (error_of st)..|].
    1, 2: split_and!; [done|done|]; apply complete_ends; by rewrite Hobj.
    rewrite Hobj, Ho. exists NoSuchKey. split_and!; [done|done|]. apply complete_ends. by rewrite Hobj.
  - intros key len w. cbn. pose proof (pop_fault_same w) as [Hobj _].
    destruct (pop_fault w) as [f w1]. cbn in Hobj. apply upload_call_ok; [done| |].
    + intros key' _. by rewrite Hobj.
    + intros bs. cbn. split; [by rewrite lookup_insert_eq|].
      intros key' Hne. by rewrite lookup_insert_ne, Hobj.
  - intros key w. cbn. pose proof (pop_fault_same w) as [Hobj _].
    destruct (pop_fault w) as [f w1]. cbn in Hobj.
    destruct f as [[st|st]|]; [| |apply bl_properties];
      (eapply bl_end, complete_ends; split; [|]).
    1, 3: by intros E; destruct (error_of_not_ok st).
    1, 2: intros; by rewrite Hobj.
    + intros _. cbn. by rewrite lookup_delete_eq.
    + intros key' Hne. cbn. by rewrite lookup_delete_ne, Hobj.
Qed.

Lemma part_elements_length n i :
  (n <= length (concat (part_elements i (replicate n etag))))%nat.
Proof.
  revert i. induction n as [|n IH]; intros i; [cbn; lia|]. cbn [replicate part_elements concat].
  rewrite length_app. specialize (IH (i + 1)).
  assert (1 <= length (String.list_byte_of_string (part_element i etag)))%nat; [|lia].
  fold (bytes_of (part_element i etag)). rewrite Archive.length_bytes_of.
  unfold part_element. rewrite Paths.String_length_app. cbn [String.length]. lia.
Qed.

Lemma part_elements_add n m i :
  part_elements i (replicate (n + m) etag)
  = part_elements i (replicate n etag) ++ part_elements (i + Z.of_nat n) (replicate m etag).
Proof.
  revert i. induction n as [|n IH]; intros i; [cbn; by rewrite Z.add_0_r|].
  cbn [Nat.add replicate part_elements app]. rewrite IH. do 3 f_equal. lia.
Qed.

Lemma commit_document_length n :
  length (commit_document (replicate n etag))
  = (51 + length (concat (part_elements 1 (replicate n etag))))%nat.
Proof. unfold commit_document. rewrite !length_app. cbn. lia. Qed.

Lemma commit_document_inj n m :
  commit_document (replicate n etag) = commit_document (replicate m etag) -> n = m.
Proof.
  assert (forall n m, (n < m)%nat -> commit_document (replicate n etag)
    <> commit_document (replicate m etag)) as H.
  { intros x y Hxy E. apply (f_equal length) in E. rewrite !commit_document_length in E.
    replace y with (x + (y - x))%nat in E by lia.
    rewrite part_elements_add, concat_app, length_app in E.
    pose proof (part_elements_length (y - x) (1 + Z.of_nat x)). lia. }
  intros E. destruct (lt_eq_lt_dec n m) as [[Hlt| ->]|Hlt]; [by apply H in E|done|].
  by apply eq_sym, H in E.
Qed.

Lemma listed_document n : listed (commit_document (replicate n etag)) = n.
Proof.
  unfold listed. set (got := commit_document _).
  destruct (list_find _ _) as [[k x]|] eqn:E.
  - apply list_find_Some in E as (Hk & Hx & _). apply lookup_seq in Hk as [-> _].
    by apply commit_document_inj in Hx.
  - apply list_find_None in E. rewrite Forall_forall in E. exfalso. apply (E n); [|done].
    apply elem_of_seq. unfold got. rewrite commit_document_length.
    pose proof (part_elements_length n 1). lia.
Qed.

#[export] Instance server_multipart : LibS3Multipart world statuses server.
Proof.
  split.
  - intros key w. cbn. pose proof (pop_fault_same w) as [Hobj _].
    destruct (pop_fault w) as [f w1]. cbn in Hobj.
    destruct f as [[st|st]|]; [| |apply bl_upload_id; [done|]];
      eapply bl_end, complete_ends; by rewrite Hobj.
  - intros key i id len w. cbn. pose proof (pop_fault_same w) as [Hobj Hparts].
    destruct (pop_fault w) as [f w1]. cbn in Hobj, Hparts. apply upload_call_ok.
    + exists etag. by split.
    + rewrite Hobj. split; [|done]. intros i' _. by rewrite Hparts.
    + intros bs. cbn. rewrite lookup_insert_eq, Hobj. split_and!; [done| |done].
      intros i' Hne. rewrite lookup_insert_ne, Hparts; [done|congruence].
  - intros key id len ps w Hps. cbn [S3_complete_multipart_upload part object server] in *.
    pose proof (pop_fault_same w) as [Hobj Hparts].
    destruct (pop_fault w) as [f w1]. cbn in Hobj, Hparts. apply upload_call_ok; [done| |].
    + intros key' _. by rewrite Hobj.
    + intros bs. cbn [object server put_in objects]. split.
      * intros ->. rewrite lookup_insert_eq. f_equal. unfold committed.
        assert (ps.*1 = replicate (length ps) etag) as ->.
        { apply list_eq. intros i. rewrite list_lookup_fmap. destruct (ps !! i) as [p|] eqn:E.
          - rewrite lookup_replicate_2 by by eapply lookup_lt_Some.
            specialize (Hps i p E). destruct (parts w !! _); [|done]. cbn in Hps.
            by injection Hps as <-.
          - symmetry. apply lookup_replicate_None. by apply lookup_ge_None. }
        rewrite listed_document. f_equal. apply list_eq. intros i.
        rewrite !list_lookup_fmap. destruct (ps !! i) as [p|] eqn:E.
        -- rewrite lookup_seq_lt by by eapply lookup_lt_Some. cbn. rewrite Hparts.
           specialize (Hps i p E). destruct (parts w !! _); [|done]. cbn in Hps.
           by injection Hps as <-.
        -- rewrite lookup_seq_ge; [done|by apply lookup_ge_None].
      * intros key' Hne. by rewrite lookup_insert_ne, Hobj.
Qed.

(** ** Lustre and the operating system *)

(** The next scripted result of a call, 0 when there is none. *)
Definition pop_lustre (w : world) : world * Z :=
  match lustre w with
  | [] => (w, 0)
  | r :: rs => (mk_world (objects w) (parts w) (faults w) rs (clock w), r)
  end.

#[export] Instance lustre_codes : LustreCodes := {
  HSMA_ARCHIVE := 20;
  HSMA_RESTORE := 21;
  HSMA_REMOVE := 22;
  HSMA_CANCEL := 23;
  HP_FLAG_RETRY := 2;
  LLAPI_MSG_INFO := 5
}.

(** The copy action's file has descriptor 3 and five bytes. *)
#[export] Instance lustre_calls : Llapi world := {
  llapi_hsm_action_begin hai i fl e w :=
    let '(w, r) := pop_lustre w in (w, (r, if bool_decide (r < 0) then None else Some 1));
  llapi_hsm_action_end hcp he fl err w := pop_lustre w;
  llapi_hsm_action_progress hcp he total fl w := pop_lustre w;
  llapi_hsm_action_get_fd hcp w := (w, 3);
  llapi_hsm_action_get_dfid hcp w := (w, (0, mk_fid 1 2 3));
  llapi_get_mdt_index_by_fid fd fid w := (w, (0, 0));
  llapi_fid2path mnt fid w := (w, (0, "file"))
}.

Lemma server_begin_gives : begin_gives (W := world).
Proof.
  intros hai i fl e w. cbn. destruct (pop_lustre w) as [w' r]. cbn. intros Hr.
  by rewrite bool_decide_eq_false_2 by lia.
Qed.

#[export] Instance system : Os world := {
  fstat fd w := (w, inr (mk_stat true 5));
  fgetxattr_lov fd w := (w, 0);
  time w := (mk_world (objects w) (parts w) (faults w) (lustre w) (clock w + 1),
             clock w);
  malloc n w := (w, true);
  small_mallocs w := (w, [])
}.

#[export] Instance isolated : Isolated world.
Proof. split; intros; intros w; cbn; unfold pop_lustre; by destruct (lustre w). Qed.

End Server.
