(* ===== verification/Witnesses.v ===== *)
(** * The handlers at work

    Runs of the handlers against the small server, with the theorems applied to
    them, and runs that show what goes wrong. *)

From Stdlib Require Import ZArith Lia.
From Stdlib Require Import Strings.Byte.
From stdpp Require Import base gmap list strings.
From S2P Require Import Prelude Growbuffer Posix S3Api Callbacks Copytool Paths Chunking Restore Archive Handlers Server.
Import Growbuffer Posix S3Api Callbacks Copytool Paths Chunking Restore Archive Handlers Server.

Module Witnesses.

Local Open Scope Z_scope.

Definition options : ct_options := mk_options false false false 5 30 "/mnt/fs" 4.

Definition quiet_options : ct_options := mk_options false false false 3 30 "/mnt/fs" 4.

Definition item (action : Z) : hsm_action_item :=
  mk_hai 72 action (mk_fid 1 2 3) (mk_fid 1 2 3) (mk_extent 0 whole_file) 7.

(** Descriptor 3 open on a file with the given contents, and a world with the
    given objects and faults. *)
Definition start (data : string) (objs : gmap string (list byte)) (faults : list (option fault))
    (lustre : list Z) : pst world :=
  mk_pst (mk_world objs ∅ faults lustre 0) {[ 3 := mk_file (bytes_of data) 0 [] ]} [] 0.

(** A put that fails once, before any data were taken, and is repeated. *)
Definition archive_start : pst world := start "hello" ∅ [Some (Early 1)] [].


Lemma ct_archive_data_stores_witness :
  exists s' rc, ct_archive_data (Some 1) "file" 3 (mk_stat true 5) (item 20) archive_start
      = Ret (s', rc)
    /\ within (archive_act "file" (extent_length (item 20) (mk_stat true 5)) 5) "file" 3
         archive_start s'
    /\ quota_held (trace s') = quota_held (trace archive_start)
    /\ (rc = 0 \/ rc = -1 \/ rc = - ENOMEM \/ rc = - EIO)
    /\ (rc = 0 -> Z.of_nat (length (next_bytes (mk_file (bytes_of "hello") 0 [])
                      (extent_length (item 20) (mk_stat true 5))))
                  = extent_length (item 20) (mk_stat true 5)
                  /\ object (env s') "file" = Some (next_bytes (mk_file (bytes_of "hello") 0 [])
                      (extent_length (item 20) (mk_stat true 5)))).
Proof.
  apply (ct_archive_data_stores (Some 1) "file" 3 (mk_stat true 5) (item 20)
    (mk_file (bytes_of "hello") 0 []) archive_start); done.
Defined.

(** ** Archives in parts *)

Lemma ct_archive_data_big_stores_witness :
  exists s' rc, ct_archive_data_big options (Some 1) "file" 3 (mk_stat true 5) (item 20)
      archive_start = Ret (s', rc)
    /\ within not_quota "file" 3 archive_start s' /\ (rc = 0 \/ rc = -1 \/ rc = - EIO)
    /\ (rc = 0 -> exists l n status,
          trace s' = trace archive_start ++ l ++ [ACommit "file" n (Some status)]
          /\ 5 <= Z.of_nat (length (bytes_of "hello"))
          /\ (status = S3StatusOK -> Forall uploading l ->
              object (env s') "file" = Some (take (Z.to_nat 5) (bytes_of "hello")))).
Proof.
  apply (ct_archive_data_big_stores options (Some 1) "file" 3 (mk_stat true 5) (item 20)
    (mk_file (bytes_of "hello") 0 []) archive_start); try done.
  intros w. apply not_elem_of_nil.
Defined.

(** The result, the object and the last act of a run. *)
Definition outcome_of (key : string) (r : outcome (pst world * Z))
    : option (Z * option (list byte) * option act) :=
  match r with
  | Ret (s, rc) => Some (rc, object (env s) key, last (trace s))
  | _ => None
  end.

(** A run in which every request succeeds. *)
Example archive_big_succeeds :
  outcome_of "file" (ct_archive_data_big options (Some 1) "file" 3 (mk_stat true 5) (item 20)
    (start "hello" ∅ [] []))
  = Some (0, Some (bytes_of "hello"), Some (ACommit "file" 111 (Some 0))).
Proof. vm_compute. reflexivity. Qed.

(** The same for a whole archive in parts: the server takes the list and then answers the
    commit with an internal error, and the result is 0 although no object exists. *)
Example archive_big_commit_error_run :
  outcome_of "file" (ct_archive_data_big options (Some 1) "file" 3 (mk_stat true 5) (item 20)
    (start "hello" ∅ [None; None; Some (Late 1)] []))
  = Some (0, None, Some (ACommit "file" 111 (Some 1))).
Proof. vm_compute. reflexivity. Qed.

Definition fresh_manager (parts : nat) : UploadManager :=
  mk_manager None (replicate parts None) 0 (mk_heap ∅ []) None 0.

(** Two parts of three bytes and a commit that is refused after the list was taken. *)
Definition refused_commit : pst world := start "hello" ∅ [None; None; Some (Late 1)] [].

Definition refused_parts : M world (bool * UploadManager) :=
  upload_parts options (Z.to_nat 2) (Some 1) "file" "upload" (put_data_for 3) 1 3 5 5 5
    (u64 (5 - u64 (3 * 0))) 0 (fresh_manager 2).

(** The parts and the first commit request: the bytes left, the last act and the object. *)
Definition refused_run : outcome (pst world * UploadManager) :=
  (r ← refused_parts; m ← lift (commit_body r.2); commit_request "file" "upload" m) refused_commit.

Lemma refused_run_ends :
  (fun r : pst world * UploadManager => (remaining r.2, last (trace r.1), object (env r.1) "file"))
    <$> match refused_run with Ret r => Some r | _ => None end
  = Some (0, Some (ACommit "file" 171 (Some 1)), None).
Proof. vm_compute. reflexivity. Qed.

Lemma archive_big_commit_error_ignored_witness :
  exists s2, upload_and_commit options (Some 1) "file" "upload" (put_data_for 3) 3 2 5 5 0
      (fresh_manager 2) refused_commit = Ret (s2, 0)
    /\ last (trace s2) = Some (ACommit "file" 171 (Some 1)) /\ object (env s2) "file" = None.
Proof.
  assert (match refused_parts refused_commit with Ret (_, (b, _)) => b | _ => false end = true) as Eb
    by (vm_compute; reflexivity).
  destruct (refused_parts refused_commit) as [[s1 [b m1]]| |] eqn:E; [subst b|done..].
  destruct (archive_big_commit_error_ignored options (Some 1) "file" "upload" 3 (bytes_of "hello") 5 3 2)
    with (m := fresh_manager 2) (mallocs := @nil bool) (ext := 5) (last := 0) (s := refused_commit) (s1 := s1) (m1 := m1)
    as (m2 & E2 & s2 & m3 & status & E3 & Htr & Hret); [unfold INT_MAX; lia|lia|lia|lia|lia|reflexivity|reflexivity|reflexivity|reflexivity| | |exact E|].
  - apply not_elem_of_nil.
  - exists 0%nat, []. reflexivity.
  - assert (refused_run = Ret (s2, m3)) as Erun.
    { unfold refused_run. rewrite (M_bind_Ret _ _ _ _ _ E). cbn [snd].
      erewrite M_bind_Ret by (unfold lift; by rewrite E2). exact E3. }
    pose proof refused_run_ends as Hends. rewrite Erun in Hends. injection Hends as Hrem Hlast Hobj.
    exists s2. split_and!; [by apply Hret|exact Hlast|exact Hobj].
Defined.

(** A part that failed after taking its data is not really repeated: its five
    further attempts have no bytes left to send, and the upload fails, although
    the server would have accepted the very next attempt. *)
Example archive_big_part_retry_sends_nothing :
  outcome_of "file" (ct_archive_data_big options (Some 1) "file" 3 (mk_stat true 5) (item 20)
    (start "hello" ∅ [None; Some (Late 1)] []))
  = Some (- EIO, None, Some (AUploadPart "file" 1 5)).
Proof. vm_compute. reflexivity. Qed.

(** ** Repeated puts *)

Lemma put_retry_never_succeeds_witness :
  exists s1 d1, put_request "file" (Z.of_nat (length (bytes_of "hello")))
        (put_data_of (Z.of_nat (length (bytes_of "hello"))) (bytes_of "hello"))
        (start "hello" ∅ [Some (Late 1)] []) = Ret (s1, d1)
    /\ put_again d1 = true /\ 0 < buffer_offset d1
    /\ exists s' d', with_retries (put_request "file" (Z.of_nat (length (bytes_of "hello")))) put_again
          (put_data_of (Z.of_nat (length (bytes_of "hello"))) (bytes_of "hello"))
          (start "hello" ∅ [Some (Late 1)] []) = Ret (s', d')
      /\ put_status d' <> S3StatusOK.
Proof.
  do 2 eexists. split; [vm_compute; reflexivity|]. split; [reflexivity|]. split; [reflexivity|].
  eapply (put_retry_never_succeeds "file" (bytes_of "hello"));
    [reflexivity|vm_compute; reflexivity|reflexivity|reflexivity].
Defined.

(** ** Restores *)

Definition bucket : gmap string (list byte) := {[ "file" := bytes_of "hello" ]}.

(** A download that fails once and is repeated. *)
Definition restore_start : pst world := start "" bucket [Some (Early 1)] [].

Lemma get_s3_object_restores_witness :
  exists s' rc d f', get_s3_object 10 "file" (new_get_data 3) restore_start = Ret (s', (rc, d))
    /\ object (env s') = object (env restore_start) /\ err_major s' = err_major restore_start
    /\ open_files s' !! 3 = Some f'
    /\ (rc = 0 /\ f_data f' = bytes_of "hello" \/ rc = - EIO)
    /\ (forall fd', fd' <> 3 -> open_files s' !! fd' = open_files restore_start !! fd').
Proof.
  apply (get_s3_object_restores "file" (bytes_of "hello") 3 (mk_file [] 0 [])); done.
Defined.

Lemma regular_file : forall w : world, exists st, (fstat 3 w).2 = inr st /\ st_isreg st = true.
Proof. intros w. by exists (mk_stat true 5). Qed.

Lemma ct_restore_data_restores_witness :
  exists s' rc f', ct_restore_data options "/mnt/fs" 10 (Some 1) 3 (item 21) "file" restore_start
      = Ret (s', rc)
    /\ object (env s') = object (env restore_start) /\ open_files s' !! 3 = Some f'
    /\ (0 <= rc -> f_data f' = bytes_of "hello")
    /\ (forall fd', fd' <> 3 -> open_files s' !! fd' = open_files restore_start !! fd').
Proof.
  apply (ct_restore_data_restores options "/mnt/fs" 10 (Some 1) 3 (item 21) "file" "/mnt/fs/file"
    "file" (bytes_of "hello") (mk_file [] 0 [])); try done. apply regular_file.
Defined.

Lemma ct_restore_data_no_target_witness :
  exists s', ct_restore_data options "/data" 10 (Some 1) 3 (item 21) "file" restore_start
      = Ret (s', 0) /\ only is_report restore_start s'.
Proof.
  apply (ct_restore_data_no_target options "/data" 10 (Some 1) 3 (item 21) "file" "/mnt/fs/file");
    [apply regular_file|done|done].
Defined.

(** ** Reports *)

(** The server is down for good, and the coordinator cannot be told at first. *)
Definition failing_start : pst world :=
  start "hello" ∅ (replicate 10 (Some (Early 1))) [0; 0; -110; -110].

Lemma ct_archive_reports_witness :
  exists s', ct_archive options "/mnt/fs" (item 20) (Some "file") failing_start = Ret (s', - EIO)
    /\ exists ct_rc,
         reported (if bool_decide (ct_rc = - ETIMEDOUT) then HP_FLAG_RETRY else 0) ct_rc (- EIO)
           failing_start s'
         /\ err_major s' = i32 (err_major failing_start + 1).
Proof.
  eexists. split; [vm_compute; reflexivity|].
  apply (ct_archive_reports options "/mnt/fs" (item 20) (Some "file")). vm_compute. reflexivity.
Defined.

(** The action cannot be begun, and so the run returns. *)
Lemma ct_process_item_quiet_witness :
  exists s', ct_process_item quiet_options "/mnt/fs" 10 (item 20)
        (start "hello" ∅ [] (replicate 7 (-5))) = Ret (s', -5)
    /\ logs no_transfer (start "hello" ∅ [] (replicate 7 (-5))) s'.
Proof.
  eexists. split; [vm_compute; reflexivity|].
  apply (ct_process_item_quiet quiet_options "/mnt/fs" 10 (item 20) _ _ (-5));
    [reflexivity|reflexivity|vm_compute; reflexivity].
Defined.

(** And a file to archive makes it undefined. *)
Example quiet_archive_crashes :
  ct_process_item quiet_options "/mnt/fs" 10 (item 20) archive_start = Crash.
Proof. vm_compute. reflexivity. Qed.

(** The status a restore leaves: the result, the file's contents, the reports. *)
Definition restore_of (r : outcome (pst world * Z)) : option (Z * option (list byte)) :=
  match r with
  | Ret (s, rc) => Some (rc, f_data <$> open_files s !! 3)
  | _ => None
  end.

Definition eager_options : ct_options := mk_options false false false 5 0 "/mnt/fs" 4.

(** A restored file can be reported as failed: when the reporting period has
    passed and the second progress report fails all its seven times, its error
    becomes the result of [ct_restore_data], although the file is complete. *)
Example restore_late_report_failure :
  restore_of (ct_restore_data eager_options "/mnt/fs" 10 (Some 1) 3 (item 21) "file"
    (start "" bucket [] (0 :: replicate 7 (-5))))
  = Some (-5, Some (bytes_of "hello")).
Proof. vm_compute. reflexivity. Qed.

End Witnesses.
