(* ===== verification/RestoreAction.v ===== *)
(** * lhsmtool_s3.c: a restore action from its start to its report

    [ct_restore] as a whole: it returns, and when it reports success the file that was
    closed holds the object. *)

From Stdlib Require Import ZArith Lia.
From Stdlib Require Import Strings.Byte.
From stdpp Require Import base gmap list strings.
From S2P Require Import Prelude Growbuffer Posix S3Api Callbacks Copytool Paths Chunking Restore Archive Handlers Server Witnesses.
Import Growbuffer Posix S3Api Callbacks Copytool Paths Chunking Restore Archive Handlers.

Module RestoreAction.

Local Open Scope Z_scope.

Section Action.
Context {ST : S3Statuses} {LAWS : S3StatusLaws ST} {W : Type} {L : LibS3 W}
  {LO : LibS3Objects W ST L} {LL : Llapi W} {OS : Os W} {LC : LustreCodes} {ISO : Isolated W}.
Context (ct_opt : ct_options) (path_prefix : string) (fd : Z).

(** The volatile file to be filled is the regular file with descriptor [fd]. *)
Hypothesis fd_given : forall hcp w, (llapi_hsm_action_get_fd hcp w).2 = fd.
Hypothesis regular : forall w, exists st, (fstat fd w).2 = inr st /\ st_isreg st = true.

(** The bucket and the files other than [fd] stay as they are. *)
Definition elsewhere (s s' : pst W) : Prop :=
  object (env s') = object (env s)
  /\ (forall fd', fd' <> fd -> open_files s' !! fd' = open_files s !! fd').

#[local] Instance elsewhere_trans : Transitive elsewhere.
Proof.
  intros s1 s2 s3 [O1 F1] [O2 F2]. split; [congruence|]. intros fd' H. by rewrite F2, F1.
Qed.

Lemma only_elsewhere P s s' : only P s s' -> elsewhere s s'.
Proof. intros []. split; [done|]. intros fd' _. congruence. Qed.

(** The handler's middle part. *)
Lemma restore_file_runs fuel hcp hai path full key obj f s :
  sprintf_full_path ct_opt path = Ret full -> ct_target path_prefix full = Ret (Some key) ->
  o_dry_run ct_opt = false -> 0 <= fd ->
  ext_length (hai_extent hai) = whole_file -> ext_offset (hai_extent hai) = 0 ->
  object (env s) key = Some obj -> Z.of_nat (length obj) + CHUNK_SIZE < two64 ->
  open_files s !! fd = Some f -> f_data f = [] -> f_pos f = 0 ->
  Z.of_nat (length obj) / CHUNK_SIZE + RETRYCOUNT < Z.of_nat fuel ->
  exists s' rc fd' flags, restore_file ct_opt path_prefix fuel hcp hai (Some path) s = Ret (s', (rc, fd', flags))
    /\ elsewhere s s' /\ (fd' = -1 \/ fd' = fd)
    /\ (0 <= rc -> fd' = fd /\ flags = 0 /\ exists f', open_files s' !! fd = Some f' /\ f_data f' = obj).
Proof.
  intros Hfull Ht Hdry Hfd Hlen Hoff Hobj Hw Hf Hd Hpos Hfuel. unfold restore_file. rewrite Hdry.
  destruct (does_ask any_act _ (get_dfid_apart hcp) s) as (s1 & d & E1 & O1).
  erewrite M_bind_Ret by exact E1. pose proof (only_elsewhere _ _ _ O1) as W1.
  case_bool_decide as Hneg; [exists s1, d.1, (-1), 0; split_and!; [done|done|by left|lia]|].
  destruct (does_ask any_act _ (get_fd_apart hcp) s1) as (s2 & fd' & E2 & O2).
  erewrite M_bind_Ret by exact E2. pose proof (only_elsewhere _ _ _ O2) as W2.
  pose proof (ask_only any_act _ _ _ _ (get_fd_apart hcp) E2) as [_ ->]. rewrite fd_given.
  rewrite bool_decide_eq_false_2 by lia. cbn [path_of]. unfold path_of.
  erewrite M_bind_Ret by reflexivity.
  destruct (ct_restore_data_runs ct_opt path_prefix fuel hcp fd hai path full key obj f s2)
    as (s3 & rc & f' & E3 & O3 & F3 & Hok & R3); try done.
  - by rewrite (only_object _ _ _ O2), (only_object _ _ _ O1).
  - by rewrite (only_files _ _ _ O2), (only_files _ _ _ O1).
  - erewrite M_bind_Ret by exact E3.
    assert (elsewhere s s3) as W3 by (do 2 (etrans; [eassumption|]); by split).
    case_bool_decide as Hrc.
    + erewrite M_bind_Ret by reflexivity. do 4 eexists. split_and!; [reflexivity|done|by right|lia].
    + do 4 eexists. split_and!; [reflexivity|done|by right|].
      intros Hge. split_and!; [done..|]. exists f'. split; [done|by apply Hok].
Qed.

(** C2. A restore action of a whole file returns, whatever the coordinator answers and
    however many requests fail, touches neither the bucket nor another open file, and
    with the result 0 the volatile file held exactly the object when it was closed, right
    before the end of the action was reported without an error. *)
Theorem ct_restore_success fuel hai path full key obj f s :
  begin_gives -> sprintf_full_path ct_opt path = Ret full -> ct_target path_prefix full = Ret (Some key) ->
  o_dry_run ct_opt = false -> 0 <= fd ->
  ext_length (hai_extent hai) = whole_file -> ext_offset (hai_extent hai) = 0 ->
  object (env s) key = Some obj -> Z.of_nat (length obj) + CHUNK_SIZE < two64 ->
  open_files s !! fd = Some f -> f_data f = [] -> f_pos f = 0 ->
  Z.of_nat (length obj) / CHUNK_SIZE + RETRYCOUNT < Z.of_nat fuel ->
  exists s' rc, ct_restore ct_opt path_prefix fuel hai (Some path) s = Ret (s', rc)
    /\ object (env s') = object (env s)
    /\ (forall fd', fd' <> fd -> open_files s' !! fd' = open_files s !! fd')
    /\ (rc = 0 -> exists hcp s1 s2 f', open_files s1 !! fd = Some f' /\ f_data f' = obj
         /\ file_close fd s1 = Ret (s2, tt) /\ ct_action_done hcp hai 0 0 s2 = Ret (s', 0)).
Proof.
  intros Hb Hfull Ht Hdry Hfd Hlen Hoff Hobj Hw Hf Hd Hpos Hfuel. unfold ct_restore.
  destruct (does_ask any_act _ (mdt_index_apart (o_mnt_fd ct_opt) (hai_fid hai)) s) as (s1 & [rc0 idx] & E1 & O1).
  erewrite M_bind_Ret by exact E1. pose proof (only_elsewhere _ _ _ O1) as W1.
  cbv beta iota zeta. case_bool_decide as Hneg; [destruct W1; exists s1, rc0; split_and!; [done..|lia]|].
  destruct (does_begin None hai idx 0 false s1) as (s2 & [rc1 hcp] & E2 & O2).
  unfold ct_begin_restore. erewrite M_bind_Ret by exact E2. pose proof (only_elsewhere _ _ _ O2) as W2.
  cbv beta iota zeta. assert (exists s3 rc fd' flags, (if bool_decide (rc1 < 0) then mret (rc1, -1, 0)
      else restore_file ct_opt path_prefix fuel hcp hai (Some path)) s2 = Ret (s3, (rc, fd', flags))
    /\ elsewhere s2 s3 /\ (fd' = -1 \/ fd' = fd)
    /\ (0 <= rc -> fd' = fd /\ flags = 0 /\ exists f', open_files s3 !! fd = Some f' /\ f_data f' = obj))
    as (s3 & rc & fd' & flags & E3 & W3 & Hcase & Hok).
  { case_bool_decide; [exists s2, rc1, (-1), 0; split_and!; [done|by split|by left|lia]|].
    eapply restore_file_runs; try done.
    - by rewrite (only_object _ _ _ O2), (only_object _ _ _ O1).
    - by rewrite (only_files _ _ _ O2), (only_files _ _ _ O1). }
  erewrite M_bind_Ret by exact E3. cbv beta iota zeta.
  assert (exists s4, close_fd fd' s3 = Ret (s4, tt) /\ elsewhere s3 s4
    /\ (fd' = fd -> file_close fd s3 = Ret (s4, tt))) as (s4 & E4 & W4 & Hclose).
  { unfold close_fd. destruct Hcase as [-> | ->].
    - exists s3. split_and!; [done|by split|lia].
    - rewrite bool_decide_eq_false_2 by lia. eexists. split_and!; [reflexivity| |done].
      split; [done|]. intros x Hx. cbn. by rewrite lookup_delete_ne. }
  erewrite M_bind_Ret by exact E4.
  destruct (does_action_done hcp hai flags rc Hb s4) as (s5 & rcd & E5 & O5).
  erewrite M_bind_Ret by exact E5. pose proof (only_elsewhere _ _ _ O5) as W5.
  assert (elsewhere s s5) as [Ho Hr] by (do 4 (etrans; [eassumption|]); done).
  exists s5, (Z.lor rc rcd). split_and!; [done..|]. intros [-> ->]%Z.lor_eq_0_iff.
  destruct (Hok ltac:(lia)) as (-> & -> & f' & F3 & D3). exists hcp, s3, s4, f'. split_and!; auto.
Qed.

End Action.

Import Server Witnesses.

(** The object is found at the second try. *)
Lemma ct_restore_success_witness :
  exists s' rc, ct_restore options "/mnt/fs" 10 (item 21) (Some "file") restore_start
      = Ret (s', rc) /\ rc = 0
    /\ exists hcp s1 s2 f', open_files s1 !! 3 = Some f' /\ f_data f' = bytes_of "hello"
         /\ file_close 3 s1 = Ret (s2, tt) /\ ct_action_done hcp (item 21) 0 0 s2 = Ret (s', 0).
Proof.
  assert (forall hcp (w : world), (llapi_hsm_action_get_fd hcp w).2 = 3) as Hfd by done.
  destruct (ct_restore_success (W := world) options "/mnt/fs" 3 Hfd regular_file 10
    (item 21) "file" "/mnt/fs/file" "file" (bytes_of "hello") (mk_file [] 0 []) restore_start server_begin_gives)
    as (s' & rc & E & _ & _ & H); [done..|].
  exists s', rc. assert (rc = 0) as Hrc.
  { vm_compute in E. by injection E. }
  split_and!; [exact E|exact Hrc|by apply H].
Defined.

End RestoreAction.
