(* ===== verification/Reports.v ===== *)
(** * lhsmtool_s3.c: every action returns and is reported

    When [ct_restore] and [ct_process_item] return, and what has then been reported to the
    coordinator. *)

From Stdlib Require Import ZArith Lia.
From Stdlib Require Import Strings.Byte.
From stdpp Require Import base gmap list strings.
From S2P Require Import Prelude Posix S3Api Callbacks Copytool Paths Restore Archive Handlers Server Witnesses.
Import Posix S3Api Callbacks Copytool Paths Restore Archive Handlers.

Module Reports.

Local Open Scope Z_scope.

Section Restores.
Context {ST : S3Statuses} {LAWS : S3StatusLaws ST} {W : Type} {L : LibS3 W}
  {LO : LibS3Objects W ST L} {LL : Llapi W} {OS : Os W} {LC : LustreCodes} {ISO : Isolated W}.
Context (ct_opt : ct_options) (path_prefix : string).

(** The file to be filled is the regular file with descriptor [fd]. *)
Record regular_given (fd : Z) : Prop := {
  rg_fd hcp w : (llapi_hsm_action_get_fd hcp w).2 = fd;
  rg_regular w : exists st, (fstat fd w).2 = inr st /\ st_isreg st = true
}.

(** The handler's middle part returns. *)
Lemma restore_file_returns fd fuel hcp hai path s :
  regular_given fd ->
  (o_dry_run ct_opt = false -> 0 <= fd -> restorable ct_opt path_prefix fuel fd hai path s) ->
  exists s' r, restore_file ct_opt path_prefix fuel hcp hai (Some path) s = Ret (s', r).
Proof.
  intros [fd_given regular] Hready. unfold restore_file.
  destruct (does_ask any_act _ (get_dfid_apart hcp) s) as (s1 & d & E1 & O1).
  erewrite M_bind_Ret by exact E1. case_bool_decide; [by eexists _, _|].
  destruct (o_dry_run ct_opt); [by eexists _, _|].
  destruct (does_ask any_act _ (get_fd_apart hcp) s1) as (s2 & fd' & E2 & O2).
  erewrite M_bind_Ret by exact E2.
  pose proof (ask_only any_act _ _ _ _ (get_fd_apart hcp) E2) as [_ ->]. rewrite fd_given.
  case_bool_decide; [by eexists _, _|]. unfold path_of. erewrite M_bind_Ret by reflexivity.
  destruct (ct_restore_data_returns ct_opt path_prefix fuel hcp fd hai path s2 regular) as (s3 & rc & E3).
  { eapply restorable_only, restorable_only; [exact O2|exact O1|]. apply Hready; [done|lia]. }
  erewrite M_bind_Ret by exact E3. case_bool_decide; by eexists _, _.
Qed.

(** The whole handler returns. *)
Lemma restore_returns fd fuel hai path s :
  begin_gives -> regular_given fd ->
  (o_dry_run ct_opt = false -> 0 <= fd -> restorable ct_opt path_prefix fuel fd hai path s) ->
  exists s' rc, ct_restore ct_opt path_prefix fuel hai (Some path) s = Ret (s', rc).
Proof.
  intros Hb regular Hready. unfold ct_restore.
  destruct (does_ask any_act _ (mdt_index_apart (o_mnt_fd ct_opt) (hai_fid hai)) s) as (s1 & [rc0 idx] & E1 & O1).
  erewrite M_bind_Ret by exact E1. cbv beta iota zeta. case_bool_decide; [by eexists _, _|].
  unfold ct_begin_restore. destruct (does_begin None hai idx 0 false s1) as (s2 & [rc1 hcp] & E2 & O2).
  erewrite M_bind_Ret by exact E2. cbv beta iota zeta.
  assert (exists s3 rc fd' flags, (if bool_decide (rc1 < 0) then mret (rc1, -1, 0)
      else restore_file ct_opt path_prefix fuel hcp hai (Some path)) s2 = Ret (s3, (rc, fd', flags)))
    as (s3 & rc & fd' & flags & E3).
  { case_bool_decide; [by eexists _, _, _, _|].
    destruct (restore_file_returns fd fuel hcp hai path s2 regular) as (s3 & [[rc fd'] fl] & E).
    - intros. eapply restorable_only, restorable_only; [exact O2|exact O1|]. by apply Hready.
    - by exists s3, rc, fd', fl. }
  erewrite M_bind_Ret by exact E3. cbv beta iota zeta.
  assert (exists s4, close_fd fd' s3 = Ret (s4, tt)) as (s4 & E4)
    by (unfold close_fd; destruct (bool_decide (fd' < 0)); by eexists).
  erewrite M_bind_Ret by exact E4.
  destruct (does_action_done hcp hai flags rc Hb s4) as (s5 & rcd & E5 & _).
  erewrite M_bind_Ret by exact E5. by eexists _, _.
Qed.

(** C32. A restore action returns and is reported. Whatever libs3, Lustre and the file do, a
    run of [ct_restore] that returns either failed to find the file's MDT (nothing is then
    sent to the coordinator, and the result is negative) or has ended with exactly one
    completed report, or the seven failed attempts at it: with the action's own result,
    with the retry flag only for [-ETIMEDOUT], and with [err_major] counted at most once,
    for an error. And it does return, in a dry run or when the action is [restorable]: the
    whole file is asked for (another extent below the prefix runs into an assertion), the
    path fits its buffers, and the volatile file is regular, open and empty; the object
    may be missing, and any request may fail. *)
Theorem ct_restore_reports fuel hai path s :
  (forall s' rc, ct_restore ct_opt path_prefix fuel hai path s = Ret (s', rc) ->
     (trace s' = trace s /\ rc < 0)
     \/ exists flags ct_rc, reported flags ct_rc rc s s'
         /\ (flags = 0 \/ (ct_rc = - ETIMEDOUT /\ flags = HP_FLAG_RETRY))
         /\ (err_major s' = err_major s \/ (ct_rc < 0 /\ err_major s' = i32 (err_major s + 1))))
  /\ (forall fd p, begin_gives -> regular_given fd -> path = Some p ->
      (o_dry_run ct_opt = false -> 0 <= fd -> restorable ct_opt path_prefix fuel fd hai p s) ->
      exists s' rc, ct_restore ct_opt path_prefix fuel hai path s = Ret (s', rc)).
Proof.
  split; [intros s' rc; apply restore_reports|].
  intros fd p Hb Hreg -> Hready. by eapply restore_returns.
Qed.
End Restores.

Section Items.
Context {ST : S3Statuses} {LAWS : S3StatusLaws ST} {W : Type} {L : LibS3 W}
  {LO : LibS3Objects W ST L} {LM : LibS3Multipart W ST L} {LL : Llapi W} {OS : Os W}
  {LC : LustreCodes} {ISO : Isolated W}.
Context (ct_opt : ct_options) (path_prefix : string).

(** The action's file has descriptor [fd] and status [st], and if it is large, no allocation
    fails. *)
Record file_given (fd : Z) (st : stat) : Prop := {
  fg_fd hcp w : (llapi_hsm_action_get_fd hcp w).2 = fd;
  fg_stat w : (fstat fd w).2 = inr st;
  fg_malloc : MAX_OBJ_SIZE_LEVEL <= st_size st -> forall n w, (malloc n w).2 = true;
  fg_small : MAX_OBJ_SIZE_LEVEL <= st_size st -> forall w, false ∉ (small_mallocs w).2
}.

(** What the action of an item on the file at [path] needs in order to return. *)
Definition ready (fd : Z) (st : stat) (fuel : nat) (hai : hsm_action_item) (path : string) (s : pst W) : Prop :=
  (hai_action hai = HSMA_ARCHIVE -> o_dry_run ct_opt = false -> archivable ct_opt path_prefix fd st hai path s)
  /\ (hai_action hai = HSMA_RESTORE -> st_isreg st = true
      /\ (o_dry_run ct_opt = false -> 0 <= fd -> restorable ct_opt path_prefix fuel fd hai path s)).

Lemma dispatch_returns fd st fuel hai path s :
  begin_gives -> file_given fd st -> ready fd st fuel hai path s ->
  hai_action hai = HSMA_ARCHIVE \/ hai_action hai = HSMA_RESTORE ->
  exists s' rc, dispatch ct_opt path_prefix fuel hai (Some path) s = Ret (s', rc).
Proof.
  intros Hb G [Ha Hr] Hact. unfold dispatch. case_bool_decide.
  - destruct G. apply (archive_returns ct_opt path_prefix fd st); auto.
  - rewrite bool_decide_eq_true_2 by naive_solver. destruct Hr as [Hreg Hready]; [naive_solver|].
    apply (restore_returns ct_opt path_prefix fd); [done| |done].
    split; [apply G|]. intros w. exists st. split; [apply G|done].
Qed.

(** C6. Every item of the coordinator is reported, once. A run of [ct_process_item] that
    returns has answered an action it does not know (removal and cancellation included)
    with one report of [EINVAL] and the result 0; or has sent nothing and returned an error
    (the file's path or MDT was not found); or has ended with exactly one completed report
    of the action's result, or the seven failed attempts at it. And it does return, when an
    action other than archive and restore is asked for, or when paths are looked up (the
    verbosity is at least INFO, or it is a dry run) and the item is [ready] at the path that
    Lustre gives, if it gives one: the path fits its buffers, the extent is valid, and for
    a restore it is the whole file. *)
Theorem ct_process_item_reports fuel hai s :
  (forall s' rc, ct_process_item ct_opt path_prefix fuel hai s = Ret (s', rc) ->
     item_reported hai s s' rc)
  /\ (forall fd st, begin_gives -> file_given fd st ->
      (hai_action hai <> HSMA_ARCHIVE /\ hai_action hai <> HSMA_RESTORE)
      \/ ((LLAPI_MSG_INFO <= o_verbose ct_opt \/ o_dry_run ct_opt = true)
          /\ forall rc path, (llapi_fid2path (o_mnt ct_opt) (hai_fid hai) (env s)).2 = (rc, path) ->
               0 <= rc -> ready fd st fuel hai path s) ->
      exists s' rc, ct_process_item ct_opt path_prefix fuel hai s = Ret (s', rc)).
Proof.
  split; [intros s' rc; apply process_item_reports|].
  intros fd st Hb G Hcase. unfold ct_process_item.
  destruct (bool_decide (hai_action hai <> HSMA_ARCHIVE) && bool_decide (hai_action hai <> HSMA_RESTORE)) eqn:Eact.
  { destruct (does_action_done None hai 0 (- EINVAL) Hb s) as (s1 & r & E & _).
    erewrite M_bind_Ret by exact E. by eexists _, _. }
  assert (hai_action hai = HSMA_ARCHIVE \/ hai_action hai = HSMA_RESTORE) as Hact.
  { destruct (decide (hai_action hai = HSMA_ARCHIVE)); [by left|].
    destruct (decide (hai_action hai = HSMA_RESTORE)); [by right|].
    by rewrite !bool_decide_eq_true_2 in Eact by done. }
  destruct Hcase as [[]|[Hlook Hready]]; [by destruct Hact|].
  assert (bool_decide (o_verbose ct_opt >= LLAPI_MSG_INFO) || o_dry_run ct_opt = true) as ->
    by (destruct Hlook as [?| ->]; [rewrite bool_decide_eq_true_2 by lia; done|by rewrite orb_true_r]).
  destruct (does_ask any_act _ (fid2path_apart (o_mnt ct_opt) (hai_fid hai)) s) as (s1 & [rc p] & E & O).
  clear Eact. erewrite M_bind_Ret by exact E.
  pose proof (ask_only any_act _ _ _ _ (fid2path_apart _ _) E) as [_ Hp]. cbv beta iota zeta.
  case_bool_decide; [by eexists _, _|]. apply (dispatch_returns fd st); [done|done| |done].
  destruct (Hready rc p (eq_sym Hp) ltac:(lia)) as [Ha Hr]. split.
  - intros. eapply archivable_only; [exact O|auto].
  - intros Hrs. destruct (Hr Hrs). split; [done|]. intros. eapply restorable_only; [exact O|auto].
Qed.
End Items.

Import Server Witnesses.

(** The object is not there: three requests, and the failure is reported. *)
Definition missing_start : pst world := start "" ∅ [] [].

Lemma ct_restore_reports_witness :
  exists s' rc, ct_restore options "/mnt/fs" 10 (item 21) (Some "file") missing_start = Ret (s', rc)
    /\ rc = - EIO
    /\ exists flags ct_rc, reported flags ct_rc rc missing_start s'.
Proof.
  destruct (ct_restore_reports (W := world) options "/mnt/fs" 10 (item 21) (Some "file") missing_start)
    as [Hrep Hret].
  destruct (Hret 3 "file" server_begin_gives) as (s' & rc & E); [by split; [|apply regular_file]|done| |].
  { intros _ _. exists "/mnt/fs/file", (Some "file"). split_and!; [done|done|]. intros key [= <-].
    split_and!; [done|done|done|done|by exists []]. }
  exists s', rc. split; [exact E|]. assert (rc = - EIO) as ->.
  { vm_compute in E. by injection E. }
  split; [done|]. destruct (Hrep s' (- EIO) E) as [[Ht _]|(fl & ct_rc & Hr & _)]; [|by exists fl, ct_rc].
  vm_compute in E. by injection E as <-.
Defined.

Lemma ct_process_item_reports_witness :
  exists s' rc, ct_process_item options "/mnt/fs" 10 (item 20) failing_start = Ret (s', rc)
    /\ rc = - EIO /\ item_reported (item 20) failing_start s' rc.
Proof.
  destruct (ct_process_item_reports (W := world) options "/mnt/fs" 10 (item 20) failing_start) as [Hrep Hret].
  destruct (Hret 3 (mk_stat true 5) server_begin_gives) as (s' & rc & E); [by split| |].
  { right. split; [by left|]. intros rc path [= <- <-] _. split; [|done]. intros _ _.
    split_and!; [by eexists _, _|by eexists|done..]. }
  exists s', rc. split; [exact E|]. split; [|by apply Hrep].
  vm_compute in E. by injection E.
Defined.

End Reports.
